(* ===== verification/_CoqProject ===== *)
-Q . S2P
Prelude.v
DList.v
Util.v
Bitops.v
ArchBitops.v
Pmm.v
Heap.v
Ff.v
Flff.v
Vmm.v
Bootstrap.v
FfProps.v
Scenario.v
Slab.v
SlabProps.v
AddrSpace.v
Mmu.v
Pgtable.v
PgWalk.v
PgtableProps.v
Pgtable64.v
Pgtable64Props.v
Uvm.v
Printf.v
Libc.v
Devlist.v
DevlistProps.v
Sync.v
SyncProps.v
Atomic.v
Io.v
Uart.v
UartProps.v
Sd.v
SdProps.v
SdProtocol.v
Boot.v
BootProps.v
AtaProps.v
ArmMm.v
MemInit.v
KernInit.v
Segment.v
SegmentProps.v
Traps.v
TrapsProps.v
Irq.v
Probe.v
ProbeProps.v
SelfTest.v
EarlyInit.v
EarlyProps.v
