(* ===== verification/Prelude.v ===== *)
(** * AIMv6: a verification library

    AIMv6 is a teaching operating system in C for i386, MIPS and ARM. This
    library is a shallow embedding of its memory management, its device
    layer, its synchronisation primitives, its small C library, its serial, SD and
    disk drivers, its traps, its firmware and boot loaders and the way from the
    loader to the kernel's high addresses, with the theorems that make
    them correct. Every definition is a translation of the C function it is
    named after and can be run.

    ** How the C code is represented

    - The target has 32-bit pointers (64-bit ones in Pgtable64.v and for Loongson in
      Probe.v); addr_t is 64 bits wide. Integers are
      [Z], and every operation that can wrap is written with [wrap w] ([u8],
      [u16], [u32], [u64]).
    - Code that can fail is a function [S → outcome (A * S)], the monad [M S A] of
      Prelude.v. [Ret] is a return, [Panic] is panic() or its endless loop,
      [Stuck] is undefined behaviour (a load from a place never written, a call of a
      NULL pointer) and [NoFuel] means that a loop was given too small
      a bound. Theorems about results say that the code returns; no theorem is of the
      form "if it returns".
    - Kernel memory ([mem], Prelude.v) maps a field name and an address to a
      value, so that a struct is the set of its fields at one address and a
      list node inside a struct is a field at an offset. Static variables are
      cells at small addresses; the dispatch tables of the allocators and of
      the device index are cells too, and the functions they point to are codes
      resolved by parameters. A static list head is a parameter.
    - [struct pages *] is passed by value and returned (value-result).
    - Loops over lists are bounded by the number of cells of memory, which is
      always enough because the nodes of a list are distinct cells
      ([DList.dlist_size]). Loops with a known bound use it (a sector loop
      the length, a search the number of entries). Waiting loops on a device register take their
      bound as the parameter [PATIENCE], and the theorems assume of the device
      that it is ready within that many reads.
    - The libc routines and the loaders work on bytes ([Libc.bmem]).
    - Devices ([Io.hardware]) are a parameter: what a read returns and what an
      access does is up to them. Every access is logged, so that a driver's
      behaviour is the sequence of its accesses. What a driver relies on is a class
      whose laws state the device's documented behaviour, and every such class
      has a concrete instance.
    - The MMU (EarlyInit.v) stands between the kernel's accesses and the device: the
      [board] keeps the page table in memory, walks it once the MMU is on, and
      logs the accesses that reach the device at their physical addresses. An access
      without a translation reaches nothing.
    - A pointer to a bus is a name, in the low as in the high half of the address
      space; addresses of functions are numbers, and what runs at one is a
      table.
    - Inline assembly of the locks is a list of instructions of a small machine
      (Sync.v), run by any number of processors under sequential consistency
      with an exclusive monitor per processor.

    ** Files, and the sources they model

    - Prelude.v: integers, the monad, kernel memory; sys/types.h, panic.h.
    - DList.v: include/list.h. A [dlist] predicate describes a well-formed
      list; every operation is specified against it.
    - Util.v, Bitops.v: include/util.h, include/bitops.h. ArchBitops.v: the bit searches of
      include/arch/*/arch-bitops.h.
    - Pmm.v: include/pmm.h, kern/mm/pmm/pmm.c. Ff.v, FfProps.v:
      kern/mm/pmm/ff.c, the first-fit page allocator.
    - Heap.v: the contract [HeapSpec] between kmalloc()/kfree() and their
      clients. Flff.v: kern/mm/vmm/flff.c. Vmm.v: kern/mm/vmm/vmm.c.
      Bootstrap.v: the bootstrap heap keeps [HeapSpec].
    - Scenario.v: a concrete boot of both allocators.
    - Slab.v, SlabProps.v: kern/mm/vmm/slab.c.
    - AddrSpace.v: the address conversions of the three architectures.
    - Mmu.v: kern/mm/mmu.c. The class [HasMmu] says that a larger state holds its
      variables, so that its loops run on the state of the whole kernel.
    - Pgtable.v: the MIPS32 and i386 page tables (kern/arch/mips/pgtable.c,
      kern/arch/i386/pgtable.c and kern/arch/i386/mm.c). Pgtable64.v: the four
      levels of 64-bit MIPS. PgWalk.v: mapping and unmapping proved once against
      the classes [PageSource] (where tables come from) and [TableWalk] (how an
      architecture walks); PgtableProps.v and Pgtable64Props.v are its instances.
      Uvm.v: kern/mm/uvm.c.
    - ArmMm.v: kern/arch/armv7a/mm.c, the page tables of ARM. Its mapping routines print,
      and run on any state with a memory and a console (class [MemConsole]).
    - Segment.v, SegmentProps.v: include/arch/i386/segment.h, the descriptor
      tables of kern/arch/i386/arch_init.c and trap.c with what the processor
      makes of them. Traps.v, TrapsProps.v: kern/arch/*/trap.c, the handlers and
      the return, against the class [Printer] of which the console is an
      instance.
    - Probe.v, ProbeProps.v: the memory of the machines (kern/arch/i386/arch_init.c
      and mm.c, kern/arch/mips/mach-*/memory.c) and the TLB flush of
      kern/arch/mips/mm.c.
    - EarlyInit.v, EarlyProps.v: kern/init/early_init.c, the early initialisation of
      the architectures and the entry of master_init(). The class
      [early_platform] has the operations an architecture provides; ARM on a
      Zynq, MSIM and i386 are instances.
    - MemInit.v: the memory bring-up of master_init() in kern/init/init.c. [wired] ties
      kmalloc() and the page allocator together, each calling the other
      through the registered function pointers; its argument bounds how deep the calls
      nest, and two levels are enough (kmalloc() asks for a page).
    - SelfTest.v: mm_test() of kern/mm/uvm.c and the cache test of master_init(), run on
      these allocators. KernInit.v: kern/init/initcalls.c.
    - Printf.v: lib/libc/snprintf.c. Libc.v: memcpy(), memset(), strcmp().
    - Devlist.v, DevlistProps.v: kern/dev/index.
    - Sync.v, SyncProps.v: kern/arch/*/sync.c. Atomic.v: include/arch/*/atomic.h. Irq.v:
      include/arch/mips/irq.h and the mailboxes of mach-msim/mach-smp.h.
    - Io.v: include/arch/*/io.h, the port instructions of asm.h, drivers/io.
    - Uart.v, UartProps.v: drivers/serial, kern/dev/console.c,
      kern/debug/panic.c. The class [ConsoleDriver] is what the console asks
      of a driver; the three drivers are its instances.
    - Sd.v, SdProps.v, SdProtocol.v: drivers/timer/timer-a9.c,
      drivers/sd/sd-zynq.c and the sleep loops of the ARM firmware.
    - Boot.v, BootProps.v, AtaProps.v: drivers/block/msim-ddisk.c, the two
      firmwares, the three boot loaders. [SectorReader] is what readdisk() asks of a
      disk driver (the MSIM disk is an instance), [DiskReader] what a boot
      loader asks of the firmware (readdisk() is an instance).

    ** What the theorems show

    - Page allocator: over every interleaving of a client's requests, whatever their
      sizes, and frees the ranges handed out never overlap; each operation refines a set of
      free bytes; a round trip restores the list. A request that is misaligned or
      larger than the free space is answered with the success code (a flaw of the
      code); it hands out nothing.
    - Heap: kmalloc() and kfree() on the bootstrap pool keep the contract the
      page allocator and the device index are proved against, for sizes from 1 to
      2^32 - 48; beyond them the rounding of the size wraps (a flaw).
    - Bring-up: the four steps of master_init() from the pool on the stack to the proper
      heap always succeed and leave nothing on the stack, for memory that is one
      page-aligned range of more than one page, as on ARM. The self-tests pass on MIPS.
    - Address spaces: a failure of create_uvm() after its first page is not undone (a flaw).
    - Locks: mutual exclusion for the three spinlocks, the counting bound of
      the ARM semaphore, progress, and no lost update of an atomic counter by the
      functions that have a body; for any number of processors. The updates of atomic_add() and
      atomic_sub() of i386 and MIPS, which are empty, are lost.
    - Bit searches: those written with processor instructions agree with the
      portable ones.
    - Device index: insertion keeps it sorted, removal is refused for a bus in
      use, lookups find the oldest match.
    - Page tables: map_pages() of 32-bit and 64-bit MIPS maps exactly the range and refuses a
      conflict without changing a translation; unmap_pages() unmaps only its
      first page and lack of memory is undefined behaviour (flaws). Early mappings stay
      contiguous and below the next region; handlers run once each in order.
    - Early boot: on ARM the kernel gets from the loader to its high addresses
      with memory and the UART mapped, and every message, the line for
      every section of the page table included, reaches the UART
      although the driver changes its address in between. The i386 and MSIM
      boots are run on a concrete machine.
    - Memory: the pages the i386 kernel gives its allocator are those the BIOS map
      allows, for entries that leave at least one page and less than 4 GB; the linear mapping
      of an entry below 2 GB stays below KMMAP_BASE and lacks at most the last 4 MB
      of the entry; the TLB flush leaves no duplicates.
    - Traps: descriptors decode to what they were built from, and every interrupt enters its own
      vector with the right privilege; a trap on ARM resumes what it interrupted but
      for bits 8 to 23 of the status register (a flaw).
    - Formatting: vsnprintf() never writes past the buffer and terminates it;
      numbers read back. memcpy() equals a byte copy; strcmp() is the
      lexicographic order.
    - Drivers: what goes over the wire for a character, for a kprintf(), for
      a card's bring-up and for a block transfer; reading the split 64-bit timer; sleeping
      long enough.
    - Booting: readdisk() and readseg() move exactly the bytes asked for, and
      the loader puts every segment of the kernel in its place.

    ** Not modelled

    - Assembly sources and linker scripts (entry.S, vector.S, tlbex.S, *.lds.S);
      constants of register headers that no C code uses.
    - master_init() as one run: its memory parts, the traps, the initcalls and the
      architectures' parts are definitions on states of their own. The bring-up theorem
      is about one range of memory, as on ARM; MIPS and i386 with several objects on the
      bootstrap heap are run on concrete machines (SelfTest.v).
    - The messages that the memory bring-up, the self-tests, the slab allocator and the
      device index print on their way: these run on memory alone. Where a
      theorem speaks of the console (Uart.v, Traps.v, EarlyInit.v with ArmMm.v) every
      kprintf() and kputs() of the code is there.
    - 64-bit long: vsnprintf() and memcpy() are those of the 32-bit targets (8 digits for %p,
      words of four bytes, which must be aligned).
    - The value of the C variable ret of the ARM locks when STREX is skipped: it is assumed
      to stay (Sync.v).
    - Address space identifiers and global bits of the MIPS TLB: two entries clash by
      their page pair alone, which is stricter than the processor.
    - local_irq_restore() of MIPS revision 1, which does not assemble.
    - drivers/ata/sata_ide.c (does not compile) and drivers/pci (only
      constants, nothing uses them).
    - kern/proc, include/proc.h, include/sched.h, include/file.h: declarations
      of parts that do not exist yet.
    - Caches, memory barriers and weak memory order: the lock proofs hold for
      a sequentially consistent machine. *)
From Stdlib Require Import ZArith Lia.
From stdpp Require Import base numbers countable gmap list.

Open Scope Z_scope.

(** * Machine integers *)

(** [wrap w x] is the value of [x] in a [w]-bit unsigned integer. *)
Definition wrap (w x : Z) : Z := x mod 2 ^ w.
Abbreviation u8 := (wrap 8).
Abbreviation u16 := (wrap 16).
Abbreviation u32 := (wrap 32).
Abbreviation u64 := (wrap 64).

Definition in_range (w x : Z) : Prop := 0 ≤ x < 2 ^ w.

Lemma wrap_small w x : in_range w x → wrap w x = x.
Proof. intros Hx. unfold wrap. by apply Z.mod_small. Qed.

Lemma wrap_range w x : 0 ≤ w → in_range w (wrap w x).
Proof. intros Hw. unfold in_range, wrap. apply Z.mod_pos_bound. lia. Qed.

Lemma wrap_wrap w x : wrap w (wrap w x) = wrap w x.
Proof. unfold wrap. apply Zmod_mod. Qed.

(** Differences and sums that leave the range by less than once around. *)
Lemma wrap_minus w x y : 0 ≤ w → 0 ≤ x - y < 2 ^ w → wrap w (x - 2 ^ w - y) = x - y.
Proof.
  intros Hw Hx. unfold wrap. replace (x - 2 ^ w - y) with (x - y + -1 * 2 ^ w) by lia.
  rewrite Z_mod_plus_full. by apply Z.mod_small.
Qed.

Lemma wrap_over w x : 0 ≤ w → 2 ^ w ≤ x < 2 ^ w + 2 ^ w → wrap w x = x - 2 ^ w.
Proof.
  intros Hw Hx. unfold wrap. replace x with (x - 2 ^ w + 1 * 2 ^ w) by lia.
  rewrite Z_mod_plus_full, Z.mod_small; lia.
Qed.

Lemma lor_add_low h l k : 0 ≤ k → 0 ≤ l < 2 ^ k → Z.lor (h * 2 ^ k) l = h * 2 ^ k + l.
Proof.
  intros Hk Hl.
  assert (Z.land (h * 2 ^ k) l = 0) as E.
  { apply Z.bits_inj'. intros i Hi. rewrite Z.land_spec, Z.bits_0.
    destruct (decide (i < k)).
    - rewrite Z.mul_pow2_bits_low by lia. done.
    - rewrite <-(Z.mod_small l (2 ^ k)) by lia.
      rewrite Z.mod_pow2_bits_high by lia. apply andb_false_r. }
  rewrite <-Z.lxor_lor, Z.add_nocarry_lxor by done. done.
Qed.

(** Masking the low [k] bits of a [n + k]-bit integer away rounds it down. *)
Lemma land_high_ones n k e :
  0 ≤ n → 0 ≤ k → 0 ≤ e < 2 ^ (n + k) → Z.land e (Z.shiftl (Z.ones n) k) = e / 2 ^ k * 2 ^ k.
Proof.
  intros Hn Hk He. apply Z.bits_inj'. intros i Hi. rewrite Z.land_spec.
  destruct (decide (i < k)).
  - rewrite Z.shiftl_spec_low, andb_false_r, Z.mul_pow2_bits_low by lia. done.
  - rewrite Z.shiftl_spec, Z.mul_pow2_bits, Z.div_pow2_bits by lia.
    replace (i - k + k) with i by lia. destruct (decide (i < n + k)).
    + rewrite Z.ones_spec_low by lia. apply andb_true_r.
    + rewrite Z.ones_spec_high, andb_false_r by lia. symmetry.
      rewrite Z.testbit_false by lia. rewrite Z.div_small; [done|].
      split; [lia|]. eapply Z.lt_le_trans; [apply He|]. apply Z.pow_le_mono_r; lia.
Qed.

(** Constants every file uses: NULL and EOF of include/sys/types.h. *)
Definition NULL : Z := 0.
Definition EOF : Z := -1.

(** * Outcomes and the state monad

    A C function is a computation that returns a value and a new state, or ends
    in [Panic] (a call of panic()), in [Stuck] (undefined behaviour: a load
    of a cell no one ever wrote, a call through a NULL function pointer), or in
    [NoFuel] (a loop that ran past every possible iteration count). *)
Inductive outcome (A : Type) : Type :=
  | Ret (a : A)
  | Panic
  | Stuck
  | NoFuel.
Arguments Ret {A} a.
Arguments Panic {A}.
Arguments Stuck {A}.
Arguments NoFuel {A}.

Definition M (S A : Type) : Type := S → outcome (A * S).

#[global] Instance M_ret S : MRet (M S) := λ A a s, Ret (a, s).
#[global] Instance M_bind S : MBind (M S) := λ A B k c s,
  match c s with
  | Ret (a, s') => k a s'
  | Panic => Panic
  | Stuck => Stuck
  | NoFuel => NoFuel
  end.

Definition panic {S A} : M S A := λ _, Panic.
Definition stuck {S A} : M S A := λ _, Stuck.
Definition nofuel {S A} : M S A := λ _, NoFuel.

(** assert(condition) of include/panic.h. *)
Definition assert {S} (b : bool) : M S unit := if b then mret () else panic.

(** [wp c s Q]: from state [s] the computation [c] returns, and [Q] holds of
    its value and final state. Total correctness: no panic, no undefined
    behaviour, no exhausted loop. *)
Definition wp {S A} (c : M S A) (s : S) (Q : A → S → Prop) : Prop :=
  match c s with
  | Ret (a, s') => Q a s'
  | _ => False
  end.

Section wp.
Context {S : Type}.

Lemma wp_ret {A} (a : A) (s : S) Q : Q a s → wp (mret a) s Q.
Proof. done. Qed.

Lemma wp_bind {A B} (c : M S A) (k : A → M S B) s Q :
  wp c s (λ a s', wp (k a) s' Q) → wp (c ≫= k) s Q.
Proof. unfold wp, mbind, M_bind. by destruct (c s) as [[a s']| | |]. Qed.

Lemma wp_mono {A} (c : M S A) s (P Q : A → S → Prop) :
  wp c s P → (∀ a s', P a s' → Q a s') → wp c s Q.
Proof. unfold wp. destruct (c s) as [[a s']| | |]; auto. Qed.

Lemma wp_eq {A} (c : M S A) s a s' Q : c s = Ret (a, s') → Q a s' → wp c s Q.
Proof. unfold wp. by intros ->. Qed.

Lemma wp_elim {A} (c : M S A) s Q :
  wp c s Q → ∃ a s', c s = Ret (a, s') ∧ Q a s'.
Proof. unfold wp. destruct (c s) as [[a s']| | |]; naive_solver. Qed.

Lemma bind_assoc {A B C} (c : M S A) (f : A → M S B) (g : B → M S C) s :
  ((c ≫= f) ≫= g) s = (c ≫= (λ a, f a ≫= g)) s.
Proof. unfold mbind, M_bind. by destruct (c s) as [[a s']| | |]. Qed.

Lemma bind_ret {A B} (c : M S A) (k : A → M S B) s a s' :
  c s = Ret (a, s') → (c ≫= k) s = k a s'.
Proof. unfold mbind, M_bind. by intros ->. Qed.

Lemma bind_ret_inv {A B} (c : M S A) (k : A → M S B) s b s' :
  (c ≫= k) s = Ret (b, s') → ∃ a s1, c s = Ret (a, s1) ∧ k a s1 = Ret (b, s').
Proof. unfold mbind, M_bind. destruct (c s) as [[a s1]| | |]; [|done..]. by exists a, s1. Qed.

Lemma bind_stuck {A B} (c : M S A) (k : A → M S B) s :
  c s = Stuck → (c ≫= k) s = Stuck.
Proof. unfold mbind, M_bind. by intros ->. Qed.

Lemma bind_panic {A B} (c : M S A) (k : A → M S B) s :
  c s = Panic → (c ≫= k) s = Panic.
Proof. unfold mbind, M_bind. by intros ->. Qed.
End wp.

(** ** Computations on one part of a pair of states *)

Definition on_fst {S T A} (c : M S A) : M (S * T) A := λ st,
  match c (fst st) with
  | Ret (a, s) => Ret (a, (s, snd st))
  | Panic => Panic
  | Stuck => Stuck
  | NoFuel => NoFuel
  end.
Definition on_snd {S T A} (c : M T A) : M (S * T) A := λ st,
  match c (snd st) with
  | Ret (a, t) => Ret (a, (fst st, t))
  | Panic => Panic
  | Stuck => Stuck
  | NoFuel => NoFuel
  end.

Lemma on_fst_ret {S T A} (c : M S A) s (t : T) a s' : c s = Ret (a, s') → on_fst c (s, t) = Ret (a, (s', t)).
Proof. unfold on_fst. simpl. by intros ->. Qed.

Lemma on_snd_ret {S T A} (c : M T A) (s : S) t a t' : c t = Ret (a, t') → on_snd c (s, t) = Ret (a, (s, t')).
Proof. unfold on_snd. simpl. by intros ->. Qed.

Lemma on_fst_panic {S T A} (c : M S A) s (t : T) : c s = Panic → on_fst c (s, t) = Panic.
Proof. unfold on_fst. simpl. by intros ->. Qed.

(** * Kernel memory

    Memory is split by field name: the cell [(f, p)] is the field [f] of
    the object at address [p], so that p->f is [load f p]. Two fields of one
    name overlap only when the objects have the same address. *)
Inductive fld : Type :=
  (* struct list_head *)
  | F_next | F_prev
  (* struct pages and struct block (kern/mm/pmm) *)
  | F_paddr | F_size | F_flags | F_refs
  (* struct blockhdr (kern/mm/vmm/flff.c) *)
  | F_bh_size | F_bh_free | F_bh_flags
  (* struct slab_head, struct slab (kern/mm/vmm/slab.c) *)
  | F_slab_size | F_vaddr | F_used
  (* struct allocator_cache (include/vmm.h) *)
  | F_c_lock | F_c_head | F_c_size | F_c_align | F_c_flags
  | F_c_create_obj | F_c_destroy_obj
  (* struct vma, struct mm (include/mm.h) *)
  | F_start | F_vm_size | F_vm_flags | F_pages
  | F_vma_count | F_ref_count | F_pgindex
  (* struct device_entry, struct device *)
  | F_dev | F_name | F_id_major | F_id_minor | F_bus
  (* page table words *)
  | F_pte
  (* static variables, one cell each, at address 0 *)
  | G_free_space
  (* registered function tables: struct page_allocator, simple_allocator,
     caching_allocator, device_index, one cell per function pointer *)
  | G_page_allocator | G_simple_allocator | G_caching_allocator | G_device_index.

#[global] Instance fld_eq_dec : EqDecision fld.
Proof. solve_decision. Defined.

Definition fld_all : list fld :=
  [F_next; F_prev; F_paddr; F_size; F_flags; F_refs;
   F_bh_size; F_bh_free; F_bh_flags; F_slab_size; F_vaddr; F_used;
   F_c_lock; F_c_head; F_c_size; F_c_align; F_c_flags;
   F_c_create_obj; F_c_destroy_obj;
   F_start; F_vm_size; F_vm_flags; F_pages;
   F_vma_count; F_ref_count; F_pgindex; F_dev; F_name; F_id_major; F_id_minor; F_bus;
   F_pte; G_free_space;
   G_page_allocator; G_simple_allocator; G_caching_allocator; G_device_index].

#[global] Program Instance fld_finite : finite.Finite fld :=
  {| finite.enum := fld_all |}.
Next Obligation. apply (bool_decide_unpack _). by vm_compute. Qed.
Next Obligation. intros []; apply (bool_decide_unpack _); by vm_compute. Qed.

Definition cell_eq_dec : EqDecision (fld * Z) := _.
Definition cell_countable : Countable (fld * Z) := _.
#[global] Existing Instance cell_eq_dec.
#[global] Existing Instance cell_countable.
Abbreviation mem := (@gmap (fld * Z) cell_eq_dec cell_countable Z).

Definition load (f : fld) (p : Z) : M mem Z := λ m,
  match m !! (f, p) with
  | Some v => Ret (v, m)
  | None => Stuck
  end.

Definition store (f : fld) (p v : Z) : M mem unit := λ m,
  Ret ((), <[(f, p) := v]> m).

(** A loop over nodes that live in memory makes at most as many
    iterations as memory has cells. *)
Definition with_fuel {A} (c : nat → M mem A) : M mem A := λ m, c (size m) m.

Lemma wp_load f (p : Z) (m : mem) v Q :
  m !! (f, p) = Some v → Q v m → wp (load f p) m Q.
Proof. unfold wp, load. by intros ->. Qed.

Lemma wp_store f p v (m : mem) Q : Q () (<[(f, p) := v]> m) → wp (store f p v) m Q.
Proof. done. Qed.

Lemma load_Some f (p : Z) (m : mem) v : m !! (f, p) = Some v → load f p m = Ret (v, m).
Proof. unfold load. by intros ->. Qed.

(** * Proof automation *)

(** Disequality of two cells: the field names differ, or the addresses do. *)
Ltac cell_ne :=
  let H := fresh "H" in
  intros H; first [discriminate H
                  | injection H; clear H; intros; first [congruence | lia]].

(** Reduce lookups of inserts in memories. *)
Ltac mem_simpl :=
  repeat first [ rewrite lookup_insert_eq
               | rewrite lookup_insert_ne by cell_ne ].

(** One step of symbolic execution. *)
Ltac wp_step :=
  lazymatch goal with
  | |- wp (mbind _ _) _ _ => apply wp_bind
  | |- wp (mret _) _ _ => apply wp_ret
  | |- wp (store _ _ _) _ _ => apply wp_store
  | |- wp (load _ _) _ _ =>
      eapply wp_load; [mem_simpl; first [eassumption | reflexivity] | ]
  end.
Ltac wp_run := repeat wp_step.

Create HintDb aim.
Create Rewrite HintDb aim.

(** * Lists *)

Lemma NoDup_app_mid {A} (l1 l2 : list A) x :
  NoDup (l1 ++ x :: l2) ↔ (x ∉ l1 ++ l2) ∧ NoDup (l1 ++ l2).
Proof.
  assert (l1 ++ x :: l2 ≡ₚ x :: l1 ++ l2) as -> by (symmetry; apply Permutation_middle).
  apply NoDup_cons.
Qed.

Lemma snoc_cases {A} (l : list A) : l = [] ∨ ∃ l' x, l = l' ++ [x].
Proof. destruct l as [|x l _] using rev_ind; [by left|right; by eauto]. Qed.

(** The first element satisfying a boolean test, or a default. *)
Definition find_or {A} (f : A → bool) (l : list A) (d : A) : A :=
  default d (List.find f l).

Lemma find_or_split {A} (f : A → bool) l1 x l2 d :
  Forall (λ y, f y = false) l1 → f x = true → find_or f (l1 ++ x :: l2) d = x.
Proof.
  unfold find_or. induction 1 as [|y l1 Hy _ IH]; simpl; intros Hx.
  - by rewrite Hx.
  - rewrite Hy. by apply IH.
Qed.

Lemma find_or_none {A} (f : A → bool) l d :
  Forall (λ y, f y = false) l → find_or f l d = d.
Proof. unfold find_or. induction 1 as [|y l Hy _ IH]; simpl; [done|]. by rewrite Hy. Qed.

(** Split a list at the first element that satisfies a test. *)
Lemma first_split {A} (f : A → bool) (l : list A) :
  Forall (λ y, f y = false) l ∨
  ∃ l1 x l2, l = l1 ++ x :: l2 ∧ Forall (λ y, f y = false) l1 ∧ f x = true.
Proof.
  induction l as [|y l IH]; [by left|].
  destruct (f y) eqn:Hy.
  - right. exists [], y, l. auto.
  - destruct IH as [IH | (l1 & x & l2 & -> & H1 & H2)].
    + left. by constructor.
    + right. exists (y :: l1), x, l2. repeat split; auto.
Qed.

(** Sum of an integer measure over a list. *)
Definition sum_with {A} (f : A → Z) (l : list A) : Z := foldr (λ x s, f x + s) 0 l.

Lemma sum_with_app {A} (f : A → Z) l1 l2 :
  sum_with f (l1 ++ l2) = sum_with f l1 + sum_with f l2.
Proof.
  unfold sum_with. induction l1 as [|x l1 IH]; simpl; [done|]. rewrite IH. lia.
Qed.

Lemma sum_with_cons {A} (f : A → Z) x l : sum_with f (x :: l) = f x + sum_with f l.
Proof. done. Qed.

Lemma sum_with_nonneg {A} (f : A → Z) l :
  Forall (λ x, 0 ≤ f x) l → 0 ≤ sum_with f l.
Proof. induction 1 as [|x l Hx _ IH]; simpl; lia. Qed.

#[export] Hint Rewrite @sum_with_app @sum_with_cons : aim.
