(* ===== verification/DList.v ===== *)
(** include/list.h: the intrusive, circular, doubly linked lists of the kernel. *)
From Stdlib Require Import ZArith Lia.
From stdpp Require Import base numbers gmap list.
From S2P Require Import Prelude.

Open Scope Z_scope.

(** * The operations of include/list.h

    A struct list_head at address [p] is the two cells [(F_next, p)] and
    [(F_prev, p)]. *)

Definition INIT_LIST_HEAD (list : Z) : M mem unit :=
  _ ← store F_next list list;
  store F_prev list list.

Definition __list_add (new prev next : Z) : M mem unit :=
  _ ← store F_prev next new;
  _ ← store F_next new next;
  _ ← store F_prev new prev;
  store F_next prev new.

Definition list_add (new head : Z) : M mem unit :=
  next ← load F_next head;
  __list_add new head next.

Definition list_add_tail (new head : Z) : M mem unit :=
  prev ← load F_prev head;
  __list_add new prev head.

Definition list_add_after (new head : Z) : M mem unit := list_add new head.
Definition list_add_before (new head : Z) : M mem unit := list_add_tail new head.

Definition __list_del (prev next : Z) : M mem unit :=
  _ ← store F_prev next prev;
  store F_next prev next.

Definition list_del (entry : Z) : M mem unit :=
  prev ← load F_prev entry;
  next ← load F_next entry;
  __list_del prev next.

Definition list_del_init (entry : Z) : M mem unit :=
  prev ← load F_prev entry;
  next ← load F_next entry;
  _ ← __list_del prev next;
  INIT_LIST_HEAD entry.

Definition list_is_last (list head : Z) : M mem bool :=
  next ← load F_next list;
  mret (next =? head).

Definition list_empty (head : Z) : M mem bool :=
  next ← load F_next head;
  mret (next =? head).

Definition list_is_singular (head : Z) : M mem bool :=
  e ← list_empty head;
  if (e : bool) then mret false else
  next ← load F_next head;
  prev ← load F_prev head;
  mret (next =? prev).

(** list_entry(ptr, type, member): [off] is offsetof(type, member). *)
Definition list_entry (ptr off : Z) : Z := ptr - off.

Definition list_first_entry (ptr off : Z) : M mem Z :=
  n ← load F_next ptr;
  mret (list_entry n off).

Definition list_next_entry (ptr off : Z) : M mem Z :=
  n ← load F_next (ptr + off);
  mret (list_entry n off).

Definition list_prev_entry (ptr off : Z) : M mem Z :=
  p ← load F_prev (ptr + off);
  mret (list_entry p off).

(** for_each and for_each_entry with a body that may break out of the loop:
    [body pos] returns whether to break. The result is the node the loop
    stopped at, [head] when it ran to the end. [n] bounds the iterations. *)
Fixpoint for_each_from (n : nat) (head pos : Z) (body : Z → M mem bool) : M mem Z :=
  if pos =? head then mret pos else
  match n with
  | O => nofuel
  | S n' =>
      b ← body pos;
      if (b : bool) then mret pos else
      nx ← load F_next pos;
      for_each_from n' head nx body
  end.

(** A list whose nodes are all in memory has fewer nodes than memory has cells. *)
Definition for_each (head : Z) (body : Z → M mem bool) : M mem Z :=
  first ← load F_next head;
  with_fuel (λ n, for_each_from n head first body).

Definition for_each_entry (head off : Z) (body : Z → M mem bool) : M mem Z :=
  n ← for_each head (λ pos, body (list_entry pos off));
  mret (list_entry n off).

(** for_each_entry_safe: the successor is read before the body runs. *)
Fixpoint for_each_safe_from (n : nat) (head pos nx : Z) (body : Z → M mem unit) : M mem unit :=
  if pos =? head then mret () else
  match n with
  | O => nofuel
  | S n' =>
      _ ← body pos;
      nx' ← load F_next nx;
      for_each_safe_from n' head nx nx' body
  end.

Definition for_each_entry_safe (head off : Z) (body : Z → M mem unit) : M mem unit :=
  pos ← load F_next head;
  nx ← load F_next pos;
  with_fuel (λ n, for_each_safe_from n head pos nx (λ pos, body (list_entry pos off))).

(** * Well-formed lists *)

Definition edge (m : mem) (x y : Z) : Prop :=
  m !! (F_next, x) = Some y ∧ m !! (F_prev, y) = Some x.

Fixpoint links (m : mem) (l : list Z) : Prop :=
  match l with
  | x :: ((y :: _) as l') => edge m x y ∧ links m l'
  | _ => True
  end.

(** [dlist m h l]: the circular list with sentry [h] holds the nodes [l]. *)
Definition dlist (m : mem) (h : Z) (l : list Z) : Prop :=
  links m (h :: l ++ [h]) ∧ NoDup (h :: l).

Lemma links_app m l1 x l2 :
  links m (l1 ++ x :: l2) ↔ links m (l1 ++ [x]) ∧ links m (x :: l2).
Proof.
  induction l1 as [|y l1 IH]; simpl; [tauto|].
  destruct l1 as [|z l1]; simpl in *; tauto.
Qed.

Lemma links_frame (m m' : mem) l :
  (∀ x, x ∈ removelast l → m' !! (F_next, x) = m !! (F_next, x)) →
  (∀ x, x ∈ tail l → m' !! (F_prev, x) = m !! (F_prev, x)) →
  links m l → links m' l.
Proof.
  induction l as [|x l IH]; [done|]. intros Hn Hp.
  destruct l as [|y l]; [done|]. intros [[E1 E2] Hl].
  split; [split|].
  - rewrite Hn; [done|]. simpl. set_solver.
  - rewrite Hp; [done|]. simpl. set_solver.
  - apply IH; [| |done].
    + intros z Hz. apply Hn. simpl in *. set_solver.
    + intros z Hz. apply Hp. simpl in *. set_solver.
Qed.

Lemma removelast_snoc {A} (l : list A) x : removelast (l ++ [x]) = l.
Proof. rewrite removelast_app by done. simpl. by rewrite app_nil_r. Qed.

(** The list around one edge: [x] and [y] are neighbours in the circle
    [h :: l ++ [h]]. *)
Lemma links_edge m l1 x y l2 :
  links m (l1 ++ x :: y :: l2) ↔ links m (l1 ++ [x]) ∧ edge m x y ∧ links m (y :: l2).
Proof. rewrite links_app. simpl. tauto. Qed.

(** Circles are described by a cut: [l1 ++ [x]] is a prefix of [h :: l] and
    [y :: l2] a suffix of [l ++ [h]]. *)
Lemma cut_fresh h l l1 (x y : Z) l2 :
  h :: l ++ [h] = l1 ++ x :: y :: l2 → NoDup (h :: l) →
  NoDup (l1 ++ [x]) ∧ NoDup (y :: l2) ∧
  (∀ z, z ∈ tail (l1 ++ [x]) → z ≠ y) ∧
  (∀ z, z ∈ removelast (y :: l2) → z ≠ x).
Proof.
  intros Heq Hnd.
  assert (∃ l2', y :: l2 = l2' ++ [h] ∧ h :: l = l1 ++ x :: l2') as (l2' & E2 & E1).
  { destruct (exists_last (l := y :: l2)) as (l2' & z & E); [done|].
    exists l2'. rewrite E in Heq. rewrite app_comm_cons in Heq.
    replace (l1 ++ x :: l2' ++ [z]) with ((l1 ++ x :: l2') ++ [z]) in Heq
      by by rewrite <-app_assoc.
    apply app_inj_tail in Heq as [-> ->]. done. }
  assert (h :: l ≡ₚ l ++ [h]) as Hp by (apply Permutation_cons_append).
  rewrite E2, removelast_snoc.
  assert (Hnd1 := Hnd). rewrite E1 in Hnd1.
  apply NoDup_app in Hnd1 as (Hd1 & Hd2 & Hd3).
  assert (Hyn : NoDup (l2' ++ [h])).
  { destruct l1 as [|h' l1]; simplify_eq/=.
    - by rewrite Hp in Hnd.
    - rewrite Hp in Hnd. rewrite <-app_assoc in Hnd. apply NoDup_app in Hnd as (_ & _ & Hnd).
      simpl in Hnd. by apply NoDup_cons in Hnd as [_ Hnd]. }
  repeat split.
  - apply NoDup_app. split; [done|]. split; [set_solver|]. apply NoDup_singleton.
  - done.
  - intros z Hz ->. destruct l2' as [|y' l2']; simplify_eq/=.
    + destruct l1 as [|h' l1]; simplify_eq/=; [set_solver|].
      apply NoDup_cons in Hnd as [Hnd _]. set_solver.
    + assert (y' ∈ l1 ++ [x]) as Hz' by (destruct l1; set_solver).
      apply elem_of_app in Hz' as [Hz'|Hz'].
      * apply (Hd2 _ Hz'). set_solver.
      * apply NoDup_cons in Hd3 as [Hd3 _]. set_solver.
  - intros z Hz ->. apply NoDup_cons in Hd3 as [Hd3 _]. done.
Qed.

(** ** Insertion and removal at a cut of the circle *)

Definition add_mem (m : mem) (new x y : Z) : mem :=
  <[(F_next, x) := new]> (<[(F_prev, new) := x]>
    (<[(F_next, new) := y]> (<[(F_prev, y) := new]> m))).

Definition del_mem (m : mem) (x y : Z) : mem :=
  <[(F_next, x) := y]> (<[(F_prev, y) := x]> m).

Lemma __list_add_run new x y m : __list_add new x y m = Ret ((), add_mem m new x y).
Proof. done. Qed.

Lemma __list_del_run x y m : __list_del x y m = Ret ((), del_mem m x y).
Proof. done. Qed.

(** Every list cell a node outside the list does not own is left alone. *)
Lemma add_mem_other m new x y (f : fld) a :
  a ≠ new → (f = F_next → a ≠ x) → (f = F_prev → a ≠ y) →
  add_mem m new x y !! (f, a) = m !! (f, a).
Proof.
  intros Ha Hn Hp. unfold add_mem.
  rewrite !lookup_insert_ne; [done|..]; intros [=]; naive_solver.
Qed.

Lemma del_mem_other m x y (f : fld) a :
  (f = F_next → a ≠ x) → (f = F_prev → a ≠ y) →
  del_mem m x y !! (f, a) = m !! (f, a).
Proof.
  intros Hn Hp. unfold del_mem.
  rewrite !lookup_insert_ne; [done|..]; intros [=]; naive_solver.
Qed.

Lemma links_add m h l l1 x y l2 new :
  h :: l ++ [h] = l1 ++ x :: y :: l2 → dlist m h l → new ∉ h :: l →
  links (add_mem m new x y) (l1 ++ x :: new :: y :: l2).
Proof.
  intros Hcut [Hl Hnd] Hnew.
  destruct (cut_fresh _ _ _ _ _ _ Hcut Hnd) as (Hd1 & Hd2 & Hxy & Hyx).
  assert (Hin : ∀ z, z ∈ l1 ++ x :: y :: l2 → z ≠ new).
  { intros z Hz ->. rewrite <-Hcut in Hz. set_solver. }
  rewrite Hcut in Hl. apply links_edge in Hl as (L1 & _ & L2).
  apply links_edge. split; [|split].
  - apply (links_frame m); [| |done]; intros z Hz; apply add_mem_other; try done.
    + rewrite removelast_snoc in Hz. apply Hin. set_solver.
    + rewrite removelast_snoc in Hz. intros _ ->.
      apply NoDup_app in Hd1 as (_ & Hd1 & _). apply (Hd1 _ Hz). set_solver.
    + apply Hin. assert (z ∈ l1 ++ [x]) by (destruct l1; set_solver). set_solver.
    + intros _. by apply Hxy.
  - assert (x ≠ new) by (apply Hin; set_solver).
    split; unfold add_mem; by mem_simpl.
  - rewrite <-(app_nil_l (new :: y :: l2)). apply links_edge. split; [done|].
    assert (x ≠ new) by (apply Hin; set_solver).
    assert (y ≠ new) by (apply Hin; set_solver).
    split; [split; unfold add_mem; by mem_simpl|].
    apply (links_frame m); [| |done]; intros z Hz; apply add_mem_other; try done.
    + apply Hin. assert (z ∈ y :: l2); [|set_solver].
      clear -Hz. revert y Hz; induction l2 as [|w l2 IH]; simpl; intros y Hz; [set_solver|].
      apply elem_of_cons in Hz as [->|Hz]; [set_solver|]. apply IH in Hz. set_solver.
    + intros _. by apply Hyx.
    + apply Hin. set_solver.
    + intros _ ->. apply NoDup_cons in Hd2 as [Hd2 _]. done.
Qed.

Lemma links_del m h l l1 x e y l2 :
  h :: l ++ [h] = l1 ++ x :: e :: y :: l2 → e ≠ h → dlist m h l →
  links (del_mem m x y) (l1 ++ x :: y :: l2).
Proof.
  intros Hcut He [Hl Hnd].
  destruct (cut_fresh _ _ _ _ _ _ Hcut Hnd) as (Hd1 & Hd2 & Hxe & Hex).
  assert (Hcut' : h :: l ++ [h] = (l1 ++ [x]) ++ e :: y :: l2) by by rewrite <-app_assoc.
  destruct (cut_fresh _ _ _ _ _ _ Hcut' Hnd) as (Hd3 & Hd4 & Hey & Hye).
  rewrite Hcut in Hl. rewrite links_edge in Hl. destruct Hl as (L1 & _ & L2).
  rewrite <-(app_nil_l (e :: y :: l2)) in L2. rewrite links_edge in L2.
  destruct L2 as (_ & _ & L2).
  apply links_edge. split; [|split].
  - apply (links_frame m); [| |done]; intros z Hz; apply del_mem_other; try done.
    + rewrite removelast_snoc in Hz. intros _ ->.
      apply NoDup_app in Hd1 as (_ & Hd1 & _). apply (Hd1 _ Hz). set_solver.
    + intros _. apply Hey. destruct l1; simpl in *; set_solver.
  - split; unfold del_mem; by mem_simpl.
  - apply (links_frame m); [| |done]; intros z Hz; apply del_mem_other; try done.
    + intros _. apply Hex. simpl in *. set_solver.
    + intros _ ->. apply NoDup_cons in Hd4 as [Hd4 _]. done.
Qed.

(** ** Specifications for clients *)

Lemma dlist_nil_inv m h : dlist m h [] → m !! (F_next, h) = Some h ∧ m !! (F_prev, h) = Some h.
Proof. intros [[[? ?] _] _]. done. Qed.

Lemma dlist_not_head m h l x : dlist m h l → x ∈ l → x ≠ h.
Proof. intros [_ Hnd] Hx ->. apply NoDup_cons in Hnd as [Hnd _]. done. Qed.

Lemma dlist_NoDup m h l : dlist m h l → NoDup l.
Proof. intros [_ Hnd]. by apply NoDup_cons in Hnd as [_ ?]. Qed.

(** The neighbours of the point between [l1] and [l2]. *)
Lemma dlist_edge m h l1 l2 :
  dlist m h (l1 ++ l2) → edge m (List.last l1 h) (hd h l2).
Proof.
  intros [Hl _].
  assert (∃ l1' l2', h :: (l1 ++ l2) ++ [h] = l1' ++ List.last l1 h :: hd h l2 :: l2')
    as (l1' & l2' & E).
  { destruct l1 as [|z l1 _] using rev_ind.
    - exists []. destruct l2 as [|y l2]; eexists; done.
    - rewrite List.last_last. exists (h :: l1).
      destruct l2 as [|y l2]; eexists; simpl; by rewrite <-?app_assoc. }
  rewrite E in Hl. apply links_edge in Hl. tauto.
Qed.

Lemma dlist_frame m m' h l :
  (∀ x, x ∈ h :: l → m' !! (F_next, x) = m !! (F_next, x)) →
  (∀ x, x ∈ h :: l → m' !! (F_prev, x) = m !! (F_prev, x)) →
  dlist m h l → dlist m' h l.
Proof.
  intros Hn Hp [Hl Hnd]. split; [|done].
  apply (links_frame m); [| |done]; intros x Hx.
  - apply Hn. rewrite app_comm_cons, removelast_snoc in Hx. done.
  - apply Hp. simpl in Hx. set_solver.
Qed.

Lemma cut_at h (l1 l2 : list Z) :
  ∃ l1' l2', ∀ mid, h :: (l1 ++ mid ++ l2) ++ [h] =
    l1' ++ List.last l1 h :: mid ++ hd h l2 :: l2'.
Proof.
  destruct l1 as [|z l1 _] using rev_ind.
  - exists []. destruct l2 as [|y l2]; [exists []|exists (l2 ++ [h])]; intros mid; simpl.
    + by rewrite app_nil_r.
    + by rewrite <-app_assoc.
  - rewrite List.last_last. exists (h :: l1).
    destruct l2 as [|y l2]; [exists []|exists (l2 ++ [h])]; intros mid; simpl.
    + by rewrite app_nil_r, <-!app_assoc.
    + by rewrite <-!app_assoc.
Qed.

Lemma dlist_add m h l1 l2 new :
  dlist m h (l1 ++ l2) → new ∉ h :: l1 ++ l2 →
  dlist (add_mem m new (List.last l1 h) (hd h l2)) h (l1 ++ new :: l2).
Proof.
  intros Hl Hnew. destruct (cut_at h l1 l2) as (l1' & l2' & E). split.
  - pose proof (E [new]) as E1. cbn in E1. rewrite E1.
    eapply links_add; [|done|done]. exact (E []).
  - destruct Hl as [_ Hnd].
    rewrite app_comm_cons. apply NoDup_app_mid. by rewrite <-app_comm_cons.
Qed.

Lemma dlist_del m h l1 e l2 :
  dlist m h (l1 ++ e :: l2) →
  dlist (del_mem m (List.last l1 h) (hd h l2)) h (l1 ++ l2).
Proof.
  intros Hl. destruct (cut_at h l1 l2) as (l1' & l2' & E). split.
  - pose proof (E []) as E1. cbn in E1. rewrite E1.
    eapply (links_del _ _ _ _ _ e); [| |done].
    + exact (E [e]).
    + eapply dlist_not_head; [done|]. set_solver.
  - destruct Hl as [_ Hnd]. rewrite app_comm_cons in Hnd.
    by apply NoDup_app_mid in Hnd as [_ ?].
Qed.

(** [same_but ns m m']: the memories agree except on the list cells of the
    nodes [ns]. *)
Definition same_but (ns : list Z) (m m' : mem) : Prop :=
  ∀ f a, (f ≠ F_next ∧ f ≠ F_prev) ∨ a ∉ ns → m' !! (f, a) = m !! (f, a).

Lemma same_but_refl ns m : same_but ns m m.
Proof. by intros f a _. Qed.

Lemma same_but_trans ns m1 m2 m3 :
  same_but ns m1 m2 → same_but ns m2 m3 → same_but ns m1 m3.
Proof. intros H1 H2 f a Ha. by rewrite H2, H1. Qed.

Lemma same_but_mono ns ns' m m' : ns ⊆ ns' → same_but ns m m' → same_but ns' m m'.
Proof. intros Hs H f a Ha. apply H. set_solver. Qed.

Lemma same_but_field ns m m' f a :
  same_but ns m m' → f ≠ F_next → f ≠ F_prev → m' !! (f, a) = m !! (f, a).
Proof. intros H ? ?. apply H. by left. Qed.

Lemma same_but_dlist ns m m' h l :
  same_but ns m m' → (∀ x, x ∈ h :: l → x ∉ ns) → dlist m h l → dlist m' h l.
Proof.
  intros Hs Hd Hl. eapply dlist_frame; [| |done]; intros x Hx; apply Hs; right; by apply Hd.
Qed.

Lemma last_elem (l : list Z) h : List.last l h ∈ h :: l.
Proof.
  destruct l as [|x l _] using rev_ind; [set_solver|]. rewrite List.last_last. set_solver.
Qed.

Lemma hd_elem (l : list Z) h : hd h l ∈ h :: l.
Proof. destruct l; set_solver. Qed.

Lemma add_mem_same m h l1 l2 new :
  same_but (new :: h :: l1 ++ l2) m (add_mem m new (List.last l1 h) (hd h l2)).
Proof.
  pose proof (last_elem l1 h). pose proof (hd_elem l2 h).
  intros f a [[Hn Hp]|Ha]; unfold add_mem.
  - rewrite !lookup_insert_ne; [done|..]; congruence.
  - rewrite !lookup_insert_ne; [done|..]; intros ?; simplify_eq; set_solver.
Qed.

Lemma del_mem_same m h l1 l2 :
  same_but (h :: l1 ++ l2) m (del_mem m (List.last l1 h) (hd h l2)).
Proof.
  pose proof (last_elem l1 h). pose proof (hd_elem l2 h).
  intros f a [[Hn Hp]|Ha]; unfold del_mem.
  - rewrite !lookup_insert_ne; [done|..]; congruence.
  - rewrite !lookup_insert_ne; [done|..]; intros ?; simplify_eq; set_solver.
Qed.

(** Inserting [new] after the node [pos] (or after the sentry). *)
Lemma wp_list_add m h l1 l2 pos new (Q : unit → mem → Prop) :
  dlist m h (l1 ++ l2) → pos = List.last l1 h → new ∉ h :: l1 ++ l2 →
  (∀ m', dlist m' h (l1 ++ new :: l2) → same_but (new :: h :: l1 ++ l2) m m' → Q () m') →
  wp (list_add new pos) m Q.
Proof.
  intros Hl -> Hnew HQ. destruct (dlist_edge _ _ _ _ Hl) as [En _].
  unfold list_add. apply wp_bind. eapply wp_load; [done|].
  eapply wp_eq; [apply __list_add_run|].
  apply HQ; [by apply dlist_add|apply add_mem_same].
Qed.

(** Inserting [new] before the node [pos] (or before the sentry). *)
Lemma wp_list_add_tail m h l1 l2 pos new (Q : unit → mem → Prop) :
  dlist m h (l1 ++ l2) → pos = hd h l2 → new ∉ h :: l1 ++ l2 →
  (∀ m', dlist m' h (l1 ++ new :: l2) → same_but (new :: h :: l1 ++ l2) m m' → Q () m') →
  wp (list_add_tail new pos) m Q.
Proof.
  intros Hl -> Hnew HQ. destruct (dlist_edge _ _ _ _ Hl) as [_ Ep].
  unfold list_add_tail. apply wp_bind. eapply wp_load; [done|].
  eapply wp_eq; [apply __list_add_run|].
  apply HQ; [by apply dlist_add|apply add_mem_same].
Qed.

Lemma dlist_neighbours m h l1 e l2 :
  dlist m h (l1 ++ e :: l2) →
  m !! (F_prev, e) = Some (List.last l1 h) ∧ m !! (F_next, e) = Some (hd h l2).
Proof.
  intros Hl. destruct (dlist_edge _ _ _ _ Hl) as [_ Ep]. split; [done|].
  replace (l1 ++ e :: l2) with ((l1 ++ [e]) ++ l2) in Hl by by rewrite <-app_assoc.
  destruct (dlist_edge _ _ _ _ Hl) as [En _]. by rewrite List.last_last in En.
Qed.

(** Unlinking the node [e]. *)
Lemma wp_list_del m h l1 e l2 (Q : unit → mem → Prop) :
  dlist m h (l1 ++ e :: l2) →
  (∀ m', dlist m' h (l1 ++ l2) → same_but (h :: l1 ++ l2) m m' → Q () m') →
  wp (list_del e) m Q.
Proof.
  intros Hl HQ. destruct (dlist_neighbours _ _ _ _ _ Hl) as [Ep En].
  unfold list_del. apply wp_bind. eapply wp_load; [done|].
  apply wp_bind. eapply wp_load; [done|].
  eapply wp_eq; [apply __list_del_run|].
  apply HQ; [by eapply dlist_del|apply del_mem_same].
Qed.

Lemma wp_INIT_LIST_HEAD m h (Q : unit → mem → Prop) :
  (∀ m', dlist m' h [] → same_but [h] m m' → Q () m') → wp (INIT_LIST_HEAD h) m Q.
Proof.
  intros HQ. unfold INIT_LIST_HEAD. wp_run. apply HQ.
  - split; [|apply NoDup_singleton]. simpl. unfold edge. mem_simpl. done.
  - intros f a [[? ?]|Ha]; rewrite !lookup_insert_ne; try done; try congruence; set_solver.
Qed.

Lemma list_empty_run m h l : dlist m h l → list_empty h m = Ret (bool_decide (l = []), m).
Proof.
  intros Hl. unfold list_empty. erewrite bind_ret; [|apply load_Some; apply (dlist_edge m h [] l Hl)].
  unfold mret, M_ret. do 2 f_equal. destruct l as [|x l]; simpl.
  - by rewrite Z.eqb_refl.
  - apply Z.eqb_neq. eapply dlist_not_head; [done|]. set_solver.
Qed.

(** ** Traversal *)

Lemma dlist_size m h l : dlist m h l → (length l < size m)%nat.
Proof.
  intros [Hl Hnd].
  assert (Hsub : list_to_set ((λ x, (F_next, x)) <$> h :: l) ⊆ dom m).
  { intros c Hc. apply elem_of_list_to_set, list_elem_of_fmap in Hc as (x & -> & Hx).
    apply elem_of_dom. apply list_elem_of_split in Hx as (k1 & k2 & E).
    rewrite app_comm_cons, E in Hl. rewrite <-app_assoc in Hl. simpl in Hl.
    apply links_app in Hl as [_ Hl]. destruct k2; destruct Hl as [[Hl _] _]; by eexists. }
  apply subseteq_size in Hsub. rewrite size_dom in Hsub.
  rewrite size_list_to_set in Hsub.
  - rewrite length_fmap in Hsub. simpl in Hsub. lia.
  - apply NoDup_fmap_2; [|done]. by intros x y [=].
Qed.

Lemma for_each_from_run m h body (f : Z → bool) l1 l2 n :
  dlist m h (l1 ++ l2) → (length l2 ≤ n)%nat →
  (∀ x, x ∈ l2 → body x m = Ret (f x, m)) →
  for_each_from n h (hd h l2) body m = Ret (find_or f l2 h, m).
Proof.
  revert l1 n. induction l2 as [|x l2 IH]; intros l1 n Hl Hn Hb.
  - destruct n; simpl; by rewrite Z.eqb_refl.
  - assert (x ≠ h) as Hx by (eapply dlist_not_head; [done|]; set_solver).
    destruct n as [|n]; simpl in Hn; [lia|]. simpl.
    rewrite (proj2 (Z.eqb_neq _ _) Hx).
    erewrite bind_ret by (apply Hb; set_solver).
    unfold find_or. simpl. destruct (f x); [done|].
    destruct (dlist_neighbours _ _ _ _ _ Hl) as [_ En].
    erewrite bind_ret by by apply load_Some.
    apply (IH (l1 ++ [x])); [by rewrite <-app_assoc|lia|]. intros y Hy. apply Hb. set_solver.
Qed.

(** A loop whose body only reads memory stops at the first node it accepts. *)
Lemma for_each_run m h l body (f : Z → bool) :
  dlist m h l → (∀ x, x ∈ l → body x m = Ret (f x, m)) →
  for_each h body m = Ret (find_or f l h, m).
Proof.
  intros Hl Hb. unfold for_each.
  destruct (dlist_edge m h [] l Hl) as [En _]. simpl in En.
  erewrite bind_ret by by apply load_Some.
  apply (for_each_from_run m h body f []); [done| |done].
  apply Nat.lt_le_incl. by eapply dlist_size.
Qed.

(** Lists of structures: the node of the structure at [p] is at [p + off]. *)
Definition nodes (off : Z) (ps : list Z) : list Z := (λ p, p + off) <$> ps.

Lemma nodes_app off ps qs : nodes off (ps ++ qs) = nodes off ps ++ nodes off qs.
Proof. apply fmap_app. Qed.

Lemma nodes_cons off p ps : nodes off (p :: ps) = (p + off) :: nodes off ps.
Proof. done. Qed.

Lemma elem_of_nodes off p ps : p + off ∈ nodes off ps ↔ p ∈ ps.
Proof.
  unfold nodes. rewrite list_elem_of_fmap. split; [|by eauto].
  intros (q & Hq & Hin). by replace p with q by lia.
Qed.

Lemma find_or_nodes off (f : Z → bool) ps h :
  find_or (λ x, f (x - off)) (nodes off ps) h - off = find_or f ps (h - off).
Proof.
  unfold find_or. induction ps as [|p ps IH]; simpl; [done|].
  replace (p + off - off) with p by lia. destruct (f p); simpl; [lia|done].
Qed.

Lemma for_each_entry_run m h off ps body (f : Z → bool) :
  dlist m h (nodes off ps) → (∀ p, p ∈ ps → body p m = Ret (f p, m)) →
  for_each_entry h off body m = Ret (find_or f ps (h - off), m).
Proof.
  intros Hl Hb. unfold for_each_entry.
  erewrite bind_ret.
  2: { apply (for_each_run m h (nodes off ps) _ (λ x, f (x - off))); [done|].
       intros x Hx. unfold nodes in Hx. apply list_elem_of_fmap in Hx as (p & -> & Hp).
       unfold list_entry. replace (p + off - off) with p by lia. by apply Hb. }
  unfold mret, M_ret, list_entry. by rewrite find_or_nodes.
Qed.
