(* ===== verification/Util.v ===== *)
(** include/util.h: the alignment and rounding macros, with their arithmetic
    meaning. *)
From Stdlib Require Import ZArith Lia.
From stdpp Require Import base numbers.
From S2P Require Import Prelude.

Open Scope Z_scope.

Definition min2 (a b : Z) : Z := if a <? b then a else b.
Definition max2 (a b : Z) : Z := if a >? b then a else b.

(** The macros evaluate in the type of their first argument; [w] is its width. *)
Definition __ALIGN_MASK (w a : Z) : Z := wrap w (a - 1).
Definition IS_ALIGNED (w x a : Z) : bool := Z.land x (__ALIGN_MASK w a) =? 0.
Definition ALIGN_ABOVE (w x a : Z) : Z :=
  wrap w (Z.lor (wrap w (x - 1)) (__ALIGN_MASK w a) + 1).
Definition ALIGN_BELOW (w x a : Z) : Z := Z.land x (wrap w (Z.lnot (__ALIGN_MASK w a))).

Definition DIV_ROUND_UP (w n d : Z) : Z := wrap w (n + d - 1) / d.
Definition ROUNDUP (w x d : Z) : Z := wrap w (DIV_ROUND_UP w x d * d).
Definition ROUNDDOWN (x d : Z) : Z := x - x mod d.

(** get_lowest_0(x): the index of the lowest zero bit, -1 when there is none. *)
Fixpoint get_lowest_0_loop (n : nat) (i x : Z) : Z :=
  match n with
  | O => i
  | S n' => if Z.land x 1 =? 1 then get_lowest_0_loop n' (i + 1) (Z.shiftr x 1) else i
  end.
Definition get_lowest_0 (w x : Z) : Z :=
  if wrap w (x + 1) =? 0 then -1 else get_lowest_0_loop (Z.to_nat w) 0 x.

Section align.
Context (w k : Z) (Hk : 0 ≤ k ≤ w).
Let a := 2 ^ k.

Lemma align_mask : __ALIGN_MASK w a = Z.ones k.
Proof using Hk.
  unfold __ALIGN_MASK, a. rewrite wrap_small; [by rewrite Z.ones_equiv, Z.sub_1_r|].
  unfold in_range. assert (0 < 2 ^ k) by (apply Z.pow_pos_nonneg; lia).
  assert (2 ^ k ≤ 2 ^ w) by (apply Z.pow_le_mono_r; lia). lia.
Qed.

Lemma IS_ALIGNED_spec x : IS_ALIGNED w x a = (x mod a =? 0).
Proof using Hk. unfold IS_ALIGNED. rewrite align_mask, Z.land_ones by lia. done. Qed.

Lemma lor_ones_low y : Z.lor y (Z.ones k) = y / a * a + (a - 1).
Proof using Hk.
  unfold a. replace (2 ^ k - 1) with (Z.ones k) by (rewrite Z.ones_equiv; lia).
  assert (0 < 2 ^ k) by (apply Z.pow_pos_nonneg; lia).
  rewrite <-lor_add_low; [|lia|rewrite Z.ones_equiv; lia].
  apply Z.bits_inj'. intros i Hi. rewrite !Z.lor_spec.
  destruct (decide (i < k)).
  - rewrite Z.ones_spec_low by lia. by rewrite !orb_true_r.
  - rewrite Z.ones_spec_high, Z.mul_pow2_bits, Z.div_pow2_bits by lia.
    by replace (i - k + k) with i by lia.
Qed.

Lemma ALIGN_ABOVE_spec x :
  in_range w x → x + a ≤ 2 ^ w → ALIGN_ABOVE w x a = (x + a - 1) / a * a.
Proof using Hk.
  intros Hx Hfit. unfold in_range in Hx. unfold ALIGN_ABOVE.
  assert (0 < a) by (unfold a; apply Z.pow_pos_nonneg; lia).
  rewrite align_mask, lor_ones_low. unfold wrap.
  destruct (decide (x = 0)) as [->|Hx0].
  - assert (Hw : 2 ^ w = 2 ^ (w - k) * a).
    { unfold a. rewrite <-Z.pow_add_r by lia. f_equal. lia. }
    assert (0 < 2 ^ (w - k)) by (apply Z.pow_pos_nonneg; lia).
    rewrite (Z.div_small (0 + a - 1)) by lia.
    replace (0 - 1) with (-1 + 0) by lia.
    assert (-1 mod 2 ^ w = 2 ^ w - 1) as E.
    { symmetry. apply (Z.mod_unique_pos _ _ (-1)); lia. }
    rewrite Z.add_0_r, E. assert ((2 ^ w - 1) / a = 2 ^ (w - k) - 1) as ->.
    { symmetry. apply (Z.div_unique_pos _ _ _ (a - 1)); lia. }
    replace ((2 ^ (w - k) - 1) * a + (a - 1) + 1) with (2 ^ w) by lia.
    by rewrite Z.mod_same by lia.
  - rewrite (Z.mod_small (x - 1)) by lia.
    assert ((x + a - 1) / a = (x - 1) / a + 1) as ->.
    { replace (x + a - 1) with (x - 1 + 1 * a) by lia. rewrite Z.div_add by lia. lia. }
    assert (0 ≤ (x - 1) / a * a ≤ x - 1).
    { split; [|rewrite Z.mul_comm; apply Z.mul_div_le; lia].
      apply Z.mul_nonneg_nonneg; [apply Z.div_pos; lia|lia]. }
    rewrite Z.mod_small by lia. lia.
Qed.

Lemma ALIGN_BELOW_spec x : in_range w x → ALIGN_BELOW w x a = x / a * a.
Proof using Hk.
  intros Hx. unfold ALIGN_BELOW. rewrite align_mask.
  replace (x / a * a) with (Z.ldiff x (Z.ones k)).
  - unfold wrap. rewrite <-Z.land_ones by lia.
    apply Z.bits_inj'. intros i Hi.
    rewrite Z.ldiff_spec, !Z.land_spec, Z.lnot_spec by lia.
    destruct (decide (i < w)).
    + by rewrite (Z.ones_spec_low w) by lia; rewrite andb_true_r.
    + rewrite (Z.ones_spec_high w) by lia. rewrite andb_false_r, andb_false_r.
      rewrite <-(wrap_small w x Hx). unfold wrap. by rewrite Z.mod_pow2_bits_high by lia.
  - rewrite Z.ldiff_ones_r, Z.shiftl_mul_pow2, Z.shiftr_div_pow2 by lia. done.
Qed.
End align.

(** Powers of two that appear as alignments. *)
Lemma div_mul_bounds x a : 0 < a → x / a * a ≤ x < x / a * a + a.
Proof. intros. pose proof (Z.mod_pos_bound x a). rewrite (Z.div_mod x a) at 2 3 by lia. lia. Qed.

Lemma mul_mod_0 x a : a ≠ 0 → (x * a) mod a = 0.
Proof. apply Z.mod_mul. Qed.
