(* ===== verification/Bitops.v ===== *)
(** include/bitops.h with BITS_PER_LONG = 32: the bit searches. *)
From Stdlib Require Import ZArith Lia.
From stdpp Require Import base numbers list.
From S2P Require Import Prelude.

Open Scope Z_scope.

Definition BITS_PER_LONG : Z := 32.

(** One halving step of __generic_ffs(): when the low [k] bits are clear, skip them. *)
Definition ffs_step (k : Z) (s : Z * Z) : Z * Z :=
  let '(num, word) := s in
  if Z.land word (Z.ones k) =? 0 then (num + k, Z.shiftr word k) else (num, word).

Definition __generic_ffs (word : Z) : Z :=
  if word =? 0 then 0 else
  let '(num, word) := ffs_step 2 (ffs_step 4 (ffs_step 8 (ffs_step 16 (1, word)))) in
  if Z.land word 1 =? 0 then num + 1 else num.

(** One step of __generic_fls(): ~0ul << (BITS_PER_LONG - k) selects the top [k] bits. *)
Definition fls_step (k : Z) (s : Z * Z) : Z * Z :=
  let '(num, word) := s in
  if Z.land word (u32 (Z.shiftl (Z.ones 32) (BITS_PER_LONG - k))) =? 0
  then (num - k, u32 (Z.shiftl word k)) else (num, word).

Definition __generic_fls (word : Z) : Z :=
  if word =? 0 then 0 else
  let '(num, word) := fls_step 2 (fls_step 4 (fls_step 8 (fls_step 16 (BITS_PER_LONG, word)))) in
  if Z.land word (u32 (Z.shiftl (Z.ones 32) (BITS_PER_LONG - 1))) =? 0 then num - 1 else num.

Definition ffs (x : Z) : Z := __generic_ffs (u32 x).
Definition fls (x : Z) : Z := __generic_fls (u32 x).

(** ffz(x) is ffs(~(x)); the complement is taken after integer promotion. *)
Definition ffz (x : Z) : Z := ffs (Z.lnot x).
Definition flz (x : Z) : Z := fls (Z.lnot x).

Definition __generic_ffs64 (word : Z) : Z :=
  if u32 word =? 0 then ffs (Z.shiftr word 32) + 32 else ffs word.
Definition __generic_fls64 (word : Z) : Z :=
  if u32 word =? 0 then fls (Z.shiftr word 32) + 32 else fls word.
(** The guard of __generic_ffz64() names a macro that does not exist, so
    its first branch is never compiled. *)
Definition __generic_ffz64 (word : Z) : Z := ffz word.
Definition __generic_flz64 (word : Z) : Z :=
  if u32 word =? 0 then flz (Z.shiftr word 32) + 32 else flz word.

(** Hamming weight. *)
Definition hweight32 (w : Z) : Z :=
  let res := u32 (w - Z.land (Z.shiftr w 1) 1431655765) in
  let res := u32 (Z.land res 858993459 + Z.land (Z.shiftr res 2) 858993459) in
  let res := Z.land (u32 (res + Z.shiftr res 4)) 252645135 in
  let res := u32 (res + Z.shiftr res 8) in
  Z.land (u32 (res + Z.shiftr res 16)) 255.

Definition hweight64 (w : Z) : Z :=
  hweight32 (u32 (Z.shiftr w 32)) + hweight32 (u32 w).

Definition count_zero_bits32 (x : Z) : Z := hweight32 (u32 (Z.lnot x)).

(** [exact_pow w n]: 2^n is the largest power of two that divides [w]. *)
Definition exact_pow (w n : Z) : Prop := ∃ q, w = (2 * q + 1) * 2 ^ n.

Lemma ffs_step_inv W k s :
  0 < k → fst s >= 1 → W = snd s * 2 ^ (fst s - 1) → snd s mod 2 ^ (2 * k) ≠ 0 →
  let s' := ffs_step k s in
  fst s ≤ fst s' ≤ fst s + k ∧ W = snd s' * 2 ^ (fst s' - 1) ∧ snd s' mod 2 ^ k ≠ 0.
Proof.
  intros Hk Hn HW Hm. destruct s as [num w]; simpl in *. unfold ffs_step.
  rewrite Z.land_ones by lia. destruct (Z.eqb_spec (w mod 2 ^ k) 0) as [E|E]; simpl; [|lia || auto with lia].
  rewrite Z.shiftr_div_pow2 by lia.
  assert (0 < 2 ^ k) by (apply Z.pow_pos_nonneg; lia).
  assert (w = w / 2 ^ k * 2 ^ k) as Ew by (pose proof (Z.div_mod w (2 ^ k)); lia).
  split; [lia|]. split.
  - replace (num + k - 1) with (k + (num - 1)) by lia. rewrite Z.pow_add_r, Z.mul_assoc, <-Ew by lia. done.
  - intros E'. apply Hm. rewrite Ew. replace (2 * k) with (k + k) by lia.
    rewrite Z.pow_add_r by lia. rewrite Z.mul_mod_distr_r, E' by lia. done.
Qed.

Lemma generic_ffs_spec w :
  0 < w < 2 ^ 32 → 1 ≤ __generic_ffs w ≤ 32 ∧ exact_pow w (__generic_ffs w - 1).
Proof.
  intros Hw. unfold __generic_ffs. rewrite (proj2 (Z.eqb_neq w 0)) by lia.
  destruct (ffs_step_inv w 16 (1, w)) as (H1 & H2 & H3); [lia|cbn; lia|cbn [fst snd]; lia| |].
  { cbn [fst snd]. change (2 * 16) with 32. rewrite Z.mod_small by (change (2 ^ 32) with 4294967296 in *; lia). lia. }
  set (s1 := ffs_step 16 (1, w)) in *. clearbody s1. cbn [fst snd] in H1.
  destruct (ffs_step_inv w 8 s1) as (H4 & H5 & H6); [lia|lia|done|done|].
  set (s2 := ffs_step 8 s1) in *. clearbody s2.
  destruct (ffs_step_inv w 4 s2) as (H7 & H8 & H9); [lia|lia|done|done|].
  set (s3 := ffs_step 4 s2) in *. clearbody s3.
  destruct (ffs_step_inv w 2 s3) as (H10 & H11 & H12); [lia|lia|done|done|].
  destruct (ffs_step 2 s3) as [n v]; cbn [fst snd] in *.
  assert (Z.land v 1 = v mod 2) as -> by (change 1 with (Z.ones 1); by rewrite Z.land_ones by lia).
  change (2 ^ 2) with 4 in H12.
  destruct (Z.eqb_spec (v mod 2) 0) as [E|E].
  - split; [lia|]. exists (v / 4). rewrite H11. replace (n + 1 - 1) with (1 + (n - 1)) by lia.
    rewrite Z.pow_add_r by lia. rewrite Z.mul_assoc. f_equal. Z.div_mod_to_equations. lia.
  - split; [lia|]. exists (v / 2). rewrite H11. f_equal. Z.div_mod_to_equations. lia.
Qed.

(** What exact division by a power of two says of the bits. *)
Lemma exact_pow_bits w n :
  0 ≤ n → exact_pow w n →
  Z.testbit w n = true ∧ ∀ i, 0 ≤ i < n → Z.testbit w i = false.
Proof.
  intros Hn [q ->]. split; [|intros i Hi; by rewrite Z.mul_pow2_bits_low by lia].
  rewrite Z.mul_pow2_bits by lia. replace (n - n) with 0 by lia.
  rewrite Z.bit0_odd, Z.add_comm. by rewrite Z.odd_add_mul_2.
Qed.

(** Ffs() of a non-zero word is the 1-based index of its least
    significant set bit, and ffs(0) is 0. *)
Theorem ffs_correct w :
  0 ≤ w < 2 ^ 32 →
  (w = 0 ∧ ffs w = 0) ∨
  (1 ≤ ffs w ≤ 32 ∧ Z.testbit w (ffs w - 1) = true ∧
   ∀ i, 0 ≤ i < ffs w - 1 → Z.testbit w i = false).
Proof.
  intros Hw. unfold ffs. rewrite wrap_small by done.
  destruct (decide (w = 0)) as [->|Hne]; [by left|right].
  destruct (generic_ffs_spec w) as [Hr He]; [lia|]. split; [done|].
  apply exact_pow_bits; [lia|done].
Qed.

Lemma ffs_correct_witness : Z.testbit 40 (ffs 40 - 1) = true.
Proof. destruct (ffs_correct 40) as [[? _]|(_ & ? & _)]; [lia|done|done]. Defined.
