(* ===== verification/ArchBitops.v ===== *)
(** include/arch/{mips,i386}/arch-bitops.h: the bit searches written with the bit
    instructions of the processors, with 32-bit longs. *)
From Stdlib Require Import ZArith Lia.
From stdpp Require Import base numbers list.
From S2P Require Import Prelude Bitops.

Open Scope Z_scope.

(** ** The instructions *)

(** CLZ and CLO count the leading zeros and ones of a 32-bit register. *)
Definition clz (x : Z) : Z := if x =? 0 then 32 else 31 - Z.log2 x.
Definition clo (x : Z) : Z := clz (u32 (Z.lnot x)).

(** BSF and BSR scan for the lowest and the highest set bit; [None] is the zero flag, the
    destination is then undefined. *)
Definition bsf (x : Z) : option Z := snd <$> list_find (λ i, Z.testbit x i = true) (seqZ 0 32).
Definition bsr (x : Z) : option Z := if x =? 0 then None else Some (Z.log2 x).

(** ** MIPS *)

Module mips_bits.
Definition __fls (x : Z) : Z := BITS_PER_LONG - clz x.
Definition __ffs (x : Z) : Z := __fls (Z.land x (u32 (- x))).
Definition __flz (x : Z) : Z := BITS_PER_LONG - clo x.
Definition __ffz (x : Z) : Z := __flz (u32 (Z.lnot (Z.land (u32 (Z.lnot x)) (u32 (- u32 (Z.lnot x)))))).
End mips_bits.

(** ** i386 *)

Module i386_bits.
(** jnz 1f; movl $-1 *)
Definition __ffs (x : Z) : Z := default (-1) (bsf x) + 1.
Definition __fls (x : Z) : Z := default (-1) (bsr x) + 1.
Definition __ffz (x : Z) : Z := __ffs (u32 (Z.lnot x)).
Definition __flz (x : Z) : Z := __fls (u32 (Z.lnot x)).
End i386_bits.

(** * Properties *)

(** ** __generic_fls() *)

Lemma top_bits_zero k w :
  0 < k ≤ 32 → 0 ≤ w < 2 ^ 32 →
  (Z.land w (Z.shiftl (Z.ones k) (32 - k)) =? 0) = (w <? 2 ^ (32 - k)).
Proof.
  intros Hk Hw.
  assert (0 < 2 ^ (32 - k)) by (apply Z.pow_pos_nonneg; lia).
  assert (Z.land w (Z.shiftl (Z.ones k) (32 - k)) = w / 2 ^ (32 - k) * 2 ^ (32 - k)) as ->.
  { rewrite <-Z.shiftr_div_pow2, <-Z.shiftl_mul_pow2 by lia. apply Z.bits_inj'. intros i Hi.
    rewrite Z.land_spec. destruct (Z.ltb_spec i (32 - k)).
    - rewrite !Z.shiftl_spec_low by lia. by rewrite andb_false_r.
    - rewrite !Z.shiftl_spec, Z.shiftr_spec by lia. replace (i - (32 - k) + (32 - k)) with i by lia.
      destruct (Z.ltb_spec i 32).
      + rewrite Z.ones_spec_low by lia. apply andb_true_r.
      + rewrite Z.ones_spec_high by lia. rewrite andb_false_r. symmetry. apply Z.bits_above_log2; [lia|].
        destruct (decide (w = 0)) as [->|]; [cbn; lia|]. apply Z.log2_lt_pow2; [lia|].
        eapply Z.lt_le_trans; [apply Hw|]. apply Z.pow_le_mono_r; lia. }
  destruct (Z.ltb_spec w (2 ^ (32 - k))) as [Hlt|Hge].
  - rewrite Z.div_small by lia. done.
  - apply Z.eqb_neq. assert (1 ≤ w / 2 ^ (32 - k)) by (apply Z.div_le_lower_bound; lia). nia.
Qed.

(** The word is shifted up, and its highest set bit stays within the top [2 * k]. *)
Definition fls_inv (W k : Z) (s : Z * Z) : Prop :=
  0 ≤ fst s ≤ 32 ∧ snd s = W * 2 ^ (32 - fst s) ∧ 2 ^ (32 - k) ≤ snd s < 2 ^ 32.

Lemma fls_step_inv W k s :
  0 < k → 2 * k ≤ 32 → u32 (Z.shiftl (Z.ones 32) (BITS_PER_LONG - k)) = Z.shiftl (Z.ones k) (32 - k) →
  k ≤ fst s → fls_inv W (2 * k) s → fls_inv W k (fls_step k s) ∧ fst s - k ≤ fst (fls_step k s).
Proof.
  intros Hk Hk2 Hm Hf (H1 & H2 & H3 & H4). destruct s as [num w]. simpl in *. unfold fls_step.
  assert (0 < 2 ^ (32 - 2 * k)) by (apply Z.pow_pos_nonneg; lia).
  rewrite Hm, top_bits_zero by lia. destruct (Z.ltb_spec w (2 ^ (32 - k))) as [Hlt|Hge]; simpl.
  2: { split; [|lia]. split; simpl; [lia|]. split; [done|lia]. }
  rewrite Z.shiftl_mul_pow2 by lia.
  assert (2 ^ 32 = 2 ^ (32 - k) * 2 ^ k) as E1 by (rewrite <-Z.pow_add_r by lia; f_equal; lia).
  assert (2 ^ (32 - k) = 2 ^ (32 - 2 * k) * 2 ^ k) as E2 by (rewrite <-Z.pow_add_r by lia; f_equal; lia).
  assert (0 < 2 ^ k) by (apply Z.pow_pos_nonneg; lia).
  rewrite wrap_small by (unfold in_range; rewrite E1; nia).
  split; [|lia]. split; simpl; [lia|]. split; [|rewrite E1; nia].
  replace (32 - (num - k)) with (32 - num + k) by lia. rewrite Z.pow_add_r by lia. rewrite H2. lia.
Qed.

Lemma generic_fls_log2 w : 0 < w < 2 ^ 32 → __generic_fls w = Z.log2 w + 1.
Proof.
  intros Hw. unfold __generic_fls. rewrite (proj2 (Z.eqb_neq w 0)) by lia.
  destruct (fls_step_inv w 16 (BITS_PER_LONG, w)) as [H1 F1];
    [done|done|done|done|split_and!; cbn [fst snd]; unfold BITS_PER_LONG; cbn; lia|].
  set (s1 := fls_step 16 _) in *. clearbody s1. cbn [fst] in F1. change BITS_PER_LONG with 32 in F1.
  destruct (fls_step_inv w 8 s1) as [H2 F2]; [done|done|done|lia|done|].
  set (s2 := fls_step 8 _) in *. clearbody s2.
  destruct (fls_step_inv w 4 s2) as [H3 F3]; [done|done|done|lia|done|].
  set (s3 := fls_step 4 _) in *. clearbody s3.
  destruct (fls_step_inv w 2 s3) as [H4 F4]; [done|done|done|lia|done|].
  destruct (fls_step 2 s3) as [n v]. destruct H4 as (Hn & Hv & Hr). cbn [fst snd] in *.
  change (u32 (Z.shiftl (Z.ones 32) (BITS_PER_LONG - 1))) with (Z.shiftl (Z.ones 1) (32 - 1)).
  rewrite top_bits_zero by lia.
  assert (Z.log2 v = Z.log2 w + (32 - n)) as Hl by (rewrite Hv, Z.log2_mul_pow2 by lia; lia).
  change (32 - 2) with 30 in Hr. change (32 - 1) with 31.
  destruct (Z.ltb_spec v (2 ^ 31)).
  - assert (Z.log2 v = 30) by (apply Z.log2_unique; lia). lia.
  - assert (Z.log2 v = 31) by (apply Z.log2_unique; lia). lia.
Qed.

Lemma fls_log2 x : 0 ≤ x < 2 ^ 32 → fls x = if x =? 0 then 0 else Z.log2 x + 1.
Proof.
  intros Hx. unfold fls. rewrite wrap_small by done. destruct (Z.eqb_spec x 0) as [->|]; [done|].
  apply generic_fls_log2. lia.
Qed.

(** ** The lowest set bit *)

(** x & -x keeps it. *)
Lemma land_opp x n : 0 ≤ n → exact_pow x n → Z.land x (- x) = 2 ^ n.
Proof.
  intros Hn [q ->].
  assert (- ((2 * q + 1) * 2 ^ n) = Z.shiftl (2 * Z.lnot q + 1) n) as ->.
  { rewrite Z.shiftl_mul_pow2 by lia. unfold Z.lnot. nia. }
  rewrite <-Z.shiftl_mul_pow2 by lia. rewrite <-Z.shiftl_land.
  assert (Z.land (2 * q + 1) (2 * Z.lnot q + 1) = 1) as ->.
  { apply Z.bits_inj'. intros i Hi. rewrite Z.land_spec. destruct (decide (i = 0)) as [->|].
    - by rewrite !Z.testbit_odd_0.
    - replace i with (Z.succ (i - 1)) by lia. rewrite !Z.testbit_odd_succ, Z.lnot_spec by lia.
      rewrite andb_negb_r. symmetry. change 1 with (2 * 0 + 1) at 1.
      rewrite Z.testbit_odd_succ by lia. apply Z.bits_0. }
  by rewrite Z.shiftl_mul_pow2, Z.mul_1_l by lia.
Qed.

Lemma land_opp_u32 x : 0 < x < 2 ^ 32 → Z.land x (u32 (- x)) = 2 ^ (ffs x - 1).
Proof.
  intros Hx. assert (ffs x = __generic_ffs x) as -> by (unfold ffs; by rewrite wrap_small by (unfold in_range; lia)).
  destruct (generic_ffs_spec x Hx) as [Hr He]. rewrite <-(land_opp x) by (done || lia).
  unfold wrap. rewrite <-Z.land_ones by lia. rewrite Z.land_assoc, (Z.land_comm _ (Z.ones 32)), Z.land_assoc.
  rewrite (Z.land_comm (Z.ones 32)), Z.land_ones by lia. by rewrite Z.mod_small by lia.
Qed.

Lemma ffs_correct_gen w :
  0 < w < 2 ^ 32 → 1 ≤ ffs w ≤ 32 ∧ Z.testbit w (ffs w - 1) = true ∧ ∀ i, 0 ≤ i < ffs w - 1 → Z.testbit w i = false.
Proof. intros Hw. destruct (ffs_correct w) as [[? _]|H]; [lia|lia|done]. Qed.

Lemma bsf_ffs x : 0 ≤ x < 2 ^ 32 → bsf x = if x =? 0 then None else Some (ffs x - 1).
Proof.
  intros Hx. unfold bsf. destruct (Z.eqb_spec x 0) as [->|Hne]; [done|].
  destruct (ffs_correct_gen x) as (Hr & Hb & Hl); [lia|].
  assert (list_find (λ i, Z.testbit x i = true) (seqZ 0 32) = Some (Z.to_nat (ffs x - 1), ffs x - 1)) as ->; [|done].
  apply list_find_Some. split_and!; [|done|].
  - rewrite lookup_seqZ. lia.
  - intros j y Hj Hlt. apply lookup_seqZ in Hj as [-> Hj]. rewrite Hl by lia. done.
Qed.

(** Complement within the word. *)
Lemma lnot_range x : 0 ≤ x < 2 ^ 32 → u32 (Z.lnot x) = 2 ^ 32 - 1 - x.
Proof.
  intros Hx. unfold wrap, Z.lnot. replace (Z.pred (- x)) with (2 ^ 32 - 1 - x + (-1) * 2 ^ 32) by lia.
  rewrite Z_mod_plus_full. apply Z.mod_small. lia.
Qed.
Lemma lnot_lnot x : 0 ≤ x < 2 ^ 32 → u32 (Z.lnot (u32 (Z.lnot x))) = x.
Proof. intros Hx. rewrite (lnot_range x) by done. rewrite lnot_range by lia. lia. Qed.
Lemma u32_range x : 0 ≤ u32 x < 2 ^ 32.
Proof. by apply (wrap_range 32). Qed.

Lemma generic_z x : ffz x = ffs (u32 (Z.lnot x)) ∧ flz x = fls (u32 (Z.lnot x)).
Proof. unfold ffz, flz, ffs, fls. by rewrite !wrap_wrap. Qed.

(** MIPS. *)
Lemma mips_fls x : 0 ≤ x < 2 ^ 32 → mips_bits.__fls x = fls x.
Proof.
  intros Hx. unfold mips_bits.__fls, clz, BITS_PER_LONG. rewrite fls_log2 by done. destruct (x =? 0); lia.
Qed.

Lemma mips_ffs x : 0 ≤ x < 2 ^ 32 → mips_bits.__ffs x = ffs x.
Proof.
  intros Hx. unfold mips_bits.__ffs. destruct (decide (x = 0)) as [->|Hne]; [done|].
  destruct (ffs_correct_gen x) as (Hr & _); [lia|]. rewrite land_opp_u32 by lia.
  assert (0 < 2 ^ (ffs x - 1) < 2 ^ 32) as Hp by (split; [apply Z.pow_pos_nonneg; lia|apply Z.pow_lt_mono_r; lia]).
  rewrite mips_fls, fls_log2 by lia. rewrite (proj2 (Z.eqb_neq _ 0)), Z.log2_pow2 by lia. lia.
Qed.

Lemma mips_flz_lnot y : 0 ≤ y < 2 ^ 32 → mips_bits.__flz (u32 (Z.lnot y)) = mips_bits.__fls y.
Proof. intros Hy. unfold mips_bits.__flz, clo. by rewrite lnot_lnot. Qed.

(** C39: the bit searches written with CLZ and CLO on MIPS and with BSF and BSR on
    i386 agree with the portable ones of bitops.h on every 32-bit word, 0 and ~0 included. *)
Theorem arch_bitops_agree x :
  0 ≤ x < 2 ^ 32 →
  (mips_bits.__ffs x = ffs x ∧ mips_bits.__fls x = fls x ∧ mips_bits.__ffz x = ffz x ∧ mips_bits.__flz x = flz x) ∧
  (i386_bits.__ffs x = ffs x ∧ i386_bits.__fls x = fls x ∧ i386_bits.__ffz x = ffz x ∧ i386_bits.__flz x = flz x).
Proof.
  intros Hx. destruct (generic_z x) as [-> ->]. pose proof (u32_range (Z.lnot x)) as Hy.
  set (y := u32 (Z.lnot x)) in *.
  assert (∀ z, 0 ≤ z < 2 ^ 32 → i386_bits.__ffs z = ffs z ∧ i386_bits.__fls z = fls z) as Hi.
  { intros z Hz. unfold i386_bits.__ffs, i386_bits.__fls, bsr. rewrite bsf_ffs, fls_log2 by done.
    destruct (Z.eqb_spec z 0) as [->|]; simpl; [done|lia]. }
  split; [|split; [by apply Hi|split; [by apply Hi|split; by apply (Hi y Hy)]]].
  split; [by apply mips_ffs|]. split; [by apply mips_fls|]. split.
  - unfold mips_bits.__ffz. fold y. rewrite mips_flz_lnot; [by apply mips_ffs|].
    destruct (decide (y = 0)) as [->|]; [done|]. destruct (ffs_correct_gen y) as (Hr & _); [lia|]. rewrite land_opp_u32 by lia.
    split; [apply Z.pow_nonneg; lia|apply Z.pow_lt_mono_r; lia].
  - rewrite <-(mips_fls y) by done. unfold y. rewrite <-(mips_flz_lnot _ (u32_range _)). by rewrite lnot_lnot.
Qed.

Lemma arch_bitops_agree_witness : mips_bits.__ffs 40 = ffs 40 ∧ i386_bits.__flz 40 = flz 40.
Proof. destruct (arch_bitops_agree 40) as [[? _] (_ & _ & _ & ?)]; [lia|]. done. Defined.
