(* ===== verification/Pmm.v ===== *)
(** include/pmm.h and kern/mm/pmm/pmm.c: the page allocator's interface and
    the dispatch through the registered struct page_allocator. *)
From Stdlib Require Import ZArith Lia.
From stdpp Require Import base numbers gmap list.
From S2P Require Import Prelude Util.

Open Scope Z_scope.

(** PAGE_SIZE is 1 << 12 on every architecture (mmu.h). *)
Definition PAGE_SHIFT : Z := 12.
Definition PAGE_SIZE : Z := Z.shiftl 1 PAGE_SHIFT.

(** struct pages. A [struct pages *] argument is passed as the structure's
    value and handed back with the result of the call. *)
Record pages : Type := mk_pages {
  paddr : Z;
  size : Z;
  flags : Z;
  refs : Z
}.

Definition set_paddr (p : pages) (x : Z) : pages :=
  mk_pages x (size p) (flags p) (refs p).

(** struct page_allocator: three function pointers. *)
Record page_allocator : Type := mk_page_allocator {
  alloc_fp : Z;
  free_fp : Z;
  get_free_fp : Z
}.

Module pmm.
(** The dummy implementations registered before page_allocator_init(). *)
Definition __alloc (p : pages) : M mem (Z * pages) := mret (EOF, p).
Definition __free (p : pages) : M mem unit := mret ().
Definition __get_free : M mem Z := mret 0.

Section dispatch.
(** What a call through a function pointer runs. *)
Context (call_alloc : Z → pages → M mem (Z * pages))
        (call_free : Z → pages → M mem unit)
        (call_get_free : Z → M mem Z).

(** memcpy(&__allocator, allocator, sizeof( *allocator)) *)
Definition set_page_allocator (a : page_allocator) : M mem unit :=
  _ ← store G_page_allocator 0 (alloc_fp a);
  _ ← store G_page_allocator 4 (free_fp a);
  store G_page_allocator 8 (get_free_fp a).

Definition alloc_pages (p : option pages) : M mem (Z * option pages) :=
  match p with
  | None => mret (EOF, None)
  | Some p =>
      fp ← load G_page_allocator 0;
      r ← call_alloc fp p;
      mret (fst r, Some (snd r))
  end.

Definition free_pages (p : pages) : M mem unit :=
  fp ← load G_page_allocator 4;
  call_free fp p.

Definition get_free_memory : M mem Z :=
  fp ← load G_page_allocator 8;
  call_get_free fp.
End dispatch.
End pmm.

(** pgalloc() and pgfree() of the architectures' mmu.h (the MIPS and i386
    headers have the same text): one page through the page allocator. *)
Section pg.
Context (alloc_pages : pages → M mem (Z * pages)) (free_pages : pages → M mem unit).

(** [stale] is the indeterminate content of the local struct before the
    call: p.paddr is not initialised. *)
Definition pgalloc (stale : Z) : M mem Z :=
  r ← alloc_pages (mk_pages stale PAGE_SIZE 0 0);
  if negb (fst r =? 0) then mret (u64 (-1)) else mret (paddr (snd r)).

Definition pgfree (pa : Z) : M mem unit :=
  free_pages (mk_pages pa PAGE_SIZE 0 0).
End pg.

(** A page allocator as the abstract type its clients see: a set of free
    bytes. [pa_free m x] says that byte [x] of physical memory is free. *)
Definition in_pages (p : pages) (x : Z) : Prop := paddr p ≤ x < paddr p + size p.

Definition page_aligned (x : Z) : Prop := x mod PAGE_SIZE = 0.

Lemma IS_ALIGNED_page w x : 12 ≤ w → IS_ALIGNED w x PAGE_SIZE = bool_decide (page_aligned x).
Proof.
  intros. change PAGE_SIZE with (2 ^ 12) at 1. rewrite IS_ALIGNED_spec by lia.
  unfold page_aligned, PAGE_SIZE. symmetry.
  destruct (Z.eqb_spec (x mod 2 ^ 12) 0); [by rewrite bool_decide_eq_true|by rewrite bool_decide_eq_false].
Qed.

Lemma page_aligned_add x y : page_aligned x → page_aligned y → page_aligned (x + y).
Proof. unfold page_aligned. change PAGE_SIZE with 4096. intros. Z.div_mod_to_equations. lia. Qed.

Lemma page_aligned_sub x y : page_aligned x → page_aligned y → page_aligned (x - y).
Proof. unfold page_aligned. change PAGE_SIZE with 4096. intros. Z.div_mod_to_equations. lia. Qed.
