(* ===== verification/Heap.v ===== *)
(** The contract between kmalloc()/kfree() and the components that use them. *)
From Stdlib Require Import ZArith Lia.
From stdpp Require Import base numbers gmap list.
From S2P Require Import Prelude.

Open Scope Z_scope.

(** [live] maps the address of every object handed out and not yet freed to
    the size it was asked for. *)
Definition in_object (live : gmap Z Z) (a : Z) : Prop :=
  ∃ p sz, live !! p = Some sz ∧ p ≤ a < p + sz.

(** Static variables are modelled as cells at addresses below [STATIC_TOP]
    (see [fld]); no heap reaches down there. *)
Definition STATIC_TOP : Z := 64.

(** What a general-purpose allocator promises. [heap_owned live] are the
    cells it keeps for itself: it hands out only memory it owns, it
    never touches a cell it does not own, and its state depends on
    nothing else. *)
Class HeapSpec (kmalloc : Z → Z → M mem Z) (kfree : Z → M mem unit) := {
  heap_inv : mem → gmap Z Z → Prop;
  heap_owned : gmap Z Z → Z → Prop;
  kmalloc_spec m live sz fl :
    heap_inv m live → 0 < sz ≤ 2 ^ 32 - 48 →
    wp (kmalloc sz fl) m (λ p m',
      (∀ f a, ¬ heap_owned live a → m' !! (f, a) = m !! (f, a)) ∧
      ((p = NULL ∧ heap_inv m' live) ∨
       (p ≠ NULL ∧ live !! p = None ∧ heap_inv m' (<[p := sz]> live) ∧
        (∀ a, p ≤ a < p + sz → heap_owned live a))));
  kfree_spec m live p sz :
    heap_inv m live → live !! p = Some sz →
    wp (kfree p) m (λ _ m',
      heap_inv m' (delete p live) ∧
      (∀ f a, ¬ heap_owned (delete p live) a → m' !! (f, a) = m !! (f, a)));
  heap_inv_client m m' live :
    heap_inv m live → (∀ f a, heap_owned live a → m' !! (f, a) = m !! (f, a)) →
    heap_inv m' live;
  heap_owned_object m live a : heap_inv m live → in_object live a → ¬ heap_owned live a;
  heap_inv_null m live : heap_inv m live → live !! NULL = None;
  heap_owned_static live a : a < STATIC_TOP → ¬ heap_owned live a;
}.
