(* ===== verification/Ff.v ===== *)
(** kern/mm/pmm/ff.c: the first-fit page allocator. *)
From Stdlib Require Import ZArith Lia.
From stdpp Require Import base numbers gmap list sorting.
From S2P Require Import Prelude DList Util Pmm Heap.

Open Scope Z_scope.

Module ff.

(** struct block: a struct pages (24 bytes) followed by its list node. *)
Definition off_node : Z := 24.
Definition sizeof_block : Z := 32.

Section code.
Context (kmalloc : Z → Z → M mem Z) (kfree : Z → M mem unit).
(** The address of the static list sentry [__head]. *)
Context (__head : Z).

Definition __alloc (pages : pages) : M mem (Z * Pmm.pages) :=
  (* check size alignment *)
  if negb (IS_ALIGNED 64 (size pages) PAGE_SIZE) then mret (NULL, pages) else
  fs ← load G_free_space 0;
  if size pages >? fs then mret (NULL, pages) else
  (* search for a first-fit *)
  this ← for_each_entry __head off_node (λ this,
    sz ← load F_size this; mret (sz >=? size pages));
  (* upon failure, pages remains untouched *)
  if this + off_node =? __head then mret (EOF, pages) else
  (* cut down the block *)
  pa ← load F_paddr this;
  let pages' := set_paddr pages pa in
  _ ← store F_paddr this (u64 (pa + size pages));
  sz ← load F_size this;
  _ ← store F_size this (u64 (sz - size pages));
  (* free the block if empty *)
  sz' ← load F_size this;
  _ ← (if sz' =? 0
       then _ ← list_del (this + off_node); kfree this
       else mret ());
  (* decrease available memory amount *)
  fs' ← load G_free_space 0;
  _ ← store G_free_space 0 (u64 (fs' - size pages));
  mret (0, pages').

(** The insertion point: [prev] trails the loop variable. *)
Fixpoint find_prev (n : nat) (pos prev pa : Z) : M mem Z :=
  if pos =? __head then mret prev else
  match n with
  | O => nofuel
  | S n' =>
      let tmp := list_entry pos off_node in
      tpa ← load F_paddr tmp;
      if tpa >=? pa then mret prev else
      nx ← load F_next pos;
      find_prev n' nx tmp pa
  end.

(** The two merge steps of __free(); the first one returns the new [this]. *)
Definition merge_downwards (prev this : Z) : M mem Z :=
  if prev =? NULL then mret this else
  ppa ← load F_paddr prev;
  psz ← load F_size prev;
  tpa ← load F_paddr this;
  if negb (u64 (ppa + psz) =? tpa) then mret this else
  tsz ← load F_size this;
  _ ← store F_size prev (u64 (psz + tsz));
  _ ← list_del (this + off_node);
  _ ← kfree this;
  mret prev.

Definition merge_upwards (this : Z) : M mem unit :=
  last ← list_is_last (this + off_node) __head;
  next ← (if negb last then list_next_entry this off_node else mret NULL);
  if next =? NULL then mret () else
  tpa ← load F_paddr this;
  tsz ← load F_size this;
  npa ← load F_paddr next;
  if negb (u64 (tpa + tsz) =? npa) then mret () else
  nsz ← load F_size next;
  _ ← store F_size this (u64 (tsz + nsz));
  _ ← list_del (next + off_node);
  kfree next.

Definition __free (pages : pages) : M mem unit :=
  if negb (IS_ALIGNED 64 (paddr pages) PAGE_SIZE) then mret () else
  if negb (IS_ALIGNED 64 (size pages) PAGE_SIZE) then mret () else
  this ← kmalloc sizeof_block 0;
  if this =? NULL then panic else
  _ ← store F_paddr this (paddr pages);
  _ ← store F_size this (size pages);
  _ ← store F_flags this (flags pages);
  first ← load F_next __head;
  prev ← with_fuel (λ n, find_prev n first NULL (paddr pages));
  _ ← (if negb (prev =? NULL)
       then list_add_after (this + off_node) (prev + off_node)
       else list_add_after (this + off_node) __head);
  this ← merge_downwards prev this;
  _ ← merge_upwards this;
  fs ← load G_free_space 0;
  store G_free_space 0 (u64 (fs + size pages)).

Definition __get_free : M mem Z := load G_free_space 0.

(** The function pointers of this file, as registered. *)
Context (fp : page_allocator).

Definition page_allocator_init : M mem Z :=
  _ ← store G_free_space 0 0;
  _ ← INIT_LIST_HEAD __head;
  _ ← pmm.set_page_allocator fp;
  mret 0.

(** The loop of page_allocator_move(): the body replaces the node it
    visits, and the loop goes on from the replacement. *)
Fixpoint move_loop (n : nat) (old_free : Z → M mem unit) (pos : Z) : M mem unit :=
  if pos =? __head then mret () else
  match n with
  | O => nofuel
  | S n' =>
      let this := list_entry pos off_node in
      new ← kmalloc sizeof_block 0;
      if new =? NULL then panic else
      pa ← load F_paddr this;
      _ ← store F_paddr new pa;
      sz ← load F_size this;
      _ ← store F_size new sz;
      _ ← list_add_after (new + off_node) (this + off_node);
      _ ← list_del (this + off_node);
      _ ← old_free this;
      nx ← load F_next (new + off_node);
      move_loop n' old_free nx
  end.

Definition page_allocator_move (old_free : Z → M mem unit) : M mem Z :=
  first ← load F_next __head;
  _ ← with_fuel (λ n, move_loop n old_free first);
  mret 0.
End code.

(** * The free list as a sequence of blocks *)

Record blk : Type := mk_blk { b_addr : Z; b_paddr : Z; b_size : Z }.

Section blocks.
(** ** Well-formed free lists: page-aligned, non-empty blocks in increasing
    address order, with a gap between any two (no two blocks touch). *)
Definition blk_ok (b : blk) : Prop :=
  0 ≤ b_paddr b ∧ 0 < b_size b ∧ b_paddr b + b_size b < 2 ^ 64 ∧
  page_aligned (b_paddr b) ∧ page_aligned (b_size b).

Definition gap (a b : blk) : Prop := b_paddr a + b_size a < b_paddr b.

Definition wf (bs : list blk) : Prop := Forall blk_ok bs ∧ StronglySorted gap bs.

(** The abstract state: the set of free bytes. *)
Definition in_free (bs : list blk) (x : Z) : Prop :=
  Exists (λ b, b_paddr b ≤ x < b_paddr b + b_size b) bs.

Lemma wf_sum_bound lo bs :
  0 ≤ lo < 2 ^ 64 → Forall (λ b, lo ≤ b_paddr b) bs → wf bs →
  sum_with b_size bs ≤ 2 ^ 64 - 1 - lo.
Proof.
  intros Hlo Hall [Hok Hs]. revert lo Hlo Hall.
  induction Hs as [|b bs Hs IH Hb]; intros lo Hlo Hall; simpl; [lia|].
  apply Forall_cons in Hok as [(? & ? & ? & _) Hok]. apply Forall_cons in Hall as [Hlb _].
  assert (sum_with b_size bs ≤ 2 ^ 64 - 1 - (b_paddr b + b_size b)); [|lia].
  apply IH; [done|lia|]. eapply Forall_impl; [exact Hb|]. unfold gap. intros; lia.
Qed.

Lemma wf_sum bs : wf bs → 0 ≤ sum_with b_size bs < 2 ^ 64.
Proof.
  intros Hwf. split.
  - apply sum_with_nonneg. destruct Hwf as [Hok _].
    eapply Forall_impl; [exact Hok|]. unfold blk_ok. intros; lia.
  - assert (sum_with b_size bs ≤ 2 ^ 64 - 1 - 0); [|lia].
    apply wf_sum_bound; [lia| |done]. destruct Hwf as [Hok _].
    eapply Forall_impl; [exact Hok|]. unfold blk_ok. intros; lia.
Qed.

(** ** What __alloc does to the list *)

Definition cut (b : blk) (n : Z) : list blk :=
  if b_size b =? n then [] else [mk_blk (b_addr b) (b_paddr b + n) (b_size b - n)].

Definition fits (n : Z) (b : blk) : bool := b_size b >=? n.

Lemma find_first n pre b post :
  Forall (λ b', fits n b' = false) pre → fits n b = true →
  List.find (fits n) (pre ++ b :: post) = Some b.
Proof.
  induction 1 as [|b' pre Hb' _ IH]; simpl; intros Hb; [by rewrite Hb|].
  rewrite Hb'. by apply IH.
Qed.

Lemma find_none n bs : Forall (λ b', fits n b' = false) bs → List.find (fits n) bs = None.
Proof. induction 1 as [|b bs Hb _ IH]; simpl; [done|]. by rewrite Hb. Qed.

Lemma wf_in_range bs b : wf bs → b ∈ bs →
  0 ≤ b_paddr b ∧ 0 < b_size b ∧ b_paddr b + b_size b < 2 ^ 64.
Proof.
  intros [Hok _] Hb. rewrite Forall_forall in Hok. destruct (Hok _ Hb) as (? & ? & ? & _). lia.
Qed.

Lemma b_size_le_sum pre b post :
  wf (pre ++ b :: post) → b_size b ≤ sum_with b_size (pre ++ b :: post).
Proof.
  intros [Hok _]. rewrite sum_with_app, sum_with_cons.
  apply Forall_app in Hok as [Hok1 Hok2]. apply Forall_cons in Hok2 as [_ Hok2].
  assert (0 ≤ sum_with b_size pre).
  { apply sum_with_nonneg. eapply Forall_impl; [exact Hok1|]. unfold blk_ok. intros; lia. }
  assert (0 ≤ sum_with b_size post).
  { apply sum_with_nonneg. eapply Forall_impl; [exact Hok2|]. unfold blk_ok. intros; lia. }
  lia.
Qed.

Lemma cut_sum pre b post n :
  sum_with b_size (pre ++ cut b n ++ post) = sum_with b_size (pre ++ b :: post) - n.
Proof.
  unfold cut. destruct (Z.eqb_spec (b_size b) n); rewrite !sum_with_app, ?sum_with_cons;
    unfold sum_with; simpl; lia.
Qed.

(** ** What __free does to the list *)

Definition touches (a b : blk) : bool := b_paddr a + b_size a =? b_paddr b.
Definition merge (a b : blk) : blk := mk_blk (b_addr a) (b_paddr a) (b_size a + b_size b).

(** Merging the new block with its lower and its upper neighbour. *)
Definition down (pre : list blk) (nb : blk) : list blk * blk :=
  match list.last pre with
  | Some bp => if touches bp nb then (removelast pre, merge bp nb) else (pre, nb)
  | None => (pre, nb)
  end.

Definition up (cur : blk) (post : list blk) : list blk :=
  match post with
  | bn :: post' => if touches cur bn then merge cur bn :: post' else cur :: post
  | [] => [cur]
  end.

Definition free_list (pre : list blk) (nb : blk) (post : list blk) : list blk :=
  (down pre nb).1 ++ up (down pre nb).2 post.

Lemma wf_app l1 l2 :
  wf (l1 ++ l2) ↔ wf l1 ∧ wf l2 ∧ (∀ a b, a ∈ l1 → b ∈ l2 → gap a b).
Proof. unfold wf. rewrite Forall_app, StronglySorted_app. tauto. Qed.

Lemma wf_cons b l : wf (b :: l) ↔ blk_ok b ∧ wf l ∧ (∀ b', b' ∈ l → gap b b').
Proof.
  unfold wf. rewrite Forall_cons. split.
  - intros [[Hb Hl] Hs]. inversion_clear Hs as [|? ? Hs' Hg]. rewrite Forall_forall in Hg. auto.
  - intros (Hb & [Hl Hs] & Hg). split; [auto|]. constructor; [done|]. by apply Forall_forall.
Qed.

Lemma in_free_app l1 l2 x : in_free (l1 ++ l2) x ↔ in_free l1 x ∨ in_free l2 x.
Proof. apply Exists_app. Qed.

Lemma in_free_cons b l x :
  in_free (b :: l) x ↔ b_paddr b ≤ x < b_paddr b + b_size b ∨ in_free l x.
Proof. apply Exists_cons. Qed.

Lemma in_free_nil x : in_free [] x ↔ False.
Proof. apply Exists_nil. Qed.

Lemma merge_ok a b : blk_ok a → blk_ok b → touches a b = true → blk_ok (merge a b).
Proof.
  unfold touches. intros (? & ? & ? & ? & ?) (? & ? & ? & ? & ?) Ht.
  unfold blk_ok, merge; simpl. repeat split; try lia; [done|]. by apply page_aligned_add.
Qed.

Lemma cut_wf pre b post n :
  wf (pre ++ b :: post) → 0 ≤ n ≤ b_size b → page_aligned n → wf (pre ++ cut b n ++ post).
Proof.
  rewrite (wf_app pre (b :: post)), (wf_app pre (cut b n ++ post)), wf_cons.
  intros (Hpre & (Hb & Hpost & Hg2) & Hg1) Hn Ha.
  unfold cut. destruct (Z.eqb_spec (b_size b) n); simpl.
  - split; [done|]. split; [done|]. intros; apply Hg1; set_solver.
  - rewrite wf_cons. destruct Hb as (? & ? & ? & ? & ?). split; [done|]. split.
    + split; [|split; [done|]].
      * unfold blk_ok; simpl. repeat split; try lia;
          [by apply page_aligned_add|by apply page_aligned_sub].
      * intros b' Hb'. specialize (Hg2 b' Hb'). unfold gap in *. simpl. lia.
    + intros a b' Ha' Hb'. apply elem_of_cons in Hb' as [->|Hb'].
      * specialize (Hg1 a b Ha' ltac:(set_solver)). unfold gap in *. simpl. lia.
      * apply Hg1; set_solver.
Qed.

(** The cut takes exactly the returned range out of the free set. *)
Lemma cut_free pre b post n x :
  wf (pre ++ b :: post) → 0 ≤ n ≤ b_size b →
  in_free (pre ++ b :: post) x ↔
  in_free (pre ++ cut b n ++ post) x ∨ b_paddr b ≤ x < b_paddr b + n.
Proof.
  intros Hwf Hn. pose proof (wf_in_range _ b Hwf ltac:(set_solver)).
  unfold cut. destruct (Z.eqb_spec (b_size b) n); simpl;
    rewrite !in_free_app, ?in_free_cons; simpl; split; intros; destruct_or?; try tauto; lia || auto.
Qed.

Lemma cut_disjoint pre b post n x :
  wf (pre ++ b :: post) → 0 ≤ n ≤ b_size b →
  in_free (pre ++ cut b n ++ post) x → ¬ (b_paddr b ≤ x < b_paddr b + n).
Proof.
  rewrite wf_app, wf_cons. intros (_ & (_ & _ & Hg2) & Hg1) Hn Hx Hin.
  rewrite !in_free_app in Hx. destruct Hx as [Hx|[Hx|Hx]].
  - apply Exists_exists in Hx as (a & Ha & Hx).
    specialize (Hg1 a b Ha ltac:(set_solver)). unfold gap in Hg1. lia.
  - unfold cut in Hx. destruct (b_size b =? n); [by apply in_free_nil in Hx|].
    rewrite in_free_cons, in_free_nil in Hx. simpl in Hx. lia.
  - apply Exists_exists in Hx as (a & Ha & Hx). specialize (Hg2 a Ha). unfold gap in Hg2. lia.
Qed.

(** The range being freed lies between [pre] and [post], touching at most. *)
Definition between (pre : list blk) (nb : blk) (post : list blk) : Prop :=
  Forall (λ a, b_paddr a + b_size a ≤ b_paddr nb) pre ∧
  Forall (λ b, b_paddr nb + b_size nb ≤ b_paddr b) post.

Lemma up_ok cur post :
  blk_ok cur → wf post → Forall (λ b, b_paddr cur + b_size cur ≤ b_paddr b) post →
  wf (up cur post) ∧
  (∀ b, b ∈ up cur post → b_paddr cur ≤ b_paddr b) ∧
  sum_with b_size (up cur post) = b_size cur + sum_with b_size post ∧
  (∀ x, in_free (up cur post) x ↔
        b_paddr cur ≤ x < b_paddr cur + b_size cur ∨ in_free post x).
Proof.
  intros Hc Hwf Hle. destruct Hc as (? & ? & ? & ? & ?).
  destruct post as [|bn post]; simpl.
  { split; [|split; [|split]].
    - apply wf_cons. split; [done|]. split; [done|]. intros b Hb. by apply elem_of_nil in Hb.
    - intros b ->%list_elem_of_singleton. lia.
    - done.
    - intros x. by rewrite in_free_cons. }
  apply wf_cons in Hwf as (Hn & Hwf & Hg). apply Forall_cons in Hle as [Hle Hle'].
  rewrite Forall_forall in Hle'. unfold touches.
  destruct (Z.eqb_spec (b_paddr cur + b_size cur) (b_paddr bn)) as [Ht|Ht].
  - assert (blk_ok (merge cur bn)) by (apply merge_ok; [done..|by apply Z.eqb_eq]).
    destruct Hn as (? & ? & ? & ? & ?).
    split; [|split; [|split]].
    + apply wf_cons. split; [done|]. split; [done|]. intros b Hb. specialize (Hg b Hb).
      unfold gap in *; simpl; lia.
    + intros b [->|Hb]%elem_of_cons; simpl; [lia|]. specialize (Hle' b Hb); simpl in *; lia.
    + rewrite !sum_with_cons. simpl. lia.
    + intros x. rewrite !in_free_cons. simpl. split; intros; destruct_or?; auto; try lia;
        destruct (decide (x < b_paddr bn)); auto with lia.
  - split; [|split; [|split]].
    + apply wf_cons. split; [done|]. split; [by apply wf_cons|].
      intros b [->|Hb]%elem_of_cons; unfold gap; [lia|].
      specialize (Hg b Hb). destruct Hn as (? & ? & _). unfold gap in *. lia.
    + intros b [->|[->|Hb]%elem_of_cons]%elem_of_cons; [lia..|].
      specialize (Hle' b Hb); simpl in *; lia.
    + done.
    + intros x. by rewrite in_free_cons.
Qed.

Lemma down_snoc pre bp nb :
  down (pre ++ [bp]) nb = if touches bp nb then (pre, merge bp nb) else (pre ++ [bp], nb).
Proof. unfold down. by rewrite last_snoc, removelast_snoc. Qed.

Lemma down_ok pre nb :
  blk_ok nb → wf pre → Forall (λ a, b_paddr a + b_size a ≤ b_paddr nb) pre →
  let '(pre', cur) := down pre nb in
  wf pre' ∧ blk_ok cur ∧ pre' ⊆ pre ∧ (∀ a, a ∈ pre' → gap a cur) ∧
  b_paddr cur + b_size cur = b_paddr nb + b_size nb ∧
  sum_with b_size pre' + b_size cur = sum_with b_size pre + b_size nb ∧
  (∀ x, in_free pre' x ∨ b_paddr cur ≤ x < b_paddr cur + b_size cur ↔
        in_free pre x ∨ b_paddr nb ≤ x < b_paddr nb + b_size nb).
Proof.
  intros Hnb Hwf Hle. destruct (snoc_cases pre) as [->|(pre' & bp & ->)].
  { simpl. repeat (split; [done|]). split; [intros a Ha; by apply elem_of_nil in Ha|]. done. }
  rewrite down_snoc. assert (Hwf' := Hwf). apply wf_app in Hwf' as (Hpre & Hbp & Hg).
  apply wf_cons in Hbp as (Hbp & _ & _). rewrite Forall_forall in Hle.
  assert (Hlb := Hle bp ltac:(set_solver)). simpl in Hlb.
  unfold touches. destruct (Z.eqb_spec (b_paddr bp + b_size bp) (b_paddr nb)) as [Ht|Ht].
  - assert (blk_ok (merge bp nb)) by (apply merge_ok; [done..|by apply Z.eqb_eq]).
    destruct Hbp as (? & ? & _), Hnb as (? & ? & _).
    split; [done|]. split; [done|]. split; [set_solver|]. split; [|split; [|split]].
    + intros a Ha. apply (Hg a bp Ha). set_solver.
    + simpl. lia.
    + rewrite sum_with_app, sum_with_cons. unfold sum_with; simpl. lia.
    + intros x. rewrite in_free_app, in_free_cons, in_free_nil. simpl.
      split; intros; destruct_or?; auto; try lia; try tauto;
        destruct (decide (x < b_paddr nb)); auto with lia.
  - split; [done|]. split; [done|]. split; [done|]. split; [|done].
    intros a [Ha| ->%list_elem_of_singleton]%elem_of_app; unfold gap; [|lia].
    specialize (Hg a bp Ha ltac:(set_solver)). destruct Hbp as (? & ? & _). unfold gap in Hg. lia.
Qed.

(** Freeing a disjoint range keeps the free list well formed and adds
    exactly that range to the free set. *)
Lemma free_list_ok pre nb post :
  blk_ok nb → wf (pre ++ post) → between pre nb post →
  wf (free_list pre nb post) ∧
  sum_with b_size (free_list pre nb post) = sum_with b_size (pre ++ post) + b_size nb ∧
  (∀ x, in_free (free_list pre nb post) x ↔
        in_free (pre ++ post) x ∨ b_paddr nb ≤ x < b_paddr nb + b_size nb).
Proof.
  intros Hnb Hwf [Hb1 Hb2]. apply wf_app in Hwf as (Hpre & Hpost & Hg).
  pose proof (down_ok pre nb Hnb Hpre Hb1) as Hd. unfold free_list.
  destruct (down pre nb) as [pre' cur]; simpl.
  destruct Hd as (Hpre' & Hcur & Hsub & Hg' & Hend & Hsum & Hfree).
  destruct (up_ok cur post) as (Hu & Hlb & Husum & Hufree); [done|done|by rewrite Hend|].
  split; [|split].
  - apply wf_app. split; [done|]. split; [done|]. intros a b Ha Hb.
    specialize (Hlb b Hb). specialize (Hg' a Ha). unfold gap in *. lia.
  - rewrite !sum_with_app, Husum. lia.
  - intros x. rewrite !in_free_app, Hufree. specialize (Hfree x). tauto.
Qed.

Lemma last_addr (pre : list blk) bp d : List.last (b_addr <$> pre ++ [bp]) d = b_addr bp.
Proof. rewrite fmap_app. apply List.last_last. Qed.

Lemma between_prev pre nb post pa :
  wf (pre ++ post) → between pre nb post → pa = b_paddr nb → 0 < b_size nb →
  Forall (λ b, b_paddr b < pa) pre ∧ Forall (λ b, pa ≤ b_paddr b) post.
Proof.
  intros [Hok _] [H1 H2] -> Hs. apply Forall_app in Hok as [Hok _].
  split; [|eapply Forall_impl; [exact H2|]; simpl; intros; lia].
  rewrite Forall_forall in Hok, H1. apply Forall_forall. intros b Hb.
  specialize (H1 b Hb). destruct (Hok b Hb) as (? & ? & _). simpl in H1. lia.
Qed.

Lemma last_nodes off (ps : list Z) h :
  ps ≠ [] → List.last (nodes off ps) h = List.last ps NULL + off.
Proof.
  intros Hps. destruct (snoc_cases ps) as [->|(ps' & p & ->)]; [done|].
  by rewrite nodes_app, List.last_last, nodes_cons, List.last_last.
Qed.

(** ** Splitting the free list at a range *)

Definition disjoint (bs : list blk) (lo n : Z) : Prop :=
  ∀ x, in_free bs x → ¬ (lo ≤ x < lo + n).

Lemma disjoint_cons b bs lo n :
  0 < b_size b → 0 < n → disjoint (b :: bs) lo n →
  (b_paddr b + b_size b ≤ lo ∨ lo + n ≤ b_paddr b) ∧ disjoint bs lo n.
Proof.
  intros Hb Hn Hd. split.
  - destruct (decide (b_paddr b ≤ lo)).
    + specialize (Hd lo). rewrite in_free_cons in Hd. lia.
    + specialize (Hd (b_paddr b)). rewrite in_free_cons in Hd. lia.
  - intros x Hx. apply Hd. rewrite in_free_cons. auto.
Qed.

Lemma split_between bs nb :
  wf bs → 0 < b_size nb → disjoint bs (b_paddr nb) (b_size nb) →
  ∃ pre post, bs = pre ++ post ∧ between pre nb post.
Proof.
  intros Hwf Hn. induction bs as [|b bs IH]; intros Hd.
  { exists [], []. split; [done|]. split; constructor. }
  apply wf_cons in Hwf as ((? & ? & _) & Hwf & Hg).
  apply disjoint_cons in Hd as [[Hle|Hle] Hd]; [| |done..].
  - destruct (IH Hwf Hd) as (pre & post & -> & H1 & H2).
    exists (b :: pre), post. split; [done|]. split; [by constructor|done].
  - exists [], (b :: bs). split; [done|]. split; [constructor|]. constructor; [done|].
    apply Forall_forall. intros b' Hb'. specialize (Hg b' Hb'). unfold gap in Hg. lia.
Qed.

(** ** Canonicity: a set of bytes has one well-formed block list *)

Definition range (b : blk) : Z * Z := (b_paddr b, b_size b).

Lemma wf_head_min b bs x : wf (b :: bs) → in_free (b :: bs) x → b_paddr b ≤ x.
Proof.
  rewrite wf_cons. intros ((? & ? & _) & _ & Hg) [Hx|Hx]%in_free_cons; [lia|].
  apply Exists_exists in Hx as (b' & Hb' & Hx). specialize (Hg b' Hb'). unfold gap in Hg. lia.
Qed.

Lemma wf_head_end b bs : wf (b :: bs) → ¬ in_free (b :: bs) (b_paddr b + b_size b).
Proof.
  rewrite wf_cons. intros ((? & ? & _) & _ & Hg) [Hx|Hx]%in_free_cons; [lia|].
  apply Exists_exists in Hx as (b' & Hb' & Hx). specialize (Hg b' Hb'). unfold gap in Hg. lia.
Qed.

Lemma wf_head_range b c bs cs :
  wf (b :: bs) → wf (c :: cs) → (∀ x, in_free (b :: bs) x ↔ in_free (c :: cs) x) →
  range b = range c.
Proof.
  intros Hb Hc Hx.
  assert (Hpb : 0 < b_size b) by (apply wf_cons in Hb as [(? & ? & _) _]; done).
  assert (Hpc : 0 < b_size c) by (apply wf_cons in Hc as [(? & ? & _) _]; done).
  assert (in_free (b :: bs) (b_paddr b)) as H1 by (rewrite in_free_cons; lia).
  assert (in_free (c :: cs) (b_paddr c)) as H2 by (rewrite in_free_cons; lia).
  apply Hx in H1. apply Hx in H2.
  pose proof (wf_head_min _ _ _ Hb H2). pose proof (wf_head_min _ _ _ Hc H1).
  assert (b_paddr b = b_paddr c) as E by lia. unfold range. rewrite E. f_equal.
  pose proof (wf_head_end _ _ Hb) as H3. pose proof (wf_head_end _ _ Hc) as H4.
  rewrite Hx in H3. rewrite <-Hx in H4. rewrite !in_free_cons in H3, H4. lia.
Qed.

Lemma wf_unique bs cs :
  wf bs → wf cs → (∀ x, in_free bs x ↔ in_free cs x) → range <$> bs = range <$> cs.
Proof.
  revert cs. induction bs as [|b bs IH]; intros [|c cs] Hb Hc Hx; [done| | |].
  - apply wf_cons in Hc as [(? & ? & _) _]. specialize (Hx (b_paddr c)).
    rewrite in_free_cons, in_free_nil in Hx. lia.
  - apply wf_cons in Hb as [(? & ? & _) _]. specialize (Hx (b_paddr b)).
    rewrite in_free_cons, in_free_nil in Hx. lia.
  - pose proof (wf_head_range _ _ _ _ Hb Hc Hx) as E. rewrite !fmap_cons, E. f_equal.
    injection E as E1 E2.
    apply wf_cons in Hb as (Hb & Hbs & Hgb). apply wf_cons in Hc as (Hc & Hcs & Hgc).
    apply IH; [done..|]. intros x. specialize (Hx x). rewrite !in_free_cons, E1, E2 in Hx.
    split; intros Hin; assert (Hin' := Hin); apply Exists_exists in Hin' as (b' & Hb' & Hin').
    + specialize (Hgb b' Hb'). unfold gap in Hgb. destruct Hx as [Hx _].
      destruct Hx as [?|?]; [by right|lia|done].
    + specialize (Hgc b' Hb'). unfold gap in Hgc. destruct Hx as [_ Hx].
      destruct Hx as [?|?]; [by right|lia|done].
Qed.
End blocks.

Section proofs.
Context {kmalloc : Z → Z → M mem Z} {kfree : Z → M mem unit}.
Context {Hheap : HeapSpec kmalloc kfree}.
Context (__head : Z).
Hypothesis head_static : ∀ live, ¬ heap_owned live __head.

(** The cells of one block. *)
Definition block_at (m : mem) (live : gmap Z Z) (b : blk) : Prop :=
  m !! (F_paddr, b_addr b) = Some (b_paddr b) ∧
  m !! (F_size, b_addr b) = Some (b_size b) ∧
  live !! b_addr b = Some sizeof_block.

(** [lrep m live bs]: the free list in memory holds the blocks [bs]. *)
Record lrep (m : mem) (live : gmap Z Z) (bs : list blk) : Prop := {
  lrep_heap : heap_inv m live;
  lrep_list : dlist m __head (nodes off_node (b_addr <$> bs));
  lrep_blocks : Forall (block_at m live) bs;
}.

(** [rep m live bs]: moreover __free_space is their total size. *)
Definition rep (m : mem) (live : gmap Z Z) (bs : list blk) : Prop :=
  lrep m live bs ∧ m !! (G_free_space, 0) = Some (sum_with b_size bs).

Lemma block_at_other m live b f x v :
  b_addr b ≠ x → block_at m live b → block_at (<[(f, x) := v]> m) live b.
Proof. intros Hne (? & ? & ?). unfold block_at. mem_simpl. done. Qed.

Lemma blocks_other m live l f x v :
  (∀ b, b ∈ l → b_addr b ≠ x) → Forall (block_at m live) l →
  Forall (block_at (<[(f, x) := v]> m) live) l.
Proof.
  intros Hne Hl. rewrite Forall_forall in Hl. apply Forall_forall. intros b Hb.
  apply block_at_other; auto.
Qed.

Lemma block_at_same_but ns m m' live b :
  same_but ns m m' → block_at m live b → block_at m' live b.
Proof.
  intros Hs (? & ? & ?). unfold block_at.
  rewrite !(same_but_field _ _ _ _ _ Hs) by done. done.
Qed.

Lemma lrep_not_owned m live bs b a :
  lrep m live bs → b ∈ bs → b_addr b ≤ a < b_addr b + sizeof_block → ¬ heap_owned live a.
Proof.
  intros Hr Hb Ha. eapply heap_owned_object; [by eapply lrep_heap|]. exists (b_addr b), sizeof_block.
  split; [|done]. apply lrep_blocks in Hr. rewrite Forall_forall in Hr.
  by destruct (Hr _ Hb) as (_ & _ & ?).
Qed.

Lemma lrep_addr_NoDup m live bs : lrep m live bs → NoDup (b_addr <$> bs).
Proof.
  intros Hr. apply lrep_list, dlist_NoDup in Hr. unfold nodes in Hr.
  by apply NoDup_fmap_1 in Hr.
Qed.

Lemma lrep_other_addr m live l1 b l2 b' :
  lrep m live (l1 ++ b :: l2) → b' ∈ l1 ++ l2 → b_addr b' ≠ b_addr b.
Proof.
  intros Hr Hb' E. apply lrep_addr_NoDup in Hr. rewrite fmap_app, fmap_cons in Hr.
  apply NoDup_app_mid in Hr as [Hr _]. apply Hr. rewrite <-E, <-fmap_app.
  by apply list_elem_of_fmap_2.
Qed.

(** Writes to allocator-foreign cells keep the heap intact. *)
Lemma heap_inv_store m live f x v :
  heap_inv m live → ¬ heap_owned live x → heap_inv (<[(f, x) := v]> m) live.
Proof.
  intros Hi Hx. eapply heap_inv_client; [done|]. intros g a Ha.
  rewrite lookup_insert_ne; [done|]. intros [= _ ->]. done.
Qed.

Lemma heap_inv_same_but ns m m' live :
  heap_inv m live → same_but ns m m' → (∀ x, x ∈ ns → ¬ heap_owned live x) →
  heap_inv m' live.
Proof.
  intros Hi Hs Hn. eapply heap_inv_client; [done|]. intros f a Ha. apply Hs.
  right. intros Hin. by apply (Hn a).
Qed.

Lemma nodes_not_owned m live bs x :
  lrep m live bs → x ∈ __head :: nodes off_node (b_addr <$> bs) → ¬ heap_owned live x.
Proof using head_static.
  intros Hr Hx. apply elem_of_cons in Hx as [->|Hx]; [done|].
  unfold nodes in Hx. rewrite <-list_fmap_compose in Hx.
  apply list_elem_of_fmap in Hx as (b & -> & Hb).
  eapply lrep_not_owned; [done|done|]. unfold off_node, sizeof_block. simpl. lia.
Qed.

(** The search loop finds the first block that fits. *)
Lemma search_run m live bs n :
  lrep m live bs →
  for_each_entry __head off_node (λ this, sz ← load F_size this; mret (sz >=? n)) m =
  Ret (match List.find (fits n) bs with
       | Some b => b_addr b
       | None => __head - off_node
       end, m).
Proof.
  intros Hr. set (f := λ x, match m !! (F_size, x) with Some s => s >=? n | None => false end).
  assert (Hb : ∀ b, b ∈ bs → m !! (F_size, b_addr b) = Some (b_size b)).
  { intros b Hb. apply lrep_blocks in Hr. rewrite Forall_forall in Hr.
    by destruct (Hr _ Hb) as (_ & ? & _). }
  rewrite (for_each_entry_run m __head off_node (b_addr <$> bs) _ f).
  - do 2 f_equal. unfold find_or. clear Hr.
    induction bs as [|b bs IH]; simpl; [done|].
    unfold f at 1, fits at 1. rewrite Hb by set_solver.
    destruct (b_size b >=? n); [done|]. apply IH. intros b' ?. apply Hb. set_solver.
  - by eapply lrep_list.
  - intros x Hx. apply list_elem_of_fmap in Hx as (b & -> & Hin).
    erewrite bind_ret by by apply load_Some, Hb. unfold f. by rewrite Hb.
Qed.

Lemma lrep_count m live bs v :
  lrep m live bs → lrep (<[(G_free_space, 0) := v]> m) live bs.
Proof.
  intros [Hi Hl Hbs]. split.
  - apply heap_inv_store; [done|]. apply heap_owned_static. unfold STATIC_TOP. lia.
  - eapply dlist_frame; [| |done]; intros x _; by mem_simpl.
  - eapply Forall_impl; [exact Hbs|]. intros b. unfold block_at. by mem_simpl.
Qed.

(** Updating one block in place keeps the representation. *)
Lemma lrep_update m live pre b post pa sz :
  lrep m live (pre ++ b :: post) →
  lrep (<[(F_size, b_addr b) := sz]> (<[(F_paddr, b_addr b) := pa]> m)) live
       (pre ++ mk_blk (b_addr b) pa sz :: post).
Proof.
  intros Hr.
  assert (Hb : ¬ heap_owned live (b_addr b)).
  { eapply (lrep_not_owned _ _ _ b); [done|set_solver|unfold sizeof_block; lia]. }
  assert (Ho : ∀ b', b' ∈ pre ++ post → b_addr b' ≠ b_addr b).
  { intros b' Hb'. by eapply lrep_other_addr. }
  destruct Hr as [Hi Hl Hbs]. split.
  - by repeat apply heap_inv_store.
  - replace (b_addr <$> pre ++ mk_blk (b_addr b) pa sz :: post)
      with (b_addr <$> pre ++ b :: post) by by rewrite !fmap_app, !fmap_cons.
    eapply dlist_frame; [| |done]; intros x _; by mem_simpl.
  - apply Forall_app in Hbs as [Hb1 Hb2]. apply Forall_cons in Hb2 as [(_ & _ & Hb3) Hb2].
    apply Forall_app. split; [|apply Forall_cons; split].
    + do 2 (apply blocks_other; [intros; apply Ho; set_solver|]). done.
    + unfold block_at. simpl. by mem_simpl.
    + do 2 (apply blocks_other; [intros; apply Ho; set_solver|]). done.
Qed.

(** Unlinking a block and giving its header back to the heap. *)
Lemma lrep_unlink m live pre b post (Q : unit → mem → Prop) :
  lrep m live (pre ++ b :: post) →
  (∀ m', lrep m' (delete (b_addr b) live) (pre ++ post) →
         m' !! (G_free_space, 0) = m !! (G_free_space, 0) → Q () m') →
  wp (list_del (b_addr b + off_node)) m (λ _ m1, wp (kfree (b_addr b)) m1 Q).
Proof using head_static.
  intros Hr HQ. assert (Hr' := Hr). destruct Hr' as [Hi Hl Hbs].
  rewrite fmap_app, fmap_cons, nodes_app, nodes_cons in Hl.
  eapply wp_list_del; [exact Hl|]. intros m1 Hl1 Hs1.
  assert (Hi1 : heap_inv m1 live).
  { eapply heap_inv_same_but; [done|done|]. intros x Hx.
    eapply nodes_not_owned; [done|].
    rewrite fmap_app, fmap_cons, nodes_app, nodes_cons. set_solver. }
  rewrite Forall_forall in Hbs.
  destruct (Hbs b ltac:(set_solver)) as (_ & _ & Hlb).
  eapply wp_mono; [by eapply kfree_spec|]. intros [] m2 [Hi2 Hs2]. simpl in *.
  set (live' := delete (b_addr b) live) in *.
  assert (Hn : ∀ b', b' ∈ pre ++ post → live' !! b_addr b' = Some sizeof_block).
  { intros b' Hb'. assert (b_addr b' ≠ b_addr b) by by eapply lrep_other_addr.
    unfold live'. rewrite lookup_delete_ne by done.
    by destruct (Hbs b' ltac:(set_solver)) as (_ & _ & ?). }
  assert (Hno : ∀ b' d, b' ∈ pre ++ post → 0 ≤ d < sizeof_block →
    ¬ heap_owned live' (b_addr b' + d)).
  { intros b' d Hb' Hd. eapply heap_owned_object; [eassumption|]. exists (b_addr b'), sizeof_block.
    split; [by apply Hn|lia]. }
  apply HQ; [split; [done| |]|].
  - rewrite fmap_app, nodes_app. eapply dlist_frame; [| |exact Hl1].
    all: intros x Hx; apply Hs2; apply elem_of_cons in Hx as [->|Hx]; [done|].
    all: rewrite <-nodes_app, <-fmap_app in Hx; unfold nodes in Hx.
    all: rewrite <-list_fmap_compose in Hx.
    all: apply list_elem_of_fmap in Hx as (b' & -> & Hb').
    all: by apply (Hno b' off_node).
  - apply Forall_forall. intros b' Hb'. pose proof (Hn _ Hb').
    assert (¬ heap_owned live' (b_addr b')).
    { rewrite <-(Z.add_0_r (b_addr b')). by apply (Hno b' 0). }
    unfold block_at. rewrite !Hs2 by done. rewrite !(same_but_field _ _ _ _ _ Hs1) by done.
    by destruct (Hbs b' ltac:(set_solver)) as (? & ? & ?).
  - rewrite Hs2; [by apply (same_but_field _ _ _ _ _ Hs1)|].
    apply heap_owned_static. unfold STATIC_TOP. lia.
Qed.

(** Functional correctness of __alloc on a fit. *)
Lemma alloc_fit m live pre b post pg :
  rep m live (pre ++ b :: post) → wf (pre ++ b :: post) →
  page_aligned (size pg) → 0 ≤ size pg →
  Forall (λ b', fits (size pg) b' = false) pre → fits (size pg) b = true →
  wp (__alloc kfree __head pg) m (λ r m',
    r = (0, set_paddr pg (b_paddr b)) ∧
    ∃ live', rep m' live' (pre ++ cut b (size pg) ++ post)).
Proof using head_static.
  intros [Hr Hc] Hwf Hal Hn Hpre Hb. unfold __alloc.
  rewrite IS_ALIGNED_page, bool_decide_true by (done || lia). simpl.
  pose proof (wf_sum _ Hwf) as Hsum. pose proof (b_size_le_sum _ _ _ Hwf) as Hle.
  pose proof (wf_in_range _ b Hwf ltac:(set_solver)) as Hrng.
  assert (Hfit : size pg ≤ b_size b) by (unfold fits in Hb; lia).
  assert (Hcells := lrep_blocks _ _ _ Hr). rewrite Forall_forall in Hcells.
  destruct (Hcells b ltac:(set_solver)) as (Hpa & Hsz & _).
  wp_step. eapply wp_load; [done|].
  destruct (Z.gtb_spec (size pg) (sum_with b_size (pre ++ b :: post))); [lia|].
  wp_step. eapply wp_eq; [by eapply search_run|]. rewrite find_first by done.
  assert (Hnh : b_addr b + off_node ≠ __head).
  { eapply dlist_not_head; [by eapply lrep_list|]. apply elem_of_nodes.
    apply list_elem_of_fmap_2. set_solver. }
  rewrite (proj2 (Z.eqb_neq _ _) Hnh).
  wp_run. rewrite !wrap_small by (unfold in_range; lia).
  set (n := size pg) in *.
  assert (Hm1 := lrep_update _ _ _ _ _ (b_paddr b + n) (b_size b - n) Hr).
  set (m1 := <[(F_size, b_addr b) := b_size b - n]> _) in *.
  assert (Hc1 : m1 !! (G_free_space, 0) = Some (sum_with b_size (pre ++ b :: post))).
  { unfold m1. by mem_simpl. }
  pose proof (cut_sum pre b post n) as Hcut. unfold cut in *.
  destruct (Z.eqb_spec (b_size b - n) 0); destruct (Z.eqb_spec (b_size b) n); try lia.
  - wp_step. apply (lrep_unlink m1 live pre (mk_blk (b_addr b) (b_paddr b + n) (b_size b - n)) post);
      [done|]. intros m2 Hr2 Hc2. simpl in *. rewrite Hc1 in Hc2.
    wp_run. rewrite wrap_small by (unfold in_range; lia).
    split; [done|]. eexists. split; [by apply lrep_count|]. mem_simpl. by rewrite Hcut.
  - wp_run. rewrite wrap_small by (unfold in_range; lia).
    split; [done|]. exists live. split; [by apply lrep_count|]. mem_simpl. by rewrite Hcut.
Qed.

Lemma lrep_set_size m live pre b post sz :
  lrep m live (pre ++ b :: post) →
  lrep (<[(F_size, b_addr b) := sz]> m) live
       (pre ++ mk_blk (b_addr b) (b_paddr b) sz :: post).
Proof.
  intros Hr. pose proof (lrep_blocks _ _ _ Hr) as Hbs. rewrite Forall_forall in Hbs.
  destruct (Hbs b ltac:(set_solver)) as (Hpa & _ & _).
  rewrite <-(insert_id m (F_paddr, b_addr b) (b_paddr b)) at 1 by done.
  by apply lrep_update.
Qed.

(** Linking a freshly allocated and initialised block. *)
Lemma lrep_link m live pre nb post (Q : unit → mem → Prop) :
  lrep m live (pre ++ post) → block_at m live nb →
  b_addr nb ∉ b_addr <$> pre ++ post → b_addr nb + off_node ≠ __head →
  (∀ m', lrep m' live (pre ++ nb :: post) →
         m' !! (G_free_space, 0) = m !! (G_free_space, 0) → Q () m') →
  wp (list_add (b_addr nb + off_node) (List.last (nodes off_node (b_addr <$> pre)) __head)) m Q.
Proof using head_static.
  intros Hr Hnb Hfresh Hnh HQ. assert (Hr' := Hr). destruct Hr' as [Hi Hl Hbs].
  rewrite fmap_app, nodes_app in Hl.
  eapply wp_list_add; [exact Hl|done| |].
  - rewrite <-nodes_app, <-fmap_app. apply not_elem_of_cons. split; [done|].
    by rewrite elem_of_nodes.
  - intros m' Hl' Hs. apply HQ; [split|].
    + eapply heap_inv_same_but; [done|done|]. intros x Hx.
      apply elem_of_cons in Hx as [->|Hx].
      * eapply heap_owned_object; [eassumption|]. exists (b_addr nb), sizeof_block.
        destruct Hnb as (_ & _ & ?). unfold off_node, sizeof_block in *. split; [done|lia].
      * eapply nodes_not_owned; [done|]. by rewrite fmap_app, nodes_app.
    + by rewrite fmap_app, fmap_cons, nodes_app, nodes_cons.
    + apply Forall_app in Hbs as [Hb1 Hb2]. apply Forall_app; split; [|apply Forall_cons; split].
      all: try (eapply Forall_impl; [eassumption|]; intros b Hb).
      all: by eapply block_at_same_but.
    + by apply (same_but_field _ _ _ _ _ Hs).
Qed.

(** The insertion-point loop: [prev] ends as the last block below [pa]. *)
Lemma find_prev_run m live bs0 r1 r2 prev pa n :
  lrep m live (bs0 ++ r1 ++ r2) → (length r1 + length r2 ≤ n)%nat →
  Forall (λ b, b_paddr b < pa) r1 → Forall (λ b, pa ≤ b_paddr b) r2 →
  find_prev __head n (hd __head (nodes off_node (b_addr <$> r1 ++ r2))) prev pa m =
  Ret (List.last (b_addr <$> r1) prev, m).
Proof.
  revert bs0 prev n. induction r1 as [|b r1 IH]; intros bs0 prev n Hr Hn H1 H2.
  - destruct r2 as [|b r2]; simpl in *.
    + destruct n; simpl; by rewrite Z.eqb_refl.
    + assert (b_addr b + off_node ≠ __head) as Hnh.
      { eapply dlist_not_head; [by eapply lrep_list|]. apply elem_of_nodes.
        apply list_elem_of_fmap_2. set_solver. }
      destruct n as [|n]; [lia|]. simpl. rewrite (proj2 (Z.eqb_neq _ _) Hnh).
      unfold list_entry. replace (b_addr b + off_node - off_node) with (b_addr b) by lia.
      pose proof (lrep_blocks _ _ _ Hr) as Hbs. rewrite Forall_forall in Hbs.
      destruct (Hbs b ltac:(set_solver)) as (Hpa & _ & _).
      erewrite bind_ret by by apply load_Some.
      apply Forall_cons in H2 as [H2 _]. by rewrite (proj2 (Z.geb_le _ _)) by lia.
  - assert (b_addr b + off_node ≠ __head) as Hnh.
    { eapply dlist_not_head; [by eapply lrep_list|]. apply elem_of_nodes.
      apply list_elem_of_fmap_2. set_solver. }
    destruct n as [|n]; simpl in Hn; [lia|]. simpl. rewrite (proj2 (Z.eqb_neq _ _) Hnh).
    unfold list_entry. replace (b_addr b + off_node - off_node) with (b_addr b) by lia.
    pose proof (lrep_blocks _ _ _ Hr) as Hbs. rewrite Forall_forall in Hbs.
    destruct (Hbs b ltac:(set_solver)) as (Hpa & _ & _).
    erewrite bind_ret by by apply load_Some.
    apply Forall_cons in H1 as [H1 H1'].
    destruct (Z.geb_spec (b_paddr b) pa); [lia|].
    assert (m !! (F_next, b_addr b + off_node) = Some (hd __head (nodes off_node (b_addr <$> r1 ++ r2)))) as En.
    { pose proof (lrep_list _ _ _ Hr) as Hl. rewrite fmap_app, nodes_app in Hl.
      by destruct (dlist_neighbours _ _ _ _ _ Hl) as [_ ?]. }
    erewrite bind_ret by by apply load_Some.
    rewrite (IH (bs0 ++ [b])); [|by rewrite <-app_assoc|lia|done|done].
    do 2 f_equal. destruct r1 as [|b' r1]; [done|]. simpl.
    clear. generalize (b_addr b'). induction r1 as [|c r1 IH]; intros x; simpl; [done|]. apply IH.
Qed.

Lemma lrep_addr_not_null m live bs b : lrep m live bs → b ∈ bs → b_addr b ≠ NULL.
Proof.
  intros [Hi _ Hbs] Hb E. rewrite Forall_forall in Hbs. destruct (Hbs _ Hb) as (_ & _ & Hl).
  rewrite E, (heap_inv_null _ _ Hi) in Hl. done.
Qed.

Lemma lrep_cells m live bs b : lrep m live bs → b ∈ bs →
  m !! (F_paddr, b_addr b) = Some (b_paddr b) ∧ m !! (F_size, b_addr b) = Some (b_size b).
Proof.
  intros [_ _ Hbs] Hb. rewrite Forall_forall in Hbs. destruct (Hbs _ Hb) as (? & ? & _). done.
Qed.

Lemma merge_downwards_run m live pre nb post (Q : Z → mem → Prop) :
  lrep m live (pre ++ nb :: post) → blk_ok nb → wf pre →
  Forall (λ a, b_paddr a + b_size a ≤ b_paddr nb) pre →
  (∀ m' live', lrep m' live' ((down pre nb).1 ++ (down pre nb).2 :: post) →
     m' !! (G_free_space, 0) = m !! (G_free_space, 0) → Q (b_addr (down pre nb).2) m') →
  wp (merge_downwards kfree (List.last (b_addr <$> pre) NULL) (b_addr nb)) m Q.
Proof using head_static.
  intros Hr Hnb Hwf Hle HQ. unfold merge_downwards.
  destruct (snoc_cases pre) as [->|(pre' & bp & ->)]; [by eapply HQ|].
  rewrite last_addr. rewrite down_snoc in HQ.
  pose proof (lrep_addr_not_null _ _ _ bp Hr ltac:(set_solver)) as Hnn.
  destruct (lrep_cells _ _ _ bp Hr ltac:(set_solver)) as [Hpp Hps].
  destruct (lrep_cells _ _ _ nb Hr ltac:(set_solver)) as [Hnp Hns].
  rewrite (proj2 (Z.eqb_neq _ _) Hnn). wp_run.
  apply wf_app in Hwf as (_ & [(? & ? & ? & _) _]%wf_cons & _).
  destruct Hnb as (? & ? & ? & _). rewrite Forall_forall in Hle.
  specialize (Hle bp ltac:(set_solver)). simpl in Hle.
  rewrite !wrap_small by (unfold in_range; lia). unfold touches in HQ.
  destruct (Z.eqb_spec (b_paddr bp + b_size bp) (b_paddr nb)); simpl; [|by eapply HQ].
  wp_run. rewrite <-app_assoc in Hr. simpl in Hr.
  apply (lrep_set_size _ _ pre' bp (nb :: post) (b_size bp + b_size nb)) in Hr.
  rewrite wrap_small by (unfold in_range; lia).
  change (_ ++ _ :: nb :: post) with (pre' ++ [merge bp nb] ++ nb :: post) in Hr.
  rewrite app_assoc in Hr.
  eapply wp_mono.
  { apply (lrep_unlink _ _ _ nb _ (λ _, Q (b_addr bp)) Hr). intros m' Hr' Hc'.
    rewrite <-app_assoc in Hr'. eapply HQ; [exact Hr'|]. rewrite Hc'. by mem_simpl. }
  intros [] m1 Hk. wp_step. eapply wp_mono; [exact Hk|]. done.
Qed.

Lemma merge_upwards_run m live pre cur post (Q : unit → mem → Prop) :
  lrep m live (pre ++ cur :: post) → blk_ok cur → wf post →
  Forall (λ b, b_paddr cur + b_size cur ≤ b_paddr b) post →
  (∀ m' live', lrep m' live' (pre ++ up cur post) →
     m' !! (G_free_space, 0) = m !! (G_free_space, 0) → Q () m') →
  wp (merge_upwards kfree __head (b_addr cur)) m Q.
Proof using head_static.
  intros Hr Hc Hwf Hle HQ. unfold merge_upwards, list_is_last, list_next_entry.
  assert (Hl := lrep_list _ _ _ Hr). rewrite fmap_app, fmap_cons, nodes_app, nodes_cons in Hl.
  destruct (dlist_neighbours _ _ _ _ _ Hl) as [_ En].
  wp_run. destruct post as [|bn post]; simpl in *.
  { rewrite Z.eqb_refl. simpl. wp_run. rewrite Z.eqb_refl. wp_run. by eapply HQ. }
  assert (Hnh : b_addr bn + off_node ≠ __head).
  { eapply dlist_not_head; [exact Hl|]. set_solver. }
  rewrite (proj2 (Z.eqb_neq _ _) Hnh). simpl. wp_run. unfold list_entry.
  replace (b_addr bn + off_node - off_node) with (b_addr bn) by lia.
  pose proof (lrep_addr_not_null _ _ _ bn Hr ltac:(set_solver)) as Hnn.
  destruct (lrep_cells _ _ _ bn Hr ltac:(set_solver)) as [Hpp Hps].
  destruct (lrep_cells _ _ _ cur Hr ltac:(set_solver)) as [Hnp Hns].
  rewrite (proj2 (Z.eqb_neq _ _) Hnn). wp_run.
  apply wf_cons in Hwf as [(? & ? & ? & _) _]. destruct Hc as (? & ? & ? & _).
  apply Forall_cons in Hle as [Hle _].
  rewrite wrap_small by (unfold in_range; lia). unfold touches in HQ.
  destruct (Z.eqb_spec (b_paddr cur + b_size cur) (b_paddr bn)); simpl;
    [|wp_run; by eapply HQ].
  wp_run. rewrite wrap_small by (unfold in_range; lia).
  apply (lrep_set_size _ _ pre cur (bn :: post) (b_size cur + b_size bn)) in Hr.
  change (_ ++ _ :: bn :: post) with (pre ++ [merge cur bn] ++ bn :: post) in Hr.
  rewrite app_assoc in Hr.
  apply (lrep_unlink _ _ _ bn _ Q Hr). intros m' Hr' Hc'.
  rewrite <-app_assoc in Hr'. eapply HQ; [exact Hr'|]. rewrite Hc'. by mem_simpl.
Qed.

(** A successful kmalloc() leaves the free list alone. *)
Lemma lrep_kmalloc_size m live bs sz this m1 :
  lrep m live bs → 0 < sz ≤ 2 ^ 32 - 48 → kmalloc sz 0 m = Ret (this, m1) → this ≠ NULL →
  lrep m1 (<[this := sz]> live) bs ∧ live !! this = None ∧
  m1 !! (G_free_space, 0) = m !! (G_free_space, 0) ∧
  (∀ d, 0 ≤ d < sz → this + d ≠ __head).
Proof using head_static.
  intros Hr Hsz Hk Hnn. assert (Hr' := Hr). destruct Hr' as [Hi Hl Hbs].
  pose proof (kmalloc_spec m live sz 0 Hi Hsz) as Hs.
  unfold wp in Hs. rewrite Hk in Hs. destruct Hs as [Hsame [[? _]|(_ & Hfresh & Hi1 & Hown)]]; [done|].
  split; [split|split; [done|split]].
  - done.
  - eapply dlist_frame; [| |exact Hl]; intros x Hx; apply Hsame; by eapply nodes_not_owned.
  - apply Forall_forall. intros b Hb. rewrite Forall_forall in Hbs.
    destruct (Hbs b Hb) as (? & ? & Hlb).
    assert (¬ heap_owned live (b_addr b)).
    { eapply lrep_not_owned; [done|done|]. unfold sizeof_block; lia. }
    unfold block_at. rewrite !Hsame by done. repeat split; [done..|].
    rewrite lookup_insert_ne; [done|]. intros E. by rewrite <-E, Hfresh in Hlb.
  - apply Hsame, heap_owned_static. unfold STATIC_TOP. lia.
  - intros d Hd E. apply (head_static live). rewrite <-E. apply Hown. lia.
Qed.

Lemma lrep_kmalloc m live bs this m1 :
  lrep m live bs → kmalloc sizeof_block 0 m = Ret (this, m1) → this ≠ NULL →
  lrep m1 (<[this := sizeof_block]> live) bs ∧ live !! this = None ∧
  m1 !! (G_free_space, 0) = m !! (G_free_space, 0) ∧
  (∀ d, 0 ≤ d < sizeof_block → this + d ≠ __head).
Proof using head_static. intros Hr. apply lrep_kmalloc_size; [done|by vm_compute]. Qed.

(** Filling in the fields of the fresh block. *)
Lemma lrep_init m live bs this pa sz fl :
  lrep m live bs → live !! this = Some sizeof_block → this ∉ b_addr <$> bs →
  let m' := <[(F_flags, this) := fl]> (<[(F_size, this) := sz]> (<[(F_paddr, this) := pa]> m)) in
  lrep m' live bs ∧ block_at m' live (mk_blk this pa sz) ∧
  m' !! (G_free_space, 0) = m !! (G_free_space, 0).
Proof.
  intros [Hi Hl Hbs] Hlv Hn m'.
  assert (¬ heap_owned live this).
  { eapply heap_owned_object; [eassumption|]. exists this, sizeof_block. unfold sizeof_block in *. split; [done|lia]. }
  split; [split|split].
  - by repeat apply heap_inv_store.
  - eapply dlist_frame; [| |done]; intros x _; unfold m'; by mem_simpl.
  - unfold m'. do 3 (apply blocks_other; [intros b Hb E; apply Hn; rewrite <-E;
      by apply list_elem_of_fmap_2|]). done.
  - unfold block_at, m'. simpl. mem_simpl. done.
  - unfold m'. by mem_simpl.
Qed.

Lemma link_run m live pre nb post (Q : unit → mem → Prop) :
  lrep m live (pre ++ post) → block_at m live nb →
  b_addr nb ∉ b_addr <$> pre ++ post → b_addr nb + off_node ≠ __head →
  (∀ m', lrep m' live (pre ++ nb :: post) →
         m' !! (G_free_space, 0) = m !! (G_free_space, 0) → Q () m') →
  wp (if negb (List.last (b_addr <$> pre) NULL =? NULL)
      then list_add_after (b_addr nb + off_node) (List.last (b_addr <$> pre) NULL + off_node)
      else list_add_after (b_addr nb + off_node) __head) m Q.
Proof using head_static.
  intros Hr Hb Hni Hnh HQ.
  pose proof (lrep_link m live pre nb post Q Hr Hb Hni Hnh HQ) as Hw.
  destruct (snoc_cases pre) as [->|(pre' & bp & Epre)]; [exact Hw|].
  rewrite last_nodes in Hw by (rewrite Epre, fmap_app; by destruct (b_addr <$> pre')).
  assert (List.last (b_addr <$> pre) NULL ≠ NULL) as Hne.
  { rewrite Epre, last_addr. eapply lrep_addr_not_null; [exact Hr|]. set_solver. }
  rewrite (proj2 (Z.eqb_neq _ _) Hne). exact Hw.
Qed.

(** Functional correctness of __free: the block list afterwards. *)
Lemma free_run m live pre post pg this m1 :
  let nb := mk_blk this (paddr pg) (size pg) in
  rep m live (pre ++ post) → wf (pre ++ post) → blk_ok nb → between pre nb post →
  kmalloc sizeof_block 0 m = Ret (this, m1) → this ≠ NULL →
  wp (__free kmalloc kfree __head pg) m (λ _ m',
    ∃ live', rep m' live' (free_list pre nb post)).
Proof using head_static.
  intros nb [Hr Hc] Hwf Hnb Hbt Hk Hnn.
  assert (Hnb' := Hnb). destruct Hnb' as (Hlo & Hpos & Hhi & Hpa & Hsz). simpl in *.
  destruct (free_list_ok _ _ _ Hnb Hwf Hbt) as (Hwf' & Hsum & _). apply wf_sum in Hwf'.
  assert (Hsum0 := wf_sum _ Hwf).
  destruct (lrep_kmalloc _ _ _ _ _ Hr Hk Hnn) as (Hr1 & Hfresh & Hc1 & Hnh).
  unfold __free. rewrite !IS_ALIGNED_page, !bool_decide_true by (done || lia). simpl.
  wp_step. eapply wp_eq; [exact Hk|]. rewrite (proj2 (Z.eqb_neq _ _) Hnn). wp_run.
  assert (Hni : this ∉ b_addr <$> pre ++ post).
  { intros (b & E & Hb)%list_elem_of_fmap. apply lrep_blocks in Hr.
    rewrite Forall_forall in Hr. destruct (Hr b Hb) as (_ & _ & Hlb).
    by rewrite <-E, Hfresh in Hlb. }
  destruct (lrep_init _ _ _ this (paddr pg) (size pg) (flags pg) Hr1
              ltac:(by rewrite lookup_insert_eq) Hni) as (Hr2 & Hb2 & Hc2).
  set (m2 := <[(F_flags, this) := _]> _) in *. clearbody m2.
  destruct (dlist_edge _ _ [] _ (lrep_list _ _ _ Hr2)) as [En _]. simpl in En.
  eapply wp_load; [exact En|].
  destruct (between_prev _ _ _ (paddr pg) Hwf Hbt eq_refl Hpos) as [Hlt Hge].
  wp_step. unfold with_fuel. eapply wp_eq.
  { eapply (find_prev_run m2 _ [] pre post); [exact Hr2| |done|done].
    pose proof (dlist_size _ _ _ (lrep_list _ _ _ Hr2)) as Hlen.
    unfold nodes in Hlen. rewrite !length_fmap, length_app in Hlen. lia. }
  destruct Hbt as [Hbt1 Hbt2].
  wp_step. eapply (link_run m2 _ pre nb post); [done|done|done|by apply (Hnh off_node)|].
  intros m3 Hr3 Hc3.
  apply wf_app in Hwf as (Hwf1 & Hwf2 & _).
  pose proof (down_ok pre nb Hnb Hwf1 Hbt1) as Hd.
  wp_step. eapply (merge_downwards_run m3 _ pre nb post); [done..|]. intros m4 live4 Hr4 Hc4.
  unfold free_list in *. destruct (down pre nb) as [pre' cur]. simpl in *.
  destruct Hd as (_ & Hcur & _ & _ & Hend & _).
  wp_step. eapply (merge_upwards_run m4 live4 pre' cur post); [done|done|done|by rewrite Hend|].
  intros m5 live5 Hr5 Hc5.
  assert (Hc' : m5 !! (G_free_space, 0) = Some (sum_with b_size (pre ++ post))) by congruence.
  wp_run. exists live5. split; [by apply lrep_count|]. mem_simpl. rewrite wrap_small; [by rewrite Hsum|].
  unfold in_range. lia.
Qed.


End proofs.
End ff.
