(* ===== verification/Flff.v ===== *)
(** kern/mm/vmm/flff.c: the first-fit free-list allocator behind kmalloc(). *)
From Stdlib Require Import ZArith Lia.
From stdpp Require Import base numbers gmap list.
From S2P Require Import Prelude DList Util Pmm Heap.

Open Scope Z_scope.

Module flff.

Definition ALLOC_ALIGN : Z := 16.

(** struct blockhdr: size at 0, free at 4, flags at 8, node at 12, padded to
    32 bytes. The [size] of a block counts its header. *)
Definition off_node : Z := 12.
Definition sizeof_blockhdr : Z := 32.

Definition PAYLOAD (bh : Z) : Z := u32 (bh + sizeof_blockhdr).
Definition HEADER (payload : Z) : Z := u32 (payload - sizeof_blockhdr).

Definition b2z (b : bool) : Z := if b then 1 else 0.

Section code.
Context (alloc_pages : pages → M mem (Z * pages)) (free_pages : pages → M mem unit).
Context (pa2kva : Z → Z).

(** The two search loops. *)
Definition find_fit (head allocsize : Z) : M mem Z :=
  for_each_entry head off_node (λ this,
    sz ← load F_bh_size this; mret (sz >=? allocsize)).

Definition find_above (head this : Z) : M mem Z :=
  for_each_entry head off_node (λ tmp, mret (tmp >=? this)).

(** No fit found: a new block out of fresh pages, [None] when there are none. *)
Definition more_pages (head size flags : Z) : M mem (option Z) :=
  r ← alloc_pages (mk_pages 0 (ALIGN_ABOVE 32 size PAGE_SIZE) flags 0);
  if fst r =? EOF then mret None else
  let pages := snd r in
  let this := pa2kva (u32 (paddr pages)) in
  _ ← store F_bh_size this (u32 (Pmm.size pages));
  _ ← store F_bh_free this (b2z true);
  _ ← store F_bh_flags this flags;
  tmp ← find_above head this;
  _ ← list_add_before (this + off_node) (tmp + off_node);
  mret (Some this).

(** The cut of the block that was found, and its removal from the list. *)
Definition cut_block (this allocsize : Z) : M mem Z :=
  sz ← load F_bh_size this;
  let newsize := u32 (sz - allocsize) in
  _ ← (if newsize >=? sizeof_blockhdr + ALLOC_ALIGN
       then let newblock := u32 (this + allocsize) in
            _ ← store F_bh_size newblock newsize;
            _ ← store F_bh_free newblock (b2z true);
            fl ← load F_bh_flags this;
            _ ← store F_bh_flags newblock fl;
            _ ← store F_bh_size this allocsize;
            list_add_after (newblock + off_node) (this + off_node)
       else mret ());
  _ ← store F_bh_free this (b2z false);
  _ ← list_del (this + off_node);
  mret (PAYLOAD this).

Definition __alloc (head size flags : Z) : M mem Z :=
  (* make a good size *)
  let size := ALIGN_ABOVE 32 size ALLOC_ALIGN in
  let allocsize := u32 (size + sizeof_blockhdr) in
  (* search for a first fit *)
  this ← find_fit head allocsize;
  r ← (if this + off_node =? head then more_pages head size flags else mret (Some this));
  match r with
  | None => mret NULL
  | Some this => cut_block this allocsize
  end.

(** __free(): insertion by address, the two merges, the return of pages. *)
Definition insert_block (head this : Z) : M mem unit :=
  tmp ← find_above head this;
  list_add_before (this + off_node) (tmp + off_node).

Definition merge_downwards (head this : Z) : M mem Z :=
  pv ← load F_prev (this + off_node);
  let tmp := list_entry pv off_node in
  if tmp + off_node =? head then mret this else
  tsz ← load F_bh_size tmp;
  if negb (u32 (tmp + tsz) =? this) then mret this else
  sz ← load F_bh_size this;
  _ ← store F_bh_size tmp (u32 (tsz + sz));
  _ ← list_del (this + off_node);
  mret tmp.

Definition merge_upwards (head this : Z) : M mem unit :=
  nx ← load F_next (this + off_node);
  let tmp := list_entry nx off_node in
  if tmp + off_node =? head then mret () else
  sz ← load F_bh_size this;
  if negb (u32 (this + sz) =? tmp) then mret () else
  tsz ← load F_bh_size tmp;
  _ ← store F_bh_size this (u32 (sz + tsz));
  list_del (tmp + off_node).

Definition return_pages (this : Z) : M mem unit :=
  sz ← load F_bh_size this;
  let end_ := u32 (this + sz) in
  let first_border := ALIGN_ABOVE 32 this PAGE_SIZE in
  let last_border := ALIGN_BELOW 32 end_ PAGE_SIZE in
  if first_border <? last_border then
    fl ← load F_bh_flags this;
    let pages := mk_pages first_border (last_border - first_border) fl 0 in
    (* upper slice *)
    _ ← (if last_border <? end_
         then _ ← store F_bh_size last_border (end_ - last_border);
              _ ← store F_bh_free last_border (b2z true);
              _ ← store F_bh_flags last_border fl;
              list_add_after (last_border + off_node) (this + off_node)
         else mret ());
    (* lower slice *)
    _ ← (if first_border >? this
         then store F_bh_size this (first_border - this)
         else list_del (this + off_node));
    (* really free pages *)
    free_pages pages
  else mret ().

Definition __free (head obj : Z) : M mem unit :=
  let this := HEADER obj in
  _ ← store F_bh_free this (b2z true);
  _ ← insert_block head this;
  this ← merge_downwards head this;
  _ ← merge_upwards head this;
  return_pages this.

Definition __size (obj : Z) : M mem Z :=
  sz ← load F_bh_size (HEADER obj);
  mret (u32 (sz - sizeof_blockhdr)).

(** The two instances: a static list head each. *)
Context (__bootstrap_head __head : Z).

Definition __bootstrap_alloc (size flags : Z) : M mem Z := __alloc __bootstrap_head size flags.
Definition __proper_alloc (size flags : Z) : M mem Z := __alloc __head size flags.
Definition __bootstrap_free (obj : Z) : M mem unit := __free __bootstrap_head obj.
Definition __proper_free (obj : Z) : M mem unit := __free __head obj.
End code.

Section init.
Context (__bootstrap_head __head : Z).
(** set_simple_allocator() with this file's function pointers. *)
Context (set_bootstrap set_proper : M mem unit).

Definition simple_allocator_bootstrap (pt size : Z) : M mem Z :=
  _ ← store F_bh_size pt size;
  _ ← store F_bh_free pt (b2z true);
  _ ← INIT_LIST_HEAD __bootstrap_head;
  _ ← list_add_after (pt + off_node) __bootstrap_head;
  _ ← set_bootstrap;
  mret 0.

Definition simple_allocator_init : M mem Z :=
  _ ← INIT_LIST_HEAD __head;
  _ ← set_proper;
  mret 0.
End init.

(** * The pool as a sequence of tiles

    The pool [lo, hi) is tiled by blocks, free or handed out; the free ones
    form the list, in address order. *)
Record tile : Type := mk_tile {
  t_addr : Z;
  t_size : Z;
  t_live : option Z (* the size asked for, [None] for a free block *)
}.

Definition t_free (t : tile) : bool := if t_live t then false else true.
Definition t_end (t : tile) : Z := t_addr t + t_size t.

Definition tile_ok (t : tile) : Prop :=
  48 ≤ t_size t ∧ t_size t mod 16 = 0 ∧
  match t_live t with Some sz => 0 < sz ∧ 32 + sz ≤ t_size t | None => True end.

Fixpoint tiles (lo hi : Z) (ts : list tile) : Prop :=
  match ts with
  | [] => lo = hi
  | t :: ts => t_addr t = lo ∧ tile_ok t ∧ tiles (t_end t) hi ts
  end.

Definition frees (ts : list tile) : list Z := t_addr <$> filter t_free ts.

Lemma tiles_app lo hi l1 l2 :
  tiles lo hi (l1 ++ l2) ↔ ∃ mid, tiles lo mid l1 ∧ tiles mid hi l2.
Proof.
  revert lo. induction l1 as [|t l1 IH]; intros lo; simpl.
  - split; [intros; by exists lo|]. by intros (? & -> & ?).
  - rewrite IH. naive_solver.
Qed.

Lemma tiles_le lo hi ts : tiles lo hi ts → lo ≤ hi.
Proof.
  revert lo. induction ts as [|t ts IH]; intros lo; simpl; [lia|].
  intros (<- & (? & _) & Ht). apply IH in Ht. unfold t_end in Ht. lia.
Qed.

Lemma tiles_elem lo hi ts t :
  tiles lo hi ts → t ∈ ts → lo ≤ t_addr t ∧ t_end t ≤ hi ∧ tile_ok t.
Proof.
  intros Ht Hin. apply list_elem_of_split in Hin as (l1 & l2 & ->).
  apply tiles_app in Ht as (mid & H1 & H2). simpl in H2. destruct H2 as (<- & Hok & H2).
  apply tiles_le in H1, H2. done.
Qed.

Lemma frees_app l1 l2 : frees (l1 ++ l2) = frees l1 ++ frees l2.
Proof. unfold frees. by rewrite filter_app, fmap_app. Qed.

Lemma frees_cons t ts : frees (t :: ts) = if t_free t then t_addr t :: frees ts else frees ts.
Proof.
  unfold frees. rewrite filter_cons. destruct (t_free t); simpl; by repeat case_decide.
Qed.

Lemma frees_elem a ts : a ∈ frees ts ↔ ∃ t, t ∈ ts ∧ t_free t ∧ t_addr t = a.
Proof.
  unfold frees. rewrite list_elem_of_fmap. setoid_rewrite list_elem_of_filter. naive_solver.
Qed.

(** Two tiles of one tiling that share an address are the same. *)
Lemma tiles_inj lo hi ts t t' :
  tiles lo hi ts → t ∈ ts → t' ∈ ts → t_addr t = t_addr t' → t = t'.
Proof.
  intros Ht Hin Hin' E. apply list_elem_of_split in Hin as (l1 & l2 & ->).
  apply tiles_app in Ht as (mid & H1 & H2). simpl in H2. destruct H2 as (Em & (? & _) & H2).
  apply elem_of_app in Hin' as [Hin'|[->|Hin']%elem_of_cons]; [|done|].
  - destruct (tiles_elem _ _ _ _ H1 Hin') as (? & ? & ? & _). unfold t_end in *. lia.
  - destruct (tiles_elem _ _ _ _ H2 Hin') as (? & ? & ? & _). unfold t_end in *. lia.
Qed.

(** Distinct tiles are disjoint. *)
Lemma tiles_disjoint lo hi ts t t' :
  tiles lo hi ts → t ∈ ts → t' ∈ ts → t_addr t ≠ t_addr t' →
  t_end t ≤ t_addr t' ∨ t_end t' ≤ t_addr t.
Proof.
  intros Ht Hin Hin' E. apply list_elem_of_split in Hin as (l1 & l2 & ->).
  apply tiles_app in Ht as (mid & H1 & H2). simpl in H2. destruct H2 as (Em & (? & _) & H2).
  apply elem_of_app in Hin' as [Hin'|[->|Hin']%elem_of_cons]; [|done|].
  - destruct (tiles_elem _ _ _ _ H1 Hin') as (? & ? & ? & _). lia.
  - destruct (tiles_elem _ _ _ _ H2 Hin') as (? & ? & ? & _). lia.
Qed.

Lemma tile_aligned l h ts t :
  tiles l h ts → l mod 16 = 0 → t ∈ ts → t_addr t mod 16 = 0.
Proof.
  revert l. induction ts as [|t' ts IH]; intros l; simpl; [by intros _ _ ?%elem_of_nil|].
  intros (<- & (_ & Hm & _) & Ht) Hl [->|Hin]%elem_of_cons; [done|].
  apply (IH (t_end t')); [done| |done]. unfold t_end. Z.div_mod_to_equations. lia.
Qed.

Section pool.
Context (lo hi head : Z).
Hypothesis Hpool : STATIC_TOP ≤ lo ∧ lo mod 16 = 0 ∧ hi ≤ lo + PAGE_SIZE ∧ hi ≤ 2 ^ 32 - PAGE_SIZE.
Hypothesis Hhead : STATIC_TOP ≤ head ∧ ¬ (lo ≤ head < hi).

Definition hdr_at (m : mem) (t : tile) : Prop :=
  m !! (F_bh_size, t_addr t) = Some (t_size t) ∧ is_Some (m !! (F_bh_flags, t_addr t)).

Definition live_of (ts : list tile) (live : gmap Z Z) : Prop :=
  ∀ p sz, live !! p = Some sz ↔
    ∃ t, t ∈ ts ∧ t_live t = Some sz ∧ p = t_addr t + sizeof_blockhdr.

Record trep (m : mem) (ts : list tile) : Prop := {
  trep_tiles : tiles lo hi ts;
  trep_list : dlist m head (nodes off_node (frees ts));
  trep_hdr : Forall (hdr_at m) ts;
}.

Definition pool_inv (m : mem) (live : gmap Z Z) : Prop :=
  ∃ ts, trep m ts ∧ live_of ts live.

Definition pool_owned (live : gmap Z Z) (a : Z) : Prop :=
  a = head ∨ (lo ≤ a < hi ∧ ¬ in_object live a).

(** Cells of the pool's own bookkeeping: headers, and all of a free block. *)
Definition in_mgmt (t : tile) (a : Z) : Prop :=
  t_addr t ≤ a < t_addr t + (if t_live t then sizeof_blockhdr else t_size t).

Definition foreign (ts : list tile) (a : Z) : Prop :=
  a ≠ head ∧ ∀ t, t ∈ ts → ¬ in_mgmt t a.

Definition pframe (ts : list tile) (m m' : mem) : Prop :=
  ∀ f a, foreign ts a → m' !! (f, a) = m !! (f, a).

Lemma pframe_refl ts m : pframe ts m m.
Proof. done. Qed.

Lemma pframe_trans ts m1 m2 m3 : pframe ts m1 m2 → pframe ts m2 m3 → pframe ts m1 m3.
Proof. intros H1 H2 f a Ha. by rewrite H2, H1. Qed.

Lemma pframe_store ts m m' f x v :
  (∃ t, t ∈ ts ∧ in_mgmt t x) → pframe ts m m' → pframe ts m (<[(f, x) := v]> m').
Proof.
  intros (t & Ht & Hx) Hp g a Ha. rewrite lookup_insert_ne; [by apply Hp|].
  intros ?; simplify_eq. destruct Ha as [_ Ha]. by apply (Ha t).
Qed.

Lemma pframe_same_but ts ns m m' :
  same_but ns m m' → (∀ x, x ∈ ns → x = head ∨ ∃ t, t ∈ ts ∧ in_mgmt t x) → pframe ts m m'.
Proof.
  intros Hs Hn f a [Hh Ha]. apply Hs. right. intros Hin.
  destruct (Hn a Hin) as [?|(t & Ht & Hx)]; [done|]. by apply (Ha t).
Qed.

Lemma mgmt_header t d : tile_ok t → 0 ≤ d < sizeof_blockhdr → in_mgmt t (t_addr t + d).
Proof.
  intros (? & _) Hd. unfold in_mgmt, sizeof_blockhdr in *. destruct (t_live t); lia.
Qed.

Lemma node_mgmt ts x :
  tiles lo hi ts → x ∈ head :: nodes off_node (frees ts) →
  x = head ∨ ∃ t, t ∈ ts ∧ in_mgmt t x.
Proof.
  intros Ht [->|Hx]%elem_of_cons; [by left|]. right.
  unfold nodes in Hx. apply list_elem_of_fmap in Hx as (a & -> & Ha).
  apply frees_elem in Ha as (t & Hin & _ & <-). exists t. split; [done|].
  destruct (tiles_elem _ _ _ _ Ht Hin) as (_ & _ & Hok).
  apply mgmt_header; [done|]. by vm_compute.
Qed.

(** Bookkeeping cells are the allocator's own. *)
Lemma mgmt_not_object ts live t a :
  tiles lo hi ts → live_of ts live → t ∈ ts → in_mgmt t a → ¬ in_object live a.
Proof.
  intros Ht Hl Hin Ha (p & sz & Hp & Hpa). apply Hl in Hp as (t' & Hin' & Hlv & ->).
  destruct (tiles_elem _ _ _ _ Ht Hin) as (_ & _ & (? & _ & Hok)).
  destruct (tiles_elem _ _ _ _ Ht Hin') as (_ & _ & (? & _ & Hok')). rewrite Hlv in Hok'.
  unfold in_mgmt in Ha. destruct (decide (t_addr t = t_addr t')) as [E|E].
  - rewrite (tiles_inj _ _ _ _ _ Ht Hin Hin' E), Hlv in Ha. lia.
  - unfold sizeof_blockhdr in *.
    destruct (tiles_disjoint _ _ _ _ _ Ht Hin Hin' E); unfold t_end in *; destruct (t_live t); lia.
Qed.

Lemma foreign_not_owned ts live a :
  tiles lo hi ts → live_of ts live → ¬ pool_owned live a → foreign ts a.
Proof.
  intros Ht Hl Hno. split; [intros ->; apply Hno; by left|].
  intros t Hin Ha. apply Hno. right. split; [|by eapply mgmt_not_object].
  destruct (tiles_elem _ _ _ _ Ht Hin) as (? & ? & (? & _)). unfold in_mgmt, t_end, sizeof_blockhdr in *.
  destruct (t_live t); lia.
Qed.

Lemma tiles_range ts t : tiles lo hi ts → t ∈ ts →
  lo ≤ t_addr t ∧ t_addr t + t_size t ≤ hi ∧ 48 ≤ t_size t ∧ hi ≤ lo + 4096 ∧ hi ≤ 2 ^ 32 - 4096 ∧ 64 ≤ lo.
Proof using Hpool.
  intros Ht Hin. destruct (tiles_elem _ _ _ _ Ht Hin) as (? & ? & (? & _)).
  destruct Hpool as (? & _ & ? & ?). unfold t_end, PAGE_SIZE, PAGE_SHIFT, STATIC_TOP in *.
  change (Z.shiftl 1 12) with 4096 in *. lia.
Qed.

(** A new node inside the pool is not the sentry and not in the list. *)
Lemma fresh_node ts t d :
  tiles lo hi ts → t ∈ ts → 0 ≤ d < t_size t - 12 → t_addr t + d ∉ frees ts →
  t_addr t + d + off_node ∉ head :: nodes off_node (frees ts).
Proof using Hhead.
  intros Ht Hin Hd Hn. apply not_elem_of_cons. split.
  - intros E. destruct Hhead as [_ Hh]. apply Hh.
    destruct (tiles_elem _ _ _ _ Ht Hin) as (? & ? & (? & _)). unfold t_end, off_node in *. lia.
  - by rewrite elem_of_nodes.
Qed.

Lemma inside_not_free ts t d :
  tiles lo hi ts → t ∈ ts → 0 < d < t_size t → t_addr t + d ∉ frees ts.
Proof.
  intros Ht Hin Hd (t' & Hin' & _ & E)%frees_elem.
  destruct (tiles_disjoint _ _ _ t t' Ht Hin Hin') as [?|?]; [lia| |];
    destruct (tiles_elem _ _ _ _ Ht Hin') as (_ & _ & (? & _)); unfold t_end in *; lia.
Qed.

Lemma live_not_free ts t :
  tiles lo hi ts → t ∈ ts → t_free t = false → t_addr t ∉ frees ts.
Proof.
  intros Ht Hin Hf (t' & Hin' & Hf' & E)%frees_elem.
  rewrite (tiles_inj _ _ _ _ _ Ht Hin' Hin E), Hf in Hf'. done.
Qed.

(** ** Cutting a free tile *)

Lemma hdr_store m l f x v :
  (∀ t, t ∈ l → t_addr t ≠ x) → Forall (hdr_at m) l → Forall (hdr_at (<[(f, x) := v]> m)) l.
Proof.
  intros Hne Hl. rewrite Forall_forall in Hl. apply Forall_forall. intros t Ht.
  destruct (Hl t Ht) as [H1 H2]. specialize (Hne t Ht). unfold hdr_at. by mem_simpl.
Qed.

Lemma hdr_store_free m l x v :
  Forall (hdr_at m) l → Forall (hdr_at (<[(F_bh_free, x) := v]> m)) l.
Proof.
  intros Hl. eapply Forall_impl; [exact Hl|]. intros t [H1 H2]. unfold hdr_at. by mem_simpl.
Qed.

Lemma hdr_same_but ns m m' l :
  same_but ns m m' → Forall (hdr_at m) l → Forall (hdr_at m') l.
Proof.
  intros Hs Hl. eapply Forall_impl; [exact Hl|]. intros t [H1 H2]. unfold hdr_at.
  by rewrite !(same_but_field _ _ _ _ _ Hs).
Qed.

Lemma dlist_store m h l f x v :
  f ≠ F_next → f ≠ F_prev → dlist m h l → dlist (<[(f, x) := v]> m) h l.
Proof.
  intros Hn Hp. apply dlist_frame; intros y _; rewrite lookup_insert_ne; congruence.
Qed.

Definition split (t : tile) (asz sz : Z) : list tile :=
  if t_size t - asz >=? 48
  then [mk_tile (t_addr t) asz (Some sz); mk_tile (t_addr t + asz) (t_size t - asz) None]
  else [mk_tile (t_addr t) (t_size t) (Some sz)].

(** What a cut may change of a tiling. *)
Definition cut_args (t : tile) (asz sz : Z) : Prop :=
  t_live t = None ∧ 48 ≤ asz ≤ t_size t ∧ asz mod 16 = 0 ∧ 0 < sz ∧ 32 + sz ≤ asz.

Lemma split_tiles pre t post asz sz :
  tiles lo hi (pre ++ t :: post) → cut_args t asz sz → tiles lo hi (pre ++ split t asz sz ++ post).
Proof.
  rewrite !tiles_app. intros (mid & H1 & <- & (? & ? & _) & H2) (Hl & ? & ? & ? & ?).
  exists (t_addr t). split; [done|]. unfold split.
  destruct (Z.geb_spec (t_size t - asz) 48); simpl; unfold tile_ok, t_end in *; simpl.
  - split; [done|]. split; [repeat split; try done; lia|]. split; [done|].
    split; [|by replace (t_addr t + asz + (t_size t - asz)) with (t_addr t + t_size t) by lia].
    repeat split; [lia|]. Z.div_mod_to_equations. lia.
  - repeat split; try done; lia.
Qed.

Lemma frees_split pre t post asz sz :
  t_live t = None →
  frees (pre ++ split t asz sz ++ post) =
  frees pre ++ (if t_size t - asz >=? 48 then [t_addr t + asz] else []) ++ frees post.
Proof.
  intros Hl. rewrite !frees_app. f_equal. f_equal. unfold split.
  destruct (t_size t - asz >=? 48); by rewrite !frees_cons.
Qed.

Lemma frees_mid pre t post :
  frees (pre ++ t :: post) =
  frees pre ++ (if t_free t then [t_addr t] else []) ++ frees post.
Proof. rewrite frees_app, frees_cons. by destruct (t_free t). Qed.

Lemma others_ne ts pre t post t' :
  ts = pre ++ t :: post → tiles lo hi ts → t' ∈ pre ++ post → t_addr t' ≠ t_addr t.
Proof.
  intros -> Ht Hin E. apply tiles_app in Ht as (mid & H1 & (<- & (? & _) & H2)).
  apply elem_of_app in Hin as [Hin|Hin].
  - destruct (tiles_elem _ _ _ _ H1 Hin) as (? & ? & ? & _). unfold t_end in *. lia.
  - destruct (tiles_elem _ _ _ _ H2 Hin) as (? & ? & ? & _). unfold t_end in *. lia.
Qed.

Lemma unlink_run m ts pre t post v (Q : Z → mem → Prop) :
  ts = pre ++ t :: post → tiles lo hi ts →
  dlist m head (nodes off_node (frees pre ++ t_addr t :: v)) →
  (∀ x, x ∈ nodes off_node v → ∃ t, t ∈ ts ∧ in_mgmt t x) →
  (∀ m', dlist m' head (nodes off_node (frees pre ++ v)) →
     (∀ l, Forall (hdr_at m) l → Forall (hdr_at m') l) → pframe ts m m' →
     Q (t_addr t + sizeof_blockhdr) m') →
  wp (_ ← store F_bh_free (t_addr t) (b2z false); _ ← list_del (t_addr t + off_node);
      mret (PAYLOAD (t_addr t))) m Q.
Proof using Hpool Hhead.
  intros -> Ht Hl Hv HQ. rewrite nodes_app, nodes_cons in Hl. wp_run.
  eapply wp_list_del; [apply dlist_store; [done..|exact Hl]|]. intros m2 Hl2 Hs2. wp_run.
  assert (t ∈ pre ++ t :: post) as Hin by set_solver.
  pose proof (tiles_range _ _ Ht Hin). unfold PAYLOAD, sizeof_blockhdr in *.
  rewrite wrap_small by (unfold in_range; lia). apply HQ.
  - by rewrite nodes_app.
  - intros l Hh. eapply hdr_same_but; [exact Hs2|]. by apply hdr_store_free.
  - apply (pframe_trans _ _ (<[(F_bh_free, t_addr t) := b2z false]> m));
      [apply pframe_store; [|apply pframe_refl]|].
    + exists t. split; [done|]. rewrite <-(Z.add_0_r (t_addr t)). apply mgmt_header; [|by vm_compute].
      by apply (tiles_elem _ _ _ _ Ht Hin).
    + eapply pframe_same_but; [exact Hs2|]. intros x [->|[Hx|Hx]%elem_of_app]%elem_of_cons; [by left| |by auto].
      apply node_mgmt; [done|]. rewrite frees_mid, nodes_app. set_solver.
Qed.

Lemma cut_block_run m pre t post asz sz (Q : Z → mem → Prop) :
  let ts := pre ++ t :: post in
  trep m ts → cut_args t asz sz →
  (∀ m', trep m' (pre ++ split t asz sz ++ post) → pframe ts m m' →
     Q (t_addr t + sizeof_blockhdr) m') →
  wp (cut_block (t_addr t) asz) m Q.
Proof using Hpool Hhead.
  intros ts [Ht Hl Hh] Hargs HQ. assert (t ∈ ts) as Hin by set_solver.
  pose proof (tiles_range _ _ Ht Hin) as Hrng.
  pose proof (split_tiles _ _ _ _ _ Ht Hargs) as Ht'. destruct Hargs as (Hlv & Hasz & ? & ? & ?).
  pose proof (frees_split pre t post asz sz Hlv) as Hfs.
  assert (Hfr : frees ts = frees pre ++ [t_addr t] ++ frees post).
  { unfold ts. rewrite frees_mid. unfold t_free. by rewrite Hlv. }
  assert (Hnodes := node_mgmt ts). rewrite Hfr in Hl, Hnodes.
  assert (Hpost : ∀ x, x ∈ nodes off_node (frees post) → ∃ t', t' ∈ ts ∧ in_mgmt t' x).
  { intros x Hx. assert (x ∈ nodes off_node (frees pre ++ [t_addr t] ++ frees post)) as Hx'
      by (rewrite !nodes_app; set_solver).
    destruct (Hnodes x Ht ltac:(set_solver)) as [->|?]; [|done].
    by destruct (dlist_not_head _ _ _ _ Hl Hx'). }
  assert (Hh' := Hh). rewrite Forall_forall in Hh'. destruct (Hh' t Hin) as [Hsz [fl Hfl]].
  apply Forall_app in Hh as [Hh1 Hh2]. apply Forall_cons in Hh2 as [_ Hh2].
  assert (Hne : ∀ t', t' ∈ pre ++ post → t_addr t' ≠ t_addr t) by (intros t' ?; by eapply (others_ne ts pre t post)).
  unfold cut_block. wp_run. rewrite wrap_small by (unfold in_range; lia).
  unfold split in *. change (sizeof_blockhdr + ALLOC_ALIGN) with 48.
  destruct (Z.geb_spec (t_size t - asz) 48).
  - rewrite wrap_small by (unfold in_range; lia).
    set (nb := t_addr t + asz) in *.
    assert (nb ∉ frees ts) as Hnb by (apply inside_not_free; [done|done|lia]).
    assert (Hne' : ∀ t', t' ∈ pre ++ post → t_addr t' ≠ nb).
    { intros t' Ht1 E. assert (t' ∈ ts) as Hin' by set_solver.
      destruct (tiles_disjoint _ _ _ t t' Ht Hin Hin'); [specialize (Hne t' Ht1); congruence| |];
        destruct (tiles_elem _ _ _ _ Ht Hin') as (_ & _ & (? & _)); unfold t_end in *; lia. }
    wp_run.
    set (m1 := <[(F_bh_size, t_addr t) := asz]> _).
    assert (Hl1 : dlist m1 head (nodes off_node ((frees pre ++ [t_addr t]) ++ frees post))).
    { unfold m1. do 4 (apply dlist_store; [done..|]). by rewrite <-app_assoc. }
    assert (Hin_t : ∀ d, 0 ≤ d < t_size t → ∃ t', t' ∈ ts ∧ in_mgmt t' (t_addr t + d)).
    { intros d Hd. exists t. split; [done|]. unfold in_mgmt. rewrite Hlv. lia. }
    assert (Hp1 : pframe ts m m1).
    { unfold m1. apply pframe_store; [rewrite <-(Z.add_0_r (t_addr t)); apply Hin_t; lia|].
      do 3 (apply pframe_store; [apply Hin_t; lia|]). done. }
    assert (Hh1' : Forall (hdr_at m1) (pre ++ [mk_tile (t_addr t) asz (Some sz);
              mk_tile nb (t_size t - asz) None] ++ post)).
    { assert (nb ≠ t_addr t) by lia.
      rewrite !Forall_app, !Forall_cons. repeat split; try apply Forall_nil_2; unfold m1; simpl.
      all: repeat (apply hdr_store; [intros; (apply Hne || apply Hne'); set_solver|]).
      all: mem_simpl; by eauto. }
    eapply (wp_list_add m1 head (nodes off_node (frees pre ++ [t_addr t])) (nodes off_node (frees post))).
    { by rewrite <-nodes_app. }
    { rewrite nodes_app, nodes_cons. by rewrite List.last_last. }
    { rewrite <-nodes_app, <-app_assoc, <-Hfr. apply fresh_node; [done|done|lia|done]. }
    intros m2 Hl2 Hs2.
    eapply (unlink_run m2 ts pre t post (nb :: frees post)); [done|done| | |].
    { rewrite nodes_app in Hl2. rewrite <-app_assoc in Hl2. by rewrite nodes_app. }
    { intros x. rewrite nodes_cons. intros [->|Hx]%elem_of_cons;
        [unfold nb; rewrite <-Z.add_assoc; apply Hin_t; unfold off_node; lia|].
      by apply Hpost. }
    intros m3 Hl3 Hh3 Hp3. apply HQ.
    + split; [done|by rewrite Hfs|]. apply Hh3. by eapply hdr_same_but.
    + eapply pframe_trans; [exact Hp1|]. eapply pframe_trans; [|exact Hp3].
      eapply pframe_same_but; [exact Hs2|]. intros x [->|Hx]%elem_of_cons.
      * right. unfold nb. rewrite <-Z.add_assoc. apply Hin_t. unfold off_node. lia.
      * apply Hnodes; [done|]. by rewrite <-nodes_app, <-app_assoc in Hx.
  - apply wp_ret. eapply (unlink_run m ts pre t post (frees post)); [done|done|done| |].
    { by apply Hpost. }
    intros m3 Hl3 Hh3 Hp3. apply HQ; [|done].
    split; [done|by rewrite Hfs|]. apply Hh3. rewrite !Forall_app, Forall_singleton. done.
Qed.

(** ** __alloc on the pool *)

Definition fitb (asz : Z) (t : tile) : bool := t_free t && (t_size t >=? asz).

Lemma find_fit_run m ts asz :
  trep m ts →
  find_fit head asz m =
  Ret (match List.find (fitb asz) ts with Some t => t_addr t | None => head - off_node end, m).
Proof.
  intros [Ht Hl Hh]. rewrite Forall_forall in Hh. unfold find_fit.
  set (f := λ a, match m !! (F_bh_size, a) with Some s => s >=? asz | None => false end).
  rewrite (for_each_entry_run m head off_node (frees ts) _ f); [|done|].
  - do 2 f_equal. unfold find_or. clear Ht Hl.
    induction ts as [|t ts IH]; simpl; [done|]. destruct (Hh t ltac:(set_solver)) as [E _].
    rewrite frees_cons. unfold fitb at 1. destruct (t_free t); simpl;
      [|apply IH; intros; apply Hh; set_solver].
    unfold f at 1. rewrite E. destruct (t_size t >=? asz); [done|].
    apply IH. intros; apply Hh; set_solver.
  - intros a (t & Hin & _ & <-)%frees_elem. destruct (Hh t Hin) as [E _].
    erewrite bind_ret by by apply load_Some. unfold f. by rewrite E.
Qed.

Lemma find_split {A} (f : A → bool) l x :
  List.find f l = Some x → ∃ l1 l2, l = l1 ++ x :: l2 ∧ f x = true.
Proof.
  intros Hf. destruct (List.find_some _ _ Hf) as [Hin Hx].
  apply list_elem_of_In, list_elem_of_split in Hin as (l1 & l2 & ->). by eauto.
Qed.

Lemma good_size sz :
  0 < sz ≤ 2 ^ 32 - 48 →
  let asz := u32 (ALIGN_ABOVE 32 sz ALLOC_ALIGN + sizeof_blockhdr) in
  48 ≤ asz < 2 ^ 32 ∧ asz mod 16 = 0 ∧ 32 + sz ≤ asz ≤ sz + 47.
Proof.
  intros Hsz. unfold ALLOC_ALIGN, sizeof_blockhdr.
  pose proof (ALIGN_ABOVE_spec 32 4 ltac:(lia) sz) as E. change (2 ^ 4) with 16 in E.
  rewrite E by (unfold in_range; lia). clear E. rewrite wrap_small.
  - Z.div_mod_to_equations. lia.
  - unfold in_range. Z.div_mod_to_equations. lia.
Qed.

Lemma live_split pre t post asz sz live :
  tiles lo hi (pre ++ t :: post) → t_live t = None → live_of (pre ++ t :: post) live →
  live_of (pre ++ split t asz sz ++ post) (<[t_addr t + sizeof_blockhdr := sz]> live).
Proof.
  intros Ht Hlv Hl p s. set (a := t_addr t + sizeof_blockhdr).
  assert (Hs : ∀ t', t' ∈ split t asz sz → t_live t' = None ∨ (t_live t' = Some sz ∧ t_addr t' = t_addr t)).
  { intros t'. unfold split. destruct (_ >=? 48); set_solver. }
  assert (Hex : ∃ t', t' ∈ split t asz sz ∧ t_live t' = Some sz ∧ t_addr t' = t_addr t).
  { unfold split. destruct (_ >=? 48); eexists; (split; [by left|done]). }
  split.
  - intros [[<- <-]|[Hne Hp]]%lookup_insert_Some.
    + destruct Hex as (t' & Hin & ? & E). exists t'. rewrite E. set_solver.
    + apply Hl in Hp as (t' & Hin & Hlv' & ->). exists t'. split; [|done].
      apply elem_of_app in Hin as [?|[->|?]%elem_of_cons]; [set_solver|congruence|set_solver].
  - intros (t' & Hin & Hlv' & ->).
    assert (t' ∈ pre ++ post ∨ t' ∈ split t asz sz) as [Hin'|Hin'] by set_solver.
    + rewrite lookup_insert_ne; [apply Hl; exists t'; set_solver|].
      pose proof (others_ne _ _ _ _ _ eq_refl Ht Hin'). unfold a. lia.
    + destruct (Hs t' Hin') as [?|[? E]]; [congruence|].
      unfold a. rewrite E, lookup_insert_eq. congruence.
Qed.

(** Taking an object out of a free tile. *)
Lemma cut_found m pre t post live sz :
  let asz := u32 (ALIGN_ABOVE 32 sz ALLOC_ALIGN + sizeof_blockhdr) in
  trep m (pre ++ t :: post) → live_of (pre ++ t :: post) live → 0 < sz ≤ 2 ^ 32 - 48 → t_live t = None → asz ≤ t_size t →
  wp (cut_block (t_addr t) asz) m (λ p m',
    p ≠ NULL ∧ live !! p = None ∧ pool_inv m' (<[p := sz]> live) ∧
    (∀ f a, ¬ pool_owned live a → m' !! (f, a) = m !! (f, a)) ∧
    (∀ a, p ≤ a < p + sz → pool_owned live a)).
Proof using Hpool Hhead.
  intros asz Hr Hl Hsz Hlv Hfit. pose proof (good_size sz Hsz) as Hgood. fold asz in Hgood. simpl in Hgood. clearbody asz.
  assert (Ht := trep_tiles _ _ Hr). assert (t ∈ pre ++ t :: post) as Hin by set_solver.
  pose proof (tiles_range _ _ Ht Hin) as Hrng.
  eapply (cut_block_run m pre t post asz sz); [done|split_and!; lia || done|].
  intros m' Hr' Hp. unfold sizeof_blockhdr, NULL. split; [lia|]. split_and!.
  - destruct (live !! _) as [s|] eqn:E; [|done]. apply Hl in E as (t' & Hin' & Hlv' & E).
    assert (t = t') as <- by (eapply tiles_inj; [done..|]; unfold sizeof_blockhdr in *; lia).
    congruence.
  - exists (pre ++ split t asz sz ++ post). split; [done|]. by apply live_split.
  - intros f a Ha. apply Hp. by eapply foreign_not_owned.
  - intros a Ha. right. split; [lia|]. eapply (mgmt_not_object _ _ t); [done..|].
    unfold in_mgmt. rewrite Hlv. lia.
Qed.

(** A request for which some tile is large enough, whatever the page allocator. *)
Lemma pool_alloc_found m ts live sz fl alloc_pages pa2kva t :
  trep m ts → live_of ts live → 0 < sz ≤ 2 ^ 32 - 48 →
  List.find (fitb (u32 (ALIGN_ABOVE 32 sz ALLOC_ALIGN + sizeof_blockhdr))) ts = Some t →
  wp (__alloc alloc_pages pa2kva head sz fl) m (λ p m',
    p ≠ NULL ∧ live !! p = None ∧ pool_inv m' (<[p := sz]> live) ∧
    (∀ f a, ¬ pool_owned live a → m' !! (f, a) = m !! (f, a)) ∧
    (∀ a, p ≤ a < p + sz → pool_owned live a)).
Proof using Hpool Hhead.
  intros Hr Hl Hsz Hf. unfold __alloc.
  wp_step. eapply wp_eq; [by apply find_fit_run|]. rewrite Hf.
  apply find_split in Hf as (pre & post & -> & Hfit). unfold fitb, t_free in Hfit.
  destruct (t_live t) as [|] eqn:Hlv; [done|]. simpl in Hfit.
  assert (t_addr t + off_node ≠ head) as Hnh.
  { eapply dlist_not_head; [by eapply trep_list|]. apply elem_of_nodes, frees_elem.
    exists t. unfold t_free. rewrite Hlv. set_solver. }
  rewrite (proj2 (Z.eqb_neq _ _) Hnh). wp_run. eapply cut_found; [done|done|done|done|lia].
Qed.

Lemma pool_alloc m live sz fl pa2kva :
  pool_inv m live → 0 < sz ≤ 2 ^ 32 - 48 →
  wp (__alloc pmm.__alloc pa2kva head sz fl) m (λ p m',
    (p = NULL ∧ m' = m) ∨
    (p ≠ NULL ∧ live !! p = None ∧ pool_inv m' (<[p := sz]> live) ∧
     (∀ f a, ¬ pool_owned live a → m' !! (f, a) = m !! (f, a)) ∧
     (∀ a, p ≤ a < p + sz → pool_owned live a))).
Proof using Hpool Hhead.
  intros (ts & Hr & Hl) Hsz.
  destruct (List.find (fitb (u32 (ALIGN_ABOVE 32 sz ALLOC_ALIGN + sizeof_blockhdr))) ts) as [t|] eqn:Hf.
  - eapply wp_mono; [by eapply pool_alloc_found|]. intros p m' H. by right.
  - unfold __alloc. wp_step. eapply wp_eq; [by apply find_fit_run|]. rewrite Hf.
    replace (head - off_node + off_node) with head by lia. rewrite Z.eqb_refl.
    unfold more_pages. wp_run. left. done.
Qed.


(** A pool nothing was taken from. *)
Definition whole : tile := mk_tile lo (hi - lo) None.

Lemma whole_trep m :
  48 ≤ hi - lo → (hi - lo) mod 16 = 0 →
  m !! (F_bh_size, lo) = Some (hi - lo) → is_Some (m !! (F_bh_flags, lo)) →
  dlist m head [lo + off_node] → trep m [whole].
Proof using.
  clear Hpool Hhead. intros H1 H2 Hs Hf Hl. split; simpl.
  - unfold tile_ok, t_end; simpl. repeat split; [lia|done|lia].
  - done.
  - by repeat constructor.
Qed.

Lemma whole_live : live_of [whole] ∅.
Proof using.
  intros p sz. rewrite lookup_empty. split; [done|]. intros (t & ->%list_elem_of_singleton & ? & _). done.
Qed.

Lemma whole_inv m : trep m [whole] → pool_inv m ∅.
Proof using. intros Ht. exists [whole]. split; [done|apply whole_live]. Qed.

(** It serves any request that fits into it with its header. *)
Lemma whole_alloc m sz fl alloc_pages pa2kva :
  trep m [whole] → 0 < sz ≤ 2 ^ 32 - 48 → sz + 64 ≤ hi - lo →
  wp (__alloc alloc_pages pa2kva head sz fl) m (λ p m',
    p ≠ NULL ∧ (∅ : gmap Z Z) !! p = None ∧ pool_inv m' {[p := sz]} ∧
    (∀ f a, ¬ pool_owned ∅ a → m' !! (f, a) = m !! (f, a)) ∧
    (∀ a, p ≤ a < p + sz → pool_owned ∅ a)).
Proof using Hpool Hhead.
  intros Ht Hsz Hfit. eapply (pool_alloc_found m [whole] ∅ sz fl alloc_pages pa2kva whole); [done|apply whole_live|done|].
  cbn [List.find]. unfold fitb. simpl. pose proof (good_size sz Hsz) as Hg. cbv zeta in Hg.
  destruct (Z.geb_spec (hi - lo) (u32 (ALIGN_ABOVE 32 sz ALLOC_ALIGN + sizeof_blockhdr))); [done|lia].
Qed.

(** An empty heap grows by the page it is given, and serves the request from it. *)
Lemma first_alloc m m1 sz fl alloc_pages pa2kva pg :
  hi = lo + PAGE_SIZE → lo = pa2kva (u32 (paddr pg)) → Pmm.size pg = PAGE_SIZE →
  0 < sz → sz + 64 ≤ PAGE_SIZE → dlist m head [] → dlist m1 head [] →
  alloc_pages (mk_pages 0 PAGE_SIZE fl 0) m = Ret ((0, pg), m1) →
  wp (__alloc alloc_pages pa2kva head sz fl) m (λ p m',
    p ≠ NULL ∧ pool_inv m' {[p := sz]} ∧
    (∀ f a, ¬ pool_owned ∅ a → m' !! (f, a) = m1 !! (f, a)) ∧
    (∀ a, p ≤ a < p + sz → pool_owned ∅ a)).
Proof using Hpool Hhead.
  intros Hhi Hlo Hps Hsz0 Hsz Hd Hd1 Ha. assert (EP : PAGE_SIZE = 4096) by done.
  unfold __alloc. wp_step.
  eapply wp_eq; [apply (for_each_entry_run m head off_node [] _ (λ _, false)); [done|set_solver]|].
  change (find_or (λ _, false) [] (head - off_node)) with (head - off_node). replace (head - off_node + off_node) with head by lia. rewrite Z.eqb_refl.
  wp_step. unfold more_pages.
  assert (ALIGN_ABOVE 32 (ALIGN_ABOVE 32 sz ALLOC_ALIGN) PAGE_SIZE = PAGE_SIZE) as ->.
  { pose proof (ALIGN_ABOVE_spec 32 4 ltac:(lia) sz) as E1. change (2 ^ 4) with ALLOC_ALIGN in E1.
    rewrite E1 by (unfold in_range; change ALLOC_ALIGN with 16; lia). change ALLOC_ALIGN with 16.
    pose proof (ALIGN_ABOVE_spec 32 12 ltac:(lia) ((sz + 16 - 1) / 16 * 16)) as E2. change (2 ^ 12) with PAGE_SIZE in E2.
    rewrite E2 by (unfold in_range; rewrite ?EP; Z.div_mod_to_equations; lia). rewrite EP. Z.div_mod_to_equations. lia. }
  wp_step. eapply wp_eq; [exact Ha|]. cbn [fst snd]. change (0 =? EOF) with false. cbv iota. rewrite <-Hlo, Hps.
  wp_run. set (m2 := <[(F_bh_flags, lo) := fl]> _).
  assert (Hd2 : dlist m2 head []) by (eapply dlist_frame; [| |exact Hd1]; intros x _; unfold m2; by mem_simpl).
  eapply wp_eq; [apply (for_each_entry_run m2 head off_node [] _ (λ _, false)); [done|set_solver]|].
  change (find_or (λ _, false) [] (head - off_node)) with (head - off_node). replace (head - off_node + off_node) with head by lia.
  wp_step. eapply (wp_list_add_tail m2 head [] []); [done|done|unfold off_node; set_unfold; lia|].
  intros m3 Hd3 Hs3. wp_run. change (lo) with (t_addr whole).
  assert (Ht : trep m3 [whole]).
  { apply whole_trep; [lia|by rewrite Hhi, Z.add_simpl_l| | |done].
    - rewrite (same_but_field _ _ _ _ _ Hs3) by done. unfold m2. mem_simpl. rewrite wrap_small by (unfold in_range; lia).
      f_equal. lia.
    - rewrite (same_but_field _ _ _ _ _ Hs3) by done. unfold m2. mem_simpl. by eexists. }
  eapply wp_mono; [apply (cut_found m3 [] whole [] ∅ sz Ht whole_live); [lia|done|]|].
  - pose proof (good_size sz ltac:(lia)) as Hg. simpl in *. unfold ALLOC_ALIGN, sizeof_blockhdr in *. lia.
  - intros p m' (Hn & _ & Hi & Hf & Ho). split; [done|]. split; [done|]. split; [|done].
    intros f a Hno. rewrite Hf by done. assert (¬ (lo ≤ a < hi) ∧ a ≠ head) as [Hr Hh].
    { unfold pool_owned in Hno. split; intros Hin; apply Hno; [right|by left]. split; [done|].
      intros (p' & s & E & _). done. }
    rewrite Hs3 by (right; unfold off_node; set_unfold; lia). unfold m2. mem_simpl. done.
Qed.

(** Two tilings with the same objects and the same bookkeeping cells. *)
Definition equiv (ts ts' : list tile) : Prop :=
  (∀ t sz, t_live t = Some sz → t ∈ ts ↔ t ∈ ts') ∧
  (∀ a, (∃ t, t ∈ ts ∧ in_mgmt t a) ↔ (∃ t, t ∈ ts' ∧ in_mgmt t a)).

Lemma equiv_refl ts : equiv ts ts.
Proof. done. Qed.

Lemma equiv_trans ts1 ts2 ts3 : equiv ts1 ts2 → equiv ts2 ts3 → equiv ts1 ts3.
Proof.
  intros [H1 H2] [H3 H4]. split; [|intros a; by rewrite H2].
  intros t sz Hl. by rewrite (H1 t sz), (H3 t sz).
Qed.

Lemma equiv_live ts ts' live : equiv ts ts' → live_of ts live → live_of ts' live.
Proof.
  intros [He _] Hl p sz. rewrite (Hl p sz).
  split; intros (t & Hin & Hlv & ->); exists t; (split; [by eapply He|done]).
Qed.

Lemma equiv_pframe ts ts' m m' : equiv ts ts' → pframe ts' m m' → pframe ts m m'.
Proof.
  intros [_ He] Hp f a [Hh Ha]. apply Hp. split; [done|]. intros t Hin Hm.
  destruct (proj2 (He a)) as (t' & Hin' & Hm'); [by eauto|]. by apply (Ha t').
Qed.

Definition join (a b : tile) : tile := mk_tile (t_addr a) (t_size a + t_size b) None.

Lemma join_equiv l1 a b l2 :
  t_live a = None → t_live b = None → t_addr b = t_end a → 0 ≤ t_size a → 0 ≤ t_size b →
  equiv (l1 ++ a :: b :: l2) (l1 ++ join a b :: l2).
Proof.
  intros Ha Hb E Hsa Hsb. split.
  - intros t sz Hl. rewrite !elem_of_app, !elem_of_cons.
    split; intros Hin; destruct_or?; subst; auto; simpl in *; congruence.
  - intros x. setoid_rewrite elem_of_app. setoid_rewrite elem_of_cons. setoid_rewrite elem_of_cons.
    assert (in_mgmt (join a b) x ↔ in_mgmt a x ∨ in_mgmt b x) as Hj.
    { unfold in_mgmt, join, t_end in *; simpl. rewrite Ha, Hb. lia. }
    split; intros (t & Hin & Hm).
    + destruct Hin as [?|[->|[->|?]]]; [exists t| exists (join a b)..|exists t]; tauto.
    + destruct Hin as [?|[->|?]]; [exists t; tauto| |exists t; tauto].
      apply Hj in Hm as [?|?]; [exists a|exists b]; tauto.
Qed.

Lemma join_tiles l1 a b l2 :
  tiles lo hi (l1 ++ a :: b :: l2) → tiles lo hi (l1 ++ join a b :: l2) ∧ t_addr b = t_end a.
Proof.
  rewrite !tiles_app. intros (mid & H1 & H2). simpl in H2.
  destruct H2 as (<- & (? & ? & _) & Eb & (? & ? & _) & H2). split; [|done].
  exists (t_addr a). split; [done|]. split; [done|]. split.
  - unfold join, tile_ok; simpl. split_and!; [lia| |done]. Z.div_mod_to_equations. lia.
  - unfold t_end in *. simpl. by replace (t_addr a + (t_size a + t_size b)) with (t_addr b + t_size b) by lia.
Qed.

Lemma frees_two l1 a b l2 :
  t_live a = None → t_live b = None →
  frees (l1 ++ a :: b :: l2) = frees l1 ++ t_addr a :: t_addr b :: frees l2.
Proof. intros Ha Hb. rewrite frees_app, !frees_cons. unfold t_free. by rewrite Ha, Hb. Qed.

Lemma join_run m l1 a b l2 (Q : unit → mem → Prop) :
  let ts := l1 ++ a :: b :: l2 in
  trep m ts → t_live a = None → t_live b = None →
  (∀ m', trep m' (l1 ++ join a b :: l2) → equiv ts (l1 ++ join a b :: l2) →
     pframe ts m m' → Q () m') →
  wp (list_del (t_addr b + off_node)) (<[(F_bh_size, t_addr a) := t_size a + t_size b]> m) Q.
Proof using Hpool Hhead.
  intros ts [Ht Hl Hh] Ha Hb HQ. destruct (join_tiles _ _ _ _ Ht) as [Ht' Eb].
  pose proof (tiles_range ts a Ht ltac:(set_solver)). pose proof (tiles_range ts b Ht ltac:(set_solver)).
  assert (Hnodes := node_mgmt ts). assert (Hfr := frees_two l1 a b l2 Ha Hb).
  fold ts in Hfr. rewrite Hfr in Hl, Hnodes.
  set (m1 := <[(F_bh_size, t_addr a) := _]> m).
  assert (Hl1 : dlist m1 head ((nodes off_node (frees l1 ++ [t_addr a])) ++
                  (t_addr b + off_node) :: nodes off_node (frees l2))).
  { apply dlist_store; [done..|]. rewrite <-nodes_cons, <-nodes_app, <-app_assoc. done. }
  eapply wp_list_del; [exact Hl1|]. intros m2 Hl2 Hs2. apply HQ.
  - split; [done| |].
    + rewrite frees_app, frees_cons. simpl. by rewrite <-nodes_app, <-app_assoc in Hl2.
    + eapply hdr_same_but; [exact Hs2|].
      assert (Hne : ∀ t', t' ∈ l1 ++ l2 → t_addr t' ≠ t_addr a).
      { intros t' Hin. eapply (others_ne ts l1 a (b :: l2)); [done|done|set_solver]. }
      assert (Hh' := Hh). rewrite Forall_forall in Hh'. destruct (Hh' a ltac:(set_solver)) as [_ ?].
      unfold ts in Hh. rewrite Forall_app, !Forall_cons in Hh. destruct Hh as (? & _ & _ & ?).
      apply Forall_app. split; [apply hdr_store; set_solver|]. apply Forall_cons. split.
      * unfold hdr_at, m1. simpl. by mem_simpl.
      * apply hdr_store; set_solver.
  - apply join_equiv; [done..|lia|lia].
  - apply (pframe_trans _ _ m1).
    + apply pframe_store; [|done]. exists a. split; [set_solver|]. unfold in_mgmt. rewrite Ha. lia.
    + eapply pframe_same_but; [exact Hs2|]. intros x Hx. apply Hnodes; [done|].
      rewrite !nodes_app, ?nodes_cons in *. set_solver.
Qed.

Definition as_free (t : tile) : tile := mk_tile (t_addr t) (t_size t) None.

Lemma frees_bounds pre t post :
  tiles lo hi (pre ++ t :: post) →
  Forall (λ a, a < t_addr t) (frees pre) ∧ Forall (λ a, t_addr t < a) (frees post).
Proof.
  intros Ht. apply tiles_app in Ht as (mid & H1 & (<- & (? & _) & H2)).
  split; apply Forall_forall; intros a (t' & Hin & _ & <-)%frees_elem.
  - destruct (tiles_elem _ _ _ _ H1 Hin) as (? & ? & ? & _). unfold t_end in *. lia.
  - destruct (tiles_elem _ _ _ _ H2 Hin) as (? & _). unfold t_end in *. lia.
Qed.

Lemma find_above_run m pre t post :
  trep m (pre ++ t :: post) → t_free t = false →
  find_above head (t_addr t) m = Ret (hd (head - off_node) (frees post), m).
Proof.
  intros [Ht Hl _] Hf. destruct (frees_bounds _ _ _ Ht) as [H1 H2].
  rewrite frees_mid, Hf in Hl. simpl in Hl. unfold find_above.
  rewrite (for_each_entry_run m head off_node (frees pre ++ frees post) _ (λ a, a >=? t_addr t));
    [|done|done].
  do 2 f_equal. destruct (frees post) as [|a l].
  - rewrite app_nil_r. apply find_or_none. eapply Forall_impl; [exact H1|]. simpl.
    intros x Hx. destruct (Z.geb_spec x (t_addr t)); [lia|done].
  - simpl. apply find_or_split.
    + eapply Forall_impl; [exact H1|]. simpl.
      intros x Hx. destruct (Z.geb_spec x (t_addr t)); [lia|done].
    + apply Forall_cons in H2 as [? _]. destruct (Z.geb_spec a (t_addr t)); [done|lia].
Qed.

Lemma hd_node d (l : list Z) : hd (d - off_node) l + off_node = hd d (nodes off_node l).
Proof. destruct l; simpl; lia. Qed.

Lemma as_free_tiles pre t post :
  tiles lo hi (pre ++ t :: post) → tiles lo hi (pre ++ as_free t :: post).
Proof.
  rewrite !tiles_app. intros (mid & ? & ? & (? & ? & _) & ?). exists mid. split; [done|].
  split; [done|]. split; [by split_and!|done].
Qed.

Lemma insert_block_run m pre t post (Q : unit → mem → Prop) :
  trep m (pre ++ t :: post) → t_free t = false →
  (∀ m', trep m' (pre ++ as_free t :: post) → pframe (pre ++ as_free t :: post) m m' → Q () m') →
  wp (insert_block head (t_addr t)) m Q.
Proof using Hpool Hhead.
  intros Hr Hf HQ. unfold insert_block. wp_step.
  eapply wp_eq; [by apply (find_above_run m pre t post)|]. rewrite hd_node.
  destruct Hr as [Ht Hl Hh]. assert (t ∈ pre ++ t :: post) as Hin by set_solver.
  pose proof (tiles_range _ _ Ht Hin). pose proof (live_not_free _ _ Ht Hin Hf) as Hnf.
  pose proof (fresh_node _ t 0 Ht Hin) as Hfn. rewrite Z.add_0_r in Hfn.
  specialize (Hfn ltac:(lia) Hnf). rewrite frees_mid, Hf in Hl, Hfn. simpl in Hl, Hfn.
  rewrite nodes_app in Hl, Hfn.
  eapply (wp_list_add_tail m head (nodes off_node (frees pre)) (nodes off_node (frees post)));
    [exact Hl|done|exact Hfn|]. intros m1 Hl1 Hs1.
  apply as_free_tiles in Ht. assert (Hfr : frees (pre ++ as_free t :: post) = frees pre ++ t_addr t :: frees post).
  { by rewrite frees_mid. }
  apply HQ.
  - split; [done| |].
    + by rewrite Hfr, nodes_app.
    + eapply hdr_same_but; [exact Hs1|]. by rewrite Forall_app, Forall_cons in *.
  - eapply pframe_same_but; [exact Hs1|]. intros x Hx. apply node_mgmt; [done|].
    rewrite Hfr, nodes_app, nodes_cons. set_solver.
Qed.

Lemma tiles_same ts a : tiles a a ts → ts = [].
Proof.
  destruct ts as [|t ts]; simpl; [done|]. intros (<- & (? & _) & Ht).
  apply tiles_le in Ht. unfold t_end in Ht. lia.
Qed.

(** The free tile below (above) a tile it touches is its neighbour. *)
Lemma last_free_adjacent pre t post a :
  tiles lo hi (pre ++ t :: post) → a ∈ frees pre →
  ∃ tp, tp ∈ pre ∧ t_live tp = None ∧ t_addr tp = a ∧
    (t_end tp = t_addr t → ∃ pre', pre = pre' ++ [tp]).
Proof.
  intros Ht (tp & Hin & Hf & <-)%frees_elem. exists tp. unfold t_free in Hf.
  destruct (t_live tp) eqn:E; [done|]. split_and!; [done..|]. intros Ee.
  apply list_elem_of_split in Hin as (l1 & l2 & ->). exists l1. f_equal. f_equal.
  rewrite <-app_assoc in Ht. apply tiles_app in Ht as (mid & _ & (_ & _ & Ht)).
  apply tiles_app in Ht as (mid' & Ht & (Em & _)). rewrite Ee, Em in Ht. by apply tiles_same in Ht.
Qed.

Lemma first_free_adjacent pre t post a :
  tiles lo hi (pre ++ t :: post) → a ∈ frees post →
  ∃ tn, tn ∈ post ∧ t_live tn = None ∧ t_addr tn = a ∧
    (t_end t = t_addr tn → ∃ post', post = tn :: post').
Proof.
  intros Ht (tn & Hin & Hf & <-)%frees_elem. exists tn. unfold t_free in Hf.
  destruct (t_live tn) eqn:E; [done|]. split_and!; [done..|]. intros Ee.
  apply list_elem_of_split in Hin as (l1 & l2 & ->). exists l2.
  apply tiles_app in Ht as (mid & _ & (_ & _ & Ht)).
  apply tiles_app in Ht as (mid' & Ht & (Em & _)). rewrite Ee, Em in Ht.
  apply tiles_same in Ht as ->. done.
Qed.

Lemma trep_cells m ts t : trep m ts → t ∈ ts → m !! (F_bh_size, t_addr t) = Some (t_size t).
Proof. intros [_ _ Hh] Hin. rewrite Forall_forall in Hh. by apply Hh. Qed.

(** The node of a free tile and its neighbours in the list. *)
Lemma trep_neighbours m pre t post :
  trep m (pre ++ t :: post) → t_live t = None →
  m !! (F_prev, t_addr t + off_node) = Some (List.last (nodes off_node (frees pre)) head) ∧
  m !! (F_next, t_addr t + off_node) = Some (hd head (nodes off_node (frees post))) ∧
  (∀ a, a ∈ frees pre ++ frees post → a + off_node ≠ head).
Proof.
  intros [_ Hl _] Hlv. rewrite frees_mid in Hl. unfold t_free in Hl. rewrite Hlv in Hl.
  assert (Hl' := Hl). rewrite !nodes_app in Hl'. simpl in Hl'.
  destruct (dlist_neighbours _ _ _ _ _ Hl') as [? ?]. split_and!; [done..|].
  intros a Ha. eapply dlist_not_head; [exact Hl|]. apply elem_of_nodes. set_solver.
Qed.

Lemma pool_merge_downwards m pre t post (Q : Z → mem → Prop) :
  let ts := pre ++ t :: post in
  trep m ts → t_live t = None →
  (∀ m' pre' t', trep m' (pre' ++ t' :: post) → t_live t' = None →
     equiv ts (pre' ++ t' :: post) → pframe ts m m' → Q (t_addr t') m') →
  wp (merge_downwards head (t_addr t)) m Q.
Proof using Hpool Hhead.
  intros ts Hr Hlv HQ. unfold merge_downwards, list_entry.
  destruct (trep_neighbours _ _ _ _ Hr Hlv) as (Ep & _ & Hnh). wp_run.
  destruct (snoc_cases (frees pre)) as [E|(l & a & E)].
  { rewrite E in *. simpl. replace (head - off_node + off_node) with head by lia.
    rewrite Z.eqb_refl. wp_run. eapply HQ; [done|done|apply equiv_refl|apply pframe_refl]. }
  assert (a ∈ frees pre) as Ha by (rewrite E; set_solver).
  rewrite E, nodes_app, nodes_cons. simpl. rewrite List.last_last.
  replace (a + off_node - off_node) with a by lia.
  rewrite (proj2 (Z.eqb_neq _ _) (Hnh a ltac:(set_solver))).
  destruct (last_free_adjacent pre t post a (trep_tiles _ _ Hr) Ha) as (tp & Hin & Hlp & <- & Hadj).
  pose proof (trep_cells _ _ tp Hr ltac:(set_solver)) as Hcp.
  pose proof (trep_cells _ _ t Hr ltac:(set_solver)) as Hct.
  pose proof (tiles_range _ tp (trep_tiles _ _ Hr) ltac:(set_solver)).
  wp_run. rewrite wrap_small by (unfold in_range; lia).
  destruct (Z.eqb_spec (t_addr tp + t_size tp) (t_addr t)) as [Ea|Ea]; simpl.
  - destruct (Hadj Ea) as (pre' & ->). unfold ts in *. rewrite <-app_assoc in *. simpl in *.
    pose proof (tiles_range _ t (trep_tiles _ _ Hr) ltac:(set_solver)).
    wp_run. rewrite wrap_small by (unfold in_range; lia).
    eapply (join_run m pre' tp t post); [done..|]. intros m' Hr' He Hp. wp_run.
    by eapply (HQ m' pre' (join tp t)).
  - wp_run. eapply HQ; [done|done|apply equiv_refl|apply pframe_refl].
Qed.

Lemma pool_merge_upwards m pre t post (Q : unit → mem → Prop) :
  let ts := pre ++ t :: post in
  trep m ts → t_live t = None →
  (∀ m' t' post', trep m' (pre ++ t' :: post') → t_addr t' = t_addr t →
     equiv ts (pre ++ t' :: post') → pframe ts m m' → Q () m') →
  wp (merge_upwards head (t_addr t)) m Q.
Proof using Hpool Hhead.
  intros ts Hr Hlv HQ. unfold merge_upwards, list_entry.
  destruct (trep_neighbours _ _ _ _ Hr Hlv) as (_ & En & Hnh). wp_run.
  destruct (frees post) as [|a l] eqn:E; simpl.
  { replace (head - off_node + off_node) with head by lia.
    rewrite Z.eqb_refl. wp_run. eapply HQ; [done|done|apply equiv_refl|apply pframe_refl]. }
  assert (a ∈ frees post) as Ha by (rewrite E; set_solver).
  replace (a + off_node - off_node) with a by lia.
  rewrite (proj2 (Z.eqb_neq _ _) (Hnh a ltac:(set_solver))).
  destruct (first_free_adjacent pre t post a (trep_tiles _ _ Hr) Ha) as (tn & Hin & Hln & <- & Hadj).
  pose proof (trep_cells _ _ tn Hr ltac:(set_solver)) as Hcn.
  pose proof (trep_cells _ _ t Hr ltac:(set_solver)) as Hct.
  pose proof (tiles_range _ t (trep_tiles _ _ Hr) ltac:(set_solver)).
  wp_run. rewrite wrap_small by (unfold in_range; lia).
  destruct (Z.eqb_spec (t_addr t + t_size t) (t_addr tn)) as [Ea|Ea]; simpl.
  - destruct (Hadj Ea) as (post' & ->).
    pose proof (tiles_range _ tn (trep_tiles _ _ Hr) ltac:(set_solver)).
    wp_run. rewrite wrap_small by (unfold in_range; lia).
    eapply (join_run m pre t tn post'); [done..|]. intros m' Hr' He Hp. by eapply HQ.
  - wp_run. eapply HQ; [done|done|apply equiv_refl|apply pframe_refl].
Qed.

(** A pool smaller than a page never holds a whole page to return. *)
(** The pool is smaller than a page, so that no pages are ever returned. *)
Hypothesis Hsmall : hi < lo + PAGE_SIZE.

Lemma return_pages_run m ts t free_pages :
  trep m ts → t ∈ ts → return_pages free_pages (t_addr t) m = Ret ((), m).
Proof using Hpool Hsmall.
  intros Hr Hin. pose proof Hsmall as Hs. change PAGE_SIZE with 4096 in Hs. unfold return_pages.
  erewrite bind_ret by (apply load_Some; by eapply trep_cells).
  pose proof (tiles_range _ t (trep_tiles _ _ Hr) Hin).
  rewrite wrap_small by (unfold in_range; lia).
  pose proof (ALIGN_ABOVE_spec 32 12 ltac:(lia) (t_addr t)) as Ea.
  pose proof (ALIGN_BELOW_spec 32 12 ltac:(lia) (t_addr t + t_size t)) as Eb.
  change (2 ^ 12) with PAGE_SIZE in Ea, Eb.
  rewrite Ea, Eb by (unfold in_range; change PAGE_SIZE with 4096; lia).
  change PAGE_SIZE with 4096.
  destruct (Z.ltb_spec ((t_addr t + 4096 - 1) / 4096 * 4096) ((t_addr t + t_size t) / 4096 * 4096)); [|done].
  exfalso. Z.div_mod_to_equations. lia.
Qed.

Lemma live_free pre t post sz live :
  tiles lo hi (pre ++ t :: post) → t_live t = Some sz → live_of (pre ++ t :: post) live →
  live_of (pre ++ as_free t :: post) (delete (t_addr t + sizeof_blockhdr) live).
Proof.
  intros Ht Hlv Hl p s. rewrite lookup_delete_Some, (Hl p s). split.
  - intros (Hne & t' & Hin & Hlv' & ->). exists t'. split; [|done].
    apply elem_of_app in Hin as [?|[->|?]%elem_of_cons]; [set_solver|lia|set_solver].
  - intros (t' & Hin & Hlv' & ->).
    assert (t' ∈ pre ++ post) as Hin'.
    { apply elem_of_app in Hin as [?|[->|?]%elem_of_cons]; [set_solver|done|set_solver]. }
    pose proof (others_ne _ _ _ _ _ eq_refl Ht Hin'). split; [lia|]. exists t'. set_solver.
Qed.

Lemma pool_free m live p sz free_pages :
  pool_inv m live → live !! p = Some sz →
  wp (__free free_pages head p) m (λ _ m',
    pool_inv m' (delete p live) ∧
    (∀ f a, ¬ pool_owned (delete p live) a → m' !! (f, a) = m !! (f, a))).
Proof using Hpool Hhead Hsmall.
  intros (ts & Hr & Hl) Hp. assert (Hp' := Hp). apply Hl in Hp' as (t & Hin & Hlv & ->).
  apply list_elem_of_split in Hin as (pre & post & ->).
  pose proof (tiles_range _ t (trep_tiles _ _ Hr) ltac:(set_solver)).
  assert (Hf : t_free t = false) by (unfold t_free; by rewrite Hlv).
  pose proof (live_free _ _ _ _ _ (trep_tiles _ _ Hr) Hlv Hl) as Hl'.
  assert (Ht0 := as_free_tiles _ _ _ (trep_tiles _ _ Hr)).
  set (ts0 := pre ++ as_free t :: post) in *.
  unfold __free, HEADER, sizeof_blockhdr in *. rewrite wrap_small by (unfold in_range; lia).
  replace (t_addr t + 32 - 32) with (t_addr t) by lia. wp_run.
  set (m0 := <[(F_bh_free, t_addr t) := _]> m).
  assert (Hr0 : trep m0 (pre ++ t :: post)).
  { destruct Hr as [? ? ?]. split; [done|by apply dlist_store|by apply hdr_store_free]. }
  assert (Hp0 : pframe ts0 m m0).
  { apply pframe_store; [|done]. exists (as_free t). split; [set_solver|]. unfold in_mgmt; simpl. lia. }
  eapply (insert_block_run m0 pre t post); [done..|]. intros m1 Hr1 Hp1.
  wp_step. eapply (pool_merge_downwards m1 pre (as_free t) post); [done..|].
  intros m2 pre' t' Hr2 Hlv2 He2 Hp2.
  wp_step. eapply (pool_merge_upwards m2 pre' t' post); [done..|].
  intros m3 t3 post' Hr3 <- He3 Hp3.
  eapply wp_eq; [eapply return_pages_run; [exact Hr3|set_solver]|].
  assert (He : equiv ts0 (pre' ++ t3 :: post')) by (eapply equiv_trans; [exact He2|exact He3]).
  assert (pframe ts0 m m3) as Hpf.
  { eapply pframe_trans; [exact Hp0|]. eapply pframe_trans; [exact Hp1|].
    eapply pframe_trans; [exact Hp2|]. eapply equiv_pframe; [exact He2|exact Hp3]. }
  split.
  - exists (pre' ++ t3 :: post'). split; [done|]. eapply equiv_live; [exact He|done].
  - intros f a Ha. apply Hpf. by eapply foreign_not_owned.
Qed.
End pool.
End flff.
