(* ===== verification/Vmm.v ===== *)
(** kern/mm/vmm/vmm.c: kmalloc() and friends, dispatched through the
    registered struct simple_allocator, and the object caches, dispatched
    through struct caching_allocator under the cache's spinlock. *)
From Stdlib Require Import ZArith Lia.
From stdpp Require Import base numbers gmap list.
From S2P Require Import Prelude.

Open Scope Z_scope.

(** struct simple_allocator and struct caching_allocator: function pointers. *)
Record simple_allocator : Type := mk_simple_allocator {
  sa_alloc : Z;
  sa_free : Z;
  sa_size : Z
}.

Record caching_allocator : Type := mk_caching_allocator {
  ca_create : Z;
  ca_destroy : Z;
  ca_alloc : Z;
  ca_free : Z;
  ca_trim : Z
}.

(** kern/arch/i386/sync.c, run by one processor with no other around. *)
Section spinlock.
Definition UNLOCKED : Z := 0.
Definition LOCKED : Z := 1.

(** xchg(): the old value comes back, the new one is stored. *)
Definition xchg (lock v : Z) : M mem Z :=
  old ← load F_c_lock lock;
  _ ← store F_c_lock lock v;
  mret old.

Definition spinlock_init (lock : Z) : M mem unit := store F_c_lock lock UNLOCKED.

Fixpoint spin_lock (n : nat) (lock : Z) : M mem unit :=
  match n with
  | O => nofuel
  | S n' => old ← xchg lock LOCKED; if old =? 0 then mret () else spin_lock n' lock
  end.

Definition spin_unlock (lock : Z) : M mem unit := _ ← xchg lock UNLOCKED; mret ().
End spinlock.

Module vmm.
(** The addresses of the two static dispatch tables. *)
Definition __simple_allocator : Z := 64.
Definition __caching_allocator : Z := 96.

(** Dummy implementations, registered until an allocator is. *)
Definition __simple_alloc (size flags : Z) : M mem Z := mret NULL.
Definition __simple_free (obj : Z) : M mem unit := mret ().
Definition __simple_size (obj : Z) : M mem Z := mret 0.
Definition __caching_create (cache : Z) : M mem Z := mret EOF.
Definition __caching_destroy (cache : Z) : M mem Z := mret EOF.
Definition __caching_alloc (cache : Z) : M mem Z := mret NULL.
Definition __caching_free (cache obj : Z) : M mem Z := mret EOF.
Definition __caching_trim (cache : Z) : M mem unit := mret ().

Section simple.
(** What a call through a function pointer runs. *)
Context (call_alloc : Z → Z → Z → M mem Z) (call_free : Z → Z → M mem unit)
        (call_size : Z → Z → M mem Z).

Definition kmalloc (size flags : Z) : M mem Z :=
  fp ← load G_simple_allocator __simple_allocator;
  call_alloc fp size flags.

Definition kfree (obj : Z) : M mem unit :=
  if negb (obj =? NULL)
  then fp ← load G_simple_allocator (__simple_allocator + 4); call_free fp obj
  else mret ().

Definition ksize (obj : Z) : M mem Z :=
  if negb (obj =? NULL)
  then fp ← load G_simple_allocator (__simple_allocator + 8); call_size fp obj
  else mret 0.
End simple.

(** [None] is the NULL pointer. *)
Definition set_simple_allocator (a : option simple_allocator) : M mem unit :=
  match a with
  | None => mret ()
  | Some a =>
      _ ← store G_simple_allocator __simple_allocator (sa_alloc a);
      _ ← store G_simple_allocator (__simple_allocator + 4) (sa_free a);
      store G_simple_allocator (__simple_allocator + 8) (sa_size a)
  end.

Definition get_simple_allocator : M mem simple_allocator :=
  a ← load G_simple_allocator __simple_allocator;
  f ← load G_simple_allocator (__simple_allocator + 4);
  s ← load G_simple_allocator (__simple_allocator + 8);
  mret (mk_simple_allocator a f s).

Definition set_caching_allocator (a : option caching_allocator) : M mem unit :=
  match a with
  | None => mret ()
  | Some a =>
      _ ← store G_caching_allocator __caching_allocator (ca_create a);
      _ ← store G_caching_allocator (__caching_allocator + 4) (ca_destroy a);
      _ ← store G_caching_allocator (__caching_allocator + 8) (ca_alloc a);
      _ ← store G_caching_allocator (__caching_allocator + 12) (ca_free a);
      store G_caching_allocator (__caching_allocator + 16) (ca_trim a)
  end.

Section caching.
Context (call_create call_destroy call_alloc : Z → Z → M mem Z)
        (call_free : Z → Z → Z → M mem Z) (call_trim : Z → Z → M mem unit).
(** How often a taken lock is tried again. *)
Context (spins : nat).

(** &cache->lock: the lock is the first field. *)
Definition lock_of (cache : Z) : Z := cache.

Definition cache_create (cache : Z) : M mem Z :=
  if cache =? NULL then mret EOF else
  _ ← spinlock_init (lock_of cache);
  fp ← load G_caching_allocator __caching_allocator;
  call_create fp cache.

Definition locked {A} (cache : Z) (c : M mem A) : M mem A :=
  _ ← spin_lock spins (lock_of cache);
  r ← c;
  _ ← spin_unlock (lock_of cache);
  mret r.

Definition cache_destroy (cache : Z) : M mem Z :=
  if cache =? NULL then mret EOF else
  locked cache (fp ← load G_caching_allocator (__caching_allocator + 4); call_destroy fp cache).

Definition cache_alloc (cache : Z) : M mem Z :=
  if cache =? NULL then mret NULL else
  locked cache (fp ← load G_caching_allocator (__caching_allocator + 8); call_alloc fp cache).

Definition cache_free (cache obj : Z) : M mem Z :=
  if cache =? NULL then mret NULL else
  locked cache (fp ← load G_caching_allocator (__caching_allocator + 12); call_free fp cache obj).

Definition cache_trim (cache : Z) : M mem unit :=
  if cache =? NULL then mret () else
  locked cache (fp ← load G_caching_allocator (__caching_allocator + 16); call_trim fp cache).
End caching.

Lemma kmalloc_dispatch (call_alloc : Z → Z → Z → M mem Z) m fp sz fl :
  m !! (G_simple_allocator, __simple_allocator) = Some fp →
  kmalloc call_alloc sz fl m = call_alloc fp sz fl m.
Proof. intros H. unfold kmalloc. by erewrite bind_ret by by apply load_Some. Qed.

Lemma kfree_dispatch (call_free : Z → Z → M mem unit) m fp p :
  m !! (G_simple_allocator, __simple_allocator + 4) = Some fp → p ≠ NULL →
  kfree call_free p m = call_free fp p m.
Proof.
  intros H Hp. unfold kfree. rewrite (proj2 (Z.eqb_neq _ _) Hp). simpl.
  by erewrite bind_ret by by apply load_Some.
Qed.

(** The cache operations run their callee with the lock held and release
    it afterwards; a lock that is taken already is never acquired. *)
Lemma locked_run {A} spins cache (c : M mem A) m r m' v :
  m !! (F_c_lock, cache) = Some UNLOCKED →
  c (<[(F_c_lock, cache) := LOCKED]> m) = Ret (r, m') →
  m' !! (F_c_lock, cache) = Some v → (0 < spins)%nat →
  locked spins cache c m = Ret (r, <[(F_c_lock, cache) := UNLOCKED]> m').
Proof.
  intros Hl Hc Hv Hs. destruct spins as [|n]; [lia|].
  unfold locked, spin_lock, spin_unlock, xchg, lock_of.
  unfold mbind, M_bind, load, store, mret, M_ret. rewrite Hl. simpl. rewrite Hc. by rewrite Hv.
Qed.

Lemma locked_deadlock {A} spins cache (c : M mem A) m v :
  m !! (F_c_lock, cache) = Some v → v ≠ UNLOCKED → locked spins cache c m = NoFuel.
Proof.
  intros Hl Hv. unfold locked, lock_of.
  assert (∀ n m v, m !! (F_c_lock, cache) = Some v → v ≠ UNLOCKED → spin_lock n cache m = NoFuel) as Hd.
  { clear. intros n. induction n as [|n IH]; intros m v Hl Hv; [done|]. simpl.
    unfold xchg, mbind, M_bind, load, store, mret, M_ret. rewrite Hl.
    unfold UNLOCKED in Hv. rewrite (proj2 (Z.eqb_neq _ _) Hv).
    apply (IH _ LOCKED); [by rewrite lookup_insert_eq|done]. }
  unfold mbind, M_bind. by rewrite (Hd _ _ _ Hl Hv).
Qed.
End vmm.
