(* ===== verification/Bootstrap.v ===== *)
(** The bootstrap heap: kmalloc() and kfree() on the pool that
    simple_allocator_bootstrap() is given (kern/init/init.c hands it 1024
    bytes of stack) meet the contract [HeapSpec]. *)
From Stdlib Require Import ZArith Lia.
From stdpp Require Import base numbers gmap list.
From S2P Require Import Prelude DList Util Pmm Heap Flff Vmm.

Open Scope Z_scope.

Section bootstrap.
(** The pool, the list sentry and the conversion for fresh pages. *)
Context (lo hi head : Z) (pa2kva : Z → Z).
Hypothesis Hpool : STATIC_TOP + 64 ≤ lo ∧ lo mod 16 = 0 ∧ hi < lo + PAGE_SIZE ∧ hi ≤ 2 ^ 32 - PAGE_SIZE.
Hypothesis Hhead : STATIC_TOP + 64 ≤ head ∧ ¬ (lo ≤ head < hi).

(** The registered function pointers, and what they point to. The page
    allocator is still the dummy one. *)
Context (fps : simple_allocator).
Definition call_alloc (fp size flags : Z) : M mem Z :=
  if fp =? sa_alloc fps then flff.__bootstrap_alloc pmm.__alloc pa2kva head size flags else stuck.
Definition call_free (fp obj : Z) : M mem unit :=
  if fp =? sa_free fps then flff.__bootstrap_free pmm.__free head obj else stuck.
Definition call_size (fp obj : Z) : M mem Z :=
  if fp =? sa_size fps then flff.__size obj else stuck.

Definition boot_kmalloc : Z → Z → M mem Z := vmm.kmalloc call_alloc.
Definition boot_kfree : Z → M mem unit := vmm.kfree call_free.

(** The dispatch table belongs to the heap too. *)
Definition in_table (a : Z) : Prop := vmm.__simple_allocator ≤ a < vmm.__simple_allocator + 12.

Definition table_at (m : mem) : Prop :=
  m !! (G_simple_allocator, vmm.__simple_allocator) = Some (sa_alloc fps) ∧
  m !! (G_simple_allocator, vmm.__simple_allocator + 4) = Some (sa_free fps) ∧
  m !! (G_simple_allocator, vmm.__simple_allocator + 8) = Some (sa_size fps).

Definition boot_inv (m : mem) (live : gmap Z Z) : Prop :=
  flff.pool_inv lo hi head m live ∧ table_at m.

Definition boot_owned (live : gmap Z Z) (a : Z) : Prop :=
  flff.pool_owned lo hi head live a ∨ in_table a.

Lemma pool_ok : STATIC_TOP ≤ lo ∧ lo mod 16 = 0 ∧ hi ≤ lo + PAGE_SIZE ∧ hi ≤ 2 ^ 32 - PAGE_SIZE.
Proof using Hpool. destruct Hpool as (? & ? & ? & ?). split_and!; [lia|done|lia|done]. Qed.

Lemma pool_small : hi < lo + PAGE_SIZE.
Proof using Hpool. clear -Hpool. lia. Qed.

Lemma head_ok : STATIC_TOP ≤ head ∧ ¬ (lo ≤ head < hi).
Proof using Hhead. destruct Hhead. split; [lia|done]. Qed.

Lemma live_in_pool m live p sz :
  flff.pool_inv lo hi head m live → live !! p = Some sz → lo + 32 ≤ p ∧ p + sz ≤ hi.
Proof.
  intros (ts & [Ht _ _] & Hl) Hp. apply Hl in Hp as (t & Hin & Hlv & ->).
  destruct (flff.tiles_elem _ _ _ _ Ht Hin) as (? & ? & (? & _ & Hok)). rewrite Hlv in Hok.
  unfold flff.t_end, flff.sizeof_blockhdr in *. lia.
Qed.

(** The dispatch table lies outside the pool. *)
Lemma table_not_owned live a : in_table a → ¬ flff.pool_owned lo hi head live a.
Proof using Hpool Hhead.
  unfold in_table, vmm.__simple_allocator, flff.pool_owned. destruct Hpool, Hhead.
  unfold STATIC_TOP in *. lia.
Qed.

Lemma table_frame m m' :
  (∀ f a, in_table a → m' !! (f, a) = m !! (f, a)) → table_at m → table_at m'.
Proof.
  intros Hs (H1 & H2 & H3). unfold table_at, in_table in *.
  rewrite !Hs by (unfold vmm.__simple_allocator; lia). done.
Qed.

Lemma pool_inv_frame m m' live :
  flff.pool_inv lo hi head m live →
  (∀ f a, flff.pool_owned lo hi head live a → m' !! (f, a) = m !! (f, a)) →
  flff.pool_inv lo hi head m' live.
Proof.
  intros (ts & [Ht Hl Hh] & Hlv) Hs. exists ts. split; [|done].
  assert (Hown : ∀ t d, t ∈ ts → 0 ≤ d < 32 → flff.pool_owned lo hi head live (flff.t_addr t + d)).
  { intros t d Hin Hd. destruct (flff.tiles_elem _ _ _ _ Ht Hin) as (? & ? & Hok).
    right. split; [destruct Hok; unfold flff.t_end in *; lia|].
    eapply flff.mgmt_not_object; [exact Ht|done|exact Hin|]. by apply flff.mgmt_header. }
  split; [done| |].
  - assert (Hn : ∀ x, x ∈ head :: nodes flff.off_node (flff.frees ts) → flff.pool_owned lo hi head live x).
    { intros x [->|Hx]%elem_of_cons; [by left|]. unfold nodes in Hx.
      apply list_elem_of_fmap in Hx as (a & -> & (t & Hin & _ & <-)%flff.frees_elem).
      by apply (Hown t flff.off_node). }
    eapply dlist_frame; [| |exact Hl]; intros x Hx; apply Hs; by apply Hn.
  - eapply Forall_impl; [apply Forall_forall; intros t Hin; exact Hin|].
    intros t Hin. rewrite Forall_forall in Hh. destruct (Hh t Hin).
    unfold flff.hdr_at. rewrite !Hs; [done|..];
      (rewrite <-(Z.add_0_r (flff.t_addr t)); by apply (Hown t 0)).
Qed.

#[export] Program Instance boot_heap : HeapSpec boot_kmalloc boot_kfree := {|
  heap_inv := boot_inv;
  heap_owned := boot_owned;
|}.
Next Obligation.
  intros m live sz fl [Hp Ht] Hsz. destruct (Ht) as (Ha & _).
  pose proof (flff.pool_alloc lo hi head pool_ok head_ok m live sz fl pa2kva Hp Hsz) as Hw.
  unfold boot_kmalloc, wp. rewrite (vmm.kmalloc_dispatch _ _ _ _ _ Ha).
  unfold call_alloc. rewrite Z.eqb_refl. unfold flff.__bootstrap_alloc. unfold wp in Hw.
  destruct (flff.__alloc _ _ _ _ _ m) as [[p m']| | |]; try done.
  destruct Hw as [[-> ->]|(Hn & Hf & Hi & Hs & Ho)].
  - split; [done|]. left. done.
  - assert (Hs' : ∀ f a, ¬ boot_owned live a → m' !! (f, a) = m !! (f, a)).
    { intros f a Hno. apply Hs. intros H. apply Hno. by left. }
    split; [done|]. right. split_and!; [done|done| |].
    + split; [done|]. eapply table_frame; [|exact Ht]. intros f a Hin. apply Hs. by apply table_not_owned.
    + intros a Hin. left. by apply Ho.
Qed.
Next Obligation.
  intros m live p sz [Hp Ht] Hl. destruct (Ht) as (_ & Hf & _).
  assert (p ≠ NULL) as Hn.
  { destruct (live_in_pool _ _ _ _ Hp Hl). destruct Hpool. unfold STATIC_TOP, NULL in *. lia. }
  pose proof (flff.pool_free lo hi head pool_ok head_ok pool_small m live p sz pmm.__free Hp Hl) as Hw.
  unfold boot_kfree, wp. rewrite (vmm.kfree_dispatch _ _ _ _ Hf Hn).
  unfold call_free. rewrite Z.eqb_refl. unfold flff.__bootstrap_free. unfold wp in Hw.
  destruct (flff.__free _ _ _ m) as [[[] m']| | |]; try done. destruct Hw as [Hi Hs].
  split; [split; [done|]|].
  - eapply table_frame; [|exact Ht]. intros f a Hin. apply Hs. by apply table_not_owned.
  - intros f a Hno. apply Hs. intros H. apply Hno. by left.
Qed.
Next Obligation.
  intros m m' live [Hp Ht] Hs. split.
  - eapply pool_inv_frame; [done|]. intros f a Ha. apply Hs. by left.
  - eapply table_frame; [|done]. intros f a Ha. apply Hs. by right.
Qed.
Next Obligation.
  intros m live a [Hp Ht] Ho [[->|[_ H]]|Hin]; [|done|].
  all: destruct Ho as (p & sz & Hl & Ha); destruct (live_in_pool _ _ _ _ Hp Hl).
  - destruct Hhead. lia.
  - unfold in_table, vmm.__simple_allocator in Hin. destruct Hpool. unfold STATIC_TOP in *. lia.
Qed.
Next Obligation.
  intros m live [Hp Ht]. destruct (live !! NULL) eqn:Hl; [|done].
  destruct (live_in_pool _ _ _ _ Hp Hl). destruct Hpool. unfold STATIC_TOP, NULL in *. lia.
Qed.
Next Obligation.
  intros live a Ha [[->|[? _]]|Hin]; destruct Hpool, Hhead;
    unfold in_table, vmm.__simple_allocator, STATIC_TOP in *; lia.
Qed.



(** C6: kfree() of a live object returns it to the pool, touches no
    other object, and kfree(NULL) does nothing. *)
Theorem boot_kfree_sound m live p sz :
  boot_inv m live → live !! p = Some sz →
  boot_kfree NULL m = Ret ((), m) ∧
  wp (boot_kfree p) m (λ _ m',
    boot_inv m' (delete p live) ∧
    (∀ f a, in_object (delete p live) a → m' !! (f, a) = m !! (f, a))).
Proof using Hpool Hhead pa2kva.
  intros Hi Hl. split; [done|].
  eapply wp_mono; [by apply (kfree_spec (HeapSpec := boot_heap) m live p sz)|].
  intros [] m' [Hi' Hs]. split; [done|]. intros f a Ha. apply Hs.
  by apply (heap_owned_object (HeapSpec := boot_heap) m').
Qed.

Lemma bootstrap_run m (Q : Z → mem → Prop) :
  48 ≤ hi - lo → (hi - lo) mod 16 = 0 → is_Some (m !! (F_bh_flags, lo)) →
  (∀ m', flff.trep lo hi head m' [flff.whole lo hi] → table_at m' → Q 0 m') →
  wp (flff.simple_allocator_bootstrap head (vmm.set_simple_allocator (Some fps)) lo (hi - lo)) m
     Q.
Proof using Hpool Hhead.
  clear pa2kva. intros H1 H2 Hf HQ. unfold flff.simple_allocator_bootstrap. wp_run.
  apply wp_INIT_LIST_HEAD. intros m1 Hl1 Hs1. wp_run.
  assert (lo + flff.off_node ≠ head) by (unfold flff.off_node; lia).
  eapply (wp_list_add m1 head [] []); [done|done|set_solver|].
  intros m2 Hl2 Hs2. wp_run. apply HQ; [|split_and!; by mem_simpl].
  apply flff.whole_trep; [done..| | |].
  - mem_simpl. rewrite (same_but_field _ _ _ _ _ Hs2), (same_but_field _ _ _ _ _ Hs1) by done.
    by mem_simpl.
  - mem_simpl. rewrite (same_but_field _ _ _ _ _ Hs2), (same_but_field _ _ _ _ _ Hs1) by done.
    by mem_simpl.
  - eapply dlist_frame; [| |exact Hl2]; intros x _; by mem_simpl.
Qed.

Lemma bootstrap_wp m (Q : Z → mem → Prop) :
  48 ≤ hi - lo → (hi - lo) mod 16 = 0 → is_Some (m !! (F_bh_flags, lo)) →
  (∀ m', boot_inv m' ∅ → Q 0 m') →
  wp (flff.simple_allocator_bootstrap head (vmm.set_simple_allocator (Some fps)) lo (hi - lo)) m
     Q.
Proof using Hpool Hhead.
  clear pa2kva. intros H1 H2 Hf HQ. apply bootstrap_run; [done..|]. intros m' Ht Htab. apply HQ.
  split; [by apply flff.whole_inv|done].
Qed.

(** An untouched pool serves any request that fits into it with its header. *)
Lemma whole_kmalloc m sz fl :
  flff.trep lo hi head m [flff.whole lo hi] → table_at m → 0 < sz ≤ 2 ^ 32 - 48 → sz + 64 ≤ hi - lo →
  ∃ p m1, boot_kmalloc sz fl m = Ret (p, m1) ∧ p ≠ NULL.
Proof using Hpool Hhead.
  intros Ht (Ha & _) Hsz Hfit.
  pose proof (flff.whole_alloc lo hi head pool_ok head_ok m sz fl pmm.__alloc pa2kva Ht Hsz Hfit) as Hw.
  unfold boot_kmalloc. rewrite (vmm.kmalloc_dispatch _ _ _ _ _ Ha). unfold call_alloc. rewrite Z.eqb_refl.
  unfold flff.__bootstrap_alloc. apply wp_elim in Hw as (p & m1 & E & Hp & _). by exists p, m1.
Qed.

(** Simple_allocator_bootstrap() on a pool of whatever content returns
    0 and sets up a heap with no live object and itself registered. *)
Theorem bootstrap_establishes m :
  48 ≤ hi - lo → (hi - lo) mod 16 = 0 → is_Some (m !! (F_bh_flags, lo)) →
  wp (flff.simple_allocator_bootstrap head (vmm.set_simple_allocator (Some fps)) lo (hi - lo)) m
     (λ r m', r = 0 ∧ boot_inv m' ∅).
Proof using Hpool Hhead. intros. by apply bootstrap_wp. Qed.
End bootstrap.
