(* ===== verification/FfProps.v ===== *)
(** What the page allocator of kern/mm/pmm/ff.c promises its clients: it
    refines a set of free bytes. *)
From Stdlib Require Import ZArith Lia.
From stdpp Require Import base numbers gmap list sorting relations.
From S2P Require Import Prelude DList Util Pmm Heap Ff.

Open Scope Z_scope.

Section partition.
(** The free set and the ranges handed out partition the managed memory. *)
Record partition (managed : Z → Prop) (bs : list ff.blk) (held : list pages) : Prop := {
  part_all x : managed x ↔ ff.in_free bs x ∨ Exists (λ p, in_pages p x) held;
  part_free x : ff.in_free bs x → Forall (λ p, ¬ in_pages p x) held;
  part_held : ∀ l1 p l2 x, held = l1 ++ p :: l2 → in_pages p x →
                Forall (λ q, ¬ in_pages q x) (l1 ++ l2);
  part_ok : Forall (λ p, ff.blk_ok (ff.mk_blk 0 (paddr p) (size p))) held;
}.

Lemma in_pages_set_paddr pg a x : in_pages (set_paddr pg a) x ↔ a ≤ x < a + size pg.
Proof. done. Qed.

Lemma partition_alloc managed pre b post pg held :
  ff.wf (pre ++ b :: post) → page_aligned (size pg) → 0 < size pg ≤ ff.b_size b →
  partition managed (pre ++ b :: post) held →
  partition managed (pre ++ ff.cut b (size pg) ++ post) (set_paddr pg (ff.b_paddr b) :: held).
Proof.
  intros Hwf Ha Hn [Pa Pf Ph Po].
  assert (Hcut := λ x, ff.cut_free pre b post (size pg) x Hwf ltac:(lia)).
  assert (Hdis := λ x, ff.cut_disjoint pre b post (size pg) x Hwf ltac:(lia)).
  assert (Hold : ∀ x, in_pages (set_paddr pg (ff.b_paddr b)) x → Forall (λ q, ¬ in_pages q x) held).
  { intros x Hx. apply Pf, Hcut. by right. }
  pose proof (ff.wf_in_range _ b Hwf ltac:(set_solver)).
  assert (ff.blk_ok b) as (_ & _ & _ & Hpa & _).
  { destruct Hwf as [Hok _]. rewrite Forall_forall in Hok. apply Hok. set_solver. }
  split.
  - intros x. rewrite Pa, Hcut, Exists_cons, in_pages_set_paddr. tauto.
  - intros x Hx. constructor; [by apply Hdis|]. apply Pf, Hcut. by left.
  - intros [|q l1] p l2 x E Hx; simplify_eq/=; [by apply Hold|].
    constructor; [|by eapply Ph]. intros Hq. apply Hold in Hq.
    rewrite Forall_app, Forall_cons in Hq. tauto.
  - constructor; [|done]. split_and!; simpl; [lia|lia|lia|done|done].
Qed.

Lemma partition_free managed bs bs' l1 pg l2 :
  (∀ x, ff.in_free bs' x ↔ ff.in_free bs x ∨ in_pages pg x) →
  partition managed bs (l1 ++ pg :: l2) → partition managed bs' (l1 ++ l2).
Proof.
  intros Hfree [Pa Pf Ph Po]. split.
  - intros x. rewrite Pa, Hfree, !Exists_app, Exists_cons. tauto.
  - intros x [Hx|Hx]%Hfree; [|by eapply Ph].
    apply Pf in Hx. rewrite Forall_app, Forall_cons in Hx. apply Forall_app. tauto.
  - intros k1 p k2 x E Hx.
    assert (∃ j1 j2, l1 ++ pg :: l2 = j1 ++ p :: j2 ∧ k1 ++ k2 ⊆ j1 ++ j2) as (j1 & j2 & E' & Hsub).
    { apply app_eq_inv in E as [(z & -> & E)|(z & -> & E)].
      - destruct z as [|y z]; simplify_eq/=.
        + exists (k1 ++ [pg]), k2. rewrite app_nil_r, <-app_assoc. split; [done|set_solver].
        + exists k1, (z ++ pg :: l2). rewrite <-app_assoc. split; [done|set_solver].
      - exists (l1 ++ pg :: z), k2. rewrite <-app_assoc. simpl. rewrite E. split; [done|set_solver]. }
    pose proof (Ph _ _ _ _ E' Hx) as HF. rewrite Forall_forall in HF. apply Forall_forall. auto.
  - rewrite Forall_app, Forall_cons in Po. apply Forall_app. tauto.
Qed.

(** Only the set of free bytes matters. *)
Lemma partition_ext managed bs bs' held :
  (∀ x, ff.in_free bs' x ↔ ff.in_free bs x) → partition managed bs held → partition managed bs' held.
Proof.
  intros He [Pa Pf Ph Po]. split; [|intros x Hx; by apply Pf, He|done..].
  intros x. by rewrite Pa, He.
Qed.
End partition.

Section props.
Context {kmalloc : Z → Z → M mem Z} {kfree : Z → M mem unit}.
Context {Hheap : HeapSpec kmalloc kfree}.
Context (__head : Z).
Hypothesis head_static : ∀ live, ¬ heap_owned live __head.

Local Abbreviation alloc := (ff.__alloc kfree __head).
Local Abbreviation free := (ff.__free kmalloc kfree __head).

(** The concrete state holds a well-formed list of free blocks [bs]. *)
Definition ff_inv (m : mem) (bs : list ff.blk) : Prop :=
  (∃ live, ff.rep __head m live bs) ∧ ff.wf bs.

(** A request the code does not turn away before it searches the list: whole
    pages, at least one, and no more than __free_space. *)
Definition ff_request (m : mem) (pg : pages) : Prop :=
  page_aligned (size pg) ∧ 0 < size pg ∧
  ∃ fs, m !! (G_free_space, 0) = Some fs ∧ size pg ≤ fs.

Lemma alloc_fit_inv m pre b post pg :
  ff_inv m (pre ++ b :: post) → page_aligned (size pg) → 0 ≤ size pg →
  Forall (λ b', ff.fits (size pg) b' = false) pre → ff.fits (size pg) b = true →
  wp (alloc pg) m (λ r m',
    r = (0, set_paddr pg (ff.b_paddr b)) ∧ ff_inv m' (pre ++ ff.cut b (size pg) ++ post)).
Proof using head_static.
  intros [[live Hr] Hwf] Ha Hn Hpre Hb.
  eapply wp_mono; [by eapply ff.alloc_fit|]. intros r m' [-> [live' Hr']]. split; [done|].
  split; [by exists live'|]. apply ff.cut_wf; [done| |done]. unfold ff.fits in Hb. lia.
Qed.

Lemma alloc_nofit_run m bs pg :
  ff_inv m bs → page_aligned (size pg) → 0 ≤ size pg ≤ sum_with ff.b_size bs →
  Forall (λ b', ff.fits (size pg) b' = false) bs →
  alloc pg m = Ret ((EOF, pg), m).
Proof.
  intros [[live [Hr Hfs]] _] Ha Hn Hall. unfold ff.__alloc.
  rewrite IS_ALIGNED_page, bool_decide_true by (done || lia). simpl.
  erewrite bind_ret by by apply load_Some.
  destruct (Z.gtb_spec (size pg) (sum_with ff.b_size bs)); [lia|].
  erewrite bind_ret by by eapply ff.search_run. rewrite ff.find_none by done.
  replace (__head - ff.off_node + ff.off_node) with __head by lia. by rewrite Z.eqb_refl.
Qed.

(** A request the code turns away at once is answered 0. *)
Lemma alloc_refused_run m pg fs :
  m !! (G_free_space, 0) = Some fs →
  ¬ page_aligned (size pg) ∨ fs < size pg →
  alloc pg m = Ret ((0, pg), m).
Proof.
  intros Hfs Hbad. unfold ff.__alloc. rewrite IS_ALIGNED_page by lia.
  case_bool_decide as Ha; simpl; [|done]. destruct Hbad as [?|Hlt]; [done|].
  erewrite bind_ret by by apply load_Some.
  destruct (Z.gtb_spec (size pg) fs); [done|lia].
Qed.

(** The three ways a request goes. *)
Lemma alloc_cases m bs pg :
  ff_inv m bs → 0 ≤ size pg →
  (alloc pg m = Ret ((0, pg), m) ∧ (¬ page_aligned (size pg) ∨ sum_with ff.b_size bs < size pg)) ∨
  (page_aligned (size pg) ∧ size pg ≤ sum_with ff.b_size bs ∧
    ((alloc pg m = Ret ((EOF, pg), m) ∧ Forall (λ b, ff.b_size b < size pg) bs) ∨
     (∃ pre b post, bs = pre ++ b :: post ∧ Forall (λ b, ff.b_size b < size pg) pre ∧
        size pg ≤ ff.b_size b ∧
        wp (alloc pg) m (λ r m', r = (0, set_paddr pg (ff.b_paddr b)) ∧
                                 ff_inv m' (pre ++ ff.cut b (size pg) ++ post))))).
Proof using head_static.
  intros Hi Hn. destruct (Hi) as [[live [_ Hfs]] _].
  pose proof (alloc_refused_run m pg _ Hfs) as Href.
  assert (Hfit : ∀ l, Forall (λ b, ff.fits (size pg) b = false) l →
                      Forall (λ b, ff.b_size b < size pg) l).
  { intros l Hl. eapply Forall_impl; [exact Hl|]. unfold ff.fits. intros b Hb.
    destruct (Z.geb_spec (ff.b_size b) (size pg)); [done|lia]. }
  destruct (decide (page_aligned (size pg))) as [Ha|Ha];
    [|left; split; [apply Href; by left|by left]].
  destruct (decide (sum_with ff.b_size bs < size pg)) as [Hlt|Hge];
    [left; split; [apply Href; by right|by right]|].
  right. split; [done|]. split; [lia|].
  destruct (first_split (ff.fits (size pg)) bs) as [Hall|(pre & b & post & -> & Hpre & Hb)].
  - left. split; [eapply alloc_nofit_run; [done|done|lia|done]|auto].
  - right. exists pre, b, post. split_and!; [done|auto|unfold ff.fits in Hb; lia|].
    by apply alloc_fit_inv.
Qed.

(** C2: whatever the request, __alloc() does one of three things. A request that is
    not page-aligned, or larger than all free blocks together, is answered 0
    with nothing changed, its paddr included. Otherwise, when no single
    block is large enough, the answer is EOF and nothing is changed. Otherwise the
    answer is 0 with the start of the first block that is large enough,
    exactly the returned range leaves the free set, and the free list stays
    well formed. *)
Theorem ff_alloc_refines m bs pg :
  ff_inv m bs → 0 ≤ size pg →
  wp (alloc pg) m (λ r m',
    if bool_decide (¬ page_aligned (size pg) ∨ sum_with ff.b_size bs < size pg)
    then r = (0, pg) ∧ m' = m
    else if bool_decide (Forall (λ b, ff.b_size b < size pg) bs)
    then r = (EOF, pg) ∧ m' = m
    else ∃ pre b post bs', bs = pre ++ b :: post ∧
       Forall (λ b, ff.b_size b < size pg) pre ∧ size pg ≤ ff.b_size b ∧
       r = (0, set_paddr pg (ff.b_paddr b)) ∧ ff_inv m' bs' ∧
       (∀ x, ff.in_free bs x ↔ ff.in_free bs' x ∨ in_pages (snd r) x) ∧
       (∀ x, ff.in_free bs' x → ¬ in_pages (snd r) x)).
Proof using head_static.
  intros Hi Hn. destruct (alloc_cases m bs pg Hi Hn)
    as [[Hrun Hbad]|(Ha & Hle & [[Hrun Hall]|(pre & b & post & -> & Hpre & Hb & Hw)])].
  - rewrite bool_decide_true by done. by eapply wp_eq.
  - rewrite bool_decide_false by (intros [?|?]; [done|lia]). rewrite bool_decide_true by done.
    by eapply wp_eq.
  - rewrite !bool_decide_false; [|rewrite Forall_app, Forall_cons; lia|intros [?|?]; [done|lia]].
    eapply wp_mono; [exact Hw|]. intros r m' [-> Hi']. destruct Hi as [_ Hwf].
    exists pre, b, post, (pre ++ ff.cut b (size pg) ++ post).
    split_and!; [done..| |]; intros x; unfold in_pages; simpl.
    + by apply ff.cut_free.
    + by apply ff.cut_disjoint.
Qed.

(** C9: a request that is not page-aligned, or is larger than the free space, is
    answered 0, the success code, with memory and the request's
    paddr untouched: the failure cannot be told from a success. *)
Theorem ff_alloc_silent_failure m pg fs :
  m !! (G_free_space, 0) = Some fs →
  ¬ page_aligned (size pg) ∨ fs < size pg →
  ff.__alloc kfree __head pg m = Ret ((0, pg), m).
Proof using. apply alloc_refused_run. Qed.

Lemma free_inv m bs pg this m1 :
  ff_inv m bs → ff.blk_ok (ff.mk_blk this (paddr pg) (size pg)) →
  (∀ x, ff.in_free bs x → ¬ in_pages pg x) →
  kmalloc ff.sizeof_block 0 m = Ret (this, m1) → this ≠ NULL →
  wp (free pg) m (λ _ m', ∃ bs', ff_inv m' bs' ∧
    (∀ x, ff.in_free bs' x ↔ ff.in_free bs x ∨ in_pages pg x)).
Proof using head_static.
  intros [[live Hr] Hwf] Hok Hd Hk Hnn. set (nb := ff.mk_blk this (paddr pg) (size pg)) in *.
  destruct (ff.split_between bs nb Hwf) as (pre & post & -> & Hbt).
  { by destruct Hok as (_ & ? & _). }
  { intros x Hx. by apply Hd. }
  destruct (ff.free_list_ok pre nb post Hok Hwf Hbt) as (Hwf' & _ & Hfree).
  eapply wp_mono; [by eapply ff.free_run|]. intros [] m' [live' Hr'].
  exists (ff.free_list pre nb post). split; [split; [by exists live'|done]|]. done.
Qed.

(** An object of the heap may be allocated next to the free list. *)
Lemma ff_inv_kmalloc m bs sz p m1 :
  ff_inv m bs → 0 < sz ≤ 2 ^ 32 - 48 → kmalloc sz 0 m = Ret (p, m1) → p ≠ NULL → ff_inv m1 bs.
Proof using head_static.
  intros [[live [Hr Hc]] Hwf] Hsz Hk Hnn. split; [|done].
  destruct (ff.lrep_kmalloc_size _ head_static m live bs sz p m1 Hr Hsz Hk Hnn) as (Hr1 & _ & Hc1 & _).
  eexists. split; [exact Hr1|]. by rewrite Hc1.
Qed.

(** C3: __free() of a page-aligned, non-empty range that is not free
    already adds exactly that range to the free set, whatever it merges with,
    and keeps the free list sorted, page-aligned and coalesced; it panics exactly when
    the heap has no room for a list node. *)
Theorem ff_free_refines m bs pg :
  ff_inv m bs → ff.blk_ok (ff.mk_blk 0 (paddr pg) (size pg)) →
  (∀ x, ff.in_free bs x → ¬ in_pages pg x) →
  (∃ m1, kmalloc ff.sizeof_block 0 m = Ret (NULL, m1) ∧ free pg m = Panic) ∨
  wp (free pg) m (λ _ m', ∃ bs', ff_inv m' bs' ∧
    (∀ x, ff.in_free bs' x ↔ ff.in_free bs x ∨ in_pages pg x)).
Proof using head_static.
  intros Hi Hok Hd. destruct (Hi) as [[live [Hr _]] _].
  pose proof (kmalloc_spec m live ff.sizeof_block 0 (ff.lrep_heap _ _ _ _ Hr) ltac:(by vm_compute)) as Hw.
  apply wp_elim in Hw as (this & m1 & Hk & _).
  destruct (decide (this = NULL)) as [->|Hnn]; [left|right; eapply (free_inv _ _ _ this); [done|exact Hok|done..]].
  exists m1. split; [done|]. destruct Hok as (_ & _ & _ & Hp & Hs). simpl in Hp, Hs.
  unfold ff.__free. rewrite !IS_ALIGNED_page, !bool_decide_true by (done || lia). simpl.
  erewrite bind_ret by done. done.
Qed.

(** A request that passes the first two tests is not turned away. *)
Lemma request_cases m bs pg :
  ff_inv m bs → ff_request m pg →
  (alloc pg m = Ret ((EOF, pg), m) ∧ Forall (λ b, ff.b_size b < size pg) bs) ∨
  (∃ pre b post, bs = pre ++ b :: post ∧ 0 ≤ size pg ≤ ff.b_size b ∧
     wp (alloc pg) m (λ r m', r = (0, set_paddr pg (ff.b_paddr b)) ∧
                              ff_inv m' (pre ++ ff.cut b (size pg) ++ post))).
Proof using head_static.
  intros Hi (Ha & Hn & fs & Hfs & Hle). destruct (Hi) as [[live [_ Hfs']] _].
  destruct (alloc_cases m bs pg Hi ltac:(lia))
    as [[_ [?|?]]|(_ & _ & [?|(pre & b & post & -> & _ & Hb & Hw)])]; [done|simplify_eq; lia|by left|].
  right. exists pre, b, post. split_and!; [done|lia|done|done].
Qed.

(** C4: allocating a range and giving it back restores the free list, block
    for block: same ranges, same order, nothing left fragmented. *)
Theorem ff_alloc_free_roundtrip m bs pg r m1 this m2 :
  ff_inv m bs → ff_request m pg → alloc pg m = Ret (r, m1) → fst r = 0 →
  kmalloc ff.sizeof_block 0 m1 = Ret (this, m2) → this ≠ NULL →
  wp (free (snd r)) m1 (λ _ m', ∃ bs', ff_inv m' bs' ∧ ff.range <$> bs' = ff.range <$> bs).
Proof using head_static.
  intros Hi Hreq Hal Hr0 Hk Hnn.
  destruct (request_cases m bs pg Hi Hreq) as [[Hrun _]|(pre & b & post & -> & Hn' & Hw)];
    [rewrite Hrun in Hal; by simplify_eq|].
  destruct Hreq as (Ha & Hn & _). unfold wp in Hw. rewrite Hal in Hw. destruct Hw as [-> Hi1]. simpl in *.
  destruct Hi as [_ Hwf]. pose proof (ff.wf_in_range _ b Hwf ltac:(set_solver)).
  assert (ff.blk_ok b) as (_ & _ & _ & Hpa & _).
  { destruct Hwf as [Hok _]. rewrite Forall_forall in Hok. apply Hok. set_solver. }
  eapply wp_mono.
  - eapply free_inv; [exact Hi1| |intros x; by apply ff.cut_disjoint|exact Hk|done].
    split_and!; simpl; [lia|lia|lia|done|done].
  - intros [] m' (bs' & Hi' & Hfree). exists bs'. split; [done|].
    apply ff.wf_unique; [apply Hi'|done|]. intros x. rewrite Hfree. symmetry. by apply ff.cut_free.
Qed.

(** ** A client and its allocations *)

(** A state of the system: memory and the ranges handed out. The first three
    steps are the answers to any request with a size at all: a range is handed
    out when the request passes the tests of the code and the answer is 0. A
    request that fails them (misaligned, empty or larger than the free space)
    hands out nothing, whatever it is answered. *)
Inductive client_step : mem * list pages → mem * list pages → Prop :=
  | step_alloc m held pg r m' :
      ff_request m pg → alloc pg m = Ret ((0, r), m') →
      client_step (m, held) (m', r :: held)
  | step_alloc_fail m held pg e r m' :
      ff_request m pg → e ≠ 0 → alloc pg m = Ret ((e, r), m') →
      client_step (m, held) (m', held)
  | step_alloc_refused m held pg e r m' :
      ¬ ff_request m pg → 0 ≤ size pg → alloc pg m = Ret ((e, r), m') →
      client_step (m, held) (m', held)
  | step_free m l1 pg l2 m' :
      free pg m = Ret ((), m') →
      client_step (m, l1 ++ pg :: l2) (m', l1 ++ l2).

Definition client_inv (managed : Z → Prop) (s : mem * list pages) : Prop :=
  ∃ bs, ff_inv s.1 bs ∧ partition managed bs s.2.

Lemma client_alloc_inv managed m held bs pg r m' :
  ff_inv m bs → partition managed bs held → ff_request m pg →
  alloc pg m = Ret ((0, r), m') → client_inv managed (m', r :: held).
Proof using head_static.
  intros Hi Hp Hreq Hal.
  destruct (request_cases m bs pg Hi Hreq) as [[Hrun _]|(pre & b & post & -> & Hn & Hw)];
    [rewrite Hrun in Hal; by simplify_eq|].
  destruct Hreq as (Ha & Hpos & _). unfold wp in Hw. rewrite Hal in Hw. destruct Hw as [E Hi1].
  simplify_eq. eexists. split; [exact Hi1|]. simpl. apply partition_alloc; [apply Hi|done|lia|done].
Qed.

(** A failed request leaves memory alone. *)
Lemma client_fail_inv managed m held bs pg e r m' :
  ff_inv m bs → partition managed bs held → ff_request m pg → e ≠ 0 →
  alloc pg m = Ret ((e, r), m') → client_inv managed (m', held).
Proof using head_static.
  intros Hi Hp Hreq He Hal.
  destruct (request_cases m bs pg Hi Hreq) as [[Hrun _]|(pre & b & post & -> & Hn & Hw)].
  - rewrite Hrun in Hal. simplify_eq. by exists bs.
  - unfold wp in Hw. rewrite Hal in Hw. destruct Hw as [E _]. by simplify_eq.
Qed.

(** A request that fails the tests takes no byte from the free set; an empty
    one may rewrite the first block. *)
Lemma client_refused_inv managed m held bs pg e r m' :
  ff_inv m bs → partition managed bs held → ¬ ff_request m pg → 0 ≤ size pg →
  alloc pg m = Ret ((e, r), m') → client_inv managed (m', held).
Proof using head_static.
  intros Hi Hp Hreq Hn Hal. destruct (Hi) as [[live [_ Hfs]] Hwf].
  destruct (alloc_cases m bs pg Hi Hn)
    as [[Hrun _]|(Ha & Hle & [[Hrun _]|(pre & b & post & -> & _ & Hb & Hw)])];
    [rewrite Hrun in Hal; simplify_eq; by exists bs..|].
  assert (Hz : size pg = 0).
  { apply dec_stable. intros Hz. apply Hreq. split_and!; [done|lia|eauto]. }
  unfold wp in Hw. rewrite Hal, Hz in Hw. destruct Hw as [_ Hi1].
  eexists. split; [exact Hi1|]. eapply partition_ext; [|exact Hp].
  intros x. rewrite (ff.cut_free pre b post 0 x Hwf) by lia. clear -x. intuition lia.
Qed.

Lemma client_free_inv managed m bs l1 pg l2 m' :
  ff_inv m bs → partition managed bs (l1 ++ pg :: l2) → free pg m = Ret ((), m') →
  client_inv managed (m', l1 ++ l2).
Proof using head_static.
  intros Hi Hp Hfr. assert (Hok : ff.blk_ok (ff.mk_blk 0 (paddr pg) (size pg))).
  { apply part_ok in Hp. rewrite Forall_app, Forall_cons in Hp. tauto. }
  destruct (Hi) as [[live [Hr _]] _].
  pose proof (kmalloc_spec m live ff.sizeof_block 0 (ff.lrep_heap _ _ _ _ Hr) ltac:(by vm_compute)) as Hw.
  apply wp_elim in Hw as (this & m1 & Hk & _).
  destruct (decide (this = NULL)) as [->|Hnn].
  { exfalso. destruct Hok as (_ & _ & _ & Hpa & Hsz). simpl in Hpa, Hsz.
    unfold ff.__free in Hfr. rewrite !IS_ALIGNED_page, !bool_decide_true in Hfr by (done || lia).
    simpl in Hfr. by erewrite bind_ret in Hfr by done. }
  pose proof (free_inv m bs pg this m1 Hi Hok) as Hw. unfold wp in Hw. rewrite Hfr in Hw.
  destruct Hw as (bs' & Hi' & Hfree); [|done|done|].
  { intros x Hx. apply (part_free _ _ _ Hp) in Hx. rewrite Forall_app, Forall_cons in Hx. tauto. }
  exists bs'. split; [done|]. simpl. by eapply partition_free.
Qed.

(** C1: however a client interleaves requests of any size with frees of
    what it holds, two ranges it holds at the same time never overlap, none of
    them overlaps the free list, and no byte of the managed memory is lost.
    A range counts as held when the request was for whole pages, at least one and
    no more than the free space, and was answered 0; a request outside these
    bounds (which the code answers 0 as well) hands nothing out, and the
    range it names is not the client's. *)
Theorem ff_no_double_allocation managed s s' :
  client_inv managed s → rtc client_step s s' → client_inv managed s'.
Proof using head_static.
  intros Hi Hs. induction Hs as [s|s1 s2 s3 H1 _ IH]; [done|]. apply IH. clear IH s3.
  destruct Hi as (bs & Hi & Hp), H1;
    eauto using client_alloc_inv, client_fail_inv, client_refused_inv, client_free_inv.
Qed.

(** The page allocator's dispatch table. *)
Definition registered (m : mem) (fp : page_allocator) : Prop :=
  m !! (G_page_allocator, 0) = Some (alloc_fp fp) ∧
  m !! (G_page_allocator, 4) = Some (free_fp fp) ∧
  m !! (G_page_allocator, 8) = Some (get_free_fp fp).

Lemma init_wp m live fp (Q : Z → mem → Prop) :
  heap_inv m live →
  (∀ m', ff.rep __head m' live [] → registered m' fp → Q 0 m') →
  wp (ff.page_allocator_init __head fp) m Q.
Proof using head_static.
  intros Hi HQ. unfold ff.page_allocator_init, pmm.set_page_allocator. wp_run.
  assert (Hst : ∀ a, a < STATIC_TOP → ¬ heap_owned live a) by (intros; by apply heap_owned_static).
  apply wp_INIT_LIST_HEAD. intros m1 Hl1 Hs1. wp_run.
  assert (Hc : m1 !! (G_free_space, 0) = Some 0).
  { rewrite (same_but_field _ _ _ _ _ Hs1) by done. by mem_simpl. }
  apply HQ; [|split_and!; by mem_simpl].
  split; [split|]; [| |done|by mem_simpl].
  - do 3 (apply ff.heap_inv_store; [|apply Hst; unfold STATIC_TOP; lia]).
    eapply (ff.heap_inv_same_but [__head]); [|exact Hs1|by intros x ->%list_elem_of_singleton].
    apply ff.heap_inv_store; [done|]. apply Hst. unfold STATIC_TOP. lia.
  - eapply dlist_frame; [| |exact Hl1]; intros x _; by mem_simpl.
Qed.

(** Page_allocator_init() leaves an empty, well-formed allocator that
    manages no memory yet, with its three functions registered. *)
Theorem ff_init_establishes m live fp :
  heap_inv m live →
  wp (ff.page_allocator_init __head fp) m (λ r m',
    r = 0 ∧ registered m' fp ∧ ff_inv m' [] ∧ ff.__get_free m' = Ret (0, m')).
Proof using head_static.
  intros Hi. eapply init_wp; [done|]. intros m' Hr Hreg. split_and!; [done|apply Hreg..| |].
  - split; [by exists live|]. split; constructor.
  - destruct Hr as [_ Hc]. unfold ff.__get_free, load. by rewrite Hc.
Qed.
End props.
