(* ===== verification/Scenario.v ===== *)
(** A concrete boot: the bootstrap pool of kern/init/init.c, the page
    allocator on top of it and one range of memory added. The
    theorems about both allocators are applied to these states. *)
From Stdlib Require Import ZArith Lia.
From stdpp Require Import base numbers gmap list sorting relations.
From S2P Require Import Prelude DList Util Pmm Heap Flff Vmm Bootstrap Ff FfProps.

Open Scope Z_scope.

Module Scenario.

Definition lo : Z := 256.
Definition hi : Z := 1280.
Definition bootstrap_head : Z := 128.
Definition ff_head : Z := 160.
Definition pa2kva (a : Z) : Z := a.
Definition fps : simple_allocator := mk_simple_allocator 11 12 13.
Definition ffp : page_allocator := mk_page_allocator 21 22 23.

Definition kmalloc : Z → Z → M mem Z := boot_kmalloc bootstrap_head pa2kva fps.
Definition kfree : Z → M mem unit := boot_kfree bootstrap_head fps.

Definition run {A} (c : M mem A) (m : mem) : mem :=
  match c m with Ret (_, m') => m' | _ => m end.

Lemma wp_run_state {A} (c : M mem A) m (P : mem → Prop) : wp c m (λ _, P) → P (run c m).
Proof. unfold wp, run. by destruct (c m) as [[a m']| | |]. Qed.

(** The value a computation returns, tested by evaluation. *)
Definition returns {A} (c : M mem A) (m : mem) (f : A → bool) : bool :=
  match c m with Ret (a, _) => f a | _ => false end.

Lemma returns_elim {A} (c : M mem A) m f :
  returns c m f = true → ∃ a m', c m = Ret (a, m') ∧ f a = true.
Proof. unfold returns. destruct (c m) as [[a m']| | |]; naive_solver. Qed.

Definition stack : mem := {[ (F_bh_flags, lo) := 0 ]}.
Definition booted : mem :=
  run (flff.simple_allocator_bootstrap bootstrap_head (vmm.set_simple_allocator (Some fps)) lo (hi - lo)) stack.
Definition inited : mem := run (ff.page_allocator_init ff_head ffp) booted.
Definition some_pages : pages := mk_pages 1048576 65536 0 0.
Definition added : mem := run (ff.__free kmalloc kfree ff_head some_pages) inited.

Lemma Hpool : STATIC_TOP + 64 ≤ lo ∧ lo mod 16 = 0 ∧ hi < lo + PAGE_SIZE ∧ hi ≤ 2 ^ 32 - PAGE_SIZE.
Proof. by vm_compute. Qed.
Lemma Hhead : STATIC_TOP + 64 ≤ bootstrap_head ∧ ¬ (lo ≤ bootstrap_head < hi).
Proof. by vm_compute; split; [|intros [? _]]. Qed.

#[export] Instance heap : HeapSpec kmalloc kfree :=
  boot_heap lo hi bootstrap_head pa2kva Hpool Hhead fps.

Lemma ff_head_static live : ¬ heap_owned live ff_head.
Proof.
  intros [[H|[H _]]|H]; [done| |]; unfold in_table, lo, ff_head, vmm.__simple_allocator in H; lia.
Qed.

Lemma booted_inv : boot_inv lo hi bootstrap_head fps booted ∅.
Proof.
  apply (wp_run_state _ _ (λ m, boot_inv lo hi bootstrap_head fps m ∅)). apply (bootstrap_wp _ _ _ Hpool Hhead); [by vm_compute|by vm_compute|by eexists|done].
Qed.

Lemma inited_rep : ff.rep ff_head inited ∅ [].
Proof.
  apply (wp_run_state _ _ (λ m, ff.rep ff_head m ∅ [])). apply (init_wp _ ff_head_static _ ∅); [exact booted_inv|done].
Qed.

Definition block0 : ff.blk := ff.mk_blk 288 1048576 65536.

Lemma block0_ok : ff.blk_ok block0.
Proof. by vm_compute. Qed.

Lemma added_inv : ff_inv ff_head added [block0].
Proof.
  split; [|apply ff.wf_cons; split; [exact block0_ok|split; [split; constructor|set_solver]]].
  apply (wp_run_state (ff.__free kmalloc kfree ff_head some_pages) inited
           (λ m', ∃ live, ff.rep ff_head m' live [block0])).
  destruct (returns_elim (kmalloc ff.sizeof_block 0) inited (λ p, p =? 288)) as (p & m1 & Hk & ->%Z.eqb_eq);
    [by vm_compute|].
  eapply (ff.free_run ff_head ff_head_static inited ∅ [] [] some_pages 288);
    [exact inited_rep|split; constructor|exact block0_ok|split; constructor|exact Hk|done].
Qed.

(** ** The theorems at work *)

Lemma bootstrap_establishes_witness :
  wp (flff.simple_allocator_bootstrap bootstrap_head (vmm.set_simple_allocator (Some fps)) lo (hi - lo))
     stack (λ r m', r = 0 ∧ boot_inv lo hi bootstrap_head fps m' ∅).
Proof.
  apply (bootstrap_establishes lo hi bootstrap_head Hpool Hhead fps stack);
    [by vm_compute|by vm_compute|by eexists].
Defined.


(** Beyond 2^32 - 48 bytes the rounded size wraps to a few bytes, and the
    request for 4 GB is met with an object at the front of the pool. *)
Example kmalloc_size_wraps :
  returns (kmalloc (2 ^ 32 - 1) 0) booted (λ p, p =? lo + 32) &&
  returns (kmalloc (2 ^ 32 - 47) 0) booted (λ p, p =? lo + 32) &&
  returns (kmalloc (2 ^ 32 - 48) 0) booted (λ p, p =? NULL) = true.
Proof. by vm_compute. Qed.

Definition one_live : mem := run (kmalloc 32 0) booted.

Lemma one_live_inv : boot_inv lo hi bootstrap_head fps one_live {[ 288 := 32 ]}.
Proof.
  destruct (returns_elim (kmalloc 32 0) booted (λ p, p =? 288)) as (p & m1 & Hk & ->%Z.eqb_eq);
    [by vm_compute|].
  assert (Hsz : 0 < 32 ≤ 2 ^ 32 - 48) by lia.
  pose proof (kmalloc_spec (HeapSpec := heap) booted ∅ 32 0) as Hw.
  specialize (Hw booted_inv Hsz).
  unfold one_live, run, wp in *. rewrite Hk in *. destruct Hw as [_ [[? _]|(_ & _ & Hi & _)]]; [done|].
  by rewrite <-insert_empty.
Qed.

Lemma boot_kfree_sound_witness :
  wp (kfree 288) one_live (λ _ m', boot_inv lo hi bootstrap_head fps m' (delete 288 {[ 288 := 32 ]})).
Proof.
  eapply wp_mono.
  - apply (boot_kfree_sound lo hi bootstrap_head pa2kva Hpool Hhead fps one_live {[ 288 := 32 ]} 288 32);
      [exact one_live_inv|by rewrite lookup_singleton_eq].
  - intros [] m' [? _]. done.
Defined.

Definition request : pages := mk_pages 0 8192 0 0.

Lemma request_ok : ff_request added request.
Proof.
  split; [by vm_compute|]. split; [by vm_compute|]. exists 65536. split; [by vm_compute|by vm_compute].
Qed.

Lemma ff_init_establishes_witness :
  wp (ff.page_allocator_init ff_head ffp) booted (λ r m', r = 0 ∧ ff_inv ff_head m' []).
Proof.
  eapply wp_mono.
  - apply (ff_init_establishes ff_head ff_head_static booted ∅ ffp). exact booted_inv.
  - intros r m' (? & _ & ? & _). done.
Defined.

Lemma ff_alloc_refines_witness :
  wp (ff.__alloc kfree ff_head request) added (λ r _, r = (0, set_paddr request 1048576)).
Proof.
  eapply wp_mono.
  - apply (ff_alloc_refines ff_head ff_head_static added [block0] request); [exact added_inv|by vm_compute].
  - intros r m'. rewrite bool_decide_false by (by vm_compute; intros [?|?]).
    rewrite bool_decide_false by (rewrite Forall_cons; vm_compute; intros [? _]; done).
    intros (pre & b & post & bs' & E & _ & _ & -> & _).
    destruct pre as [|? [|? ?]]; by simplify_eq/=.
Defined.

Lemma ff_alloc_silent_failure_witness :
  ff.__alloc kfree ff_head (mk_pages 7 131072 0 0) added = Ret ((0, mk_pages 7 131072 0 0), added).
Proof. apply (ff_alloc_silent_failure ff_head added _ 65536); [by vm_compute|right; by vm_compute]. Defined.

Lemma ff_free_refines_witness :
  ff.__free kmalloc kfree ff_head some_pages inited = Panic ∨
  wp (ff.__free kmalloc kfree ff_head some_pages) inited (λ _ m', ∃ bs', ff_inv ff_head m' bs').
Proof.
  destruct (ff_free_refines ff_head ff_head_static inited [] some_pages) as [(m1 & _ & ?)|Hw].
  - split; [by exists ∅; apply inited_rep|split; constructor].
  - by vm_compute.
  - intros x Hx. by apply ff.in_free_nil in Hx.
  - by left.
  - right. eapply wp_mono; [exact Hw|]. intros [] m' (bs' & ? & _). by exists bs'.
Defined.

Lemma ff_alloc_free_roundtrip_witness :
  ∃ r m1, ff.__alloc kfree ff_head request added = Ret (r, m1) ∧
    wp (ff.__free kmalloc kfree ff_head (snd r)) m1
       (λ _ m', ∃ bs', ff_inv ff_head m' bs' ∧ ff.range <$> bs' = [(1048576, 65536)]).
Proof.
  destruct (returns_elim (r ← ff.__alloc kfree ff_head request; p ← kmalloc ff.sizeof_block 0; mret (r, p))
              added (λ rp, (fst (fst rp) =? 0) && negb (snd rp =? NULL))) as (rp & m2 & Hrun & Hrp);
    [by vm_compute|].
  unfold mbind, M_bind in Hrun.
  destruct (ff.__alloc kfree ff_head request added) as [[r m1]| | |] eqn:Hal; [|done..].
  destruct (kmalloc ff.sizeof_block 0 m1) as [[p m3]| | |] eqn:Hk; [|done..].
  injection Hrun as <- <-. apply andb_prop in Hrp as [Hr0%Z.eqb_eq Hp].
  apply negb_true_iff, Z.eqb_neq in Hp.
  exists r, m1. split; [done|].
  apply (ff_alloc_free_roundtrip ff_head ff_head_static added [block0] request r m1 p m3);
    [exact added_inv|exact request_ok|done..].
Defined.

(** Everything is free: the client holds nothing. *)
Lemma start_inv : client_inv ff_head (λ x, 1048576 ≤ x < 1114112) (added, []).
Proof.
  exists [block0]. split; [exact added_inv|]. split.
  - intros x. rewrite ff.in_free_cons, ff.in_free_nil, Exists_nil. simpl. lia.
  - intros x _. constructor.
  - intros l1 p l2 x E. by destruct l1.
  - constructor.
Qed.

Lemma ff_no_double_allocation_witness :
  ∃ r m1, r ≠ [] ∧ client_inv ff_head (λ x, 1048576 ≤ x < 1114112) (m1, r).
Proof.
  destruct (returns_elim (ff.__alloc kfree ff_head request) added (λ r, fst r =? 0))
    as ([c r] & m1 & Hal & Hr%Z.eqb_eq); [by vm_compute|]. simpl in Hr. subst c.
  exists [r], m1. split; [done|].
  apply (ff_no_double_allocation ff_head ff_head_static _ (added, []) (m1, [r]));
    [exact start_inv|]. eapply rtc_l; [|apply rtc_refl].
  apply (step_alloc ff_head added [] request r m1); [exact request_ok|exact Hal].
Defined.
End Scenario.
