(* ===== verification/Slab.v ===== *)
(** kern/mm/vmm/slab.c: the caching allocator. *)
From Stdlib Require Import ZArith Lia.
From stdpp Require Import base numbers gmap list.
From S2P Require Import Prelude DList Util Pmm Bitops Vmm.

Open Scope Z_scope.

Module slab.

Definition SLAB_MASK_CHARS : Z := 4.
Definition SLAB_ENTRIES : Z := SLAB_MASK_CHARS * 8.
Definition SLAB_MIN_SIZE : Z := PAGE_SIZE / SLAB_ENTRIES.

(** struct slab_head: slab_size, then the three list sentries. *)
Definition empty_of (head : Z) : Z := head + 4.
Definition partial_of (head : Z) : Z := head + 12.
Definition full_of (head : Z) : Z := head + 20.
Definition sizeof_slab_head : Z := 28.

(** struct slab: node at 0, vaddr at 8, used[] at 12. *)
Definition off_node : Z := 0.
Definition used_at (slab i : Z) : Z := slab + 12 + i.
Definition sizeof_slab : Z := 16.

(** The indices of used[]. *)
Definition mask_chars : list Z := [0; 1; 2; 3].

(** A loop over used[] that stops at the first byte that differs from [v]. *)
Fixpoint all_used (slab v : Z) (ks : list Z) : M mem bool :=
  match ks with
  | [] => mret true
  | i :: ks =>
      b ← load F_used (used_at slab i);
      if negb (b =? v) then mret false else all_used slab v ks
  end.

Definition __is_full (slab : Z) : M mem bool := all_used slab 255 mask_chars.
Definition __is_empty (slab : Z) : M mem bool := all_used slab 0 mask_chars.

(** slab->used[i] = 0 for every i. *)
Fixpoint clear_used (slab : Z) (ks : list Z) : M mem unit :=
  match ks with
  | [] => mret ()
  | i :: ks => _ ← store F_used (used_at slab i) 0; clear_used slab ks
  end.

Section code.
Context (kmalloc : Z → Z → M mem Z) (kfree : Z → M mem unit).
Context (alloc_pages : pages → M mem (Z * pages)) (free_pages : pages → M mem unit).
Context (pa2kva kva2pa : Z → Z).
(** A call through create_obj or destroy_obj. *)
Context (call_obj : Z → Z → M mem unit).

(** for (off = 0; off < slab_size; off += cache->size) create_obj(vaddr + off);
    a zero object size never ends. *)
Fixpoint create_objs (n : nat) (fp vaddr off slab_size size : Z) : M mem unit :=
  if negb (off <? slab_size) then mret () else
  match n with
  | O => nofuel
  | S n' => _ ← call_obj fp (vaddr + off); create_objs n' fp vaddr (u32 (off + size)) slab_size size
  end.

Definition __extend (cache : Z) : M mem Z :=
  head ← load F_c_head cache;
  slab ← kmalloc sizeof_slab 0;
  if slab =? NULL then mret EOF else
  (* allocate pages *)
  slab_size ← load F_slab_size head;
  flags ← load F_c_flags cache;
  r ← alloc_pages (mk_pages 0 slab_size flags 0);
  if fst r <? 0 then _ ← kfree slab; mret EOF else
  let vaddr := pa2kva (u32 (paddr (snd r))) in
  _ ← store F_vaddr slab vaddr;
  (* initialize the entries *)
  _ ← clear_used slab mask_chars;
  create_obj ← load F_c_create_obj cache;
  _ ← (if negb (create_obj =? NULL)
       then slab_size ← load F_slab_size head;
            size ← load F_c_size cache;
            create_objs (Z.to_nat slab_size) create_obj vaddr 0 slab_size size
       else mret ());
  (* add to list, don't sort *)
  _ ← list_add_after (slab + off_node) (empty_of head);
  mret 0.

Definition __trim (cache : Z) : M mem unit :=
  head ← load F_c_head cache;
  (* delete through the empty list *)
  for_each_entry_safe (empty_of head) off_node (λ slab,
    vaddr ← load F_vaddr slab;
    slab_size ← load F_slab_size head;
    flags ← load F_c_flags cache;
    _ ← free_pages (mk_pages (kva2pa vaddr) slab_size flags 0);
    _ ← list_del (slab + off_node);
    kfree slab).

(** The size computation of __create(). *)
Definition slab_size_of (size align : Z) : Z :=
  (* bitfield has length limit *)
  let size := if size <? SLAB_MIN_SIZE then SLAB_MIN_SIZE else size in
  (* apply alignment *)
  let size := ALIGN_ABOVE 32 size align in
  (* if larger than half a page, use whole pages *)
  let size := if size >? PAGE_SIZE / 2 then ALIGN_ABOVE 32 size PAGE_SIZE else size in
  ALIGN_ABOVE 32 (u32 (size * SLAB_ENTRIES)) PAGE_SIZE.

Definition __create (cache : Z) : M mem Z :=
  size ← load F_c_size cache;
  align ← load F_c_align cache;
  (* allocate head *)
  head ← kmalloc sizeof_slab_head 0;
  if head =? NULL then mret EOF else
  (* fill in struct head *)
  _ ← store F_slab_size head (slab_size_of size align);
  _ ← INIT_LIST_HEAD (empty_of head);
  _ ← INIT_LIST_HEAD (partial_of head);
  _ ← INIT_LIST_HEAD (full_of head);
  _ ← store F_c_head cache head;
  mret 0.

Definition __destroy (cache : Z) : M mem Z :=
  head ← load F_c_head cache;
  p ← list_empty (partial_of head);
  if negb p then mret EOF else
  f ← list_empty (full_of head);
  if negb f then mret EOF else
  _ ← __trim cache;
  _ ← kfree head;
  _ ← store F_c_head cache NULL;
  mret 0.

(** The do-while loop of __alloc(): the first byte of used[] whose ffz() is
    not 0. *)
Fixpoint find_slot (n : nat) (slab i : Z) : M mem (Z * Z) :=
  match n with
  | O => nofuel
  | S n' =>
      b ← load F_used (used_at slab i);
      let j := ffz b - 1 in
      if j =? -1 then find_slot n' slab (i + 1) else mret (i, j)
  end.

(** One allocation out of [slab]; the object's index. *)
Definition take_slot (slab : Z) : M mem Z :=
  ij ← find_slot 4 slab 0;
  let '(i, j) := ij in
  b ← load F_used (used_at slab i);
  _ ← store F_used (used_at slab i) (u8 (Z.lor b (Z.shiftl 1 j)));
  mret (i * 8 + j).

Definition __alloc (cache : Z) : M mem Z :=
  head ← load F_c_head cache;
  (* first we try the partial list *)
  p ← list_empty (partial_of head);
  slab ← (if negb p
          then list_first_entry (partial_of head) off_node
          else e ← list_empty (empty_of head);
               ret ← (if (e : bool) then __extend cache else mret 0);
               if ret <? 0 then mret NULL
               else list_first_entry (empty_of head) off_node);
  if slab =? NULL then mret NULL else
  (* perform a single allocation *)
  i ← take_slot slab;
  vaddr ← load F_vaddr slab;
  size ← load F_c_size cache;
  let obj := u32 (vaddr + i * size) in
  full ← __is_full slab;
  _ ← (if (full : bool)
       then _ ← list_del (slab + off_node);
            list_add_after (slab + off_node) (full_of head)
       else prev ← load F_prev (slab + off_node);
            if prev =? empty_of head
            then _ ← list_del (slab + off_node);
                 list_add_after (slab + off_node) (partial_of head)
            else mret ());
  mret obj.

(** Whether [obj] lies in the pages of [tmp]. *)
Definition holds_obj (head obj tmp : Z) : M mem bool :=
  start ← load F_vaddr tmp;
  slab_size ← load F_slab_size head;
  mret ((obj >=? start) && (obj <? u32 (start + slab_size))).

Definition __free (cache obj : Z) : M mem Z :=
  head ← load F_c_head cache;
  (* find his slab *)
  tmp ← for_each_entry (full_of head) off_node (holds_obj head obj);
  slab ← (if negb (tmp + off_node =? full_of head) then mret tmp
          else tmp ← for_each_entry (partial_of head) off_node (holds_obj head obj);
               mret (if negb (tmp + off_node =? partial_of head) then tmp else NULL));
  (* bad free *)
  if slab =? NULL then mret EOF else
  (* apply the free *)
  destroy_obj ← load F_c_destroy_obj cache;
  _ ← (if negb (destroy_obj =? NULL) then call_obj destroy_obj obj else mret ());
  vaddr ← load F_vaddr slab;
  size ← load F_c_size cache;
  let i := (obj - vaddr) / size in
  let j := i mod 8 in
  let i := i / 8 in
  b ← load F_used (used_at slab i);
  _ ← store F_used (used_at slab i) (Z.land b (u8 (Z.lnot (Z.shiftl 1 j))));
  empty ← __is_empty slab;
  _ ← (if (empty : bool)
       then _ ← list_del (slab + off_node);
            list_add_after (slab + off_node) (empty_of head)
       else prev ← load F_prev (slab + off_node);
            if prev =? full_of head
            then _ ← list_del (slab + off_node);
                 list_add_after (slab + off_node) (partial_of head)
            else mret ());
  mret 0.

(** The initcall: registration, with this file's function pointers. *)
Definition __init (fps : caching_allocator) : M mem Z :=
  _ ← vmm.set_caching_allocator (Some fps);
  mret 0.
End code.
End slab.
