(* ===== verification/SlabProps.v ===== *)
(** What the slab allocator of kern/mm/vmm/slab.c does with its bitmap, and
    the sizes it computes. *)
From Stdlib Require Import ZArith Lia.
From stdpp Require Import base numbers gmap list.
From S2P Require Import Prelude DList Util Pmm Bitops Vmm Slab.

Open Scope Z_scope.

(** ** The slot search *)

(** Checked for every value of the byte. *)
Definition slot_ok (b : Z) : bool :=
  let j := ffz b - 1 in
  (0 <=? j) && (j <? 8) && negb (Z.testbit b j) &&
  forallb (λ i, Z.testbit b i || (j <=? i)) (seqZ 0 8) &&
  (u8 (Z.lor b (Z.shiftl 1 j)) =? b + 2 ^ j).

Lemma slot_all : forallb slot_ok (seqZ 0 255) = true.
Proof. by vm_compute. Qed.

Lemma slot_spec b : 0 ≤ b < 255 → slot_ok b = true.
Proof.
  intros Hb. assert (H := slot_all). rewrite forallb_forall in H. apply H.
  apply list_elem_of_In, elem_of_seqZ. lia.
Qed.

(** While the first byte of a slab's bitmap has a free bit, an
    allocation takes its lowest free bit: the index is below 8, the bit was
    clear, all lower ones were set, and it is the only one that changes. *)
Theorem slab_take_first_free m slab b :
  m !! (F_used, slab.used_at slab 0) = Some b → 0 ≤ b < 255 →
  ∃ j, 0 ≤ j < 8 ∧ Z.testbit b j = false ∧ (∀ i, 0 ≤ i < j → Z.testbit b i = true) ∧
    slab.take_slot slab m = Ret (j, <[(F_used, slab.used_at slab 0) := b + 2 ^ j]> m).
Proof.
  intros Hm Hb. pose proof (slot_spec b Hb) as Hs. unfold slot_ok in Hs.
  repeat (apply andb_prop in Hs as [Hs ?]). exists (ffz b - 1).
  split; [lia|]. split; [by apply negb_true_iff|]. split.
  - intros i Hi. match goal with H : forallb _ _ = true |- _ => rewrite forallb_forall in H;
      specialize (H i ltac:(apply list_elem_of_In, elem_of_seqZ; lia)) end.
    destruct (Z.testbit b i); [done|]. simpl in *. lia.
  - unfold slab.take_slot. simpl. unfold mbind, M_bind, load, mret, M_ret. rewrite Hm.
    rewrite (proj2 (Z.eqb_neq (ffz b - 1) (-1))) by lia. rewrite Hm. unfold store.
    do 2 f_equal. f_equal. lia.
Qed.

Lemma slab_take_first_free_witness :
  ∃ j, slab.take_slot 100 {[ (F_used, 112) := 7 ]} =
       Ret (j, <[(F_used, 112) := 7 + 2 ^ j]> {[ (F_used, 112) := 7 ]}).
Proof.
  destruct (slab_take_first_free {[ (F_used, 112) := 7 ]} 100 7) as (j & _ & _ & _ & E);
    [by vm_compute|lia|]. exists j. exact E.
Defined.

Lemma take_slot_byte_full m slab :
  m !! (F_used, slab.used_at slab 0) = Some 255 → slab.take_slot slab m = Ret (8, m).
Proof.
  intros Hm. unfold slab.take_slot. simpl. unfold mbind, M_bind, load, mret, M_ret. rewrite Hm. simpl.
  rewrite Hm. unfold store. do 2 f_equal. by rewrite insert_id.
Qed.

(** ** A slab with a full first byte *)

Section double.
Context (kmalloc : Z → Z → M mem Z) (kfree : Z → M mem unit).
Context (alloc_pages : pages → M mem (Z * pages)) (pa2kva : Z → Z) (call_obj : Z → Z → M mem unit).

(** The cache's first partial slab has its first eight objects taken, and others free. *)
Record half_used (m : mem) (cache head slab vaddr size : Z) (rest : list Z) (b1 b2 b3 : Z) : Prop := {
  hu_head : m !! (F_c_head, cache) = Some head;
  hu_size : m !! (F_c_size, cache) = Some size;
  hu_list : dlist m (slab.partial_of head) (slab :: rest);
  hu_vaddr : m !! (F_vaddr, slab) = Some vaddr;
  hu_b0 : m !! (F_used, slab.used_at slab 0) = Some 255;
  hu_b1 : m !! (F_used, slab.used_at slab 1) = Some b1;
  hu_b2 : m !! (F_used, slab.used_at slab 2) = Some b2;
  hu_b3 : m !! (F_used, slab.used_at slab 3) = Some b3;
  hu_free : ¬ (b1 = 255 ∧ b2 = 255 ∧ b3 = 255);
  hu_null : slab ≠ NULL;
}.

Lemma not_full_run m cache head slab vaddr size rest b1 b2 b3 :
  half_used m cache head slab vaddr size rest b1 b2 b3 → slab.__is_full slab m = Ret (false, m).
Proof.
  intros [_ _ _ _ H0 H1 H2 H3 Hf _]. unfold slab.__is_full, slab.mask_chars, slab.all_used.
  erewrite bind_ret by by apply load_Some. simpl.
  erewrite bind_ret by by apply load_Some. destruct (Z.eqb_spec b1 255); simpl; [|done].
  erewrite bind_ret by by apply load_Some. destruct (Z.eqb_spec b2 255); simpl; [|done].
  erewrite bind_ret by by apply load_Some. destruct (Z.eqb_spec b3 255); simpl; [|done]. tauto.
Qed.

(** C35: once the first eight objects of a slab are taken, every further
    allocation from it returns the ninth object and records nothing: memory
    is unchanged, so the same object is handed out again and again. *)
Theorem slab_double_allocation m cache head slab vaddr size rest b1 b2 b3 :
  half_used m cache head slab vaddr size rest b1 b2 b3 →
  slab.__alloc kmalloc kfree alloc_pages pa2kva call_obj cache m = Ret (u32 (vaddr + 8 * size), m).
Proof.
  intros H. pose proof (not_full_run _ _ _ _ _ _ _ _ _ _ H) as Hnf.
  pose proof (take_slot_byte_full _ _ (hu_b0 _ _ _ _ _ _ _ _ _ _ H)) as Ht.
  destruct H as [Hh Hs Hl Hv _ _ _ _ _ Hn]. unfold slab.__alloc.
  erewrite bind_ret by by apply load_Some.
  erewrite bind_ret by by apply list_empty_run. simpl.
  destruct (dlist_edge m _ [] _ Hl) as [En _]. simpl in En.
  destruct (dlist_neighbours m _ [] _ _ Hl) as [Ep _]. simpl in Ep.
  unfold list_first_entry, list_entry, slab.off_node.
  erewrite bind_ret by (erewrite bind_ret by (by apply load_Some); unfold mret, M_ret; by rewrite Z.sub_0_r).
  rewrite (proj2 (Z.eqb_neq _ _) Hn).
  erewrite bind_ret by exact Ht. erewrite bind_ret by by apply load_Some.
  erewrite bind_ret by by apply load_Some. erewrite bind_ret by exact Hnf.
  erewrite bind_ret; [reflexivity|]. rewrite Z.add_0_r. erewrite bind_ret by by apply load_Some.
  rewrite (proj2 (Z.eqb_neq _ _)); [done|]. unfold slab.partial_of, slab.empty_of. lia.
Qed.
End double.

Definition dbl_mem : mem :=
  list_to_map [((F_c_head, 400), 500); ((F_c_size, 400), 1024);
    ((F_next, 512), 600); ((F_prev, 512), 600); ((F_next, 600), 512); ((F_prev, 600), 512);
    ((F_vaddr, 600), 65536); ((F_used, 612), 255); ((F_used, 613), 0); ((F_used, 614), 0); ((F_used, 615), 0)].

Lemma slab_double_allocation_witness :
  slab.__alloc (λ _ _, stuck) (λ _, stuck) (λ _, stuck) (λ a, a) (λ _ _, stuck) 400 dbl_mem =
  Ret (65536 + 8 * 1024, dbl_mem).
Proof.
  apply (slab_double_allocation _ _ _ _ _ dbl_mem 400 500 600 65536 1024 [] 0 0 0).
  split; try by vm_compute.
  - split; [by vm_compute|]. apply (bool_decide_unpack _). by vm_compute.
  - by intros [? _].
Defined.

(** ** Slab sizes *)

Lemma align_above_bounds k x :
  0 ≤ k ≤ 24 → 0 ≤ x ≤ 2 ^ 31 →
  let y := ALIGN_ABOVE 32 x (2 ^ k) in
  x ≤ y < x + 2 ^ k ∧ y mod 2 ^ k = 0.
Proof.
  intros Hk Hx. simpl. assert (0 < 2 ^ k ≤ 2 ^ 24) as Ha.
  { split; [apply Z.pow_pos_nonneg; lia|apply Z.pow_le_mono_r; lia]. }
  rewrite ALIGN_ABOVE_spec; [|lia|unfold in_range; lia|lia].
  rewrite Z.mod_mul by lia. split; [|done].
  pose proof (Z.div_mod (x + 2 ^ k - 1) (2 ^ k) ltac:(lia)).
  pose proof (Z.mod_pos_bound (x + 2 ^ k - 1) (2 ^ k) ltac:(lia)). lia.
Qed.

(** For every object size up to a megabyte and power-of-two alignment up
    to 64 KB, the slab size __create() computes is a positive whole number
    of pages and has room for 32 objects. *)
Theorem slab_size_ok size k :
  0 < size ≤ 2 ^ 20 → 0 ≤ k ≤ 16 →
  let sz := slab.slab_size_of size (2 ^ k) in
  page_aligned sz ∧ slab.SLAB_ENTRIES * size ≤ sz < 2 ^ 31.
Proof.
  intros Hs Hk. unfold slab.slab_size_of. simpl.
  change slab.SLAB_MIN_SIZE with 128. change slab.SLAB_ENTRIES with 32. change (PAGE_SIZE / 2) with 2048.
  unfold page_aligned. change PAGE_SIZE with 4096.
  assert (0 < 2 ^ k ≤ 2 ^ 16) as Ha.
  { split; [apply Z.pow_pos_nonneg; lia|apply Z.pow_le_mono_r; lia]. }
  set (s0 := if size <? 128 then 128 else size).
  assert (size ≤ s0 ≤ 2 ^ 20) by (unfold s0; destruct (Z.ltb_spec size 128); lia).
  destruct (align_above_bounds k s0) as [H1 _]; [lia|lia|].
  set (s1 := ALIGN_ABOVE 32 s0 (2 ^ k)) in *. clearbody s0 s1.
  destruct (align_above_bounds 12 s1) as [H2 _]; [lia|lia|].
  change (2 ^ 12) with 4096 in H2.
  set (s2 := if s1 >? 2048 then _ else s1).
  assert (size ≤ s2 ≤ 2 ^ 21) by (unfold s2; destruct (Z.gtb_spec s1 2048); lia). clearbody s2.
  rewrite wrap_small by (unfold in_range; lia).
  destruct (align_above_bounds 12 (s2 * 32)) as [H3 H4]; [lia|lia|].
  change (2 ^ 12) with 4096 in H3, H4. split; [exact H4|lia].
Qed.

Lemma slab_size_ok_witness : page_aligned (slab.slab_size_of 1024 (2 ^ 10)).
Proof. apply (slab_size_ok 1024 10); lia. Defined.
