(* ===== verification/AddrSpace.v ===== *)
(** Address conversions of the three architectures: include/arch/*/mmu.h and
    include/arch/mips/addrspace.h (32-bit), and include/errno.h. *)
From Stdlib Require Import ZArith Lia.
From stdpp Require Import base numbers.
From S2P Require Import Prelude.

Open Scope Z_scope.

(** include/errno.h *)
Definition ENOENT : Z := 2.
Definition ENOMEM : Z := 12.
Definition EFAULT : Z := 14.
Definition EEXIST : Z := 17.
Definition EINVAL : Z := 22.

Module mips_space.
Definition KSEG0 : Z := 0x80000000.
Definition KSEG1 : Z := 0xa0000000.
Definition KSSEG : Z := 0xc0000000.
Definition LOWRAM_TOP : Z := 0x10000000.
Definition IO_CAC_BASE : Z := KSEG0.
Definition IO_UNCAC_BASE : Z := KSEG1.
Definition TO_CAC (x : Z) : Z := u32 (IO_CAC_BASE + x).
Definition TO_UNCAC (x : Z) : Z := u32 (IO_UNCAC_BASE + x).

Definition kva2pa (a : Z) : Z :=
  if a >? KSEG1 then a - KSEG1
  else if a >? KSEG0 then a - KSEG0
  else if a >? KSSEG then a - KSSEG + LOWRAM_TOP
  else u32 (-1).

Definition pa2kva (x : Z) : Z :=
  if x >? LOWRAM_TOP then u32 (x - LOWRAM_TOP + KSSEG) else TO_CAC x.

(** premap_addr() and postmap_addr() change nothing on MIPS. *)
Definition __premap_addr (x : Z) : Z := x.
Definition __postmap_addr (x : Z) : Z := x.

(** On MIPS the conversions between physical and kernel virtual addresses
    are inverse to each other for every physical address above 0 and up to
    the 256 MB of low memory. Address 0 itself does not come back, nor does
    any address of the second mapping above 256 MB. *)
Theorem mips_kva_roundtrip pa :
  (0 < pa ≤ LOWRAM_TOP → kva2pa (pa2kva pa) = pa) ∧
  kva2pa (pa2kva 0) ≠ 0 ∧
  (LOWRAM_TOP < pa < LOWRAM_TOP + 0x30000000 → kva2pa (pa2kva pa) ≠ pa).
Proof.
  unfold kva2pa, pa2kva, TO_CAC, IO_CAC_BASE, KSEG0, KSEG1, KSSEG, LOWRAM_TOP.
  split; [|split; [by vm_compute|]]; intros Hp.
  - destruct (Z.gtb_spec pa 0x10000000); [lia|].
    rewrite wrap_small by (unfold in_range; lia).
    destruct (Z.gtb_spec (0x80000000 + pa) 0xa0000000); [lia|].
    destruct (Z.gtb_spec (0x80000000 + pa) 0x80000000); lia.
  - destruct (Z.gtb_spec pa 0x10000000); [|lia].
    rewrite wrap_small by (unfold in_range; lia).
    destruct (Z.gtb_spec (pa - 0x10000000 + 0xc0000000) 0xa0000000); lia.
Qed.
End mips_space.

(** include/arch/mips/addrspace.h, 64-bit. *)
Module mips64_space.
Definition KSEG0 : Z := 0xffffffff80000000.
Definition KSEG1 : Z := 0xffffffffa0000000.
Definition XKPHY : Z := 0x8000000000000000.
Definition IO_CAC_BASE : Z := XKPHY + 0x1800000000000000.
Definition IO_UNCAC_BASE : Z := XKPHY + 0x1000000000000000.
Definition TO_CAC (x : Z) : Z := u64 (IO_CAC_BASE + x).
Definition TO_UNCAC (x : Z) : Z := u64 (IO_UNCAC_BASE + x).

Definition kva2pa (a : Z) : Z :=
  if a >? KSEG1 then a - KSEG1
  else if a >? KSEG0 then a - KSEG0
  else if a >? IO_CAC_BASE then a - IO_CAC_BASE
  else if a >? IO_UNCAC_BASE then a - IO_UNCAC_BASE
  else u64 (-1).

Definition pa2kva (x : Z) : Z := TO_CAC x.

(** With 64-bit addresses every physical address of up to 48 bits but 0 comes back. *)
Lemma kva_roundtrip64 pa : 0 < pa < 2 ^ 48 → kva2pa (pa2kva pa) = pa.
Proof.
  intros Hp. unfold kva2pa, pa2kva, TO_CAC, IO_CAC_BASE, IO_UNCAC_BASE, XKPHY, KSEG0, KSEG1.
  rewrite wrap_small by (unfold in_range; lia).
  repeat match goal with |- context [?a >? ?b] => destruct (Z.gtb_spec a b); try lia end.
Qed.
End mips64_space.

(** i386 and ARM: one linear mapping each. *)
Module i386_space.
Section space.
Context (KERN_BASE : Z).
Definition kva2pa (kva : Z) : Z := u32 (kva - KERN_BASE).
Definition pa2kva (pa : Z) : Z := u32 (pa + KERN_BASE).
Definition __premap_addr (kva : Z) : Z := u32 (kva - KERN_BASE).
Definition __postmap_addr (pa : Z) : Z := u32 (pa + KERN_BASE).

(** premap_addr() and postmap_addr() of include/mm.h. *)
Definition premap_addr (a : Z) : Z := if a >=? KERN_BASE then __premap_addr a else a.
Definition postmap_addr (a : Z) : Z := if a >=? KERN_BASE then a else __postmap_addr a.
End space.
End i386_space.

Module arm_space.
Section space.
Context (KERN_BASE RAM_PHYSBASE : Z).
Definition kva2pa (kva : Z) : Z := u32 (kva + RAM_PHYSBASE - KERN_BASE).
Definition pa2kva (pa : Z) : Z := u32 (pa - RAM_PHYSBASE + KERN_BASE).
Definition __premap_addr (kva : Z) : Z := u32 (kva + RAM_PHYSBASE - KERN_BASE).
Definition __postmap_addr (pa : Z) : Z := u32 (pa - RAM_PHYSBASE + KERN_BASE).
Definition premap_addr (a : Z) : Z := if a >=? KERN_BASE then __premap_addr a else a.
Definition postmap_addr (a : Z) : Z := if a >=? KERN_BASE then a else __postmap_addr a.
End space.
End arm_space.

Lemma wrap_add_sub w x d : wrap w (wrap w (x + d) - d) = wrap w x.
Proof. unfold wrap. rewrite Zminus_mod_idemp_l. f_equal. lia. Qed.

(** On i386 and ARM the two conversions are inverse to each other on every
    32-bit address, whatever the bases. *)
Theorem linear_kva_roundtrip kern ram a :
  in_range 32 a →
  i386_space.kva2pa kern (i386_space.pa2kva kern a) = a ∧
  i386_space.pa2kva kern (i386_space.kva2pa kern a) = a ∧
  arm_space.kva2pa kern ram (arm_space.pa2kva kern ram a) = a ∧
  arm_space.pa2kva kern ram (arm_space.kva2pa kern ram a) = a.
Proof.
  intros Ha. unfold i386_space.kva2pa, i386_space.pa2kva, arm_space.kva2pa, arm_space.pa2kva.
  repeat split.
  - by rewrite wrap_add_sub, wrap_small.
  - replace (a - kern) with (a + - kern) by lia.
    replace (u32 (a + - kern) + kern) with (u32 (a + - kern) - - kern) by lia.
    by rewrite wrap_add_sub, wrap_small.
  - replace (a - ram + kern) with (a + (kern - ram)) by lia.
    replace (u32 (a + (kern - ram)) + ram - kern) with (u32 (a + (kern - ram)) - (kern - ram)) by lia.
    by rewrite wrap_add_sub, wrap_small.
  - replace (a + ram - kern) with (a + (ram - kern)) by lia.
    replace (u32 (a + (ram - kern)) - ram + kern) with (u32 (a + (ram - kern)) - (ram - kern)) by lia.
    by rewrite wrap_add_sub, wrap_small.
Qed.

Lemma linear_kva_roundtrip_witness :
  i386_space.kva2pa 0x80000000 (i386_space.pa2kva 0x80000000 0x100000) = 0x100000.
Proof. apply (linear_kva_roundtrip 0x80000000 0 0x100000). by vm_compute. Defined.
