(* ===== verification/Mmu.v ===== *)
(** kern/mm/mmu.c: the early mapping queue and the MMU and jump handlers. *)
From Stdlib Require Import ZArith Lia.
From stdpp Require Import base numbers list.
From S2P Require Import Prelude.

Open Scope Z_scope.

(** struct early_mapping (include/mm.h). *)
Record early_mapping : Type := mk_mapping {
  em_paddr : Z;
  em_vaddr : Z;
  em_size : Z;
  em_type : Z
}.

Definition EARLY_MAPPING_MEMORY : Z := 0.
Definition EARLY_MAPPING_KMMAP : Z := 1.
Definition EARLY_MAPPING_TEMP : Z := 2.
Definition EARLY_MAPPING_OTHER : Z := 3.

Definition EARLY_MAPPING_QUEUE_LENGTH : Z := 10.
Definition MMU_HANDLER_QUEUE_LENGTH : Z := 10.
Definition JUMP_HANDLER_QUEUE_LENGTH : Z := 10.

(** A fixed-size array with a fill count, as the file uses three times. *)
Record queue (A : Type) : Type := mk_queue { q_size : Z; q_slots : list A }.
Arguments mk_queue {A}.
Arguments q_size {A}.
Arguments q_slots {A}.

(** The static variables of the file. *)
Record mmu_state : Type := mk_mmu {
  early_mappings : queue early_mapping;
  __mem_top : Z;
  __kmmap_top : Z;
  mmu_handlers : queue Z;
  jump_handlers : queue Z
}.

Definition get : M mmu_state mmu_state := λ s, Ret (s, s).
Definition put (s : mmu_state) : M mmu_state unit := λ _, Ret ((), s).

(** A larger state that holds the variables of this file, as the kernel's does. *)
Class HasMmu (S : Type) : Type := {
  mmu_of : S → mmu_state;
  put_mmu : mmu_state → S → S;
  mmu_of_put x s : mmu_of (put_mmu x s) = x;
  put_mmu_of s : put_mmu (mmu_of s) s = s;
}.

#[global] Instance mmu_has_mmu : HasMmu mmu_state := {|
  mmu_of s := s; put_mmu x _ := x; mmu_of_put _ _ := eq_refl; put_mmu_of _ := eq_refl
|}.

(** The code of this file as part of the whole kernel. *)
Definition in_mmu {S} `{HasMmu S} {A} (c : M mmu_state A) : M S A := λ s,
  match c (mmu_of s) with
  | Ret (a, x) => Ret (a, put_mmu x s)
  | Panic => Panic
  | Stuck => Stuck
  | NoFuel => NoFuel
  end.

Definition set_mappings (s : mmu_state) q := mk_mmu q (__mem_top s) (__kmmap_top s) (mmu_handlers s) (jump_handlers s).
Definition set_mem_top (s : mmu_state) x := mk_mmu (early_mappings s) x (__kmmap_top s) (mmu_handlers s) (jump_handlers s).
Definition set_kmmap_top (s : mmu_state) x := mk_mmu (early_mappings s) (__mem_top s) x (mmu_handlers s) (jump_handlers s).
Definition set_mmu_handlers (s : mmu_state) q := mk_mmu (early_mappings s) (__mem_top s) (__kmmap_top s) q (jump_handlers s).
Definition set_jump_handlers (s : mmu_state) q := mk_mmu (early_mappings s) (__mem_top s) (__kmmap_top s) (mmu_handlers s) q.

(** The common body of the three add functions: [None] is the panic,
    [Some (EOF, _)] the full queue. *)
Definition queue_add {A} (len : Z) (q : queue A) (x : A) : option (Z * queue A) :=
  if q_size q >? len then None else
  if q_size q =? len then Some (EOF, q) else
  Some (0, mk_queue (q_size q + 1) (<[Z.to_nat (q_size q) := x]> (q_slots q))).

Definition early_mapping_add (entry : early_mapping) : M mmu_state Z :=
  s ← get;
  match queue_add EARLY_MAPPING_QUEUE_LENGTH (early_mappings s) entry with
  | None => panic
  | Some (r, q) => _ ← put (set_mappings s q); mret r
  end.

(** The address-space layout, from the architectures' mmu.h. *)
Class layout : Type := {
  KERN_BASE : Z;
  KMMAP_BASE : Z;
  RESERVED_BASE : Z;
  layout_ok : 0 ≤ KERN_BASE ≤ KMMAP_BASE ∧ KMMAP_BASE ≤ RESERVED_BASE ∧ RESERVED_BASE < 2 ^ 32;
}.

Section mappings.
Context `{layout}.

Definition early_mapping_clear : M mmu_state unit :=
  s ← get;
  let s := set_mappings s (mk_queue 0 (q_slots (early_mappings s))) in
  let s := set_mem_top s KERN_BASE in
  put (set_kmmap_top s KMMAP_BASE).

Definition early_mapping_add_memory (base size : Z) : M mmu_state Z :=
  s ← get;
  (* check available address space *)
  if __mem_top s >=? KMMAP_BASE then mret 0 else
  let size := if size >? u32 (KMMAP_BASE - __mem_top s) then u32 (KMMAP_BASE - __mem_top s) else size in
  (* construct the descriptor and register the mapping *)
  ret ← early_mapping_add (mk_mapping base (__mem_top s) size EARLY_MAPPING_MEMORY);
  if negb (ret =? 0) then mret 0 else
  s ← get;
  _ ← put (set_mem_top s (u32 (__mem_top s + size)));
  mret size.

(** The return type is size_t, so EOF comes back as 2^32 - 1. *)
Definition early_mapping_add_kmmap (base size : Z) : M mmu_state Z :=
  s ← get;
  if __kmmap_top s >=? RESERVED_BASE then mret (u32 EOF) else
  ret ← early_mapping_add (mk_mapping base (__kmmap_top s) size EARLY_MAPPING_KMMAP);
  if negb (ret =? 0) then mret 0 else
  s ← get;
  let top := u32 (__kmmap_top s + size) in
  _ ← put (set_kmmap_top s top);
  mret (u32 (top - size)).
End mappings.

(** The iterator: an entry is named by its index in the queue, [None] is NULL. *)
Definition early_mapping_next (base : option Z) : M mmu_state (option Z) :=
  s ← get;
  let next := match base with None => 0 | Some i => i + 1 end in
  if (next <? 0) || (next >=? q_size (early_mappings s)) then mret None else mret (Some next).

Definition mapping_at (i : Z) : M mmu_state early_mapping :=
  s ← get;
  match q_slots (early_mappings s) !! Z.to_nat i with Some e => mret e | None => stuck end.

(** for (; mapping != NULL; mapping = early_mapping_next(mapping)): the body
    says whether the function returns from inside the loop, and with what. *)
Section mapping_loop.
Context {S : Type} `{HasMmu S} (body : early_mapping → M S (option Z)).

Fixpoint mapping_loop (n : nat) (mapping : option Z) : M S (option Z) :=
  match mapping with
  | None => mret None
  | Some i =>
      match n with
      | O => nofuel
      | Datatypes.S n' =>
          e ← in_mmu (mapping_at i);
          r ← body e;
          match r with
          | Some x => mret (Some x)
          | None => next ← in_mmu (early_mapping_next (Some i)); mapping_loop n' next
          end
      end
  end.
End mapping_loop.

Section page_index.
(** The architecture's page index: cleared, then extended by one range. *)
Context {S : Type} `{HasMmu S}.
Context (page_index_clear : M S unit) (page_index_early_map : Z → Z → Z → M S Z).

Definition map_body (e : early_mapping) : M S (option Z) :=
  ret ← page_index_early_map (em_paddr e) (em_vaddr e) (em_size e);
  mret (if ret =? EOF then Some EOF else None).

Definition page_index_init : M S Z :=
  mapping ← in_mmu (early_mapping_next None);
  _ ← page_index_clear;
  r ← mapping_loop map_body (Z.to_nat EARLY_MAPPING_QUEUE_LENGTH) mapping;
  mret (default 0 r).
End page_index.

(** ** Handlers *)

Definition mmu_handlers_clear : M mmu_state unit :=
  s ← get; put (set_mmu_handlers s (mk_queue 0 (q_slots (mmu_handlers s)))).

Definition mmu_handlers_add (entry : Z) : M mmu_state Z :=
  s ← get;
  match queue_add MMU_HANDLER_QUEUE_LENGTH (mmu_handlers s) entry with
  | None => panic
  | Some (r, q) => _ ← put (set_mmu_handlers s q); mret r
  end.

Definition jump_handlers_clear : M mmu_state unit :=
  s ← get; put (set_jump_handlers s (mk_queue 0 (q_slots (jump_handlers s)))).

Definition jump_handlers_add (entry : Z) : M mmu_state Z :=
  s ← get;
  match queue_add JUMP_HANDLER_QUEUE_LENGTH (jump_handlers s) entry with
  | None => panic
  | Some (r, q) => _ ← put (set_jump_handlers s q); mret r
  end.

Section apply.
(** A call of a handler. *)
Context {S : Type} `{HasMmu S} (call : Z → M S unit).

(** for (i = 0; i < size; ++i) queue[i](); the size is read again each time. *)
Fixpoint apply_loop (n : nat) (sel : mmu_state → queue Z) (i : Z) : M S unit :=
  s ← in_mmu get;
  if negb (i <? q_size (sel s)) then mret () else
  match n with
  | O => nofuel
  | Datatypes.S n' =>
      match q_slots (sel s) !! Z.to_nat i with
      | None => stuck
      | Some fp => _ ← call fp; apply_loop n' sel (i + 1)
      end
  end.

Definition mmu_handlers_apply : M S unit :=
  apply_loop (Z.to_nat MMU_HANDLER_QUEUE_LENGTH) mmu_handlers 0.
Definition jump_handlers_apply : M S unit :=
  apply_loop (Z.to_nat JUMP_HANDLER_QUEUE_LENGTH) jump_handlers 0.
End apply.

(** * Properties *)

(** The entries a queue holds. *)
Definition entries {A} (q : queue A) : list A := take (Z.to_nat (q_size q)) (q_slots q).

Definition queue_ok {A} (len : Z) (q : queue A) : Prop :=
  0 ≤ q_size q ≤ len ∧ length (q_slots q) = Z.to_nat len.

Lemma queue_add_spec {A} len (q : queue A) x :
  queue_ok len q →
  (q_size q = len ∧ queue_add len q x = Some (EOF, q)) ∨
  (q_size q < len ∧ ∃ q', queue_add len q x = Some (0, q') ∧ queue_ok len q' ∧
     q_size q' = q_size q + 1 ∧ entries q' = entries q ++ [x]).
Proof.
  intros [Hs Hl]. unfold queue_add. destruct (Z.gtb_spec (q_size q) len); [lia|].
  destruct (Z.eqb_spec (q_size q) len); [by left|right]. split; [lia|].
  eexists. split; [reflexivity|]. split; [split; simpl; [lia|by rewrite length_insert]|].
  split; [done|]. unfold entries; simpl.
  replace (Z.to_nat (q_size q + 1)) with (S (Z.to_nat (q_size q))) by lia.
  rewrite (take_S_r _ _ x); [|rewrite list_lookup_insert_eq; [done|lia]].
  by rewrite take_insert_ge by lia.
Qed.

(** The mappings of one type, one after the other from [base] on. *)
Fixpoint chain (ty base top : Z) (l : list early_mapping) : Prop :=
  match l with
  | [] => base = top
  | e :: l => if em_type e =? ty then em_vaddr e = base ∧ 0 ≤ em_size e ∧ chain ty (base + em_size e) top l
              else chain ty base top l
  end.

Lemma chain_snoc ty base top l e :
  chain ty base top l → em_type e = ty → em_vaddr e = top → 0 ≤ em_size e →
  chain ty base (top + em_size e) (l ++ [e]).
Proof.
  revert base. induction l as [|d l IH]; intros base; simpl.
  - intros -> -> -> ?. by rewrite Z.eqb_refl.
  - destruct (em_type d =? ty); [intros (? & ? & ?)|intros ?]; intros; auto.
Qed.

Lemma chain_other ty base top l e :
  chain ty base top l → em_type e ≠ ty → chain ty base top (l ++ [e]).
Proof.
  revert base. induction l as [|d l IH]; intros base; simpl.
  - intros -> He. by rewrite (proj2 (Z.eqb_neq _ _) He).
  - destruct (em_type d =? ty); [intros (? & ? & ?)|intros ?]; auto.
Qed.

Lemma set_mappings_id s : set_mappings s (early_mappings s) = s.
Proof. by destruct s. Qed.

Section invariant.
Context `{L : layout}.

(** The early mappings of memory tile KERN_BASE up to __mem_top, which stays
    below KMMAP_BASE. *)
Definition mmu_inv (s : mmu_state) : Prop :=
  queue_ok EARLY_MAPPING_QUEUE_LENGTH (early_mappings s) ∧
  KERN_BASE ≤ __mem_top s ≤ KMMAP_BASE ∧
  chain EARLY_MAPPING_MEMORY KERN_BASE (__mem_top s) (entries (early_mappings s)).

(** C31: early_mapping_add_memory() queues exactly as much of the range as fits. When the
    queue is full, or memory is mapped up to KMMAP_BASE already, it returns 0 and changes
    nothing. Otherwise it returns the size, cut to the room between __mem_top and
    KMMAP_BASE, appends one descriptor of that size at __mem_top, and moves
    __mem_top up by it, changing nothing else. The memory mappings stay contiguous
    from KERN_BASE to __mem_top; it never panics. *)
Theorem add_memory_contiguous s base size :
  mmu_inv s → 0 ≤ size < 2 ^ 32 →
  wp (early_mapping_add_memory base size) s (λ r s',
    mmu_inv s' ∧
    if (KMMAP_BASE <=? __mem_top s) || (q_size (early_mappings s) =? EARLY_MAPPING_QUEUE_LENGTH)
    then r = 0 ∧ s' = s
    else r = Z.min size (KMMAP_BASE - __mem_top s) ∧ __mem_top s' = __mem_top s + r ∧
      entries (early_mappings s') = entries (early_mappings s) ++ [mk_mapping base (__mem_top s) r EARLY_MAPPING_MEMORY] ∧
      __kmmap_top s' = __kmmap_top s ∧ mmu_handlers s' = mmu_handlers s ∧ jump_handlers s' = jump_handlers s).
Proof.
  intros (Hq & Htop & Hc) Hs. destruct layout_ok as (? & ? & ?).
  unfold early_mapping_add_memory. apply wp_bind. eapply wp_eq; [done|].
  assert (Hsame : mmu_inv s) by done.
  destruct (Z.geb_spec (__mem_top s) KMMAP_BASE), (Z.leb_spec KMMAP_BASE (__mem_top s)); try lia.
  { by apply wp_ret. }
  rewrite !wrap_small by (unfold in_range; lia).
  set (sz := if size >? KMMAP_BASE - __mem_top s then _ else size).
  assert (Hsz : sz = Z.min size (KMMAP_BASE - __mem_top s)).
  { unfold sz. destruct (Z.gtb_spec size (KMMAP_BASE - __mem_top s)); lia. }
  clearbody sz. set (e := mk_mapping base (__mem_top s) sz EARLY_MAPPING_MEMORY).
  apply wp_bind. unfold early_mapping_add. apply wp_bind. eapply wp_eq; [done|].
  destruct (queue_add_spec _ _ e Hq) as [[Hf ->]|(Hf & q & -> & Hq' & _ & He)]; cbn [orb].
  - rewrite Hf, Z.eqb_refl. apply wp_bind. eapply wp_eq; [done|]. apply wp_ret. rewrite set_mappings_id.
    by apply wp_ret.
  - rewrite (proj2 (Z.eqb_neq _ _)) by (clear -Hf; lia).
    apply wp_bind. eapply wp_eq; [done|]. apply wp_ret. simpl. apply wp_bind. eapply wp_eq; [done|].
    apply wp_bind. eapply wp_eq; [done|]. apply wp_ret. simpl.
    rewrite wrap_small by (unfold in_range; lia). split; [|done].
    split; [done|]. simpl. split; [lia|]. rewrite He. apply (chain_snoc _ _ _ _ e); [done..|simpl; lia].
Qed.

(** The invariant also survives mappings of device memory. *)
Lemma add_kmmap_inv s base size :
  mmu_inv s →
  wp (early_mapping_add_kmmap base size) s (λ _ s', mmu_inv s' ∧ __mem_top s' = __mem_top s).
Proof.
  intros (Hq & Htop & Hc). unfold early_mapping_add_kmmap. apply wp_bind. eapply wp_eq; [done|].
  destruct (__kmmap_top s >=? RESERVED_BASE); [by apply wp_ret|].
  set (e := mk_mapping base (__kmmap_top s) size EARLY_MAPPING_KMMAP).
  apply wp_bind. unfold early_mapping_add. apply wp_bind. eapply wp_eq; [done|].
  destruct (queue_add_spec _ _ e Hq) as [[_ ->]|(_ & q & -> & Hq' & _ & He)]; simpl.
  - apply wp_bind. eapply wp_eq; [done|]. apply wp_ret. rewrite set_mappings_id. by apply wp_ret.
  - apply wp_bind. eapply wp_eq; [done|]. apply wp_ret. simpl. apply wp_bind. eapply wp_eq; [done|].
    apply wp_bind. eapply wp_eq; [done|]. apply wp_ret. split; [|done].
    split; [done|]. simpl. split; [done|]. rewrite He. by apply chain_other.
Qed.
End invariant.

(** ** Running the queues *)

Lemma in_mmu_ret {S} `{HasMmu S} {A} (c : M mmu_state A) s a x :
  c (mmu_of s) = Ret (a, x) → in_mmu c s = Ret (a, put_mmu x s).
Proof. unfold in_mmu. by intros ->. Qed.

(** Reading the variables. *)
Lemma in_mmu_read {S} `{HasMmu S} {A} (c : M mmu_state A) s a :
  c (mmu_of s) = Ret (a, mmu_of s) → in_mmu c s = Ret (a, s).
Proof. intros E. rewrite (in_mmu_ret _ _ _ _ E). by rewrite put_mmu_of. Qed.

Lemma entries_lookup {A} (q : queue A) i x :
  0 ≤ i < q_size q → q_slots q !! Z.to_nat i = Some x → entries q !! Z.to_nat i = Some x.
Proof. intros Hi Hx. unfold entries. by rewrite lookup_take_lt by lia. Qed.

Lemma entries_end {A} (q : queue A) i : q_size q ≤ i → drop (Z.to_nat i) (entries q) = [].
Proof. intros Hi. apply drop_ge. unfold entries. rewrite length_take. lia. Qed.

Section running.
Context {S : Type} `{HM : HasMmu S}.

(** [page_index_early_map] over a list of entries, stopping at the first EOF. *)
Fixpoint map_all (f : Z → Z → Z → M S Z) (l : list early_mapping) : M S Z :=
  match l with
  | [] => mret 0
  | e :: l => ret ← f (em_paddr e) (em_vaddr e) (em_size e);
              if ret =? EOF then mret EOF else map_all f l
  end.

(** States that code keeps up, and in which it leaves a queue alone. *)
Context (I : S → Prop).
Definition keeps {A B} (sel : mmu_state → queue B) (c : M S A) : Prop :=
  ∀ s a s', I s → c s = Ret (a, s') → I s' ∧ sel (mmu_of s') = sel (mmu_of s).

Lemma next_run s i :
  match i with Some i => 0 ≤ i | None => True end →
  let j := match i with Some i => i + 1 | None => 0 end in
  in_mmu (early_mapping_next i) s = Ret (if j <? q_size (early_mappings (mmu_of s)) then Some j else None, s).
Proof.
  intros Hi j. apply in_mmu_read. unfold early_mapping_next, get, mbind, M_bind. fold j.
  assert (0 ≤ j) by (unfold j; destruct i; lia).
  destruct (Z.ltb_spec j 0); [lia|]. simpl.
  destruct (Z.geb_spec j (q_size (early_mappings (mmu_of s)))), (Z.ltb_spec j (q_size (early_mappings (mmu_of s)))); done || lia.
Qed.

(** The body of the loop over a list of entries. *)
Fixpoint each_mapping (body : early_mapping → M S (option Z)) (l : list early_mapping) : M S (option Z) :=
  match l with
  | [] => mret None
  | e :: l => r ← body e; match r with Some x => mret (Some x) | None => each_mapping body l end
  end.

Lemma mapping_loop_run body s n i :
  (∀ e, keeps early_mappings (body e)) → I s → queue_ok EARLY_MAPPING_QUEUE_LENGTH (early_mappings (mmu_of s)) →
  0 ≤ i → (Z.to_nat (q_size (early_mappings (mmu_of s)) - i) ≤ n)%nat →
  mapping_loop body n (if i <? q_size (early_mappings (mmu_of s)) then Some i else None) s =
  each_mapping body (drop (Z.to_nat i) (entries (early_mappings (mmu_of s)))) s.
Proof.
  intros Hf. revert s i. induction n as [|n IH]; intros s i HI Hq Hi Hn;
    destruct (Z.ltb_spec i (q_size (early_mappings (mmu_of s)))) as [Hlt|Hge];
    [lia|by rewrite entries_end| |by rewrite entries_end].
  destruct Hq as [Hs Hl]. assert (Hq : queue_ok EARLY_MAPPING_QUEUE_LENGTH (early_mappings (mmu_of s))) by done.
  destruct (lookup_lt_is_Some_2 (q_slots (early_mappings (mmu_of s))) (Z.to_nat i)) as [e He]; [lia|].
  rewrite (drop_S _ _ _ (entries_lookup _ _ _ (conj Hi Hlt) He)). cbn [mapping_loop each_mapping].
  erewrite bind_ret by (apply in_mmu_read; unfold mapping_at, get, mbind, M_bind; by rewrite He).
  destruct (body e s) as [[r s']| | |] eqn:Er; [|unfold mbind, M_bind; by rewrite Er..].
  erewrite !bind_ret by done. destruct (Hf _ _ _ _ HI Er) as [HI' Hk].
  destruct r as [x|]; [done|]. rewrite <-Hk in Hq, Hn, Hs |- *.
  erewrite bind_ret by (apply next_run; lia). cbv zeta.
  rewrite IH; [|done|done|lia|lia]. do 2 f_equal. lia.
Qed.

(** The loop from the first entry on. *)
Lemma all_mappings_run body s :
  (∀ e, keeps early_mappings (body e)) → I s → queue_ok EARLY_MAPPING_QUEUE_LENGTH (early_mappings (mmu_of s)) →
  mapping_loop body (Z.to_nat EARLY_MAPPING_QUEUE_LENGTH)
    (if 0 <? q_size (early_mappings (mmu_of s)) then Some 0 else None) s =
  each_mapping body (entries (early_mappings (mmu_of s))) s.
Proof. intros Hf HI Hq. apply (mapping_loop_run body s _ 0); [done|done|done|lia|]. destruct Hq. lia. Qed.

Lemma map_all_each f l s : map_all f l s = (r ← each_mapping (map_body f) l; mret (default 0 r)) s.
Proof.
  revert s. induction l as [|e l IH]; intros s; [done|]. cbn [map_all each_mapping]. unfold map_body at 2.
  rewrite !bind_assoc. destruct (f (em_paddr e) (em_vaddr e) (em_size e) s) as [[r s']| | |] eqn:E;
    [|unfold mbind, M_bind; by rewrite E..].
  rewrite !(bind_ret _ _ _ _ _ E). erewrite bind_ret by reflexivity. destruct (r =? EOF); [done|apply IH].
Qed.

Lemma map_body_keeps f : (∀ a b c, keeps early_mappings (f a b c)) → ∀ e, keeps early_mappings (map_body f e).
Proof.
  intros Hf e s a s' HI. unfold map_body, mbind, M_bind, mret, M_ret. intros E.
  destruct (f (em_paddr e) (em_vaddr e) (em_size e) s) as [[r s1]| | |] eqn:Er; [|done..]. simplify_eq.
  by eapply Hf.
Qed.

Lemma page_index_init_run clear f s s1 :
  queue_ok EARLY_MAPPING_QUEUE_LENGTH (early_mappings (mmu_of s)) →
  clear s = Ret ((), s1) → I s1 → early_mappings (mmu_of s1) = early_mappings (mmu_of s) →
  (∀ a b c, keeps early_mappings (f a b c)) →
  page_index_init clear f s = map_all f (entries (early_mappings (mmu_of s))) s1.
Proof.
  intros Hq Hc HI Hs Hf. unfold page_index_init. erewrite bind_ret by by apply next_run.
  erewrite bind_ret by done. rewrite <-Hs in Hq |- *. rewrite map_all_each.
  unfold mbind, M_bind. by rewrite (all_mappings_run _ s1 (map_body_keeps f Hf) HI).
Qed.

(** Page_index_init() clears the page index and then maps exactly the
    queued early mappings, in the order they were registered, up to the first
    one that fails; the bound of the iterator loop is never reached. *)
Theorem page_index_init_maps_queue clear f s s1 :
  queue_ok EARLY_MAPPING_QUEUE_LENGTH (early_mappings (mmu_of s)) →
  clear s = Ret ((), s1) → I s1 → early_mappings (mmu_of s1) = early_mappings (mmu_of s) →
  (∀ a b c, keeps early_mappings (f a b c)) →
  page_index_init clear f s = map_all f (entries (early_mappings (mmu_of s))) s1.
Proof. apply page_index_init_run. Qed.

(** The handlers of a list, in order. *)
Fixpoint run_all (call : Z → M S unit) (l : list Z) : M S unit :=
  match l with
  | [] => mret ()
  | fp :: l => _ ← call fp; run_all call l
  end.

Lemma apply_loop_run call sel n s i :
  (∀ fp, keeps sel (call fp)) → I s → 0 ≤ i →
  (Z.to_nat (q_size (sel (mmu_of s))) ≤ length (q_slots (sel (mmu_of s))))%nat →
  (Z.to_nat (q_size (sel (mmu_of s)) - i) ≤ n)%nat →
  apply_loop call n sel i s = run_all call (drop (Z.to_nat i) (entries (sel (mmu_of s)))) s.
Proof.
  intros Hcall. revert s i. induction n as [|n IH]; intros s i HI Hi Hl Hn; cbn [apply_loop];
    (erewrite (bind_ret (in_mmu get)) by by apply in_mmu_read);
    destruct (Z.ltb_spec i (q_size (sel (mmu_of s)))) as [Hlt|Hge]; cbn [negb];
    [lia|by rewrite entries_end| |by rewrite entries_end].
  destruct (lookup_lt_is_Some_2 (q_slots (sel (mmu_of s))) (Z.to_nat i)) as [fp Hfp]; [lia|].
  rewrite Hfp, (drop_S _ _ _ (entries_lookup _ _ _ (conj Hi Hlt) Hfp)). cbn [run_all].
  destruct (call fp s) as [[[] s']| | |] eqn:Ec; [|unfold mbind, M_bind; by rewrite Ec..].
  erewrite !bind_ret by done. destruct (Hcall _ _ _ _ HI Ec) as [HI' Hk]. rewrite <-Hk in Hl, Hn |- *.
  rewrite IH; [|done|lia..]. do 2 f_equal. lia.
Qed.

Lemma handlers_apply_run call s :
  (∀ fp, keeps mmu_handlers (call fp)) → I s → queue_ok MMU_HANDLER_QUEUE_LENGTH (mmu_handlers (mmu_of s)) →
  mmu_handlers_apply call s = run_all call (entries (mmu_handlers (mmu_of s))) s.
Proof. intros Hc HI [Hs Hl]. apply (apply_loop_run call mmu_handlers _ s 0); [done|done|lia..]. Qed.

Lemma jump_handlers_apply_run call s :
  (∀ fp, keeps jump_handlers (call fp)) → I s → queue_ok JUMP_HANDLER_QUEUE_LENGTH (jump_handlers (mmu_of s)) →
  jump_handlers_apply call s = run_all call (entries (jump_handlers (mmu_of s))) s.
Proof. intros Hc HI [Hs Hl]. apply (apply_loop_run call jump_handlers _ s 0); [done|done|lia..]. Qed.
End running.

(** The MMU handler queue takes ten handlers and refuses an eleventh with
    EOF. *)
Lemma mmu_handlers_add_run s fp :
  queue_ok MMU_HANDLER_QUEUE_LENGTH (mmu_handlers s) →
  ∃ r s', mmu_handlers_add fp s = Ret (r, s') ∧
    ((r = EOF ∧ s' = s ∧ q_size (mmu_handlers s) = MMU_HANDLER_QUEUE_LENGTH) ∨
     (r = 0 ∧ entries (mmu_handlers s') = entries (mmu_handlers s) ++ [fp])).
Proof.
  intros Hq. unfold mmu_handlers_add, get, put, mbind, M_bind.
  destruct (queue_add_spec _ _ fp Hq) as [[Hz ->]|(_ & q & -> & _ & _ & He)]; do 2 eexists;
    (split; [reflexivity|]); [left|by right]. split; [done|]. split; [by destruct s|done].
Qed.

(** ** A layout and a fresh queue *)

Lemma layout_2g_ok : 0 ≤ 0x80000000 ≤ 0xf0000000 ∧ 0xf0000000 ≤ 0xfe000000 ∧ 0xfe000000 < 2 ^ 32.
Proof. lia. Qed.

#[export] Instance layout_2g : layout := {|
  KERN_BASE := 0x80000000; KMMAP_BASE := 0xf0000000; RESERVED_BASE := 0xfe000000;
  layout_ok := layout_2g_ok;
|}.

Definition fresh : mmu_state :=
  mk_mmu (mk_queue 0 (replicate 10 (mk_mapping 0 0 0 0))) KERN_BASE KMMAP_BASE
    (mk_queue 0 (replicate 10 0)) (mk_queue 0 (replicate 10 0)).

Lemma fresh_inv : mmu_inv fresh.
Proof. by vm_compute. Qed.

(** 256 MB fit; 4 GB less a page are cut to the 1792 MB below KMMAP_BASE. *)
Lemma add_memory_contiguous_witness :
  wp (early_mapping_add_memory 0 0x10000000) fresh (λ r s', r = 0x10000000 ∧ __mem_top s' = 0x90000000) ∧
  wp (early_mapping_add_memory 0 0xfffff000) fresh (λ r s', r = 0x70000000 ∧ __mem_top s' = 0xf0000000).
Proof.
  split.
  - eapply wp_mono; [apply (add_memory_contiguous fresh 0 0x10000000 fresh_inv); lia|].
    intros r s' (_ & -> & -> & _). by vm_compute.
  - eapply wp_mono; [apply (add_memory_contiguous fresh 0 0xfffff000 fresh_inv); lia|].
    intros r s' (_ & -> & -> & _). by vm_compute.
Defined.

Lemma page_index_init_maps_queue_witness :
  page_index_init (mret ()) (λ _ _ _, mret 0) fresh = Ret (0, fresh).
Proof.
  rewrite (page_index_init_maps_queue (λ _, True) (mret ()) (λ _ _ _, mret 0) fresh fresh); [done|by vm_compute|done|done|done|].
  intros a b c s x s' _ E. unfold mret, M_ret in E. by simplify_eq.
Defined.
