(* ===== verification/Pgtable.v ===== *)
(** kern/arch/mips/pgtable.c (32-bit) and kern/arch/i386/pgtable.c: two-level
    page tables. *)
From Stdlib Require Import ZArith Lia.
From stdpp Require Import base numbers gmap list.
From S2P Require Import Prelude Util Pmm AddrSpace.

Open Scope Z_scope.

Definition PTE_LOWMASK : Z := 0xfff.
Definition PTE_PADDR (pte : Z) : Z := Z.land pte (u32 (Z.lnot PTE_LOWMASK)).
Definition PTE_FLAGS (pte : Z) : Z := Z.land pte PTE_LOWMASK.
Definition NR_PTENTRIES : Z := Z.shiftl 1 (PAGE_SHIFT - 2).
Definition VMA_WRITE : Z := 2.

(** Entry [i] of the table of words of the given size at virtual address [t]. *)
Definition entry_of (word t i : Z) : Z := t + word * i.
Abbreviation entry := (entry_of 4).

(** memset(t, 0, word * n) on a page that is used as a table. *)
Fixpoint clear_words (word t : Z) (n : nat) : M mem unit :=
  match n with
  | O => mret ()
  | S n' => _ ← clear_words word t n'; store F_pte (entry_of word t (Z.of_nat n')) 0
  end.
Abbreviation clear_entries := (clear_words 4).
Definition clear_page (t : Z) : M mem unit := clear_entries t 1024.

(** struct pagedesc. *)
Record pagedesc : Type := mk_pagedesc { pd_dir : Z; pd_table : Z; pdx : Z; ptx : Z }.

(** init_pgindex() and destroy_pgindex() have the same text on both. *)
Section index.
Context (pgalloc : M mem Z) (pgfree : Z → M mem unit) (pa2kva kva2pa : Z → Z).
(** memset(page, 0, PAGE_SIZE) *)
Context (clear_page : Z → M mem unit).

Definition init_pgindex : M mem Z :=
  paddr ← pgalloc;
  if paddr =? u64 (-1) then mret NULL else
  _ ← clear_page (pa2kva paddr);
  mret (pa2kva paddr).

Definition destroy_pgindex (pgindex : Z) : M mem unit := pgfree (kva2pa pgindex).
End index.

(** The place of the page table entry that a descriptor stands for. *)
Definition slot (pd : pagedesc) : Z := entry (pd_table pd) (ptx pd).
Definition no_pd : pagedesc := mk_pagedesc 0 0 0 0.

(** map_pages() and unmap_pages(). Their text is the same on MIPS (both widths)
    and i386; the parameters are what differs. *)
Section walk.
(** The width of a pointer and of an entry, the descriptor a local variable
    holds before it is filled in, and the place a descriptor stands for. *)
Context (W : Z) {PD : Type} (junk : PD) (slot : PD → Z).
Context (__getpagedesc : Z → Z → bool → PD → M mem (Z * PD)).
Context (__free_intermediate_pgtable : Z → Z → Z → M mem unit).
(** The test of an entry that is in use, the address and the permission bits. *)
Context (in_use : Z → bool) (pte_paddr : Z → Z) (__pgtable_perm : Z → Z).

(** 1st pass; the result is the return code and where [vcur] stopped. *)
Fixpoint first_pass (n : nat) (pgindex vcur pcur pend : Z) (pd : PD) : M mem (Z * Z) :=
  if negb (pcur <? pend) then mret (0, vcur) else
  match n with
  | O => nofuel
  | S n' =>
      r ← __getpagedesc pgindex vcur true pd;
      if fst r =? - ENOMEM then mret (- ENOMEM, vcur) else
      let pd := snd r in
      e ← load F_pte (slot pd);
      if in_use e then mret (- EEXIST, vcur) else
      first_pass n' pgindex (wrap W (vcur + PAGE_SIZE)) (u64 (pcur + PAGE_SIZE)) pend pd
  end.

(** 2nd pass: fill the entries. *)
Fixpoint second_pass (n : nat) (pgindex vcur pcur pend flags : Z) (pd : PD) : M mem unit :=
  if negb (pcur <? pend) then mret () else
  match n with
  | O => nofuel
  | S n' =>
      r ← __getpagedesc pgindex vcur false pd;
      let pd := snd r in
      _ ← store F_pte (slot pd) (wrap W (Z.lor pcur (__pgtable_perm flags)));
      second_pass n' pgindex (wrap W (vcur + PAGE_SIZE)) (u64 (pcur + PAGE_SIZE)) pend flags pd
  end.

Definition map_pages (pgindex vaddr paddr size flags : Z) : M mem Z :=
  let pend := u64 (paddr + size) in
  if negb (IS_ALIGNED 64 paddr PAGE_SIZE) || negb (IS_ALIGNED W size PAGE_SIZE) ||
     negb (IS_ALIGNED W vaddr PAGE_SIZE) then mret (- EINVAL) else
  let n := Z.to_nat (size / PAGE_SIZE) in
  r ← first_pass n pgindex vaddr paddr pend junk;
  let '(retcode, vcur) := r in
  if negb (retcode =? 0)
  then _ ← __free_intermediate_pgtable pgindex vaddr (wrap W (vcur - vaddr)); mret retcode
  else _ ← second_pass n pgindex vaddr paddr pend flags junk; mret 0.

(** The loop of unmap_pages(): how many bytes were unmapped and the physical
    address of the first page ([pa] until one is found). *)
Fixpoint unmap_loop (n : nat) (pgindex vcur vend unmapped pcur pa : Z) (pd : PD) : M mem (Z * Z) :=
  if negb (vcur <? vend) then mret (unmapped, pa) else
  match n with
  | O => nofuel
  | S n' =>
      r ← __getpagedesc pgindex vcur false pd;
      if fst r <? 0 then panic else
      let pd := snd r in
      e ← load F_pte (slot pd);
      if unmapped =? 0 then
        let pcur := pte_paddr e in
        _ ← store F_pte (slot pd) 0;
        unmap_loop n' pgindex (wrap W (vcur + PAGE_SIZE)) vend (unmapped + PAGE_SIZE) (u64 (pcur + PAGE_SIZE)) pcur pd
      else if negb (e =? pcur) then mret (unmapped, pa) else
        _ ← store F_pte (slot pd) 0;
        unmap_loop n' pgindex (wrap W (vcur + PAGE_SIZE)) vend (unmapped + PAGE_SIZE) (u64 (pcur + PAGE_SIZE)) pa pd
  end.

(** [stale] is what *paddr holds before the call. *)
Definition unmap_pages (pgindex vaddr size stale : Z) : M mem (Z * Z) :=
  let vend := wrap W (vaddr + size) in
  r ← unmap_loop (Z.to_nat (size / PAGE_SIZE + 1)) pgindex vaddr vend 0 0 stale junk;
  _ ← __free_intermediate_pgtable pgindex vaddr (wrap W (fst r));
  mret r.
End walk.

(** ** MIPS, 32-bit *)
Module mips.
Definition PTE_CACHEABLE : Z := 0x600.
Definition PTE_DIRTY : Z := 0x100.
Definition PTE_VALID : Z := 0x080.
Definition PTE_GLOBAL : Z := 0x040.
Definition PTXMASK : Z := Z.shiftl 1 (PAGE_SHIFT - 2) - 1.
Definition PTXSHIFT : Z := PAGE_SHIFT.
Definition PDXSHIFT : Z := PTXSHIFT + PAGE_SHIFT - 2.
Definition PDX (va : Z) : Z := Z.land (Z.shiftr va PDXSHIFT) PTXMASK.
Definition PTX (va : Z) : Z := Z.land (Z.shiftr va PTXSHIFT) PTXMASK.

Section code.
Context (pgalloc : M mem Z) (pgfree : Z → M mem unit) (pa2kva kva2pa : Z → Z).
(** The machine's extra permission bits; mach-generic/pgtable.c returns 0. *)
Context (__mach_pgtable_perm : Z → Z).

Definition __getpagedesc (pgindex addr : Z) (create : bool) (pd : pagedesc) : M mem (Z * pagedesc) :=
  let x := PDX addr in
  pde ← load F_pte (entry pgindex x);
  if negb (pde =? 0) then mret (0, mk_pagedesc pgindex pde x (PTX addr)) else
  if negb create then mret (- ENOENT, mk_pagedesc pgindex (pd_table pd) x (ptx pd)) else
  paddr ← pgalloc;
  if paddr =? u64 (-1) then mret (- ENOMEM, mk_pagedesc pgindex (pd_table pd) x (ptx pd)) else
  let ptev := u32 (pa2kva paddr) in
  _ ← clear_page ptev;
  _ ← store F_pte (entry pgindex x) ptev;
  mret (0, mk_pagedesc pgindex ptev x (PTX addr)).

(** Whether entries [i], [i+1], ... of the table are all clear. *)
Fixpoint table_clear (n : nat) (pte i : Z) : M mem bool :=
  match n with
  | O => mret true
  | S n' =>
      e ← load F_pte (entry pte i);
      if negb (e =? 0) then mret false else table_clear n' pte (i + 1)
  end.

Fixpoint free_tables (n : nat) (pgindex x x_end : Z) : M mem unit :=
  if negb (x <=? x_end) then mret () else
  match n with
  | O => nofuel
  | S n' =>
      pte ← load F_pte (entry pgindex x);
      c ← table_clear (Z.to_nat NR_PTENTRIES) pte 0;
      _ ← (if (c : bool)
           then pde ← load F_pte (entry pgindex x);
                _ ← pgfree (kva2pa pde);
                store F_pte (entry pgindex x) 0
           else mret ());
      free_tables n' pgindex (x + 1) x_end
  end.

Definition __free_intermediate_pgtable (pgindex vaddr size : Z) : M mem unit :=
  free_tables (Z.to_nat NR_PTENTRIES) pgindex (PDX vaddr) (PDX (u32 (vaddr + size - PAGE_SIZE))).

Definition __pgtable_perm (vma_flags : Z) : Z :=
  Z.lor (Z.lor (Z.lor (Z.lor PTE_VALID PTE_GLOBAL) PTE_CACHEABLE)
    (if negb (Z.land vma_flags VMA_WRITE =? 0) then PTE_DIRTY else 0)) (__mach_pgtable_perm vma_flags).

Definition mips_map_pages : Z → Z → Z → Z → Z → M mem Z :=
  map_pages 32 no_pd slot __getpagedesc __free_intermediate_pgtable (λ e, negb (e =? 0)) __pgtable_perm.
Definition mips_unmap_pages : Z → Z → Z → Z → M mem (Z * Z) :=
  unmap_pages 32 no_pd slot __getpagedesc __free_intermediate_pgtable PTE_PADDR.
End code.

(** kern/arch/mips/mach-generic/pgtable.c *)
Definition __mach_pgtable_perm (vma_flags : Z) : Z := 0.
End mips.

(** ** i386 *)
Module i386.
Definition PTE_P : Z := 0x1.
Definition PTE_R : Z := 0x2.
Definition PTE_U : Z := 0x4.
Definition PTE_S : Z := 0x80.
Definition PTX_SHIFT : Z := PAGE_SHIFT.
Definition PDX_SHIFT : Z := PTX_SHIFT + PAGE_SHIFT - 2.
Definition XPAGE_SHIFT : Z := 22.
Definition XPAGE_SIZE : Z := Z.shiftl 1 XPAGE_SHIFT.
(** PTX() does not mask the directory bits away. *)
Definition PTX (vaddr : Z) : Z := Z.shiftr vaddr PTX_SHIFT.
Definition PDX (vaddr : Z) : Z := Z.shiftr vaddr PDX_SHIFT.
Definition XPTX (vaddr : Z) : Z := Z.shiftr vaddr XPAGE_SHIFT.
Definition mkpte (paddr flags : Z) : Z := u32 (Z.lor (ALIGN_BELOW 64 paddr PAGE_SIZE) flags).
Definition mkxpte (paddr flags : Z) : Z := u32 (Z.lor (ALIGN_BELOW 64 paddr XPAGE_SIZE) flags).

Section code.
Context (pgalloc : M mem Z) (pgfree : Z → M mem unit) (pa2kva kva2pa : Z → Z).

Definition present (e : Z) : bool := negb (Z.land e PTE_P =? 0).

Definition __getpagedesc (pgindex addr : Z) (create : bool) (pd : pagedesc) : M mem (Z * pagedesc) :=
  let x := PDX addr in
  pde ← load F_pte (entry pgindex x);
  if present pde then mret (0, mk_pagedesc pgindex (pa2kva (PTE_PADDR pde)) x (PTX addr)) else
  if negb create then mret (- ENOENT, mk_pagedesc pgindex (pd_table pd) x (ptx pd)) else
  paddr ← pgalloc;
  if paddr =? u64 (-1) then mret (- ENOMEM, mk_pagedesc pgindex (pd_table pd) x (ptx pd)) else
  let ptep := pa2kva paddr in
  _ ← clear_page ptep;
  _ ← store F_pte (entry pgindex x) (mkpte paddr (Z.lor (Z.lor PTE_P PTE_R) PTE_U));
  mret (0, mk_pagedesc pgindex ptep x (PTX addr)).

Fixpoint table_clear (n : nat) (pte i : Z) : M mem bool :=
  match n with
  | O => mret true
  | S n' =>
      e ← load F_pte (entry pte i);
      if present e then mret false else table_clear n' pte (i + 1)
  end.

(** The directory entry holds a physical address already; kva2pa() is applied
    to it once more. *)
Fixpoint free_tables (n : nat) (pgindex x x_end : Z) : M mem unit :=
  if negb (x <=? x_end) then mret () else
  match n with
  | O => nofuel
  | S n' =>
      pde ← load F_pte (entry pgindex x);
      c ← table_clear (Z.to_nat NR_PTENTRIES) (pa2kva (PTE_PADDR pde)) 0;
      _ ← (if (c : bool)
           then pde ← load F_pte (entry pgindex x);
                _ ← pgfree (kva2pa (PTE_PADDR pde));
                pde ← load F_pte (entry pgindex x);
                store F_pte (entry pgindex x) (Z.land pde (u32 (Z.lnot PTE_P)))
           else mret ());
      free_tables n' pgindex (x + 1) x_end
  end.

Definition __free_intermediate_pgtable (pgindex vaddr size : Z) : M mem unit :=
  free_tables (Z.to_nat NR_PTENTRIES) pgindex (PDX vaddr) (PDX (u32 (vaddr + size - PAGE_SIZE))).

Definition __pgtable_perm (vma_flags : Z) : Z :=
  Z.lor (Z.lor PTE_P PTE_U) (if negb (Z.land vma_flags VMA_WRITE =? 0) then PTE_R else 0).

Definition i386_map_pages : Z → Z → Z → Z → Z → M mem Z :=
  map_pages 32 no_pd slot __getpagedesc __free_intermediate_pgtable present __pgtable_perm.
Definition i386_unmap_pages : Z → Z → Z → Z → M mem (Z * Z) :=
  unmap_pages 32 no_pd slot __getpagedesc __free_intermediate_pgtable PTE_PADDR.
End code.

(** kern/arch/i386/mm.c: the boot page index, made of 4 MB pages. *)
Definition page_index_clear (index : Z) : M mem unit := clear_page index.

Fixpoint early_loop (n : nat) (index va vend paddr : Z) : M mem unit :=
  if negb (va <? vend) then mret () else
  match n with
  | O => nofuel
  | S n' =>
      _ ← store F_pte (entry index (XPTX va)) (mkxpte paddr (Z.lor (Z.lor PTE_P PTE_R) PTE_S));
      early_loop n' index (u32 (va + XPAGE_SIZE)) vend (u64 (paddr + XPAGE_SIZE))
  end.

Definition page_index_early_map (index paddr vaddr length : Z) : M mem Z :=
  if negb (IS_ALIGNED 64 paddr XPAGE_SIZE && IS_ALIGNED 32 vaddr XPAGE_SIZE && IS_ALIGNED 32 length XPAGE_SIZE)
  then mret (-1) else
  _ ← early_loop (Z.to_nat (length / XPAGE_SIZE)) index vaddr (u32 (vaddr + length)) paddr;
  mret 0.
End i386.
