(* ===== verification/PgWalk.v ===== *)
(** map_pages() and unmap_pages() for any page table: [TableWalk] is what the two
    loops ask of __getpagedesc(); the tables of each architecture are its
    instances, and the theorems about the loops are proved once, here. *)
From Stdlib Require Import ZArith Lia.
From stdpp Require Import base numbers gmap list.
From S2P Require Import Prelude Util Pmm AddrSpace Pgtable.

Open Scope Z_scope.

(** What the page tables need of pgalloc(): [ps_inv m A n] says that the pages
    of [A] (virtual addresses) are handed out and [n] more can be. A page holds [N]
    entries of [word] bytes. *)
Class PageSource (W word N : Z) (pgalloc : M mem Z) (pa2kva : Z → Z) := {
  ps_inv : mem → gset Z → nat → Prop;
  ps_words : 0 < word ∧ word * N = 4096;
  ps_page m A n t : ps_inv m A n → t ∈ A → page_aligned t ∧ 0 < t < 2 ^ W;
  ps_alloc m A n :
    ps_inv m A (S n) →
    wp pgalloc m (λ pa m',
      pa ≠ u64 (-1) ∧ wrap W (pa2kva pa) ∉ A ∧ ps_inv m' ({[ wrap W (pa2kva pa) ]} ∪ A) n ∧
      (∀ t i, t ∈ A → 0 ≤ i < N → m' !! (F_pte, entry_of word t i) = m !! (F_pte, entry_of word t i)));
  ps_store m A n t i v :
    ps_inv m A n → t ∈ A → 0 ≤ i < N → ps_inv (<[(F_pte, entry_of word t i) := v]> m) A n;
}.

Lemma entry_of_inj word N t i t' i' :
  0 < word → word * N = 4096 →
  page_aligned t → page_aligned t' → 0 ≤ i < N → 0 ≤ i' < N →
  entry_of word t i = entry_of word t' i' → t = t' ∧ i = i'.
Proof.
  unfold page_aligned, entry_of. change PAGE_SIZE with 4096. intros Hw HN Ht Ht' Hi Hi' E.
  assert (0 ≤ word * i < 4096 ∧ 0 ≤ word * i' < 4096) as [? ?] by nia.
  assert (t = t') as -> by (Z.div_mod_to_equations; lia). split; [done|]. nia.
Qed.

Lemma clear_words_cells word t n m :
  0 < word →
  ∃ m', clear_words word t n m = Ret ((), m') ∧
    (∀ i, 0 ≤ i < Z.of_nat n → m' !! (F_pte, entry_of word t i) = Some 0) ∧
    (∀ c, (∀ i, 0 ≤ i < Z.of_nat n → c ≠ (F_pte, entry_of word t i)) → m' !! c = m !! c).
Proof.
  intros Hw. induction n as [|n (m1 & Hr & H0 & Hs)]; [exists m; by split_and!; [|lia|]|].
  exists (<[(F_pte, entry_of word t (Z.of_nat n)) := 0]> m1). split_and!.
  - cbn [clear_words]. by erewrite bind_ret by exact Hr.
  - intros i Hi. destruct (decide (i = Z.of_nat n)) as [->|]; [by rewrite lookup_insert_eq|].
    rewrite lookup_insert_ne; [apply H0; lia|]. unfold entry_of. intros [= E]. nia.
  - intros a Ha. rewrite lookup_insert_ne; [apply Hs; intros i Hi; apply Ha; lia|].
    intros <-. by apply (Ha (Z.of_nat n)); [lia|].
Qed.

Section source.
Context {W word N : Z} {pgalloc : M mem Z} {pa2kva : Z → Z} `{PS : !PageSource W word N pgalloc pa2kva}.

(** A page of the source that has just been handed out, cleared. *)
Lemma clear_words_run m A k t n :
  ps_inv m A k → t ∈ A → Z.of_nat n ≤ N →
  ∃ m', clear_words word t n m = Ret ((), m') ∧ ps_inv m' A k ∧
    (∀ i, 0 ≤ i < Z.of_nat n → m' !! (F_pte, entry_of word t i) = Some 0) ∧
    (∀ c, (∀ i, 0 ≤ i < Z.of_nat n → c ≠ (F_pte, entry_of word t i)) → m' !! c = m !! c).
Proof using Type.
  intros Hp Ht Hn. pose proof ps_words as [Hw0 HwN].
  destruct (clear_words_cells word t n m Hw0) as (m' & Hr & Hz & Hs). exists m'. split; [done|]. split; [|done].
  clear Hz Hs. revert m' Hr. induction n as [|n IH]; intros m' Hr; [by injection Hr as <-|]. cbn [clear_words] in Hr.
  destruct (clear_words_cells word t n m Hw0) as (m1 & Hr1 & _). rewrite (bind_ret _ _ _ _ _ Hr1) in Hr.
  unfold store in Hr. simplify_eq. apply ps_store; [apply IH; [lia|done]|done|lia].
Qed.

(** pgalloc() and memset() of the new page: a clear table that was not handed
    out before, and no other table changes. *)
Lemma new_table_run m A n (c : nat) :
  ps_inv m A (S n) → Z.of_nat c = N →
  wp pgalloc m (λ pa m1, let d := wrap W (pa2kva pa) in
    pa ≠ u64 (-1) ∧ d ∉ A ∧ d ≠ 0 ∧
    ∃ m2, clear_words word d c m1 = Ret ((), m2) ∧ ps_inv m2 ({[d]} ∪ A) n ∧
      (∀ j, 0 ≤ j < N → m2 !! (F_pte, entry_of word d j) = Some 0) ∧
      (∀ t j, t ∈ A → 0 ≤ j < N → m2 !! (F_pte, entry_of word t j) = m !! (F_pte, entry_of word t j))).
Proof using Type.
  intros Hp Hc. pose proof ps_words as [Hw0 HwN]. eapply wp_mono; [by apply ps_alloc|].
  intros pa m1 (Hpa & Hfresh & Hp1 & Hs1). cbv zeta. set (d := wrap W (pa2kva pa)) in *.
  assert (HdIn : d ∈ {[d]} ∪ A) by (apply elem_of_union_l; by apply elem_of_singleton).
  destruct (ps_page m1 _ n d Hp1 HdIn) as [Hda Hdr].
  destruct (clear_words_run m1 _ n d c Hp1 HdIn ltac:(lia)) as (m2 & Hr & Hp2 & Hz & Hs2).
  split; [done|]. split; [done|]. split; [lia|]. exists m2. split; [done|]. split; [done|]. split.
  - intros j Hj. apply Hz. lia.
  - intros t j Ht Hj. rewrite Hs2; [by apply Hs1|]. intros k Hk [= Ek].
    assert (page_aligned t) by (eapply ps_page; [exact Hp1|by apply elem_of_union_r]).
    destruct (entry_of_inj word N t j d k) as [-> _]; [done..|lia|done|]. done.
Qed.
End source.

(** ** A page source: 64 consecutive frames, handed out in order *)

Definition bump_alloc : M mem Z :=
  k ← load F_used 0;
  if k >=? 64 then mret (u64 (-1)) else
  _ ← store F_used 0 (k + 1);
  mret (0x100000 + 4096 * k).

Section bump.
Context (W word N : Z) (pa2kva : Z → Z) (base : Z).
Context (Hwords : 0 < word ∧ word * N = 4096) (Hbase : page_aligned base).
Context (Hrange : 0 < base ∧ base + 64 * 4096 ≤ 2 ^ W).
Context (Hkva : ∀ k, 0 ≤ k < 64 → wrap W (pa2kva (0x100000 + 4096 * k)) = base + 4096 * k).

#[program]
Definition bump_source : PageSource W word N bump_alloc pa2kva := {|
  ps_inv m A n := ∃ k, m !! (F_used, 0) = Some k ∧ 0 ≤ k ∧ k + Z.of_nat n ≤ 64 ∧
    ∀ t, t ∈ A → page_aligned t ∧ base ≤ t < base + 4096 * k;
|}.
Next Obligation. exact Hwords. Qed.
Next Obligation.
  intros m A n t (k & _ & ? & ? & HA) Ht. destruct (HA t Ht) as [? ?]. split; [done|lia].
Qed.
Next Obligation.
  intros m A n (k & Hk & ? & ? & HA). unfold bump_alloc. wp_run.
  destruct (Z.geb_spec k 64); [lia|]. wp_run. rewrite Hkva by lia.
  split; [change (u64 (-1)) with (2 ^ 64 - 1); lia|].
  split; [|split].
  - intros Hin. destruct (HA _ Hin). lia.
  - exists (k + 1). mem_simpl. split; [done|]. split; [lia|]. split; [lia|].
    intros t [->%elem_of_singleton|Ht]%elem_of_union; [|destruct (HA t Ht); split; [done|lia]].
    split; [|lia]. unfold page_aligned in *. change PAGE_SIZE with 4096 in *. Z.div_mod_to_equations. lia.
  - intros t i _ _. by mem_simpl.
Qed.
Next Obligation.
  intros m A n t i v (k & Hk & ? & ? & HA) Ht Hi. exists k. split; [by mem_simpl|]. done.
Qed.
End bump.

(** ** What map_pages() and unmap_pages() ask of a table *)

(** [tw_inv m pg n]: memory holds a page table with root [pg], and [n] more
    pages can be allocated. [tw_pte] is the entry of a virtual address, 0 for none;
    [tw_ready] says that the leaf table of an address exists. Pointers have [W]
    bits; the tables translate the low [V] of them. One call of
    __getpagedesc() allocates at most [tw_cost] pages. *)
Class TableWalk (W V : Z) {PD : Type} (slot : PD → Z)
    (getpd : Z → Z → bool → PD → M mem (Z * PD)) := {
  tw_inv : mem → Z → nat → Prop;
  tw_pte : mem → Z → Z → Z;
  tw_ready : mem → Z → Z → Prop;
  tw_cost : nat;
  tw_width : 12 ≤ V ≤ W ∧ W ≤ 64;
  tw_create m pg n va pd (Q : Z * PD → mem → Prop) :
    tw_inv m pg (tw_cost + n) → in_range V va →
    (∀ m' n' pd', tw_inv m' pg n' → (n ≤ n')%nat → tw_ready m' pg va →
       m' !! (F_pte, slot pd') = Some (tw_pte m' pg va) →
       (∀ va', in_range V va' → tw_pte m' pg va' = tw_pte m pg va') →
       (∀ va', in_range V va' → tw_ready m pg va' → tw_ready m' pg va') →
       Q (0, pd') m') →
    wp (getpd pg va true pd) m Q;
  tw_found m pg n va pd :
    tw_inv m pg n → in_range V va → tw_ready m pg va →
    ∃ pd', getpd pg va false pd m = Ret ((0, pd'), m) ∧
      m !! (F_pte, slot pd') = Some (tw_pte m pg va) ∧
      ∀ e, let m' := <[(F_pte, slot pd') := e]> m in
        tw_inv m' pg n ∧
        (∀ va', in_range V va' → tw_ready m pg va' → tw_ready m' pg va') ∧
        (∀ va', in_range V va' → tw_pte m' pg va' = if va' / 4096 =? va / 4096 then e else tw_pte m pg va');
}.

Section walk.
Context {W V : Z} {PD : Type} {slot : PD → Z} {getpd : Z → Z → bool → PD → M mem (Z * PD)}.
Context `{TW : !TableWalk W V slot getpd}.
Context (junk : PD).

Local Abbreviation in_use := (λ e, negb (e =? 0)).

Lemma tw_bounds : 12 ≤ V ≤ W ∧ W ≤ 64 ∧ 2 ^ V ≤ 2 ^ W.
Proof using TW. destruct tw_width. repeat split; try lia. apply Z.pow_le_mono_r; lia. Qed.

(** [k] pages from [vcur] on. *)
Definition pages_ok (k : nat) (vcur pcur pend : Z) : Prop :=
  0 ≤ vcur ∧ vcur + 4096 * Z.of_nat k ≤ 2 ^ V ∧
  0 ≤ pcur ∧ pcur + 4096 * Z.of_nat k = pend ∧ pend < 2 ^ 64.

Lemma pages_ok_next k vcur pcur pend :
  pages_ok (S k) vcur pcur pend → pages_ok k (wrap W (vcur + 4096)) (pcur + 4096) pend ∧
  u64 (pcur + 4096) = pcur + 4096 ∧
  (∀ j, (j < k)%nat → wrap W (vcur + 4096) + 4096 * Z.of_nat j = vcur + 4096 * Z.of_nat (S j)).
Proof using TW.
  pose proof tw_bounds as HW. intros (? & ? & ? & ? & ?).
  pose proof (wrap_range W (vcur + 4096) ltac:(lia)) as [? ?].
  split; [|split].
  - split; [lia|]. split; [|split; [lia|split; lia]].
    destruct (decide (vcur + 4096 = 2 ^ W)) as [->|].
    + unfold wrap. rewrite Z_mod_same_full. lia.
    + rewrite wrap_small by (unfold in_range; lia). lia.
  - apply wrap_small. unfold in_range. lia.
  - intros j Hj. rewrite wrap_small by (unfold in_range; lia). lia.
Qed.

Lemma first_pass_run k m pg n vcur pcur pend pd (Q : Z * Z → mem → Prop) :
  tw_inv m pg n → (k * tw_cost ≤ n)%nat → pages_ok k vcur pcur pend →
  (∀ j, (j < k)%nat → tw_pte m pg (vcur + 4096 * Z.of_nat j) = 0) →
  (∀ m' n' v, tw_inv m' pg n' → (n ≤ n' + k * tw_cost)%nat →
     (∀ va, in_range V va → tw_pte m' pg va = tw_pte m pg va) →
     (∀ va, in_range V va → tw_ready m pg va → tw_ready m' pg va) →
     (∀ j, (j < k)%nat → tw_ready m' pg (vcur + 4096 * Z.of_nat j)) → Q (0, v) m') →
  wp (first_pass W slot getpd in_use k pg vcur pcur pend pd) m Q.
Proof using TW.
  revert m n vcur pcur pd. induction k as [|k IH]; intros m n vcur pcur pd Hi Hn Hok Hz HQ.
  - simpl. destruct Hok as (_ & _ & _ & ? & _). destruct (Z.ltb_spec pcur pend); [lia|]. simpl.
    apply wp_ret. eapply HQ; [done|lia|done|done|lia].
  - destruct (pages_ok_next _ _ _ _ Hok) as (Hok' & Hpc & Hnext).
    destruct Hok as (? & ? & ? & ? & ?). simpl. destruct (Z.ltb_spec pcur pend); [|lia]. simpl.
    assert (Hva : in_range V vcur) by (unfold in_range; lia).
    wp_step. replace n with (tw_cost + (n - tw_cost))%nat in Hi by lia.
    eapply tw_create; [done|done|]. intros m1 n1 pd1 Hi1 Hn1 Hd Hl He1 Hp1.
    simpl. wp_step. eapply wp_load; [exact Hl|].
    rewrite He1 by done. pose proof (Hz 0%nat ltac:(lia)) as Hz0.
    rewrite Z.add_0_r in Hz0. rewrite Hz0. simpl. change PAGE_SIZE with 4096. rewrite Hpc.
    eapply (IH m1 n1); [done|lia|done| |].
    + intros j Hj. rewrite Hnext by done. rewrite He1; [by apply Hz; lia|unfold in_range; lia].
    + intros m' n' v Hi' Hn' He' Hp' Hd'. eapply HQ; [done|lia| | |].
      * intros va Hr. rewrite He' by done. by apply He1.
      * intros va Hr Hne. apply Hp'; [done|]. by apply Hp1.
      * intros j Hj. destruct j as [|j].
        -- rewrite Z.add_0_r. by apply Hp'.
        -- rewrite <-Hnext by lia. apply Hd'. lia.
Qed.

(** A page [c] of the range that is mapped already stops the first pass; the leaf
    tables made so far stay, and no entry has changed. *)
Lemma first_pass_conflict k c m pg n vcur pcur pend pd (Q : Z * Z → mem → Prop) :
  tw_inv m pg n → (S c * tw_cost ≤ n)%nat → pages_ok k vcur pcur pend → (c < k)%nat →
  (∀ j, (j < c)%nat → tw_pte m pg (vcur + 4096 * Z.of_nat j) = 0) →
  tw_pte m pg (vcur + 4096 * Z.of_nat c) ≠ 0 →
  (∀ m' n', tw_inv m' pg n' →
     (∀ va, in_range V va → tw_pte m' pg va = tw_pte m pg va) →
     (∀ va, in_range V va → tw_ready m pg va → tw_ready m' pg va) →
     (∀ j, (j ≤ c)%nat → tw_ready m' pg (vcur + 4096 * Z.of_nat j)) →
     Q (- EEXIST, vcur + 4096 * Z.of_nat c) m') →
  wp (first_pass W slot getpd in_use k pg vcur pcur pend pd) m Q.
Proof using TW.
  revert m n vcur pcur pd c. induction k as [|k IH]; intros m n vcur pcur pd c Hi Hn Hok Hc Hz Hnz HQ; [lia|].
  destruct (pages_ok_next _ _ _ _ Hok) as (Hok' & Hpc & Hnext).
  destruct Hok as (? & ? & ? & ? & ?). simpl. destruct (Z.ltb_spec pcur pend); [|lia]. simpl.
  assert (Hva : in_range V vcur) by (unfold in_range; lia).
  wp_step. replace n with (tw_cost + (n - tw_cost))%nat in Hi by lia.
  eapply tw_create; [done|done|]. intros m1 n1 pd1 Hi1 Hn1 Hd Hl He1 Hp1.
  simpl. wp_step. eapply wp_load; [exact Hl|]. rewrite He1 by done. destruct c as [|c].
  - rewrite Z.add_0_r in Hnz. rewrite (proj2 (Z.eqb_neq _ _) Hnz). simpl. wp_step.
    replace vcur with (vcur + 4096 * Z.of_nat 0) at 1 by lia. eapply HQ; [done|done|done|].
    intros j Hj. replace j with 0%nat by lia. by rewrite Z.add_0_r.
  - pose proof (Hz 0%nat ltac:(lia)) as Hz0.
    rewrite Z.add_0_r in Hz0. rewrite Hz0. simpl. change PAGE_SIZE with 4096. rewrite Hpc.
    eapply (IH m1 n1 _ _ _ c); [done|lia|done|lia| | |].
    + intros j Hj. rewrite Hnext by lia. rewrite He1; [by apply Hz; lia|unfold in_range; lia].
    + rewrite Hnext by lia. rewrite He1; [done|unfold in_range; lia].
    + intros m' n' Hi' He' Hp' Hd'. rewrite Hnext by lia. eapply HQ; [done| | |].
      * intros va Hr. rewrite He' by done. by apply He1.
      * intros va Hr Hne. apply Hp'; [done|]. by apply Hp1.
      * intros j Hj. destruct j as [|j].
        -- rewrite Z.add_0_r. by apply Hp'.
        -- rewrite <-Hnext by lia. apply Hd'. lia.
Qed.

(** What the second pass writes for the address [va]. *)
Definition new_pte (perm vaddr paddr va : Z) : Z := wrap W (Z.lor (paddr + (va / 4096 * 4096 - vaddr)) perm).

(** The entries after one page and after the rest of the range are the entries
    after the whole range. *)
Lemma new_pte_range k vcur pcur va perm old :
  vcur mod 4096 = 0 → 0 ≤ va → 0 ≤ vcur → vcur + 4096 * Z.of_nat (S k) ≤ 2 ^ V →
  (if (wrap W (vcur + 4096) <=? va) && (va <? wrap W (vcur + 4096) + 4096 * Z.of_nat k)
   then new_pte perm (wrap W (vcur + 4096)) (pcur + 4096) va
   else if va / 4096 =? vcur / 4096 then wrap W (Z.lor pcur perm) else old) =
  if (vcur <=? va) && (va <? vcur + 4096 * Z.of_nat (S k)) then new_pte perm vcur pcur va else old.
Proof using TW.
  intros Hal Hva Hv Hend. pose proof tw_bounds as HW.
  assert (Hpage : va / 4096 = vcur / 4096 ↔ vcur ≤ va < vcur + 4096) by (Z.div_mod_to_equations; lia).
  destruct k as [|k].
  - replace (4096 * Z.of_nat 0) with 0 by lia. replace (4096 * Z.of_nat 1) with 4096 by lia.
    destruct (Z.leb_spec (wrap W (vcur + 4096)) va), (Z.ltb_spec va (wrap W (vcur + 4096) + 0)); [lia|..]; simpl.
    all: destruct (Z.eqb_spec (va / 4096) (vcur / 4096)) as [E|E];
      destruct (Z.leb_spec vcur va), (Z.ltb_spec va (vcur + 4096)); try lia; try done; simpl.
    all: unfold new_pte; do 2 f_equal; apply Hpage in E; Z.div_mod_to_equations; lia.
  - rewrite (wrap_small W) by (unfold in_range; lia).
    destruct (Z.eqb_spec (va / 4096) (vcur / 4096)) as [E|E];
      destruct (Z.leb_spec (vcur + 4096) va), (Z.ltb_spec va (vcur + 4096 + 4096 * Z.of_nat (S k)));
      destruct (Z.leb_spec vcur va), (Z.ltb_spec va (vcur + 4096 * Z.of_nat (S (S k)))); try lia; try done; simpl.
    all: unfold new_pte; do 2 f_equal; try (apply Hpage in E); Z.div_mod_to_equations; lia.
Qed.

Lemma second_pass_run perm k m pg n vcur pcur pend fl pd (Q : unit → mem → Prop) :
  tw_inv m pg n → pages_ok k vcur pcur pend → vcur mod 4096 = 0 →
  (∀ j, (j < k)%nat → tw_ready m pg (vcur + 4096 * Z.of_nat j)) →
  (∀ m', tw_inv m' pg n →
     (∀ va, in_range V va → tw_pte m' pg va =
        if (vcur <=? va) && (va <? vcur + 4096 * Z.of_nat k) then new_pte (perm fl) vcur pcur va
        else tw_pte m pg va) → Q () m') →
  wp (second_pass W slot getpd perm k pg vcur pcur pend fl pd) m Q.
Proof using TW.
  revert m vcur pcur pd Q. induction k as [|k IH]; intros m vcur pcur pd Q Hi Hok Hal Hd HQ.
  - simpl. destruct Hok as (_ & _ & _ & ? & _). destruct (Z.ltb_spec pcur pend); [lia|]. simpl.
    apply wp_ret. eapply HQ; [done|]. intros va Hva.
    destruct (Z.leb_spec vcur va), (Z.ltb_spec va (vcur + 4096 * Z.of_nat 0)); done || lia.
  - destruct (pages_ok_next _ _ _ _ Hok) as (Hok' & Hpc & Hnext).
    destruct Hok as (? & ? & ? & ? & ?). simpl. destruct (Z.ltb_spec pcur pend); [|lia]. simpl.
    assert (Hva : in_range V vcur) by (unfold in_range; lia).
    pose proof (Hd 0%nat ltac:(lia)) as Hd0. rewrite Z.add_0_r in Hd0.
    destruct (tw_found m pg n vcur pd Hi Hva Hd0) as (pd1 & Hr & _ & Hst).
    destruct (Hst (wrap W (Z.lor pcur (perm fl)))) as (Hi1 & Hp1 & He1). clear Hst.
    wp_step. eapply wp_eq; [exact Hr|]. simpl. wp_run. change PAGE_SIZE with 4096. rewrite Hpc.
    eapply IH; [exact Hi1|done| | |].
    + pose proof tw_bounds as HW. destruct (decide (vcur + 4096 < 2 ^ W)).
      * rewrite wrap_small by (unfold in_range; lia). Z.div_mod_to_equations. lia.
      * replace (vcur + 4096) with (2 ^ W) by lia. unfold wrap. by rewrite Z_mod_same_full.
    + intros j Hj. rewrite Hnext by done. apply Hp1; [unfold in_range; lia|]. apply Hd. lia.
    + intros m' Hi' He'. apply HQ; [done|]. intros va Hr'. rewrite He', He1 by done.
      destruct Hr'. apply new_pte_range; done || lia.
Qed.

(** A request on a range of whole pages. *)
Definition map_request (vaddr paddr size : Z) : Prop :=
  page_aligned vaddr ∧ page_aligned paddr ∧ page_aligned size ∧
  0 ≤ vaddr ∧ 0 ≤ paddr ∧ 0 < size ∧ vaddr + size ≤ 2 ^ V ∧ paddr + size < 2 ^ 64.

Lemma request_pages vaddr paddr size :
  map_request vaddr paddr size →
  let k := Z.to_nat (size / 4096) in
  4096 * Z.of_nat k = size ∧ pages_ok k vaddr paddr (u64 (paddr + size)) ∧ vaddr mod 4096 = 0.
Proof using Type.
  unfold map_request, page_aligned, pages_ok. change PAGE_SIZE with 4096.
  intros (? & ? & ? & ? & ? & ? & ? & ?). rewrite (wrap_small 64) by (unfold in_range; lia). simpl.
  assert (4096 * Z.of_nat (Z.to_nat (size / 4096)) = size) by (Z.div_mod_to_equations; lia).
  split; [done|]. split; [|done]. lia.
Qed.

Lemma aligned_test w x : 12 ≤ w → page_aligned x → IS_ALIGNED w x PAGE_SIZE = true.
Proof using Type. intros. by rewrite IS_ALIGNED_page, bool_decide_true. Qed.

Lemma map_pages_run freei perm m pg n vaddr paddr size flags :
  tw_inv m pg n → map_request vaddr paddr size → size / 4096 * Z.of_nat tw_cost ≤ Z.of_nat n →
  (∀ va, vaddr ≤ va < vaddr + size → tw_pte m pg va = 0) →
  wp (map_pages W junk slot getpd freei in_use perm pg vaddr paddr size flags) m (λ r m',
    r = 0 ∧ (∃ n', tw_inv m' pg n' ∧ Z.of_nat n ≤ Z.of_nat n' + size / 4096 * Z.of_nat tw_cost) ∧
    ∀ va, in_range V va → tw_pte m' pg va =
      if (vaddr <=? va) && (va <? vaddr + size) then new_pte (perm flags) vaddr paddr va else tw_pte m pg va).
Proof using TW.
  intros Hi Hreq Hn Hz. destruct (request_pages _ _ _ Hreq) as (Hk & Hok & Hal). pose proof tw_bounds as HW.
  destruct Hreq as (Hva & Hpa & Hsa & ? & ? & ? & ? & ?).
  unfold map_pages. rewrite !aligned_test by (done || lia). cbn [negb orb].
  change (size / PAGE_SIZE) with (size / 4096). set (k := Z.to_nat (size / 4096)) in *.
  assert (Z.of_nat k = size / 4096) as Hkz by (unfold k; Z.div_mod_to_equations; lia). clearbody k.
  wp_step. eapply (first_pass_run k m pg n); [done|nia|done| |].
  { intros j Hj. apply Hz. lia. }
  intros m1 n1 v Hi1 Hn1 He1 _ Hd1. cbn [negb Z.eqb]. wp_step.
  eapply (second_pass_run _ k m1 pg n1); [done|done|done|done|]. intros m2 Hi2 He2. wp_run.
  split; [done|]. split; [exists n1; split; [done|nia]|]. intros va Hr. rewrite He2 by done. rewrite Hk.
  destruct (_ && _); [done|]. by apply He1.
Qed.

(** The loop of unmap_pages(): it clears the entry of the first page and reports
    that page's frame. It stops at the next page when that is mapped too,
    because it compares the whole entry, permission bits included, with the
    address it expects. *)
Lemma unmap_loop_run pte_paddr m pg n vaddr size stale :
  (∀ e, 0 ≤ e < 2 ^ W → pte_paddr e = e / 4096 * 4096) →
  tw_inv m pg n → page_aligned vaddr → page_aligned size →
  0 ≤ vaddr → 4096 ≤ size → vaddr + size < 2 ^ V →
  tw_ready m pg vaddr → 0 ≤ tw_pte m pg vaddr < 2 ^ W →
  (4096 < size → tw_ready m pg (vaddr + 4096) ∧ tw_pte m pg (vaddr + 4096) mod 4096 ≠ 0) →
  ∃ m', unmap_loop W slot getpd pte_paddr (Z.to_nat (size / PAGE_SIZE + 1)) pg vaddr (wrap W (vaddr + size))
    0 0 stale junk m = Ret ((PAGE_SIZE, pte_paddr (tw_pte m pg vaddr)), m') ∧ tw_inv m' pg n ∧
    (∀ va, in_range V va → tw_ready m pg va → tw_ready m' pg va) ∧
    ∀ va, in_range V va → tw_pte m' pg va = if va / 4096 =? vaddr / 4096 then 0 else tw_pte m pg va.
Proof using TW.
  intros Hpad Hi Hva Hsa Hv0 Hs Hend Hd He Hnext. pose proof tw_bounds as HW.
  assert (Hr : in_range V vaddr) by (unfold in_range; lia).
  destruct (tw_found m pg n vaddr junk Hi Hr Hd) as (pd1 & Hg & Hl & Hst).
  destruct (Hst 0) as (Hi' & Hpd & Hpt). clear Hst. set (m' := <[(F_pte, slot pd1) := 0]> m) in *.
  exists m'. split; [|done]. rewrite (wrap_small W) by (unfold in_range; lia).
  change PAGE_SIZE with 4096. replace (Z.to_nat (size / 4096 + 1)) with (S (Z.to_nat (size / 4096)))
    by (Z.div_mod_to_equations; lia).
  cbn [unmap_loop]. destruct (Z.ltb_spec vaddr (vaddr + size)); [|lia]. cbn [negb].
  erewrite bind_ret by exact Hg. cbn [fst snd Z.ltb Z.compare].
  erewrite bind_ret by by apply load_Some. cbn [Z.eqb].
  erewrite bind_ret by reflexivity. fold m'. change PAGE_SIZE with 4096.
  rewrite (wrap_small W (vaddr + 4096)) by (unfold in_range; lia).
  rewrite (Hpad _ He). set (pf := tw_pte m pg vaddr / 4096 * 4096).
  assert (0 ≤ pf ∧ pf + 4096 ≤ 2 ^ W ∧ pf mod 4096 = 0) as (Hpf & Hpe & Hpm).
  { unfold pf. replace (2 ^ W) with (4096 * 2 ^ (W - 12)) in *
      by (change 4096 with (2 ^ 12); rewrite <-Z.pow_add_r by lia; f_equal; lia).
    Z.div_mod_to_equations. lia. }
  assert (Hf : u64 (pf + 4096) mod 4096 = 0).
  { unfold wrap. change (2 ^ 64) with (2 ^ 52 * 4096). Z.div_mod_to_equations. lia. }
  assert (0 < Z.to_nat (size / 4096))%nat by (Z.div_mod_to_equations; lia).
  destruct (Z.to_nat (size / 4096)) as [|k]; [lia|]. cbn [unmap_loop].
  destruct (Z.ltb_spec (vaddr + 4096) (vaddr + size)) as [Hlt|Hge]; cbn [negb]; [|done].
  destruct (Hnext ltac:(lia)) as [Hd2 Hf2].
  assert (Hr2 : in_range V (vaddr + 4096)) by (unfold in_range; lia).
  destruct (tw_found m' pg n (vaddr + 4096) pd1 Hi' Hr2 (Hpd _ Hr2 Hd2)) as (pd2 & Hg2 & Hl2 & _).
  erewrite bind_ret by exact Hg2. cbn [fst snd Z.ltb Z.compare].
  erewrite bind_ret by (apply load_Some; exact Hl2). rewrite Hpt by done.
  replace ((vaddr + 4096) / 4096 =? vaddr / 4096) with false
    by (symmetry; apply Z.eqb_neq; Z.div_mod_to_equations; lia).
  cbn [Z.eqb Z.add]. destruct (Z.eqb_spec (tw_pte m pg (vaddr + 4096)) (u64 (pf + 4096))) as [E|E]; [|done].
  exfalso. apply Hf2. by rewrite E.
Qed.

(** A misaligned address or size is refused with -EINVAL before anything
    is touched. *)
Lemma map_pages_misaligned freei use perm pg vaddr paddr size flags (m : mem) :
  ¬ (page_aligned vaddr ∧ page_aligned paddr ∧ page_aligned size) →
  map_pages W junk slot getpd freei use perm pg vaddr paddr size flags m = Ret (- EINVAL, m).
Proof using TW.
  intros H. pose proof tw_bounds as HW. unfold map_pages. rewrite !IS_ALIGNED_page by lia.
  repeat case_bool_decide; simpl; try done. tauto.
Qed.
End walk.

Arguments pages_ok V k vcur pcur pend : clear implicits.
Arguments new_pte W perm vaddr paddr va : clear implicits.
Arguments map_request V vaddr paddr size : clear implicits.
