(* ===== verification/PgtableProps.v ===== *)
(** The MIPS two-level page table as a map from virtual pages to entries:
    map_pages() maps exactly the range it is given. *)
From Stdlib Require Import ZArith Lia.
From stdpp Require Import base numbers gmap list.
From S2P Require Import Prelude Util Pmm AddrSpace Pgtable PgWalk.

Open Scope Z_scope.

Lemma entry_inj t i t' i' :
  page_aligned t → page_aligned t' → 0 ≤ i < 1024 → 0 ≤ i' < 1024 →
  entry t i = entry t' i' → t = t' ∧ i = i'.
Proof. by apply (entry_of_inj 4 1024). Qed.

Lemma PDX_range va : 0 ≤ va → 0 ≤ mips.PDX va < 1024.
Proof.
  intros. unfold mips.PDX, mips.PTXMASK. change (Z.shiftl 1 (PAGE_SHIFT - 2) - 1) with (Z.ones 10).
  rewrite Z.land_ones by lia. apply Z.mod_pos_bound. lia.
Qed.

Lemma PTX_range va : 0 ≤ va → 0 ≤ mips.PTX va < 1024.
Proof.
  intros. unfold mips.PTX, mips.PTXMASK. change (Z.shiftl 1 (PAGE_SHIFT - 2) - 1) with (Z.ones 10).
  rewrite Z.land_ones by lia. apply Z.mod_pos_bound. lia.
Qed.

(** Two 32-bit addresses use the same entry exactly when they lie in one page. *)
Lemma same_page va va' :
  in_range 32 va → in_range 32 va' →
  mips.PDX va = mips.PDX va' ∧ mips.PTX va = mips.PTX va' ↔ va / 4096 = va' / 4096.
Proof.
  unfold in_range. intros Hv Hv'. unfold mips.PDX, mips.PTX, mips.PTXMASK, mips.PDXSHIFT, mips.PTXSHIFT, PAGE_SHIFT.
  change (Z.shiftl 1 (12 - 2) - 1) with (Z.ones 10). rewrite !Z.land_ones, !Z.shiftr_div_pow2 by lia.
  change (12 + 12 - 2) with 22. change (2 ^ 10) with 1024. change (2 ^ 12) with 4096. change (2 ^ 22) with 4194304.
  Z.div_mod_to_equations. lia.
Qed.

(** ** Page tables in memory *)

Definition is_table (m : mem) (t : Z) : Prop := ∀ i, 0 ≤ i < 1024 → is_Some (m !! (F_pte, entry t i)).

Record pt_wf (m : mem) (pg : Z) (A : gset Z) : Prop := {
  pt_root : pg ∈ A;
  pt_dir : is_table m pg;
  pt_leaf i d : 0 ≤ i < 1024 → m !! (F_pte, entry pg i) = Some d → d ≠ 0 →
                d ∈ A ∧ d ≠ pg ∧ is_table m d;
  pt_inj i j d : 0 ≤ i < 1024 → 0 ≤ j < 1024 → d ≠ 0 →
                 m !! (F_pte, entry pg i) = Some d → m !! (F_pte, entry pg j) = Some d → i = j;
}.

(** The directory entry and the page table entry of a virtual address; 0 for none. *)
Definition pde_of (m : mem) (pg va : Z) : Z := default 0 (m !! (F_pte, entry pg (mips.PDX va))).
Definition pte_of (m : mem) (pg va : Z) : Z :=
  if pde_of m pg va =? 0 then 0
  else default 0 (m !! (F_pte, entry (pde_of m pg va) (mips.PTX va))).

Section source.
Context {pgalloc : M mem Z} {pa2kva : Z → Z} `{PS : !PageSource 32 4 1024 pgalloc pa2kva}.

(** A page table whose pages come from the source. *)
Definition pt_inv (m : mem) (pg : Z) (A : gset Z) (n : nat) : Prop := ps_inv m A n ∧ pt_wf m pg A.

Lemma pde_lookup m pg A va :
  pt_wf m pg A → 0 ≤ va → m !! (F_pte, entry pg (mips.PDX va)) = Some (pde_of m pg va).
Proof.
  intros Hw Hv. destruct (pt_dir _ _ _ Hw (mips.PDX va)) as [d Hd]; [by apply PDX_range|].
  unfold pde_of. by rewrite Hd.
Qed.

Lemma leaf_lookup m pg A va :
  pt_wf m pg A → 0 ≤ va → pde_of m pg va ≠ 0 →
  pde_of m pg va ∈ A ∧ pde_of m pg va ≠ pg ∧
  m !! (F_pte, entry (pde_of m pg va) (mips.PTX va)) = Some (pte_of m pg va).
Proof.
  intros Hw Hv Hd. destruct (pt_leaf _ _ _ Hw (mips.PDX va) (pde_of m pg va)) as (? & ? & Ht);
    [by apply PDX_range|by eapply pde_lookup|done|].
  split; [done|]. split; [done|]. unfold pte_of. rewrite (proj2 (Z.eqb_neq _ _) Hd).
  destruct (Ht (mips.PTX va)) as [e ->]; [by apply PTX_range|]. done.
Qed.

(** Writing one leaf entry changes one page's entry. *)
Lemma store_leaf m pg A n va e :
  pt_inv m pg A n → in_range 32 va → pde_of m pg va ≠ 0 →
  let m' := <[(F_pte, entry (pde_of m pg va) (mips.PTX va)) := e]> m in
  pt_inv m' pg A n ∧
  (∀ va', in_range 32 va' → pde_of m' pg va' = pde_of m pg va') ∧
  (∀ va', in_range 32 va' → pte_of m' pg va' = if va' / 4096 =? va / 4096 then e else pte_of m pg va').
Proof.
  intros [Hp Hw] Hva Hd m'. unfold in_range in Hva.
  destruct (leaf_lookup m pg A va Hw ltac:(lia) Hd) as (HdA & Hne & _).
  set (d := pde_of m pg va) in *.
  destruct (ps_page m A n d Hp HdA) as [Hda _].
  destruct (ps_page m A n pg Hp (pt_root _ _ _ Hw)) as [Hpa _].
  pose proof (PTX_range va ltac:(lia)) as Hx.
  assert (Hroot : ∀ i, 0 ≤ i < 1024 → m' !! (F_pte, entry pg i) = m !! (F_pte, entry pg i)).
  { intros i Hi. unfold m'. rewrite lookup_insert_ne; [done|]. intros [= E].
    destruct (entry_inj _ _ _ _ Hda Hpa Hx Hi E). done. }
  assert (Htab : ∀ t, is_table m t → is_table m' t).
  { intros t Ht i Hi. unfold m'. destruct (decide ((F_pte, entry d (mips.PTX va)) = (F_pte, entry t i))) as [<-|E].
    - rewrite lookup_insert_eq. by eexists.
    - rewrite lookup_insert_ne by done. by apply Ht. }
  assert (Hpde : ∀ va', in_range 32 va' → pde_of m' pg va' = pde_of m pg va').
  { intros va' [? ?]. unfold pde_of. by rewrite Hroot by (by apply PDX_range). }
  split; [split|split; [done|]].
  - by apply ps_store.
  - destruct Hw as [W1 W2 W3 W4]. split; [done|by apply Htab| |].
    + intros i d' Hi. rewrite Hroot by done. intros Hd' Hn'.
      destruct (W3 i d' Hi Hd' Hn') as (? & ? & ?). eauto.
    + intros i j d' Hi Hj. rewrite !Hroot by done. by apply W4.
  - intros va' Hva'. unfold pte_of. rewrite (Hpde va' Hva'). unfold in_range in Hva'.
    destruct (Z.eqb_spec (va' / 4096) (va / 4096)) as [E|E].
    + apply same_page in E as [E1 E2]; [|done..].
      assert (pde_of m pg va' = d) as -> by (unfold pde_of, d; by rewrite E1).
      rewrite (proj2 (Z.eqb_neq _ _) Hd), E2. unfold m'. by rewrite lookup_insert_eq.
    + destruct (Z.eqb_spec (pde_of m pg va') 0) as [|Hd']; [done|].
      unfold m'. rewrite lookup_insert_ne; [done|]. intros [= E'].
      destruct (leaf_lookup m pg A va' Hw ltac:(lia) Hd') as (HdA' & _ & _).
      destruct (ps_page m A n _ Hp HdA') as [Hda' _].
      destruct (entry_inj _ _ _ _ Hda Hda' Hx (PTX_range va' ltac:(lia)) E') as [E1 E2].
      apply E. apply same_page; [done|done|]. split; [|done].
      eapply (pt_inj _ _ _ Hw _ _ d); [apply PDX_range; lia|apply PDX_range; lia|done| |].
      * rewrite (pde_lookup m pg A va' Hw) by lia. by rewrite E1.
      * apply (pde_lookup m pg A va Hw). lia.
Qed.

(** A new, clear leaf table hung into an empty directory slot changes no entry. *)
Lemma new_leaf m m1 pg A n i d :
  pt_wf m pg A → 0 ≤ i < 1024 → m !! (F_pte, entry pg i) = Some 0 →
  d ∉ A → d ≠ 0 → page_aligned d → ps_inv m1 ({[d]} ∪ A) n →
  (∀ j, 0 ≤ j < 1024 → m1 !! (F_pte, entry d j) = Some 0) →
  (∀ t j, t ∈ A → 0 ≤ j < 1024 → m1 !! (F_pte, entry t j) = m !! (F_pte, entry t j)) →
  let m' := <[(F_pte, entry pg i) := d]> m1 in
  pt_inv m' pg ({[d]} ∪ A) n ∧
  (∀ va, in_range 32 va → pte_of m' pg va = pte_of m pg va) ∧
  (∀ va, in_range 32 va → pde_of m' pg va = if mips.PDX va =? i then d else pde_of m pg va).
Proof.
  intros Hw Hi H0 Hd Hd0 Hda Hp1 Hclr Hsame m'.
  assert (Hpg := pt_root _ _ _ Hw).
  assert (HdIn : d ∈ {[d]} ∪ A) by (apply elem_of_union_l; by apply elem_of_singleton).
  assert (HsubA : ∀ t, t ∈ A → t ∈ {[d]} ∪ A) by (intros; by apply elem_of_union_r).
  assert (Hpga : page_aligned pg) by (eapply ps_page; [exact Hp1|auto]).
  assert (Hal : ∀ t, t ∈ A → page_aligned t) by (intros t Ht; eapply ps_page; [exact Hp1|auto]).
  assert (Hleaf : ∀ t j, t ∈ {[d]} ∪ A → t ≠ pg → 0 ≤ j < 1024 → m' !! (F_pte, entry t j) = m1 !! (F_pte, entry t j)).
  { intros t j Ht Hne Hj. unfold m'. rewrite lookup_insert_ne; [done|]. intros [= E].
    assert (page_aligned t) by (eapply ps_page; [exact Hp1|done]).
    destruct (entry_inj _ _ _ _ Hpga H Hi Hj E). done. }
  assert (Hroot : ∀ j, 0 ≤ j < 1024 → m' !! (F_pte, entry pg j) = if j =? i then Some d else m !! (F_pte, entry pg j)).
  { intros j Hj. unfold m'. destruct (Z.eqb_spec j i) as [->|Hne]; [by rewrite lookup_insert_eq|].
    rewrite lookup_insert_ne; [by apply Hsame|]. unfold entry_of. intros [= E]. lia. }
  assert (Hdpg : d ≠ pg) by (by intros ->).
  assert (Hpde : ∀ va, in_range 32 va → pde_of m' pg va = if mips.PDX va =? i then d else pde_of m pg va).
  { intros va [? ?]. unfold pde_of. rewrite Hroot by (by apply PDX_range). by destruct (_ =? i). }
  split; [split|split; [|done]].
  - apply ps_store; [done|auto|done].
  - destruct Hw as [W1 W2 W3 W4]. split.
    + auto.
    + intros j Hj. rewrite Hroot by done. destruct (j =? i); [by eexists|by apply W2].
    + intros j e Hj. rewrite Hroot by done. destruct (j =? i).
      * intros [= <-] _. split; [auto|]. split; [done|]. intros k Hk.
        rewrite Hleaf by auto. rewrite Hclr by done. by eexists.
      * intros He Hne. destruct (W3 j e Hj He Hne) as (HeA & ? & Ht). split; [auto|]. split; [done|].
        intros k Hk. rewrite Hleaf by auto. rewrite Hsame by done. by apply Ht.
    + intros j k e Hj Hk Hne. rewrite !Hroot by done.
      destruct (Z.eqb_spec j i), (Z.eqb_spec k i); subst; [done| | |by apply W4].
      * intros [= <-] He. destruct (W3 k d Hk He Hne) as (? & _). done.
      * intros He [= <-]. destruct (W3 j d Hj He Hne) as (? & _). done.
  - intros va Hva. destruct (Hva) as [Hv0 _]. unfold pte_of. rewrite (Hpde va Hva).
    destruct (Z.eqb_spec (mips.PDX va) i) as [Ei|Ei].
    + rewrite (proj2 (Z.eqb_neq _ _) Hd0). unfold pde_of. rewrite Ei, H0. simpl.
      rewrite Hleaf by (auto || by apply PTX_range). rewrite Hclr by (by apply PTX_range). done.
    + destruct (Z.eqb_spec (pde_of m pg va) 0) as [|Hne]; [done|].
      destruct (leaf_lookup m pg A va Hw Hv0 Hne) as (HeA & ? & _).
      rewrite Hleaf by (auto || by apply PTX_range).
      by rewrite Hsame by (done || by apply PTX_range).
Qed.

Lemma getpagedesc_create m pg A n va pd (Q : Z * pagedesc → mem → Prop) :
  pt_inv m pg A (S n) → in_range 32 va →
  (∀ m' A' n' d, pt_inv m' pg A' n' → (n ≤ n')%nat → d ≠ 0 → pde_of m' pg va = d →
     (∀ va', in_range 32 va' → pte_of m' pg va' = pte_of m pg va') →
     (∀ va', in_range 32 va' → pde_of m pg va' ≠ 0 → pde_of m' pg va' ≠ 0) →
     Q (0, mk_pagedesc pg d (mips.PDX va) (mips.PTX va)) m') →
  wp (mips.__getpagedesc pgalloc pa2kva pg va true pd) m Q.
Proof.
  intros [Hp Hw] Hva HQ. destruct (Hva) as [Hv0 _]. unfold mips.__getpagedesc.
  pose proof (pde_lookup m pg A va Hw Hv0) as Hl. pose proof (PDX_range va Hv0) as Hx.
  wp_step. eapply wp_load; [exact Hl|].
  destruct (Z.eqb_spec (pde_of m pg va) 0) as [E|E]; simpl.
  - rewrite E in Hl. wp_step. eapply wp_mono; [by apply (new_table_run m A n 1024)|].
    intros pa m1 (Hpa & Hfresh & Hd0 & m2 & Hr & Hp2 & Hz & Hs2). rewrite (proj2 (Z.eqb_neq _ _) Hpa).
    set (d := u32 (pa2kva pa)) in *.
    assert (page_aligned d) by (eapply ps_page; [exact Hp2|apply elem_of_union_l; by apply elem_of_singleton]).
    wp_step. eapply wp_eq; [exact Hr|]. wp_run.
    destruct (new_leaf m m2 pg A n (mips.PDX va) d) as (Hi & He & Hd); [done..|].
    eapply (HQ _ _ n d); [exact Hi|lia|done| |done|].
    + rewrite Hd by done. by rewrite Z.eqb_refl.
    + intros va' Hva' Hne. rewrite Hd by done. by destruct (_ =? _).
  - wp_run. eapply (HQ m A (S n)); [done|lia|done|done|done|done].
Qed.

Lemma getpagedesc_found m pg A n va pd :
  pt_inv m pg A n → in_range 32 va → pde_of m pg va ≠ 0 →
  mips.__getpagedesc pgalloc pa2kva pg va false pd m =
  Ret ((0, mk_pagedesc pg (pde_of m pg va) (mips.PDX va) (mips.PTX va)), m).
Proof.
  intros [_ Hw] [Hv0 _] Hd. unfold mips.__getpagedesc.
  erewrite bind_ret by (apply load_Some; by eapply pde_lookup).
  by rewrite (proj2 (Z.eqb_neq _ _) Hd).
Qed.

(** The two-level table walks as the loops of map_pages() ask. *)
#[export] Program Instance mips_walk : TableWalk 32 32 slot (mips.__getpagedesc pgalloc pa2kva) := {|
  tw_inv m pg n := ∃ A, pt_inv m pg A n;
  tw_pte := pte_of;
  tw_ready m pg va := pde_of m pg va ≠ 0;
  tw_cost := 1;
|}.
Next Obligation. intros. lia. Qed.
Next Obligation.
  intros m pg n va pd Q [A Hi] Hva HQ. eapply getpagedesc_create; [exact Hi|done|].
  intros m' A' n' d Hi' Hn Hd Hde He Hp. apply (HQ m' n'); [by eexists|done|congruence| |done|done].
  destruct (leaf_lookup m' pg A' va (proj2 Hi')) as (_ & _ & Hl); [apply Hva|congruence|].
  by rewrite Hde in Hl.
Qed.
Next Obligation.
  intros m pg n va pd [A Hi] Hva Hd. eexists. split; [by eapply getpagedesc_found|]. split.
  - destruct (leaf_lookup m pg A va (proj2 Hi)) as (_ & _ & Hl); [apply Hva|done|done].
  - intros e. destruct (store_leaf m pg A n va e Hi Hva Hd) as (Hi' & Hp & He).
    split; [by eexists|]. split; [|done]. intros va' Hr Hne. cbn [slot pd_table ptx]. by rewrite Hp.
Qed.

Context (pgfree : Z → M mem unit) (kva2pa : Z → Z) (mach_perm : Z → Z).

(** C16: on MIPS, mapping a page-aligned range that has no mapping yet returns 0 and
    makes the page table translate exactly that range, page by page, to the
    physical range with the right permission bits, without changing any
    other translation; new leaf tables are allocated as needed. *)
Theorem map_pages_maps_range m pg A n vaddr paddr size flags :
  pt_inv m pg A n → map_request 32 vaddr paddr size → size ≤ 4096 * Z.of_nat n →
  (∀ va, vaddr ≤ va < vaddr + size → pte_of m pg va = 0) →
  wp (mips.mips_map_pages pgalloc pgfree pa2kva kva2pa mach_perm pg vaddr paddr size flags) m (λ r m',
    r = 0 ∧ (∃ n' A', pt_inv m' pg A' n') ∧
    ∀ va, in_range 32 va → pte_of m' pg va =
      if (vaddr <=? va) && (va <? vaddr + size)
      then new_pte 32 (mips.__pgtable_perm mach_perm flags) vaddr paddr va else pte_of m pg va).
Proof using PS.
  intros Hi Hreq Hn Hz. eapply wp_mono.
  - apply (map_pages_run (TW := mips_walk) no_pd _ _ m pg n); [by eexists|done| |done].
    simpl. Z.div_mod_to_equations. lia.
  - intros r m' (Hr & (n' & Hi' & _) & Hp). split; [done|]. split; [by exists n'|done].
Qed.
End source.

(** ** Unmapping *)

Section unmap.
Context {pgalloc : M mem Z} {pa2kva : Z → Z} `{PS : !PageSource 32 4 1024 pgalloc pa2kva}.

Lemma PTE_PADDR_page e : 0 ≤ e < 2 ^ 32 → PTE_PADDR e = e / 4096 * 4096.
Proof using Type.
  intros He. unfold PTE_PADDR, PTE_LOWMASK. change (u32 (Z.lnot 0xfff)) with (Z.shiftl (Z.ones 20) 12).
  apply (land_high_ones 20); lia.
Qed.

(** The loop of unmap_pages() clears the entry of the first page and
    reports that page's frame. When the next page is mapped too, it stops right there
    with one page's worth of bytes, because it compares the whole entry, permission
    bits included, with the frame address it expects: a range of several
    pages is never unmapped by one call. *)
Theorem unmap_stops_after_first m pg A n vaddr size stale :
  pt_inv m pg A n → page_aligned vaddr → page_aligned size →
  0 ≤ vaddr → 4096 ≤ size → vaddr + size < 2 ^ 32 →
  pde_of m pg vaddr ≠ 0 → 0 ≤ pte_of m pg vaddr < 2 ^ 32 →
  (4096 < size → pde_of m pg (vaddr + 4096) ≠ 0 ∧ pte_of m pg (vaddr + 4096) mod 4096 ≠ 0) →
  ∃ m', unmap_loop 32 slot (mips.__getpagedesc pgalloc pa2kva) PTE_PADDR (Z.to_nat (size / PAGE_SIZE + 1)) pg vaddr
    (u32 (vaddr + size)) 0 0 stale no_pd m = Ret ((PAGE_SIZE, PTE_PADDR (pte_of m pg vaddr)), m') ∧
  ∀ va, in_range 32 va → pte_of m' pg va = if va / 4096 =? vaddr / 4096 then 0 else pte_of m pg va.
Proof using PS.
  intros Hi Hva Hsa Hv0 Hs Hend Hd He Hnext.
  destruct (unmap_loop_run (TW := mips_walk) no_pd PTE_PADDR m pg n vaddr size stale PTE_PADDR_page)
    as (m' & Hr & _ & _ & Hp); [by eexists|done..|]. by exists m'.
Qed.
End unmap.

(** ** A concrete page source *)

Definition bump_base : Z := 0x80100000.

Lemma bump_kva k : 0 ≤ k < 64 → u32 (mips_space.pa2kva (0x100000 + 4096 * k)) = bump_base + 4096 * k.
Proof.
  intros Hk. unfold mips_space.pa2kva, mips_space.LOWRAM_TOP, mips_space.TO_CAC, mips_space.IO_CAC_BASE, mips_space.KSEG0, bump_base.
  destruct (Z.gtb_spec (0x100000 + 4096 * k) 0x10000000); [lia|].
  rewrite !wrap_small; unfold in_range; rewrite ?wrap_small; unfold in_range; lia.
Qed.

#[export] Instance bump_source32 : PageSource 32 4 1024 bump_alloc mips_space.pa2kva.
Proof. refine (bump_source 32 4 1024 _ bump_base _ _ _ bump_kva); by vm_compute. Defined.

(** A table of one page, empty, and a range across two directory slots. *)
Definition pt_mem : mem :=
  match clear_page bump_base {[ (F_used, 0) := 1 ]} with Ret (_, m) => m | _ => ∅ end.

Lemma pt_mem_inv : pt_inv pt_mem bump_base {[ bump_base ]} 8.
Proof.
  assert (Hp : ps_inv {[ (F_used, 0) := 1 ]} {[ bump_base ]} 8).
  { exists 1. split; [by vm_compute|]. split; [lia|]. split; [lia|].
    intros t ->%elem_of_singleton. split; [by vm_compute|unfold bump_base; lia]. }
  destruct (clear_words_run _ _ _ bump_base 1024 Hp) as (m' & Hr & Hp' & Hz & _);
    [by apply elem_of_singleton|lia|].
  unfold pt_mem, clear_page. rewrite Hr. split; [done|]. split.
  - by apply elem_of_singleton.
  - intros i Hi. rewrite Hz by lia. by eexists.
  - intros i d Hi. rewrite Hz by lia. congruence.
  - intros i j d Hi Hj Hd. rewrite Hz by lia. congruence.
Qed.

Lemma pt_mem_empty va : in_range 32 va → pte_of pt_mem bump_base va = 0.
Proof.
  intros [Hv _]. pose proof (PDX_range va Hv) as Hx.
  assert (Hp : ps_inv {[ (F_used, 0) := 1 ]} {[ bump_base ]} 8).
  { exists 1. split; [by vm_compute|]. split; [lia|]. split; [lia|].
    intros t ->%elem_of_singleton. split; [by vm_compute|unfold bump_base; lia]. }
  destruct (clear_words_run _ _ _ bump_base 1024 Hp) as (m' & Hr & _ & Hz & _);
    [by apply elem_of_singleton|lia|].
  unfold pt_mem, clear_page. rewrite Hr. unfold pte_of, pde_of. by rewrite Hz by lia.
Qed.

Lemma map_pages_maps_range_witness :
  wp (mips.mips_map_pages bump_alloc (λ _, mret ()) mips_space.pa2kva mips_space.kva2pa
        mips.__mach_pgtable_perm bump_base 0x3ff000 0x200000 0x2000 2) pt_mem
     (λ r m', r = 0 ∧ pte_of m' bump_base 0x400123 = Z.lor 0x201000 0x7c0).
Proof.
  eapply wp_mono.
  - apply (map_pages_maps_range (λ _, mret ()) mips_space.kva2pa mips.__mach_pgtable_perm
             pt_mem bump_base {[ bump_base ]} 8 0x3ff000 0x200000 0x2000 2);
      [exact pt_mem_inv|by vm_compute|lia|].
    intros va Hva. apply pt_mem_empty. unfold in_range. lia.
  - intros r m' (-> & _ & H). split; [done|]. rewrite H by (by vm_compute). by vm_compute.
Defined.

Lemma unmap_stops_after_first_witness :
  ∃ m1 m2, unmap_loop 32 slot (mips.__getpagedesc bump_alloc mips_space.pa2kva) PTE_PADDR 3 bump_base 0x3ff000 0x401000 0 0 7 no_pd m1 =
    Ret ((PAGE_SIZE, 0x200000), m2).
Proof.
  assert (Hreq : map_request 32 0x3ff000 0x200000 0x2000) by by vm_compute.
  assert (Hz : ∀ va, 0x3ff000 ≤ va < 0x3ff000 + 0x2000 → pte_of pt_mem bump_base va = 0).
  { intros va Hva. apply pt_mem_empty. unfold in_range. lia. }
  assert (Hn : 0x2000 / 4096 * 1 ≤ 8) by (by vm_compute).
  pose proof (map_pages_run (TW := mips_walk) no_pd (mips.__free_intermediate_pgtable (λ _, mret ()) mips_space.kva2pa)
    (mips.__pgtable_perm mips.__mach_pgtable_perm) pt_mem bump_base 8 0x3ff000 0x200000 0x2000 2
    (ex_intro (λ A, pt_inv _ _ A _) _ pt_mem_inv) Hreq Hn Hz) as Hw.
  destruct (wp_elim _ _ _ Hw) as (r & m1 & _ & _ & (n & [A Hi] & _) & Hpt). clear Hw Hz. cbn [tw_pte mips_walk] in Hpt.
  assert (E1 : pte_of m1 bump_base 0x3ff000 = 0x2007c0) by (rewrite Hpt by (by vm_compute); by vm_compute).
  assert (E2 : pte_of m1 bump_base 0x400000 = 0x2017c0) by (rewrite Hpt by (by vm_compute); by vm_compute).
  assert (D : ∀ va, pte_of m1 bump_base va ≠ 0 → pde_of m1 bump_base va ≠ 0).
  { intros va Hne E. apply Hne. unfold pte_of. by rewrite E. }
  destruct (unmap_stops_after_first m1 bump_base A n 0x3ff000 0x2000 7) as (m2 & E & _);
    [done|by vm_compute|by vm_compute|lia|lia|lia|apply D; by rewrite E1|rewrite E1; lia| |].
  - intros _. change (0x3ff000 + 4096) with 0x400000. rewrite E2. split; [apply D; by rewrite E2|by vm_compute].
  - exists m1, m2. rewrite E1 in E. exact E.
Defined.
