(* ===== verification/Pgtable64.v ===== *)
(** kern/arch/mips/pgtable.c for 64-bit MIPS: four levels of tables, with 512
    entries of 8 bytes each. *)
From Stdlib Require Import ZArith Lia.
From stdpp Require Import base numbers gmap list.
From S2P Require Import Prelude Util Pmm AddrSpace Pgtable.

Open Scope Z_scope.

Module mips64.
Definition WORD_SHIFT : Z := 3.
Definition PTE_PADDR (pte : Z) : Z := Z.land pte (u64 (Z.lnot PTE_LOWMASK)).
Definition NR_PTENTRIES : Z := Z.shiftl 1 (PAGE_SHIFT - WORD_SHIFT).
Definition PTXMASK : Z := Z.shiftl 1 (PAGE_SHIFT - WORD_SHIFT) - 1.
Definition PTXSHIFT : Z := PAGE_SHIFT.
Definition PMXSHIFT : Z := PTXSHIFT + PAGE_SHIFT - WORD_SHIFT.
Definition PUXSHIFT : Z := PMXSHIFT + PAGE_SHIFT - WORD_SHIFT.
Definition PGXSHIFT : Z := PUXSHIFT + PAGE_SHIFT - WORD_SHIFT.
Definition PGX (va : Z) : Z := Z.land (Z.shiftr va PGXSHIFT) PTXMASK.
Definition PUX (va : Z) : Z := Z.land (Z.shiftr va PUXSHIFT) PTXMASK.
Definition PMX (va : Z) : Z := Z.land (Z.shiftr va PMXSHIFT) PTXMASK.
Definition PTX (va : Z) : Z := Z.land (Z.shiftr va PTXSHIFT) PTXMASK.

(** vpgdir[index] *)
Abbreviation entry8 := (entry_of 8).

(** struct pagedesc. A field that a call does not assign keeps its value. *)
Record pagedesc : Type := mk_pagedesc {
  pgdv : Z; pudv : Z; pmdv : Z; ptev : Z;
  pgx : Z; pux : Z; pmx : Z; ptx : Z;
}.

Definition slot (pd : pagedesc) : Z := entry8 (ptev pd) (ptx pd).

(** memset(page, 0, PAGE_SIZE) *)
Definition clear_page (t : Z) : M mem unit := clear_words 8 t 512.

(** A read of a local pointer variable; [None] while it is uninitialised. *)
Definition get {A} (x : option A) : M mem A := match x with Some a => mret a | None => stuck end.

Section code.
Context (pgalloc : M mem Z) (pgfree : Z → M mem unit) (pa2kva kva2pa : Z → Z).
(** The machine's extra permission bits. *)
Context (__mach_pgtable_perm : Z → Z).
(** What a struct pagedesc on the stack holds before it is filled in. *)
Context (junk : pagedesc).

Definition __addpgdir (vpgdir index : Z) : M mem Z :=
  paddr ← pgalloc;
  if paddr =? u64 (-1) then mret NULL else
  _ ← clear_page (u64 (pa2kva paddr));
  _ ← store F_pte (entry8 vpgdir index) (u64 (pa2kva paddr));
  mret (u64 (pa2kva paddr)).

Definition __delpgdir (vpgdir index : Z) : M mem unit :=
  e ← load F_pte (entry8 vpgdir index);
  _ ← pgfree (kva2pa e);
  store F_pte (entry8 vpgdir index) 0.

(** The loop of __del_empty_pgdir(): whether some entry is 0. *)
Fixpoint has_zero (n : nat) (vsubpgdir i : Z) : M mem bool :=
  match n with
  | O => mret false
  | S n' =>
      e ← load F_pte (entry8 vsubpgdir i);
      if e =? 0 then mret true else has_zero n' vsubpgdir (i + 1)
  end.

(** The table is kept when an entry is 0 and deleted when none is. *)
Definition __del_empty_pgdir (vpgdir index : Z) : M mem Z :=
  vsubpgdir ← load F_pte (entry8 vpgdir index);
  z ← has_zero (Z.to_nat NR_PTENTRIES) vsubpgdir 0;
  if (z : bool) then mret 1 else
  _ ← __delpgdir vpgdir index;
  mret 0.

(** The label nomem; [pud] and [pmd] are local variables. *)
Definition nomem (pgd : Z) (pud pmd : option Z) (pd : pagedesc) : M mem (Z * pagedesc) :=
  p ← get pmd; _ ← __del_empty_pgdir p (pmx pd);
  p ← get pud; _ ← __del_empty_pgdir p (pux pd);
  _ ← __del_empty_pgdir pgd (pgx pd);
  mret (- ENOMEM, pd).

(** pgd[x] == 0 && __addpgdir(pgd, x) == NULL *)
Definition missing (dir x : Z) : M mem bool :=
  e ← load F_pte (entry8 dir x);
  if e =? 0 then p ← __addpgdir dir x; mret (p =? NULL) else mret false.

Definition __getpagedesc (pgindex addr : Z) (create : bool) (pd0 : pagedesc) : M mem (Z * pagedesc) :=
  let pgd := pgindex in
  let x1 := PGX addr in let x2 := PUX addr in let x3 := PMX addr in let x4 := PTX addr in
  let pd u m t := mk_pagedesc pgd u m t x1 x2 x3 x4 in
  if negb create then
    pud ← load F_pte (entry8 pgd x1);
    if pud =? 0 then mret (- ENOENT, pd pud (pmdv pd0) (ptev pd0)) else
    pmd ← load F_pte (entry8 pud x2);
    if pmd =? 0 then mret (- ENOENT, pd pud pmd (ptev pd0)) else
    pte ← load F_pte (entry8 pmd x3);
    if pte =? 0 then mret (- ENOENT, pd pud pmd pte) else mret (0, pd pud pmd pte)
  else
    f ← missing pgd x1;
    if (f : bool) then nomem pgd None None (pd (pudv pd0) (pmdv pd0) (ptev pd0)) else
    pud ← load F_pte (entry8 pgd x1);
    f ← missing pud x2;
    if (f : bool) then nomem pgd (Some pud) None (pd pud (pmdv pd0) (ptev pd0)) else
    pmd ← load F_pte (entry8 pud x2);
    f ← missing pmd x3;
    if (f : bool) then nomem pgd (Some pud) (Some pmd) (pd pud pmd (ptev pd0)) else
    pte ← load F_pte (entry8 pmd x3);
    mret (0, pd pud pmd pte).

(** The counter [sz] is an int: it must not pass 2^31. *)
Fixpoint free_loop (n : nat) (pgindex vaddr size sz : Z) (pd : pagedesc) : M mem unit :=
  if negb (sz <? size) then mret () else
  match n with
  | O => nofuel
  | S n' =>
      r ← __getpagedesc pgindex (u64 (vaddr + sz)) false pd;
      let pd := snd r in
      d ← __del_empty_pgdir (pmdv pd) (pmx pd);
      _ ← (if negb (d =? 0) then mret () else
           d ← __del_empty_pgdir (pudv pd) (pux pd);
           if negb (d =? 0) then mret () else
           _ ← __del_empty_pgdir pgindex (pgx pd); mret ());
      if 2 ^ 31 <=? sz + PAGE_SIZE then stuck else
      free_loop n' pgindex vaddr size (sz + PAGE_SIZE) pd
  end.

Definition __free_intermediate_pgtable (pgindex vaddr size : Z) : M mem unit :=
  free_loop (Z.to_nat (size / PAGE_SIZE + 1)) pgindex vaddr size 0 junk.

Definition mips64_map_pages : Z → Z → Z → Z → Z → M mem Z :=
  map_pages 64 junk slot __getpagedesc __free_intermediate_pgtable (λ e, negb (e =? 0))
    (mips.__pgtable_perm __mach_pgtable_perm).
Definition mips64_unmap_pages : Z → Z → Z → Z → M mem (Z * Z) :=
  unmap_pages 64 junk slot __getpagedesc __free_intermediate_pgtable PTE_PADDR.
Definition mips64_init_pgindex : M mem Z := init_pgindex pgalloc pa2kva clear_page.
End code.
End mips64.
