(* ===== verification/Pgtable64Props.v ===== *)
(** The four-level page table of 64-bit MIPS as a tree of tables: the walk, and what
    map_pages() and unmap_pages() do to the translation. *)
From Stdlib Require Import ZArith Lia.
From stdpp Require Import base numbers gmap list.
From S2P Require Import Prelude Util Pmm AddrSpace Pgtable PgWalk Pgtable64.

Open Scope Z_scope.
Import mips64.

(** ** Paths *)

(** A path is a list of indices; following it from the root gives a table, or with
    all four indices a page table entry. 0 stands for none. *)
Definition valid (p : list Z) : Prop := Forall (λ i, 0 ≤ i < 512) p.
Definition step (m : mem) (t i : Z) : Z := if t =? 0 then 0 else default 0 (m !! (F_pte, entry8 t i)).
Definition node (m : mem) (pg : Z) (p : list Z) : Z := foldl (step m) pg p.
Definition dirs (va : Z) : list Z := [PGX va; PUX va; PMX va].
Definition path (va : Z) : list Z := dirs va ++ [PTX va].

Lemma node_snoc m pg p i : node m pg (p ++ [i]) = step m (node m pg p) i.
Proof. unfold node. by rewrite foldl_app. Qed.

Lemma node_app_zero m pg p q : node m pg p = 0 → node m pg (p ++ q) = 0.
Proof.
  unfold node. rewrite foldl_app. intros ->. induction q as [|i q IH]; [done|]. exact IH.
Qed.

Lemma node_prefix m pg p q : node m pg (p ++ q) ≠ 0 → node m pg p ≠ 0.
Proof. intros H E. by apply H, node_app_zero. Qed.

Lemma mask_range64 x : 0 ≤ Z.land x PTXMASK < 512.
Proof. change PTXMASK with (Z.ones 9). rewrite Z.land_ones by lia. by apply Z.mod_pos_bound. Qed.

Lemma dirs_valid va : valid (dirs va).
Proof. repeat constructor; apply mask_range64. Qed.

Lemma dirs_prefixes va : valid [PGX va] ∧ valid [PGX va; PUX va].
Proof. split; [exact (Forall_take _ 1 _ (dirs_valid va))|exact (Forall_take _ 2 _ (dirs_valid va))]. Qed.

Lemma path_valid va : valid (path va).
Proof. apply Forall_app. split; [apply dirs_valid|]. repeat constructor; apply mask_range64. Qed.

(** Two addresses of 48 bits have the same path exactly when they lie in one page. *)
Lemma same_path va va' :
  in_range 48 va → in_range 48 va' → path va = path va' ↔ va / 4096 = va' / 4096.
Proof.
  unfold in_range. intros Hv Hv'. unfold path, dirs, PGX, PUX, PMX, PTX.
  change PTXMASK with (Z.ones 9). change PGXSHIFT with 39. change PUXSHIFT with 30.
  change PMXSHIFT with 21. change PTXSHIFT with 12.
  rewrite !Z.land_ones, !Z.shiftr_div_pow2 by lia. change (2 ^ 9) with 512. change (2 ^ 39) with (512 * 512 * 512 * 4096).
  change (2 ^ 30) with (512 * 512 * 4096). change (2 ^ 21) with (512 * 4096). change (2 ^ 12) with 4096.
  split.
  - intros [= E1 E2 E3 E4]. Z.div_mod_to_equations. lia.
  - intros E. simpl. rewrite !(Z.mul_comm _ 4096), <-!Z.div_div, E by lia. done.
Qed.

(** ** Trees of tables *)

Definition is_table (m : mem) (t : Z) : Prop := ∀ i, 0 ≤ i < 512 → is_Some (m !! (F_pte, entry8 t i)).

Record pt_wf (m : mem) (pg : Z) (A : gset Z) : Prop := {
  pt_root : pg ∈ A;
  pt_table p : valid p → (length p ≤ 3)%nat → node m pg p ≠ 0 → node m pg p ∈ A ∧ is_table m (node m pg p);
  pt_inj p q : valid p → valid q → (length p ≤ 3)%nat → (length q ≤ 3)%nat →
    node m pg p ≠ 0 → node m pg p = node m pg q → p = q;
}.

Lemma entry8_inj t i t' i' :
  page_aligned t → page_aligned t' → 0 ≤ i < 512 → 0 ≤ i' < 512 →
  entry8 t i = entry8 t' i' → t = t' ∧ i = i'.
Proof. by apply (entry_of_inj 8 512). Qed.

Section source.
Context {pgalloc : M mem Z} {pa2kva : Z → Z} `{PS : !PageSource 64 8 512 pgalloc pa2kva}.

Definition pt_inv (m : mem) (pg : Z) (A : gset Z) (n : nat) : Prop := ps_inv m A n ∧ pt_wf m pg A.

Lemma node_lookup m pg A p i :
  pt_wf m pg A → valid p → (length p ≤ 3)%nat → node m pg p ≠ 0 → 0 ≤ i < 512 →
  m !! (F_pte, entry8 (node m pg p) i) = Some (node m pg (p ++ [i])).
Proof using Type.
  intros Hw Hp Hl Hn Hi. destruct (pt_table _ _ _ Hw p Hp Hl Hn) as [_ Ht].
  destruct (Ht i Hi) as [e He]. rewrite node_snoc. unfold step. rewrite (proj2 (Z.eqb_neq _ _) Hn). by rewrite He.
Qed.

(** Writing entry [i] of the table at [p]: a page table entry, or a new clear
    table in an empty slot. [m1] is memory after the new table was made. *)
Lemma node_insert m m1 pg A n p i v q :
  pt_wf m pg A → ps_inv m A n → valid p → (length p ≤ 3)%nat → node m pg p ≠ 0 → 0 ≤ i < 512 →
  (∀ t j, t ∈ A → 0 ≤ j < 512 → m1 !! (F_pte, entry8 t j) = m !! (F_pte, entry8 t j)) →
  length p = 3%nat ∨
    (node m pg (p ++ [i]) = 0 ∧ v ∉ A ∧ page_aligned v ∧ ∀ j, 0 ≤ j < 512 → m1 !! (F_pte, entry8 v j) = Some 0) →
  valid q → (length q ≤ 4)%nat →
  node (<[(F_pte, entry8 (node m pg p) i) := v]> m1) pg q = if decide (q = p ++ [i]) then v else node m pg q.
Proof using Type.
  intros Hw Hps Hp Hpl Hpn Hi Hs1 Hcase. set (m' := <[_ := v]> m1).
  destruct (pt_table _ _ _ Hw p Hp Hpl Hpn) as [HpA _]. destruct (ps_page _ _ _ _ Hps HpA) as [Hpa _].
  induction q as [|j q IH] using rev_ind; intros Hq Hql.
  { rewrite decide_False by (intros E; by destruct p). done. }
  apply Forall_app in Hq as [Hq Hj]. rewrite length_app in Hql. simpl in Hql.
  apply Forall_cons in Hj as [Hj _]. specialize (IH Hq ltac:(lia)).
  rewrite !node_snoc, IH. destruct (decide (q = p ++ [i])) as [->|Hqp].
  - rewrite decide_False by (intros E; apply app_inj_tail in E as [E _]; apply (f_equal length) in E; rewrite length_app in E; simpl in E; lia).
    rewrite length_app in Hql. simpl in Hql. destruct Hcase as [|(Hz & HvA & Hva & Hvz)]; [lia|].
    rewrite Hz. unfold step. simpl. destruct (Z.eqb_spec v 0) as [|Hv0]; [done|].
    unfold m'. rewrite lookup_insert_ne; [by rewrite Hvz|]. intros [= E].
    destruct (entry8_inj _ _ _ _ Hpa Hva Hi Hj E) as [<- _]. done.
  - unfold step. destruct (Z.eqb_spec (node m pg q) 0) as [E0|Hq0].
    { rewrite decide_False; [done|]. intros E. apply app_inj_tail in E as [-> ->]. done. }
    destruct (pt_table _ _ _ Hw q Hq ltac:(lia) Hq0) as [HqA _]. destruct (ps_page _ _ _ _ Hps HqA) as [Hqa _].
    destruct (decide (q ++ [j] = p ++ [i])) as [E|E].
    + apply app_inj_tail in E as [-> ->]. unfold m'. by rewrite lookup_insert_eq.
    + unfold m'. rewrite lookup_insert_ne; [by rewrite Hs1|]. intros [= E'].
      destruct (entry8_inj _ _ _ _ Hpa Hqa Hi Hj E') as [E1 ->]. apply E. f_equal.
      symmetry. eapply (pt_inj _ _ _ Hw); [done|done|done|lia|done|done].
Qed.

Lemma store_leaf64 m pg A n p i e :
  pt_inv m pg A n → valid p → length p = 3%nat → node m pg p ≠ 0 → 0 ≤ i < 512 →
  let m' := <[(F_pte, entry8 (node m pg p) i) := e]> m in
  pt_inv m' pg A n ∧
  (∀ q, valid q → (length q ≤ 4)%nat → node m' pg q = if decide (q = p ++ [i]) then e else node m pg q).
Proof using Type.
  intros [Hps Hw] Hp Hl Hpn Hi m'.
  assert (Hnode : ∀ q, valid q → (length q ≤ 4)%nat → node m' pg q = if decide (q = p ++ [i]) then e else node m pg q).
  { intros q Hq Hql. eapply node_insert; [done|done|done|lia|done|done|done|by left|done|done]. }
  assert (Hshort : ∀ q, valid q → (length q ≤ 3)%nat → node m' pg q = node m pg q).
  { intros q Hq Hql. rewrite Hnode by (done || lia). rewrite decide_False; [done|].
    intros ->. rewrite length_app in Hql. simpl in Hql. lia. }
  destruct (pt_table _ _ _ Hw p Hp ltac:(lia) Hpn) as [HpA _].
  split; [|done]. split; [by apply ps_store|]. split.
  - apply (pt_root _ _ _ Hw).
  - intros q Hq Hql. rewrite Hshort by done. intros Hn.
    destruct (pt_table _ _ _ Hw q Hq Hql Hn) as [? Ht]. split; [done|]. intros j Hj. unfold m'.
    destruct (decide ((F_pte, entry8 (node m pg p) i) = (F_pte, entry8 (node m pg q) j))) as [<-|E].
    + rewrite lookup_insert_eq. by eexists.
    + rewrite lookup_insert_ne by done. by apply Ht.
  - intros q r Hq Hr Hql Hrl. rewrite !Hshort by done. by apply (pt_inj _ _ _ Hw).
Qed.

(** A new table in an empty slot of one of the first three levels changes no
    other node. *)
Lemma new_table m m1 pg A n p i d :
  pt_inv m pg A (S n) → valid p → (length p ≤ 2)%nat → node m pg p ≠ 0 → 0 ≤ i < 512 →
  node m pg (p ++ [i]) = 0 → d ∉ A → d ≠ 0 → ps_inv m1 ({[d]} ∪ A) n →
  (∀ j, 0 ≤ j < 512 → m1 !! (F_pte, entry8 d j) = Some 0) →
  (∀ t j, t ∈ A → 0 ≤ j < 512 → m1 !! (F_pte, entry8 t j) = m !! (F_pte, entry8 t j)) →
  let m' := <[(F_pte, entry8 (node m pg p) i) := d]> m1 in
  pt_inv m' pg ({[d]} ∪ A) n ∧
  (∀ q, valid q → (length q ≤ 4)%nat → node m' pg q = if decide (q = p ++ [i]) then d else node m pg q).
Proof using Type.
  intros [Hps Hw] Hp Hl Hpn Hi Hz Hd Hd0 Hp1 Hclr Hsame m'.
  assert (HdIn : d ∈ {[d]} ∪ A) by (apply elem_of_union_l; by apply elem_of_singleton).
  destruct (ps_page _ _ _ _ Hp1 HdIn) as [Hda _].
  destruct (pt_table _ _ _ Hw p Hp ltac:(lia) Hpn) as [HpA _]. destruct (ps_page _ _ _ _ Hps HpA) as [Hpa _].
  assert (Hnode : ∀ q, valid q → (length q ≤ 4)%nat → node m' pg q = if decide (q = p ++ [i]) then d else node m pg q).
  { intros q Hq Hql. eapply node_insert; [done|done|done|lia|done|done|done|right; done|done|done]. }
  assert (Htab : ∀ t, (t = d ∨ t ∈ A ∧ is_table m t) → is_table m' t).
  { intros t Ht j Hj. unfold m'.
    destruct (decide ((F_pte, entry8 (node m pg p) i) = (F_pte, entry8 t j))) as [<-|E].
    - rewrite lookup_insert_eq. by eexists.
    - rewrite lookup_insert_ne by done. destruct Ht as [->|[HtA Ht]].
      + rewrite Hclr by done. by eexists.
      + rewrite Hsame by done. by apply Ht. }
  split; [|done]. split; [apply ps_store; [done|by apply elem_of_union_r|done]|]. split.
  - apply elem_of_union_r, (pt_root _ _ _ Hw).
  - intros q Hq Hql. rewrite Hnode by (done || lia). destruct (decide _) as [|Hne]; intros Hn.
    + split; [done|]. apply Htab. by left.
    + destruct (pt_table _ _ _ Hw q Hq Hql Hn) as [? Ht]. split; [by apply elem_of_union_r|].
      apply Htab. by right.
  - intros q r Hq Hr Hql Hrl. rewrite !Hnode by (done || lia).
    destruct (decide (q = p ++ [i])) as [->|Hq1], (decide (r = p ++ [i])) as [->|Hr1]; intros Hn E; [done| | |].
    + exfalso. apply Hd. rewrite E in Hn |- *. by apply (pt_table _ _ _ Hw r Hr Hrl).
    + exfalso. apply Hd. rewrite <-E. by apply (pt_table _ _ _ Hw q Hq Hql).
    + by apply (pt_inj _ _ _ Hw).
Qed.

(** ** The walk *)

(** What one level of the walk may do: nodes that exist and page table entries
    stay as they are. *)
Definition grows (m m' : mem) (pg : Z) : Prop :=
  ∀ q, valid q → (length q ≤ 4)%nat → node m pg q ≠ 0 ∨ length q = 4%nat → node m' pg q = node m pg q.

Lemma grows_trans m m1 m2 pg : grows m m1 pg → grows m1 m2 pg → grows m m2 pg.
Proof using Type.
  intros H1 H2 q Hq Hl Hc. rewrite H2; [by apply H1|done|done|].
  destruct Hc as [Hc|Hc]; [left; by rewrite H1 by auto|by right].
Qed.

Lemma missing_run m pg A n p i (Q : bool → mem → Prop) :
  pt_inv m pg A (S n) → valid p → (length p ≤ 2)%nat → node m pg p ≠ 0 → 0 ≤ i < 512 →
  (∀ m' A' n', pt_inv m' pg A' n' → (n ≤ n')%nat → grows m m' pg → node m' pg (p ++ [i]) ≠ 0 → Q false m') →
  wp (missing pgalloc pa2kva (node m pg p) i) m Q.
Proof using Type.
  intros Hi Hp Hl Hpn Hx HQ. unfold missing. wp_step.
  eapply wp_load; [eapply node_lookup; [apply Hi|done|lia|done|done]|].
  destruct (Z.eqb_spec (node m pg (p ++ [i])) 0) as [E|E].
  - unfold __addpgdir. wp_step. wp_step. eapply wp_mono; [apply (new_table_run m A n 512); [apply Hi|done]|].
    intros pa m1 (Hpa & Hfresh & Hd0 & m2 & Hr & Hp2 & Hz & Hs2). rewrite (proj2 (Z.eqb_neq _ _) Hpa).
    set (d := u64 (pa2kva pa)) in *. wp_step. eapply wp_eq; [exact Hr|]. wp_run.
    destruct (new_table m m2 pg A n p i d) as [Hi' Hn]; [done..|].
    change NULL with 0. rewrite (proj2 (Z.eqb_neq _ _) Hd0).
    assert (Hpi : valid (p ++ [i])) by (apply Forall_app; split; [done|by constructor]).
    assert (Hpl : length (p ++ [i]) = S (length p)) by (rewrite length_app; simpl; lia).
    eapply HQ; [exact Hi'|lia| |].
    + intros q Hq Hql Hc. rewrite Hn by done. rewrite decide_False; [done|].
      intros ->. destruct Hc; [done|lia].
    + rewrite Hn by (done || lia). by rewrite decide_True.
  - wp_step. eapply HQ; [done|lia| |done]. by intros q.
Qed.

Lemma pg_node m pg A n : pt_inv m pg A n → node m pg [] ≠ 0.
Proof using Type. intros [Hps Hw]. destruct (ps_page _ _ _ _ Hps (pt_root _ _ _ Hw)). simpl. lia. Qed.

Context (pgfree : Z → M mem unit) (kva2pa : Z → Z).

Lemma getpagedesc64_create m pg A n va pd (Q : Z * pagedesc → mem → Prop) :
  pt_inv m pg A (3 + n) →
  (∀ m' A' n', pt_inv m' pg A' n' → (n ≤ n')%nat → grows m m' pg → node m' pg (dirs va) ≠ 0 →
     Q (0, mk_pagedesc pg (node m' pg [PGX va]) (node m' pg [PGX va; PUX va]) (node m' pg (dirs va))
             (PGX va) (PUX va) (PMX va) (PTX va)) m') →
  wp (__getpagedesc pgalloc pgfree pa2kva kva2pa pg va true pd) m Q.
Proof using PS.
  intros Hi HQ. unfold __getpagedesc. cbn [negb].
  assert (V1 : 0 ≤ PGX va < 512) by apply mask_range64. assert (V2 : 0 ≤ PUX va < 512) by apply mask_range64.
  assert (V3 : 0 ≤ PMX va < 512) by apply mask_range64.
  destruct (dirs_prefixes va) as [W1 W2].
  wp_step. eapply (missing_run m pg A _ [] (PGX va)); [done|by constructor|simpl; lia|by eapply pg_node|done|].
  intros m1 A1 n1 Hi1 Hn1 G1 N1. simpl app in N1.
  wp_step. eapply wp_load; [eapply (node_lookup m1 pg A1 [] (PGX va)); [apply Hi1|by constructor|simpl; lia|by eapply pg_node|done]|].
  cbn [app]. destruct n1 as [|n1]; [lia|].
  wp_step. eapply (missing_run m1 pg A1 _ [PGX va]); [done|done|simpl; lia|done|done|].
  intros m2 A2 n2 Hi2 Hn2 G2 N2. simpl app in N2.
  assert (node m2 pg [PGX va] = node m1 pg [PGX va]) as E by (apply G2; [done|simpl; lia|by left]).
  rewrite <-E. assert (N1' : node m2 pg [PGX va] ≠ 0) by congruence.
  wp_step. eapply wp_load; [eapply (node_lookup m2 pg A2 [PGX va]); [apply Hi2|done|simpl; lia|done|done]|].
  cbn [app]. destruct n2 as [|n2]; [lia|].
  wp_step. eapply (missing_run m2 pg A2 _ [PGX va; PUX va]); [done|done|simpl; lia|done|done|].
  intros m3 A3 n3 Hi3 Hn3 G3 N3. simpl app in N3.
  assert (node m3 pg [PGX va] = node m2 pg [PGX va]) as E1 by (apply G3; [done|simpl; lia|by left]).
  assert (node m3 pg [PGX va; PUX va] = node m2 pg [PGX va; PUX va]) as E2 by (apply G3; [done|simpl; lia|by left]).
  rewrite <-E1, <-E2. assert (N2' : node m3 pg [PGX va; PUX va] ≠ 0) by congruence.
  wp_step. eapply wp_load; [eapply (node_lookup m3 pg A3 [PGX va; PUX va]); [apply Hi3|done|simpl; lia|done|done]|].
  wp_step. apply (HQ m3 A3 n3); [done|lia| |done].
  eapply grows_trans; [exact G1|]. by eapply grows_trans.
Qed.

Lemma getpagedesc64_found m pg A n va pd :
  pt_inv m pg A n → node m pg (dirs va) ≠ 0 →
  __getpagedesc pgalloc pgfree pa2kva kva2pa pg va false pd m =
  Ret ((0, mk_pagedesc pg (node m pg [PGX va]) (node m pg [PGX va; PUX va]) (node m pg (dirs va))
             (PGX va) (PUX va) (PMX va) (PTX va)), m).
Proof using PS.
  intros Hi N3. unfold __getpagedesc. cbn [negb].
  assert (V1 : 0 ≤ PGX va < 512) by apply mask_range64. assert (V2 : 0 ≤ PUX va < 512) by apply mask_range64.
  assert (V3 : 0 ≤ PMX va < 512) by apply mask_range64.
  destruct (dirs_prefixes va) as [W1 W2].
  assert (N2 : node m pg [PGX va; PUX va] ≠ 0) by (by apply (node_prefix m pg _ [PMX va])).
  assert (N1 : node m pg [PGX va] ≠ 0) by (by apply (node_prefix m pg _ [PUX va])).
  erewrite bind_ret by (apply load_Some, (node_lookup m pg A [] (PGX va)); [apply Hi|by constructor|simpl; lia|by eapply pg_node|done]).
  cbn [app]. rewrite (proj2 (Z.eqb_neq _ _) N1).
  erewrite bind_ret by (apply load_Some, (node_lookup m pg A [PGX va]); [apply Hi|done|simpl; lia|done|done]).
  cbn [app]. rewrite (proj2 (Z.eqb_neq _ _) N2).
  erewrite bind_ret by (apply load_Some, (node_lookup m pg A [PGX va; PUX va]); [apply Hi|done|simpl; lia|done|done]).
  cbn [app]. unfold dirs in N3 |- *. by rewrite (proj2 (Z.eqb_neq _ _) N3).
Qed.

#[export] Program Instance mips64_walk : TableWalk 64 48 slot (__getpagedesc pgalloc pgfree pa2kva kva2pa) := {|
  tw_inv m pg n := ∃ A, pt_inv m pg A n;
  tw_pte m pg va := node m pg (path va);
  tw_ready m pg va := node m pg (dirs va) ≠ 0;
  tw_cost := 3;
|}.
Next Obligation. intros. lia. Qed.
Next Obligation.
  intros m pg n va pd Q [A Hi] Hva HQ. eapply getpagedesc64_create; [exact Hi|].
  intros m' A' n' Hi' Hn G N. apply (HQ m' n'); [by eexists|done|done| | |].
  - eapply (node_lookup m' pg A' (dirs va)); [apply Hi'|apply dirs_valid|simpl; lia|done|apply mask_range64].
  - intros va' _. apply G; [apply path_valid|simpl; lia|by right].
  - intros va' _ Hne. rewrite G; [done|apply dirs_valid|simpl; lia|by left].
Qed.
Next Obligation.
  intros m pg n va pd [A Hi] Hva N. eexists. split; [by eapply getpagedesc64_found|]. split.
  - eapply (node_lookup m pg A (dirs va)); [apply Hi|apply dirs_valid|simpl; lia|done|apply mask_range64].
  - intros e. unfold slot. cbn [ptev ptx].
    destruct (store_leaf64 m pg A n (dirs va) (PTX va) e Hi) as [Hi' Hn]; [apply dirs_valid|done|done|apply mask_range64|].
    split; [by eexists|]. split.
    + intros va' _ Hne. rewrite Hn by (apply dirs_valid || (simpl; lia)). by rewrite decide_False.
    + intros va' Hva'. rewrite Hn by (apply path_valid || (simpl; lia)). fold (path va).
      destruct (Z.eqb_spec (va' / 4096) (va / 4096)) as [E|E].
      * rewrite decide_True; [done|]. by apply same_path.
      * rewrite decide_False; [done|]. intros E'. by apply E, same_path.
Qed.
End source.

(** ** Rollback and release *)

Lemma has_zero_true n t i z (m : mem) :
  (∀ j, i ≤ j < i + Z.of_nat n → is_Some (m !! (F_pte, entry8 t j))) →
  i ≤ z < i + Z.of_nat n → m !! (F_pte, entry8 t z) = Some 0 →
  has_zero n t i m = Ret (true, m).
Proof.
  revert i. induction n as [|n IH]; intros i Ht Hz H0; [lia|]. simpl.
  destruct (Ht i ltac:(lia)) as [e He]. erewrite bind_ret by by apply load_Some.
  destruct (Z.eqb_spec e 0) as [|Hne]; [done|]. apply IH; [|destruct (decide (z = i)); [congruence|lia]|done].
  intros j Hj. apply Ht. lia.
Qed.

Section claims.
Context {pgalloc : M mem Z} {pa2kva : Z → Z} `{PS : !PageSource 64 8 512 pgalloc pa2kva}.
Context (pgfree : Z → M mem unit) (kva2pa mach_perm : Z → Z) (junk : pagedesc).

Local Abbreviation map64 := (mips64_map_pages pgalloc pgfree pa2kva kva2pa mach_perm junk).
Local Abbreviation unmap64 := (mips64_unmap_pages pgalloc pgfree pa2kva kva2pa junk).

(** __free_intermediate_pgtable() on pages without a mapping: each leaf table has a
    zero entry, so every one is kept. *)
Lemma free_loop_noop k f m pg A n vaddr size sz pd :
  pt_inv m pg A n → (k ≤ f)%nat → 0 ≤ vaddr → 0 ≤ sz → sz + 4096 * Z.of_nat k = size → size < 2 ^ 31 →
  vaddr + size ≤ 2 ^ 48 →
  (∀ j, (j < k)%nat → node m pg (dirs (vaddr + sz + 4096 * Z.of_nat j)) ≠ 0 ∧
                      node m pg (path (vaddr + sz + 4096 * Z.of_nat j)) = 0) →
  free_loop pgalloc pgfree pa2kva kva2pa f pg vaddr size sz pd m = Ret ((), m).
Proof using PS.
  intros Hi. revert f sz pd. induction k as [|k IH]; intros f sz pd Hf Hv Hs0 Hs Hs31 Hend Hj.
  - destruct f; simpl; destruct (Z.ltb_spec sz size); done || lia.
  - destruct f as [|f]; [lia|]. simpl. destruct (Z.ltb_spec sz size); [|lia]. simpl.
    rewrite (wrap_small 64) by (unfold in_range; lia).
    destruct (Hj 0%nat ltac:(lia)) as [Hd Hp]. rewrite Z.add_0_r in Hd, Hp.
    set (va := vaddr + sz) in *. erewrite bind_ret by by eapply getpagedesc64_found. cbn [snd pmdv pmx].
    assert (Hzero : has_zero (Z.to_nat NR_PTENTRIES) (node m pg (dirs va)) 0 m = Ret (true, m)).
    { eapply (has_zero_true _ _ _ (PTX va)).
      - intros j Hjr. eapply (pt_table _ _ _ (proj2 Hi) (dirs va)); [apply dirs_valid|simpl; lia|done|].
        change (Z.of_nat (Z.to_nat NR_PTENTRIES)) with 512 in Hjr. lia.
      - change (Z.of_nat (Z.to_nat NR_PTENTRIES)) with 512. pose proof (mask_range64 (Z.shiftr va PTXSHIFT)). unfold PTX. lia.
      - rewrite <-Hp. eapply (node_lookup m pg A (dirs va)); [apply Hi|apply dirs_valid|simpl; lia|done|apply mask_range64]. }
    assert (Hdel : __del_empty_pgdir pgfree kva2pa (node m pg [PGX va; PUX va]) (PMX va) m = Ret (1, m)).
    { unfold __del_empty_pgdir. destruct (dirs_prefixes va) as [_ W2].
      erewrite bind_ret by (apply load_Some, (node_lookup m pg A [PGX va; PUX va]);
        [apply Hi|done|simpl; lia|by apply (node_prefix m pg _ [PMX va])|apply mask_range64]).
      cbn [app]. erewrite bind_ret by exact Hzero. done. }
    erewrite bind_ret by exact Hdel. cbn [Z.eqb negb]. erewrite bind_ret by reflexivity.
    change PAGE_SIZE with 4096. destruct (Z.leb_spec (2 ^ 31) (sz + 4096)); [lia|].
    apply IH; [lia|done|lia|lia|done|lia|]. intros j Hjr.
    replace (vaddr + (sz + 4096) + 4096 * Z.of_nat j) with (va + 4096 * Z.of_nat (S j)) by (unfold va; lia).
    apply Hj. lia.
Qed.

(** C36: on 64-bit MIPS, mapping a page-aligned range below 2^48 that has no mapping yet
    returns 0 and makes the four-level table translate exactly that range to the
    physical range with the permission bits asked for; the tables of the three upper
    levels are made as needed and no other translation changes. *)
Theorem map64_maps_range m pg A n vaddr paddr size flags :
  pt_inv m pg A n → map_request 48 vaddr paddr size → 3 * (size / 4096) ≤ Z.of_nat n →
  (∀ va, vaddr ≤ va < vaddr + size → node m pg (path va) = 0) →
  wp (map64 pg vaddr paddr size flags) m (λ r m',
    r = 0 ∧ (∃ n' A', pt_inv m' pg A' n') ∧
    ∀ va, in_range 48 va → node m' pg (path va) =
      if (vaddr <=? va) && (va <? vaddr + size)
      then new_pte 64 (mips.__pgtable_perm mach_perm flags) vaddr paddr va else node m pg (path va)).
Proof using PS.
  intros Hi Hreq Hn Hz. eapply wp_mono.
  - apply (map_pages_run (TW := mips64_walk pgfree kva2pa) junk _ _ m pg n); [by eexists|done|simpl; lia|done].
  - intros r m' (Hr & (n' & Hi' & _) & Hp). split; [done|]. split; [by exists n'|done].
Qed.


Lemma PTE_PADDR_page64 e : 0 ≤ e < 2 ^ 64 → PTE_PADDR e = e / 4096 * 4096.
Proof using Type.
  intros He. unfold PTE_PADDR, PTE_LOWMASK. change (u64 (Z.lnot 0xfff)) with (Z.shiftl (Z.ones 52) 12).
  apply (land_high_ones 52); lia.
Qed.

(** On 64-bit MIPS one call of unmap_pages() clears the entry of the first page
    only and reports that page's frame and the size of one page, however long the range is,
    when the next page is mapped too. The page's tables stay, even when no entry of
    them is in use any more. *)
Theorem unmap64_first_page m pg A n vaddr size stale :
  pt_inv m pg A n → page_aligned vaddr → page_aligned size →
  0 ≤ vaddr → 4096 ≤ size → vaddr + size < 2 ^ 48 →
  node m pg (dirs vaddr) ≠ 0 → 0 ≤ node m pg (path vaddr) < 2 ^ 64 →
  (4096 < size → node m pg (dirs (vaddr + 4096)) ≠ 0 ∧ node m pg (path (vaddr + 4096)) mod 4096 ≠ 0) →
  wp (unmap64 pg vaddr size stale) m (λ r m',
    r = (PAGE_SIZE, PTE_PADDR (node m pg (path vaddr))) ∧ (∃ A, pt_inv m' pg A n) ∧
    node m' pg (dirs vaddr) ≠ 0 ∧
    ∀ va, in_range 48 va → node m' pg (path va) = if va / 4096 =? vaddr / 4096 then 0 else node m pg (path va)).
Proof using PS.
  intros Hi Hva Hsa Hv0 Hs Hend Hd He Hnext. unfold mips64_unmap_pages, unmap_pages.
  destruct (unmap_loop_run (TW := mips64_walk pgfree kva2pa) junk PTE_PADDR m pg n vaddr size stale PTE_PADDR_page64)
    as (m' & Hr & [A' Hi'] & Hrdy & Hp); [by eexists|done..|].
  assert (Hin : in_range 48 vaddr) by (unfold in_range; lia).
  wp_step. eapply wp_eq; [exact Hr|]. cbn [fst]. wp_step. change (u64 PAGE_SIZE) with 4096.
  assert (Hfree : __free_intermediate_pgtable pgalloc pgfree pa2kva kva2pa junk pg vaddr 4096 m' = Ret ((), m')).
  { eapply (free_loop_noop 1); [exact Hi'|change (Z.to_nat (4096 / PAGE_SIZE + 1)) with 2%nat; lia|done|done|lia|lia|lia|].
    intros j Hj. replace (vaddr + 0 + 4096 * Z.of_nat j) with vaddr by lia. split; [by apply Hrdy|].
    etransitivity; [by apply Hp|]. by rewrite Z.eqb_refl. }
  eapply wp_eq; [exact Hfree|]. wp_step. split; [done|]. split; [by eauto|]. split; [by apply Hrdy|done].
Qed.

(** When pgalloc() has no page left for a missing table, the clean-up of
    __getpagedesc() reads a pointer that was never set or follows a NULL entry. *)
Lemma getpagedesc_nomem m pg A n va pd :
  pt_inv m pg A n → node m pg (dirs va) = 0 →
  pgalloc m = Ret (u64 (-1), m) → m !! (F_pte, 0) = None →
  __getpagedesc pgalloc pgfree pa2kva kva2pa pg va true pd m = Stuck.
Proof using PS.
  intros Hi N3 Hfail H0. destruct (dirs_prefixes va) as [W1 W2].
  assert (Hmiss : ∀ p i, valid p → (length p ≤ 3)%nat → node m pg p ≠ 0 → 0 ≤ i < 512 →
    missing pgalloc pa2kva (node m pg p) i m = Ret (node m pg (p ++ [i]) =? 0, m)).
  { intros p i Hp Hl Hn Hx. unfold missing.
    erewrite bind_ret by (apply load_Some; eapply node_lookup; [apply Hi|done..]).
    destruct (Z.eqb_spec (node m pg (p ++ [i])) 0); [|done].
    erewrite bind_ret; [|unfold __addpgdir; by erewrite bind_ret by exact Hfail]. done. }
  assert (N0 : node m pg [] ≠ 0) by by eapply pg_node.
  unfold __getpagedesc. cbn [negb].
  erewrite bind_ret by (apply (Hmiss [] (PGX va)); [by constructor|simpl; lia|done|apply mask_range64]). cbn [app].
  destruct (Z.eqb_spec (node m pg [PGX va]) 0) as [E1|N1]; [done|].
  erewrite bind_ret by (apply load_Some, (node_lookup m pg A [] (PGX va)); [apply Hi|by constructor|simpl; lia|done|apply mask_range64]).
  cbn [app]. erewrite bind_ret by (apply (Hmiss [PGX va] (PUX va)); [done|simpl; lia|done|apply mask_range64]). cbn [app].
  destruct (Z.eqb_spec (node m pg [PGX va; PUX va]) 0) as [E2|N2]; [done|].
  erewrite bind_ret by (apply load_Some, (node_lookup m pg A [PGX va] (PUX va)); [apply Hi|done|simpl; lia|done|apply mask_range64]).
  cbn [app]. erewrite bind_ret by (apply (Hmiss [PGX va; PUX va] (PMX va)); [done|simpl; lia|done|apply mask_range64]). cbn [app].
  fold (dirs va). rewrite N3. cbn [Z.eqb]. unfold nomem. cbn [get pmx].
  erewrite bind_ret by reflexivity. apply bind_stuck. unfold __del_empty_pgdir.
  erewrite bind_ret by (apply load_Some, (node_lookup m pg A [PGX va; PUX va] (PMX va)); [apply Hi|done|simpl; lia|done|apply mask_range64]).
  cbn [app]. fold (dirs va). rewrite N3. apply bind_stuck.
  change (Z.to_nat NR_PTENTRIES) with 512%nat. cbn [has_zero]. apply bind_stuck.
  unfold load. change (entry8 0 0) with 0. by rewrite H0.
Qed.

(** On 64-bit MIPS running out of pages is not reported: when a table for the first
    page of the range is missing and pgalloc() fails, map_pages() does not return
    -ENOMEM but reads an uninitialised pointer or dereferences NULL, for any page that
    is not mapped at address 0. *)
Theorem map64_nomem_undefined m pg A n vaddr paddr size flags :
  pt_inv m pg A n → map_request 48 vaddr paddr size →
  node m pg (dirs vaddr) = 0 → pgalloc m = Ret (u64 (-1), m) → m !! (F_pte, 0) = None →
  map64 pg vaddr paddr size flags m = Stuck.
Proof using PS.
  intros Hi Hreq Hd Hfail H0. destruct (request_pages _ _ _ Hreq) as (Hk & Hok & Hal).
  destruct Hreq as (Hva & Hpa & Hsa & ? & ? & ? & ? & ?).
  unfold mips64_map_pages, map_pages. rewrite !aligned_test by (done || lia). cbn [negb orb].
  change (size / PAGE_SIZE) with (size / 4096). set (k := Z.to_nat (size / 4096)) in *. clearbody k.
  destruct k as [|k]; [lia|]. apply bind_stuck. cbn [first_pass].
  destruct Hok as (_ & _ & _ & ? & _). destruct (Z.ltb_spec paddr (u64 (paddr + size))); [|lia]. cbn [negb].
  apply bind_stuck. by eapply getpagedesc_nomem.
Qed.
End claims.

(** ** A concrete table *)

Definition base64 : Z := 0x9800000000100000.

Lemma bump_kva64 k : 0 ≤ k < 64 → u64 (mips64_space.pa2kva (0x100000 + 4096 * k)) = base64 + 4096 * k.
Proof.
  intros Hk. unfold mips64_space.pa2kva, mips64_space.TO_CAC, mips64_space.IO_CAC_BASE, mips64_space.XKPHY, base64.
  rewrite !wrap_small; unfold in_range; rewrite ?wrap_small; unfold in_range; lia.
Qed.

#[export] Instance bump_source64 : PageSource 64 8 512 bump_alloc mips64_space.pa2kva.
Proof. refine (bump_source 64 8 512 _ base64 _ _ _ bump_kva64); by vm_compute. Defined.

(** One page, empty; [k] frames are used up. *)
Definition mem64 (k : Z) : mem :=
  match clear_page base64 {[ (F_used, 0) := k ]} with Ret (_, m) => m | _ => ∅ end.

Lemma mem64_inv k n :
  1 ≤ k → k + Z.of_nat n ≤ 64 →
  pt_inv (mem64 k) base64 {[ base64 ]} n ∧ (∀ i p, 0 ≤ i < 512 → node (mem64 k) base64 (i :: p) = 0) ∧
  mem64 k !! (F_used, 0) = Some k ∧ mem64 k !! (F_pte, 0) = None.
Proof.
  intros Hk Hn. assert (Hp : ps_inv {[ (F_used, 0) := k ]} {[ base64 ]} n).
  { exists k. split; [by rewrite lookup_singleton_eq|]. split; [lia|]. split; [lia|].
    intros t ->%elem_of_singleton. split; [by vm_compute|lia]. }
  destruct (clear_words_run _ _ _ base64 512 Hp) as (m' & Hr & Hp' & Hz & Hs);
    [by apply elem_of_singleton|done|].
  unfold mem64, clear_page. rewrite Hr.
  assert (Hnode : ∀ i p, 0 ≤ i < 512 → node m' base64 (i :: p) = 0).
  { intros i p Hi. apply (node_app_zero m' base64 [i] p). simpl. unfold step. change (base64 =? 0) with false. by rewrite Hz by lia. }
  assert (m' !! (F_used, 0) = Some k ∧ m' !! (F_pte, 0) = None) as [? ?].
  { split; rewrite Hs; try done; try (by rewrite lookup_singleton_eq).
    intros i Hi [= E]. unfold entry_of, base64 in E. lia. }
  split; [|done]. split; [done|]. split; [by apply elem_of_singleton| |].
    + intros [|i p] Hv Hl Hne; [|by apply Forall_cons in Hv as [? _]; rewrite Hnode in Hne].
      split; [by apply elem_of_singleton|]. intros j Hj. simpl. rewrite Hz by lia. by eexists.
    + intros [|i p] [|j q] Hv Hv' _ _ Hne E; [done|..].
      * apply Forall_cons in Hv' as [? _]. by rewrite Hnode in E.
      * apply Forall_cons in Hv as [? _]. by rewrite Hnode in Hne.
      * apply Forall_cons in Hv as [? _]. by rewrite Hnode in Hne.
Qed.

Lemma mem64_empty k n va : 1 ≤ k → k + Z.of_nat n ≤ 64 → node (mem64 k) base64 (path va) = 0.
Proof. intros Hk Hn. apply (mem64_inv k n Hk Hn). apply mask_range64. Qed.

(** Two pages on either side of a 1 GB boundary. *)
Lemma map64_maps_range_witness :
  wp (mips64_map_pages bump_alloc (λ _, mret ()) mips64_space.pa2kva mips64_space.kva2pa
        mips.__mach_pgtable_perm (mk_pagedesc 0 0 0 0 0 0 0 0) base64 0x3ffff000 0x200000 0x2000 2) (mem64 1)
     (λ r m', r = 0 ∧ node m' base64 (path 0x40000123) = Z.lor 0x201000 0x7c0).
Proof.
  eapply wp_mono.
  - apply (map64_maps_range (λ _, mret ()) mips64_space.kva2pa mips.__mach_pgtable_perm _
             (mem64 1) base64 {[ base64 ]} 8 0x3ffff000 0x200000 0x2000 2);
      [apply mem64_inv; lia|by vm_compute|by vm_compute|].
    intros va _. by apply (mem64_empty 1 8).
  - intros r m' (-> & _ & H). split; [done|]. rewrite H by (by vm_compute). by vm_compute.
Defined.

Definition pd0 : pagedesc := mk_pagedesc 0 0 0 0 0 0 0 0.

(** The memory after those two pages have been mapped. *)
Lemma mapped64 :
  ∃ m n A, pt_inv m base64 A n ∧ (6 ≤ n)%nat ∧
    node m base64 (path 0x3fffe000) = 0 ∧
    node m base64 (path 0x3ffff000) = 0x2007c0 ∧ node m base64 (path 0x40000000) = 0x2017c0.
Proof.
  assert (Hreq : map_request 48 0x3ffff000 0x200000 0x2000) by by vm_compute.
  assert (Hn : 0x2000 / 4096 * 3 ≤ 12) by (by vm_compute).
  pose proof (map_pages_run (TW := mips64_walk (λ _, mret ()) mips64_space.kva2pa) pd0
    (λ _ _ _, mret ()) (mips.__pgtable_perm mips.__mach_pgtable_perm) (mem64 1) base64 12 0x3ffff000 0x200000 0x2000 2
    (ex_intro (λ A, pt_inv _ _ A _) _ (proj1 (mem64_inv 1 12 ltac:(lia) ltac:(lia)))) Hreq Hn
    (λ va _, mem64_empty 1 12 va ltac:(lia) ltac:(lia))) as Hw.
  destruct (wp_elim _ _ _ Hw) as (r & m & _ & _ & (n & [A Hi] & Hn') & Hpt). clear Hw.
  exists m, n, A. split; [done|]. change (Z.of_nat 12) with 12 in Hn'.
  change (8192 / 4096 * Z.of_nat (tw_cost (TableWalk := mips64_walk _ _))) with 6 in Hn'. split; [lia|].
  split; [|split]; refine (eq_trans (Hpt _ _) _); try (by vm_compute).
Qed.


Lemma unmap64_first_page_witness :
  ∃ m, wp (mips64_unmap_pages bump_alloc (λ _, stuck) mips64_space.pa2kva mips64_space.kva2pa pd0
     base64 0x3ffff000 0x2000 7) m (λ r m', r = (PAGE_SIZE, 0x200000)).
Proof.
  destruct mapped64 as (m & n & A & Hi & Hn & E0 & E1 & E2). exists m.
  assert (D : ∀ va, node m base64 (path va) ≠ 0 → node m base64 (dirs va) ≠ 0)
    by (intros va; apply node_prefix).
  eapply wp_mono.
  - apply (unmap64_first_page (λ _, stuck) mips64_space.kva2pa pd0 m base64 A n 0x3ffff000 0x2000 7);
      [done|by vm_compute|by vm_compute|lia|lia|lia|apply D; by rewrite E1|rewrite E1; lia|].
    intros _. change (0x3ffff000 + 4096) with 0x40000000. rewrite E2. split; [apply D; by rewrite E2|by vm_compute].
  - intros r m' (-> & _). by rewrite E1.
Defined.

Lemma map64_nomem_undefined_witness :
  mips64_map_pages bump_alloc (λ _, mret ()) mips64_space.pa2kva mips64_space.kva2pa
    mips.__mach_pgtable_perm pd0 base64 0x3ffff000 0x200000 0x1000 2 (mem64 64) = Stuck.
Proof.
  apply (map64_nomem_undefined (λ _, mret ()) mips64_space.kva2pa mips.__mach_pgtable_perm pd0
           (mem64 64) base64 {[ base64 ]} 0); [apply mem64_inv; simpl; lia|by vm_compute|..].
  - apply (mem64_inv 64 0); [lia|simpl; lia|apply mask_range64].
  - unfold bump_alloc. erewrite bind_ret by (apply load_Some; apply (mem64_inv 64 0); simpl; lia). done.
  - apply (mem64_inv 64 0); simpl; lia.
Defined.
