(* ===== verification/Uvm.v ===== *)
(** kern/mm/uvm.c: user address spaces, a sorted list of virtual memory areas
    with their pages. *)
From Stdlib Require Import ZArith Lia.
From stdpp Require Import base numbers gmap list.
From S2P Require Import Prelude DList Util Pmm AddrSpace.

Open Scope Z_scope.

Module uvm.

(** struct vma: start 0, size 4, flags 8, pages 12, node 16; struct mm starts
    with its list sentry. *)
Definition off_node : Z := 16.
Definition sizeof_vma : Z := 24.
Definition sizeof_mm : Z := 20.
Definition sizeof_pages : Z := 24.
Definition vma_head (mm : Z) : Z := mm.
Definition __PAGES_FREED : Z := 1.

Section code.
Context (kmalloc : Z → Z → M mem Z) (kfree : Z → M mem unit).
Context (alloc_pages : pages → M mem (Z * pages)) (free_pages : pages → M mem unit).
Context (init_pgindex : M mem Z) (destroy_pgindex : Z → M mem unit).
Context (map_pages : Z → Z → Z → Z → Z → M mem Z) (unmap_pages : Z → Z → Z → Z → M mem (Z * Z)).

(** A struct pages that lives in memory, passed by pointer. *)
Definition read_pages (p : Z) : M mem pages :=
  a ← load F_paddr p; s ← load F_size p; f ← load F_flags p; r ← load F_refs p;
  mret (mk_pages a s f r).

Definition alloc_pages_at (p : Z) : M mem Z :=
  v ← read_pages p;
  r ← alloc_pages v;
  _ ← store F_paddr p (paddr (snd r));
  mret (fst r).

Definition free_pages_at (p : Z) : M mem unit := v ← read_pages p; free_pages v.

Definition mm_new : M mem Z :=
  mm ← kmalloc sizeof_mm 0;
  if mm =? NULL then mret mm else
  _ ← INIT_LIST_HEAD (vma_head mm);
  _ ← store F_vma_count mm 0;
  pg ← init_pgindex;
  _ ← store F_pgindex mm pg;
  if pg =? NULL then _ ← kfree mm; mret NULL else mret mm.

(** Unmap the virtual memory area. *)
Definition __clean_vma (mm vma : Z) : M mem unit :=
  size ← load F_vm_size vma;
  p ← load F_pages vma;
  psize ← load F_size p;
  _ ← assert (size =? psize);
  pg ← load F_pgindex mm;
  start ← load F_start vma;
  r ← unmap_pages pg start size 0;
  let '(unmapped, pa) := r in
  ppa ← load F_paddr p;
  _ ← assert (pa =? ppa);
  assert (unmapped =? size).

Definition __ref_pages (p : Z) : M mem unit :=
  r ← load F_refs p; store F_refs p (r + 1).

Definition __unref_and_free_pages (p : Z) : M mem Z :=
  r ← load F_refs p;
  _ ← store F_refs p (r - 1);
  r ← load F_refs p;
  if r =? 0 then _ ← free_pages_at p; mret __PAGES_FREED else mret 0.

(** The common tail of mm_destroy() and __unmap_and_free_vma(). *)
Definition drop_vma (vma : Z) : M mem unit :=
  p ← load F_pages vma;
  r ← __unref_and_free_pages p;
  _ ← (if r =? __PAGES_FREED then p ← load F_pages vma; kfree p else mret ());
  kfree vma.

Definition mm_destroy (mm : Z) : M mem unit :=
  if mm =? NULL then mret () else
  _ ← for_each_entry_safe (vma_head mm) off_node (λ vma, _ ← __clean_vma mm vma; drop_vma vma);
  pg ← load F_pgindex mm;
  _ ← destroy_pgindex pg;
  kfree mm.

Definition __find_vma_before (mm addr size : Z) : M mem Z :=
  e ← list_empty (vma_head mm);
  if (e : bool) then mret (list_entry (vma_head mm) off_node) else
  vma ← for_each_entry (vma_head mm) off_node (λ vma,
    start ← load F_start vma; mret (start >=? u32 (addr + size)));
  vma_prev ← list_prev_entry vma off_node;
  pstart ← load F_start vma_prev;
  vsize ← load F_vm_size vma;
  if addr <? u32 (pstart + vsize) then mret NULL (* overlap detected *) else mret vma_prev.

(** [n] pages, from [vma_cur] on. *)
Fixpoint unmap_and_free (n : nat) (mm vma_cur : Z) : M mem unit :=
  match n with
  | O => mret ()
  | S n' =>
      let vma := vma_cur in
      next ← list_next_entry vma_cur off_node;
      _ ← list_del (vma + off_node);
      pg ← load F_pgindex mm;
      start ← load F_start vma;
      size ← load F_vm_size vma;
      r ← unmap_pages pg start size 0;
      _ ← assert (fst r =? PAGE_SIZE);
      _ ← drop_vma vma;
      unmap_and_free n' mm next
  end.

(** for (i = 0; i < size; i += PAGE_SIZE) *)
Definition __unmap_and_free_vma (mm vma_start size : Z) : M mem unit :=
  unmap_and_free (Z.to_nat (DIV_ROUND_UP 32 size PAGE_SIZE)) mm vma_start.

(** One page of create_uvm(): [Some vma] when it was set up, [None] with
    the return code after the local rollbacks. *)
Definition create_page (mm vma_cur vcur flags : Z) : M mem (Z * option Z) :=
  vma ← kmalloc sizeof_vma 0;
  if vma =? NULL then mret (- ENOMEM, None) else
  _ ← store F_start vma vcur;
  _ ← store F_vm_size vma PAGE_SIZE;
  _ ← store F_vm_flags vma flags;
  p ← kmalloc sizeof_pages 0;
  if p =? NULL then _ ← kfree vma; mret (- ENOMEM, None) else
  _ ← store F_paddr p 0;
  _ ← store F_flags p 0;
  _ ← store F_size p PAGE_SIZE;
  _ ← store F_refs p 0;
  r ← alloc_pages_at p;
  if r <? 0 then _ ← kfree p; _ ← kfree vma; mret (- ENOMEM, None) else
  pg ← load F_pgindex mm;
  pa ← load F_paddr p;
  ret ← map_pages pg vcur pa PAGE_SIZE flags;
  if ret <? 0
  then _ ← free_pages_at p; _ ← kfree p; _ ← kfree vma; mret (ret, None)
  else
  _ ← store F_pages vma p;
  _ ← __ref_pages p;
  _ ← list_add_after (vma + off_node) (vma_cur + off_node);
  mret (ret, Some vma).

(** The loop: the return code and how much was mapped. *)
Fixpoint create_loop (n : nat) (mm vma_cur vcur mapped len flags : Z) : M mem (Z * Z) :=
  if negb (mapped <? len) then mret (0, mapped) else
  match n with
  | O => nofuel
  | S n' =>
      r ← create_page mm vma_cur vcur flags;
      match r with
      | (retcode, None) => mret (retcode, mapped)
      | (_, Some vma) => create_loop n' mm vma (u32 (vcur + PAGE_SIZE)) (mapped + PAGE_SIZE) len flags
      end
  end.

Definition create_uvm (mm addr len flags : Z) : M mem Z :=
  if negb (IS_ALIGNED 32 len PAGE_SIZE) || (mm =? NULL) || negb (IS_ALIGNED 32 addr PAGE_SIZE)
  then mret (- EINVAL) else
  vma_start ← __find_vma_before mm addr len;
  if vma_start =? NULL then mret (- EFAULT) else
  r ← create_loop (Z.to_nat (len / PAGE_SIZE)) mm vma_start addr 0 len flags;
  let '(retcode, mapped) := r in
  if mapped <? len then _ ← __unmap_and_free_vma mm vma_start mapped; mret retcode else mret 0.

(** The check that the pages after the first one are there. *)
Fixpoint check_next (n : nat) (vma addr i len : Z) : M mem bool :=
  if negb (i <? len) then mret true else
  match n with
  | O => nofuel
  | S n' =>
      vma ← list_next_entry vma off_node;
      start ← load F_start vma;
      if negb (start =? u32 (addr + i)) then mret false
      else check_next n' vma addr (i + PAGE_SIZE) len
  end.

Definition destroy_uvm (mm addr len : Z) : M mem Z :=
  if negb (IS_ALIGNED 32 len PAGE_SIZE) || (mm =? NULL) || negb (IS_ALIGNED 32 addr PAGE_SIZE)
  then mret (- EINVAL) else
  (* find the vma *)
  vma ← for_each_entry (vma_head mm) off_node (λ vma, start ← load F_start vma; mret (start =? addr));
  (* not found? *)
  if vma + off_node =? vma_head mm then mret (- EFAULT) else
  ok ← check_next (Z.to_nat (len / PAGE_SIZE)) vma addr PAGE_SIZE len;
  if negb ok then mret (- EFAULT) else
  _ ← __unmap_and_free_vma mm vma len;
  mret 0.
End code.

(** * Properties *)

Record vma : Type := mk_vma { v_addr : Z; v_start : Z; v_size : Z }.

Definition vma_at (m : mem) (v : vma) : Prop :=
  m !! (F_start, v_addr v) = Some (v_start v) ∧ m !! (F_vm_size, v_addr v) = Some (v_size v).

(** The areas of an address space, in list order. *)
Definition areas (m : mem) (mm : Z) (vs : list vma) : Prop :=
  dlist m (vma_head mm) (nodes off_node (v_addr <$> vs)) ∧ Forall (vma_at m) vs.

Lemma search_start m mm vs (test : Z → bool) :
  areas m mm vs →
  for_each_entry (vma_head mm) off_node (λ vma, start ← load F_start vma; mret (test start)) m =
  Ret (match List.find (λ v, test (v_start v)) vs with
       | Some v => v_addr v
       | None => vma_head mm - off_node
       end, m).
Proof.
  intros [Hl Hv]. set (f := λ x, match m !! (F_start, x) with Some s => test s | None => false end).
  assert (Hc : ∀ v, v ∈ vs → m !! (F_start, v_addr v) = Some (v_start v)).
  { intros v Hin. rewrite Forall_forall in Hv. by destruct (Hv v Hin) as [? _]. }
  rewrite (for_each_entry_run m _ off_node (v_addr <$> vs) _ f); [|done|].
  - do 2 f_equal. unfold find_or. clear Hl Hv.
    induction vs as [|v vs IH]; simpl; [done|]. unfold f at 1.
    rewrite Hc by (apply elem_of_cons; by left).
    destruct (test (v_start v)); [done|]. apply IH. intros; apply Hc, elem_of_cons. by right.
  - intros x (v & -> & Hin)%list_elem_of_fmap.
    erewrite bind_ret by by apply load_Some, Hc. unfold f. by rewrite Hc.
Qed.

(** The search of __find_vma_before(), for areas before and from [addr + size] on. *)
Lemma find_start_split l1 l2 x :
  Forall (λ v, v_start v < x) l1 → Forall (λ v, x ≤ v_start v) l2 →
  List.find (λ v, v_start v >=? x) (l1 ++ l2) = head l2.
Proof.
  intros H1 H2. induction H1 as [|v l1 Hv _ IH]; simpl.
  - destruct H2 as [|v l2 Hv _]; [done|]. simpl. destruct (Z.geb_spec (v_start v) x); [done|lia].
  - destruct (Z.geb_spec (v_start v) x); [lia|]. done.
Qed.

Lemma load_None f (p : Z) (m : mem) : m !! (f, p) = None → load f p m = Stuck.
Proof. unfold load. by intros ->. Qed.

(** What __find_vma_before() finds. In an empty address space, the sentry. Between
    two areas, the lower one, or NULL when the new range is taken to
    overlap it, which is judged with the size of the upper area. Below all
    areas, or above all of them, the function reads a field of an
    area through the list sentry, outside of any area. *)
Theorem find_vma_before_cases m mm addr size lower upper :
  let sentry := vma_head mm - off_node in
  0 ≤ addr + size < 2 ^ 32 → areas m mm (lower ++ upper) →
  Forall (λ v, v_start v < addr + size) lower → Forall (λ v, addr + size ≤ v_start v) upper →
  m !! (F_start, sentry) = None → m !! (F_vm_size, sentry) = None →
  (lower ++ upper = [] → __find_vma_before mm addr size m = Ret (sentry, m)) ∧
  (∀ l p u r, lower = l ++ [p] → upper = u :: r →
     __find_vma_before mm addr size m =
     Ret (if addr <? u32 (v_start p + v_size u) then NULL else v_addr p, m)) ∧
  (lower = [] ∨ upper = [] → lower ++ upper ≠ [] → __find_vma_before mm addr size m = Stuck).
Proof.
  intros sentry Hr Hv Hlo Hup Hs1 Hs2. unfold __find_vma_before.
  rewrite (wrap_small 32 (addr + size)) by done.
  assert (Hsearch := search_start m mm _ (λ s, s >=? addr + size) Hv).
  cbv beta in Hsearch. rewrite (find_start_split _ _ _ Hlo Hup) in Hsearch.
  destruct Hv as [Hl Hv]. erewrite bind_ret by by apply list_empty_run.
  rewrite fmap_app, nodes_app in Hl. rewrite Forall_forall in Hv.
  split; [|split].
  - intros E. by rewrite E.
  - intros l p u r -> ->. rewrite bool_decide_false by (by rewrite <-app_assoc; destruct l).
    erewrite bind_ret by exact Hsearch. cbn [head].
    rewrite fmap_cons, nodes_cons in Hl. destruct (dlist_neighbours _ _ _ _ _ Hl) as [Ep _].
    rewrite fmap_app, nodes_app in Ep. simpl in Ep. rewrite List.last_last in Ep.
    unfold list_prev_entry, list_entry.
    erewrite bind_ret by (erewrite bind_ret by (by apply load_Some); reflexivity).
    replace (v_addr p + off_node - off_node) with (v_addr p) by lia.
    destruct (Hv p) as [Hp _]; [rewrite !elem_of_app, !elem_of_cons; auto|].
    destruct (Hv u) as [_ Hu]; [rewrite !elem_of_app, !elem_of_cons; auto|].
    erewrite bind_ret by by apply load_Some. erewrite bind_ret by by apply load_Some.
    by destruct (addr <? _).
  - intros Hor Hne.
    rewrite bool_decide_false by (unfold nodes; by destruct (lower ++ upper)).
    erewrite bind_ret by exact Hsearch.
    destruct upper as [|u upper]; cbn [head].
    + destruct (snoc_cases lower) as [->|(l & p & ->)]; [done|].
      rewrite fmap_app, nodes_app in Hl. simpl in Hl.
      destruct (dlist_edge _ _ _ _ Hl) as [_ Ep]. simpl in Ep. rewrite List.last_last in Ep.
      unfold list_prev_entry, list_entry. fold sentry.
      replace (sentry + off_node) with (vma_head mm) by (unfold sentry; lia).
      erewrite bind_ret by (erewrite bind_ret by (by apply load_Some); reflexivity).
      replace (v_addr p + off_node - off_node) with (v_addr p) by lia.
      destruct (Hv p) as [Hp _]; [rewrite !elem_of_app, !elem_of_cons; auto|].
      erewrite bind_ret by by apply load_Some. apply bind_stuck. by apply load_None.
    + destruct Hor as [->|?]; [|done]. simpl in Hl.
      destruct (dlist_neighbours _ _ [] _ _ Hl) as [Ep _]. simpl in Ep.
      unfold list_prev_entry, list_entry.
      erewrite bind_ret by (erewrite bind_ret by (by apply load_Some); reflexivity).
      apply bind_stuck. by apply load_None.
Qed.

Section props.
Context (kmalloc : Z → Z → M mem Z) (kfree : Z → M mem unit).
Context (alloc_pages : pages → M mem (Z * pages)) (free_pages : pages → M mem unit).
Context (map_pages : Z → Z → Z → Z → Z → M mem Z) (unmap_pages : Z → Z → Z → Z → M mem (Z * Z)).

(** Create_uvm() and destroy_uvm() refuse a NULL address space and
    misaligned arguments with -EINVAL, and destroy_uvm() refuses an address no
    area starts at with -EFAULT, in each case with memory unchanged. *)
Theorem uvm_refusals m mm addr len flags :
  (¬ page_aligned addr ∨ ¬ page_aligned len ∨ mm = NULL →
   create_uvm kmalloc kfree alloc_pages free_pages map_pages unmap_pages mm addr len flags m = Ret (- EINVAL, m) ∧
   destroy_uvm kfree free_pages unmap_pages mm addr len m = Ret (- EINVAL, m)) ∧
  (∀ vs, page_aligned addr → page_aligned len → mm ≠ NULL → areas m mm vs →
     Forall (λ v, v_start v ≠ addr) vs →
     destroy_uvm kfree free_pages unmap_pages mm addr len m = Ret (- EFAULT, m)).
Proof.
  unfold create_uvm, destroy_uvm. rewrite !IS_ALIGNED_page by lia. split.
  - intros H. repeat case_bool_decide; simpl; try done.
    + destruct (Z.eqb_spec mm NULL); simpl; [done|]. tauto.
    + destruct (mm =? NULL); done.
  - intros vs Ha Hl Hmm Hv Hn. rewrite !bool_decide_true by done. simpl.
    rewrite (proj2 (Z.eqb_neq _ _) Hmm). simpl.
    erewrite bind_ret by by apply (search_start m mm vs (λ s, s =? addr)).
    assert (List.find (λ v, v_start v =? addr) vs = None) as ->.
    { clear Hv. induction Hn as [|v vs Hv' _ IH]; simpl; [done|]. by rewrite (proj2 (Z.eqb_neq _ _) Hv'). }
    replace (vma_head mm - off_node + off_node) with (vma_head mm) by lia. by rewrite Z.eqb_refl.
Qed.

(** C40: create_uvm() in an empty address space that fails after its first page does
    not undo its work: the clean-up starts at the list sentry, where the search for the place of
    the new areas ended, not at the first new area, and reads the start of an area there. *)
Theorem create_rollback_undefined m mm addr len flags code mapped m1 :
  page_aligned addr → page_aligned len → mm ≠ NULL → mm ≠ off_node → areas m mm [] → len ≤ 2 ^ 31 →
  create_loop kmalloc kfree alloc_pages free_pages map_pages (Z.to_nat (len / PAGE_SIZE)) mm (vma_head mm - off_node)
    addr 0 len flags m = Ret ((code, mapped), m1) → 0 < mapped < len →
  m1 !! (F_start, vma_head mm - off_node) = None →
  create_uvm kmalloc kfree alloc_pages free_pages map_pages unmap_pages mm addr len flags m = Stuck.
Proof using.
  intros Ha Hl Hmm Hne [Hd _] Hlen Hloop Hmap Hst. unfold create_uvm. rewrite !IS_ALIGNED_page by lia.
  rewrite !bool_decide_true, (proj2 (Z.eqb_neq _ _) Hmm) by done. simpl.
  unfold __find_vma_before. erewrite bind_ret by (erewrite bind_ret by exact (list_empty_run _ _ _ Hd); reflexivity).
  unfold list_entry. rewrite (proj2 (Z.eqb_neq _ NULL)) by (unfold vma_head, NULL in *; lia).
  rewrite (bind_ret _ _ _ _ _ Hloop). rewrite (proj2 (Z.ltb_lt mapped len)) by lia.
  apply bind_stuck. unfold __unmap_and_free_vma.
  destruct (Z.to_nat (DIV_ROUND_UP 32 mapped PAGE_SIZE)) as [|n] eqn:En.
  { unfold DIV_ROUND_UP in En. change PAGE_SIZE with 4096 in En. rewrite wrap_small in En by (unfold in_range; lia).
    Z.div_mod_to_equations. lia. }
  cbn [unmap_and_free]. unfold list_next_entry, list_del, __list_del.
  unfold mbind, M_bind, load, store, mret, M_ret. repeat (case_match; simplify_eq/=; try done).
  all: match goal with H : _ !! (F_start, _) = Some _ |- _ => rewrite !lookup_insert_ne in H by done; congruence end.
Qed.
End props.

(** An address space at 500 with two areas. *)
Definition two_areas : mem :=
  list_to_map [((F_next, 500), 616); ((F_prev, 500), 716); ((F_next, 616), 716); ((F_prev, 616), 500);
    ((F_next, 716), 500); ((F_prev, 716), 616);
    ((F_start, 600), 0x100000); ((F_vm_size, 600), 4096); ((F_start, 700), 0x200000); ((F_vm_size, 700), 4096)].
Definition area1 : vma := mk_vma 600 0x100000 4096.
Definition area2 : vma := mk_vma 700 0x200000 4096.

Lemma two_areas_ok : areas two_areas 500 [area1; area2].
Proof.
  split; [|do 2 (apply Forall_cons; split; [split; by vm_compute|]); by apply Forall_nil].
  split; [by vm_compute|]. apply (bool_decide_unpack _). by vm_compute.
Qed.

Lemma uvm_refusals_witness :
  destroy_uvm (λ _, mret ()) (λ _, mret ()) (λ _ _ _ _, mret (0, 0)) 500 0x300000 4096 two_areas =
  Ret (- EFAULT, two_areas).
Proof.
  apply (uvm_refusals (λ _ _, mret 0) (λ _, mret ()) (λ p, mret (0, p)) (λ _, mret ()) (λ _ _ _ _ _, mret 0)
           (λ _ _ _ _, mret (0, 0)) two_areas 500 0x300000 4096 0) with (vs := [area1; area2]);
    [by vm_compute|by vm_compute|done|exact two_areas_ok|by repeat constructor].
Defined.

(** An empty address space at 500, objects handed out from 1000 on, and a second page that
    cannot be mapped. *)
Definition empty_space : mem :=
  list_to_map [((F_next, 500), 500); ((F_prev, 500), 500); ((F_pgindex, 500), 8192); ((G_free_space, 0), 1000)].
Definition bump (sz fl : Z) : M mem Z := n ← load G_free_space 0; _ ← store G_free_space 0 (n + 64); mret n.
Definition second_conflicts (pg va pa sz fl : Z) : M mem Z := mret (if va =? 0x101000 then - EEXIST else 0).

Definition conflict_loop : M mem (Z * Z) :=
  create_loop bump (λ _, mret ()) (λ p, mret (0, p)) (λ _, mret ()) second_conflicts (Z.to_nat (0x3000 / PAGE_SIZE)) 500
    (vma_head 500 - off_node) 0x100000 0 0x3000 3.

(** The loop stops after one page, and no area was written at the sentry. *)
Definition stops_inside (r : outcome (Z * Z * mem)) : bool :=
  match r with
  | Ret ((_, mapped), m1) => (0 <? mapped) && (mapped <? 0x3000) && bool_decide (m1 !! (F_start, vma_head 500 - off_node) = None)
  | _ => false
  end.

Lemma stops_inside_elim r :
  stops_inside r = true →
  ∃ code mapped m1, r = Ret ((code, mapped), m1) ∧ 0 < mapped < 0x3000 ∧ m1 !! (F_start, vma_head 500 - off_node) = None.
Proof.
  destruct r as [[[code mapped] m1]| | |]; simpl; [|done..]. rewrite !andb_true_iff, !Z.ltb_lt, bool_decide_eq_true.
  intros [? ?]. by exists code, mapped, m1.
Qed.

Lemma create_rollback_undefined_witness :
  create_uvm bump (λ _, mret ()) (λ p, mret (0, p)) (λ _, mret ()) second_conflicts (λ _ _ sz _, mret (sz, 0))
    500 0x100000 0x3000 3 empty_space = Stuck.
Proof.
  destruct (stops_inside_elim (conflict_loop empty_space)) as (code & mapped & m1 & E & Hm & Hs); [by vm_compute|].
  unfold conflict_loop in E.
  apply (create_rollback_undefined bump (λ _, mret ()) (λ p, mret (0, p)) (λ _, mret ()) second_conflicts (λ _ _ sz _, mret (sz, 0))
    empty_space 500 0x100000 0x3000 3 code mapped m1); [| | | | | |exact E|exact Hm|exact Hs].
  all: clear; try done.
  split; [split; [by vm_compute|apply (bool_decide_unpack _); by vm_compute]|by apply Forall_nil].
Defined.

Lemma find_vma_before_cases_witness :
  __find_vma_before 500 0x101000 4096 two_areas = Ret (600, two_areas) ∧
  __find_vma_before 500 0x300000 4096 two_areas = Stuck.
Proof.
  split.
  - destruct (find_vma_before_cases two_areas 500 0x101000 4096 [area1] [area2]) as (_ & H & _);
      [lia|exact two_areas_ok|repeat constructor; simpl; lia|repeat constructor; simpl; lia|by vm_compute|by vm_compute|].
    exact (H [] area1 area2 [] eq_refl eq_refl).
  - destruct (find_vma_before_cases two_areas 500 0x300000 4096 [area1; area2] []) as (_ & _ & H);
      [lia|exact two_areas_ok|repeat constructor; simpl; lia|constructor|by vm_compute|by vm_compute|].
    apply H; [by right|done].
Defined.
End uvm.
