(* ===== verification/Printf.v ===== *)
(** lib/libc/snprintf.c: vsnprintf(), for targets where long and pointers have 32 bits:
    %p prints eight digits. The branch for 64-bit targets (__LP64__) is not modelled. *)
From Stdlib Require Import ZArith Lia Ascii String.
From stdpp Require Import base numbers list.
From S2P Require Import Prelude.

Open Scope Z_scope.

(** The bytes of a literal. *)
Fixpoint bytes (s : string) : list Z :=
  match s with
  | EmptyString => []
  | String c s => Z.of_N (N_of_ascii c) :: bytes s
  end.

Definition FLAG_ZEROPAD : Z := 0x002.
Definition FLAG_NEG : Z := 0x100.

Definition ch_nul : Z := 0.
Definition ch_space : Z := 32.
Definition ch_percent : Z := 37.
Definition ch_minus : Z := 45.
Definition ch_0 : Z := 48.
Definition ch_9 : Z := 57.

Definition is_digit (ch : Z) : bool := (ch >=? ch_0) && (ch <=? ch_9).
Definition digits (x : Z) : Z := if x <=? 9 then ch_0 + x else 97 + x - 10.

(** The variable arguments: a word, or a string pointer. *)
Inductive arg : Type :=
  | AWord (v : Z)
  | AStr (s : option (list Z)).

(** The destination buffer: still writing, or returned early because it is full. *)
Inductive sink : Type :=
  | Run (out : list Z)
  | Full (out : list Z).

(** set_ch(ch) *)
Definition set_ch (size ch : Z) (s : sink) : sink :=
  match s with
  | Full o => Full o
  | Run o =>
      let o' := o ++ [ch] in
      if Z.of_nat (length o') =? size then Full (take (Z.to_nat (size - 1)) o' ++ [ch_nul]) else Run o'
  end.

Fixpoint set_chs (size : Z) (l : list Z) (s : sink) : sink :=
  match l with
  | [] => s
  | ch :: l => set_chs size l (set_ch size ch s)
  end.

(** while (uval > 0) { buf[buf_pos++] = digits(uval % base); uval /= base; };
    a 32-bit value has at most 32 digits in any base. *)
Fixpoint uint_buf (n : nat) (base uval : Z) : list Z :=
  match n with
  | O => []
  | S n' => if uval >? 0 then digits (uval mod base) :: uint_buf n' base (uval / base) else []
  end.

Definition print_buf (base uval : Z) : list Z :=
  match uint_buf 32 base uval with
  | [] => [ch_0]
  | buf => buf
  end.

(** while ((--width) >= 0) set_ch(width >= buf_pos ? pad : buf[width]) *)
Fixpoint padded (w : nat) (pad : Z) (buf : list Z) : list Z :=
  match w with
  | O => []
  | S w' => default pad (buf !! w') :: padded w' pad buf
  end.

(** print_uint: the characters that are put out. *)
Definition print_uint (flag width base uval : Z) : list Z :=
  let buf := print_buf base uval in
  let neg := negb (Z.land flag FLAG_NEG =? 0) in
  if width =? 0 then (if neg then [ch_minus] else []) ++ rev buf
  else if (width >? 0) && negb (Z.lor flag FLAG_ZEROPAD =? 0) then
    (if neg then [ch_minus] else []) ++ padded (Z.to_nat width) ch_0 buf
  else if width >? 0 then
    padded (Z.to_nat width) ch_space (if neg then buf ++ [ch_minus] else buf)
  else [].

Definition print_str (width : Z) (s : option (list Z)) : list Z :=
  let s := match s with None => bytes "(null)" | Some s => s end in
  s ++ replicate (Z.to_nat (width - Z.of_nat (length s))) ch_space.

(** Signed and unsigned reading of a word argument. *)
Definition as_long (v : Z) : Z := let u := u32 v in if u <? 2 ^ 31 then u else u - 2 ^ 32.

(** One conversion character: the characters to put out and what is left
    of the arguments; [None] when the character is no conversion. *)
Definition convert (c flag width : Z) (args : list arg) : option (option (list Z * list arg)) :=
  let word k := match args with AWord v :: args => Some (Some (k v, args)) | _ => Some None end in
  if c =? 100 (* d *) then
    word (λ v, let v := as_long v in
      if v <? 0 then print_uint (Z.lor flag FLAG_NEG) width 10 (u32 (- v)) else print_uint flag width 10 v)
  else if c =? 111 (* o *) then word (λ v, print_uint flag width 8 (u32 v))
  else if c =? 120 (* x *) then word (λ v, print_uint flag width 16 (u32 v))
  else if c =? 112 (* p *) then word (λ v, print_uint (Z.lor flag FLAG_ZEROPAD) 8 16 (u32 v))
  else if c =? 117 (* u *) then word (λ v, print_uint flag width 10 (u32 v))
  else if c =? 99 (* c *) then word (λ v, [u8 v])
  else if c =? 115 (* s *) then
    match args with AStr s :: args => Some (Some (print_str width s, args)) | _ => Some None end
  else if c =? ch_percent then Some (Some ([ch_percent], args))
  else None.

(** Where the scan of the format is: plain text, right after a '%' or a flag,
    or inside a width. flag and width survive into plain text. *)
Inductive mode : Type := Text | Spec | Width.

(** [None]: undefined behaviour (a missing or ill-typed argument, or a format
    that ends inside a conversion, which is read past its end). *)
Fixpoint vformat (size : Z) (fmt : list Z) (md : mode) (flag width : Z) (args : list arg) (s : sink) : option sink :=
  match s with
  | Full _ => Some s (* returned *)
  | Run _ =>
      match fmt with
      | [] => match md with Text => Some (set_ch size ch_nul s) | _ => None end
      | c :: fmt =>
          match md with
          | Text =>
              if c =? ch_percent then vformat size fmt Spec flag width args s
              else vformat size fmt Text flag width args (set_ch size c s)
          | _ =>
              let in_width := match md with Width => true | _ => false end in
              if is_digit c && (in_width || negb (c =? ch_0))
              then vformat size fmt Width flag (width * 10 + (c - ch_0)) args s
              else if c =? ch_0 then vformat size fmt Spec (Z.lor flag FLAG_ZEROPAD) width args s
              else match convert c flag width args with
                   | Some (Some (out, args)) => vformat size fmt Text 0 0 args (set_chs size out s)
                   | Some None => None
                   | None => vformat size fmt Text flag width args (set_ch size c (set_ch size ch_percent s))
                   end
          end
      end
  end.

(** The return value and the bytes written to the buffer. *)
Definition vsnprintf (size : Z) (fmt : list Z) (args : list arg) : option (Z * list Z) :=
  match vformat size fmt Text 0 0 args (Run []) with
  | None => None
  | Some (Full o) => Some (size, o)
  | Some (Run o) => Some (Z.of_nat (length o) - 1, o)
  end.

(** * Properties *)

(** ** Bounds *)

Definition sink_ok (size : Z) (s : sink) : Prop :=
  match s with
  | Run o => Z.of_nat (length o) < size
  | Full o => Z.of_nat (length o) = size ∧ last o = Some ch_nul
  end.

Lemma set_ch_ok size ch s : 0 < size → sink_ok size s → sink_ok size (set_ch size ch s).
Proof.
  intros Hs. destruct s as [o|o]; simpl; [|done]. intros Ho.
  rewrite length_app. simpl. destruct (Z.eqb_spec (Z.of_nat (length o + 1)) size) as [E|E]; simpl.
  - rewrite length_app, length_take, length_app. simpl. split; [lia|]. by rewrite last_snoc.
  - rewrite length_app. simpl. lia.
Qed.

Lemma set_chs_ok size l s : 0 < size → sink_ok size s → sink_ok size (set_chs size l s).
Proof. intros Hs. revert s. induction l as [|c l IH]; simpl; auto using set_ch_ok. Qed.

#[export] Hint Resolve set_ch_ok set_chs_ok : aim.

(** A finished run ends with the terminator. *)
Definition finished (size : Z) (s : sink) : Prop :=
  match s with
  | Run o => Z.of_nat (length o) < size ∧ last o = Some ch_nul
  | Full o => Z.of_nat (length o) = size ∧ last o = Some ch_nul
  end.

Lemma set_nul_finished size s : 0 < size → sink_ok size s → finished size (set_ch size ch_nul s).
Proof.
  intros Hs Hok. pose proof (set_ch_ok size ch_nul s Hs Hok) as Hok'. destruct s as [o|o]; [|done].
  simpl in *. destruct (_ =? size); [done|]. simpl in *. split; [lia|]. by rewrite last_snoc.
Qed.

Lemma vformat_finished size fmt md flag width args s s' :
  0 < size → sink_ok size s → vformat size fmt md flag width args s = Some s' → finished size s'.
Proof.
  intros Hs. revert md flag width args s. induction fmt as [|c fmt IH]; intros md flag width args s Hok; simpl.
  - destruct s as [o|o]; [|by intros [= <-]]. destruct md; [|done..].
    intros [= <-]. by apply (set_nul_finished size (Run o)).
  - destruct s as [o|o]; [|by intros [= <-]].
    destruct md; repeat case_match; try done; eauto 6 with aim.
Qed.

(** ** Formats and their arguments *)

(** The arguments a conversion character leaves over, if they fit it. *)
Definition args_after (c : Z) (args : list arg) : option (list arg) :=
  match convert c 0 0 args with
  | Some (Some (_, args)) => Some args
  | Some None => None
  | None => Some args
  end.

(** Every conversion of the format finds an argument of its kind, and the
    format does not end inside a conversion. *)
Fixpoint well_typed (fmt : list Z) (md : mode) (args : list arg) : bool :=
  match fmt with
  | [] => match md with Text => true | _ => false end
  | c :: fmt =>
      match md with
      | Text => well_typed fmt (if c =? ch_percent then Spec else Text) args
      | _ =>
          let in_width := match md with Width => true | _ => false end in
          if is_digit c && (in_width || negb (c =? ch_0)) then well_typed fmt Width args
          else if c =? ch_0 then well_typed fmt Spec args
          else match args_after c args with Some args => well_typed fmt Text args | None => false end
      end
  end.

Lemma convert_args c flag width args :
  match convert c flag width args with
  | Some (Some (_, rest)) => args_after c args = Some rest
  | Some None => args_after c args = None
  | None => args_after c args = Some args
  end.
Proof.
  unfold args_after, convert. repeat case_match; simplify_eq/=; done.
Qed.

Lemma vformat_total size fmt md flag width args s :
  well_typed fmt md args = true → is_Some (vformat size fmt md flag width args s).
Proof.
  revert md flag width args s. induction fmt as [|c fmt IH]; intros md flag width args s Hw; simpl in *.
  - destruct s; [|done]. by destruct md.
  - destruct s as [o|o]; [|done].
    assert (Hconv : ∀ s', (match args_after c args with Some args => well_typed fmt Text args | None => false end) = true →
      is_Some (match convert c flag width args with
               | Some (Some (out, args)) => vformat size fmt Text 0 0 args (set_chs size out s')
               | Some None => None
               | None => vformat size fmt Text flag width args (set_ch size c (set_ch size ch_percent s'))
               end)).
    { intros s' Ha. pose proof (convert_args c flag width args) as Hc.
      destruct (convert c flag width args) as [[[out rest]|]|]; rewrite Hc in Ha; [by apply IH|done|by apply IH]. }
    destruct md; [destruct (c =? ch_percent); by apply IH|..].
    all: destruct (is_digit c && _); [by apply IH|]. all: destruct (c =? ch_0); [by apply IH|by apply Hconv].
Qed.

Lemma vsnprintf_ok size fmt args ret buf :
  0 < size → vsnprintf size fmt args = Some (ret, buf) →
  Z.of_nat (length buf) ≤ size ∧ last buf = Some ch_nul ∧ 0 ≤ ret ≤ size.
Proof.
  intros Hs. unfold vsnprintf.
  destruct (vformat size fmt Text 0 0 args (Run [])) as [s|] eqn:E; [|done].
  apply vformat_finished in E; [|done|simpl; lia].
  destruct s as [o|o]; simpl in E; destruct E as [El E]; intros [= <- <-]; (split; [lia|]); (split; [done|]); [|lia].
  destruct o; [done|]. simpl in *. lia.
Qed.

(** ** What is written is bytes *)

Definition is_byte (c : Z) : Prop := 0 ≤ c < 256.
Definition arg_bytes (a : arg) : Prop :=
  match a with AStr (Some str) => Forall is_byte str | _ => True end.
Definition sink_bytes (s : sink) : Prop :=
  match s with Run o | Full o => Forall is_byte o end.

Lemma set_ch_bytes size ch s : is_byte ch → sink_bytes s → sink_bytes (set_ch size ch s).
Proof.
  intros Hc. destruct s as [o|o]; simpl; [|done]. intros Ho.
  assert (Forall is_byte (o ++ [ch])) as Ho' by (apply Forall_app; auto).
  destruct (_ =? size); simpl; [|done]. apply Forall_app. split; [by apply Forall_take|].
  constructor; [by vm_compute|constructor].
Qed.

Lemma set_chs_bytes size l s : Forall is_byte l → sink_bytes s → sink_bytes (set_chs size l s).
Proof. intros Hl. revert s. induction Hl as [|c l Hc _ IH]; simpl; auto using set_ch_bytes. Qed.

#[export] Hint Resolve set_ch_bytes set_chs_bytes : aim.

Lemma print_buf_bytes base uval : 2 ≤ base ≤ 16 → Forall is_byte (print_buf base uval).
Proof.
  intros Hb. assert (∀ n u, Forall is_byte (uint_buf n base u)) as Hu.
  { intros n. induction n as [|n IH]; intros u; simpl; [constructor|]. destruct (u >? 0); [|constructor].
    constructor; [|apply IH]. pose proof (Z.mod_pos_bound u base ltac:(lia)).
    unfold digits, is_byte, ch_0. destruct (Z.leb_spec (u mod base) 9); lia. }
  unfold print_buf. specialize (Hu 32%nat uval). destruct (uint_buf 32 base uval); [|done].
  constructor; [by vm_compute|constructor].
Qed.

Lemma padded_bytes w pad buf : is_byte pad → Forall is_byte buf → Forall is_byte (padded w pad buf).
Proof.
  intros Hp Hb. induction w as [|w IH]; simpl; constructor; [|done].
  destruct (buf !! w) as [b|] eqn:E; simpl; [|done]. exact (Forall_lookup_1 _ _ _ _ Hb E).
Qed.

Lemma print_uint_bytes flag width base uval : 2 ≤ base ≤ 16 → Forall is_byte (print_uint flag width base uval).
Proof.
  intros Hb. pose proof (print_buf_bytes base uval Hb) as Hbuf. unfold print_uint.
  assert (∀ b : bool, Forall is_byte (if b then [ch_minus] else [])) as Hneg
    by (intros []; [constructor; [by vm_compute|constructor]|constructor]).
  destruct (width =? 0); [apply Forall_app; split; [apply Hneg|by apply Forall_rev]|].
  destruct (_ && _); [apply Forall_app; split; [apply Hneg|by apply padded_bytes]|].
  destruct (width >? 0); [|constructor]. apply padded_bytes; [by vm_compute|].
  destruct (negb _); [|done]. apply Forall_app. split; [done|]. apply (Hneg true).
Qed.

Lemma convert_bytes c flag width args out rest :
  Forall arg_bytes args → convert c flag width args = Some (Some (out, rest)) →
  Forall is_byte out ∧ Forall arg_bytes rest.
Proof.
  intros Ha. assert (∀ v, is_byte (u8 v)) as Hu by (intros v; apply Z.mod_pos_bound; lia).
  assert (∀ a args' (out : list Z), args = a :: args' → Forall is_byte out → Forall is_byte out ∧ Forall arg_bytes args') as Hw.
  { intros a args' o -> Ho. by apply Forall_cons in Ha as [_ Ha]. }
  assert (∀ b, is_byte b → Forall is_byte [b]) as H1 by (intros b Hb; constructor; [exact Hb|constructor]).
  unfold convert. repeat case_match; intros; simplify_eq/=;
    try (eapply Hw; [reflexivity|apply print_uint_bytes; lia]); try (eapply Hw; [reflexivity|apply H1, Hu]).
  - eapply Hw; [reflexivity|]. apply Forall_cons in Ha as [Hs _]. unfold print_str.
    apply Forall_app. split; [|apply Forall_replicate; by vm_compute].
    match goal with |- Forall _ (match ?o with _ => _ end) => destruct o end; [done|].
    apply (bool_decide_unpack (Forall (λ c, (0 ≤ c < 256)) (bytes "(null)"))). by vm_compute.
  - split; [apply H1; by vm_compute|done].
Qed.

Lemma vformat_bytes size fmt md flag width args s s' :
  Forall is_byte fmt → Forall arg_bytes args → sink_bytes s →
  vformat size fmt md flag width args s = Some s' → sink_bytes s'.
Proof.
  intros Hf. revert md flag width args s. induction Hf as [|c fmt Hc _ IH]; intros md flag width args s Ha Hs; simpl.
  - destruct s as [o|o]; [|by intros [= <-]]. destruct md; [|done..]. intros [= <-].
    by apply (set_ch_bytes size ch_nul (Run o)).
  - destruct s as [o|o]; [|by intros [= <-]].
    assert (is_byte ch_percent) as Hp by by vm_compute.
    assert (Hch : ∀ ch, is_byte ch → sink_bytes (set_ch size ch (Run o))) by (intros ch Hch; by apply set_ch_bytes).
    assert (Hconv : (match convert c flag width args with
               | Some (Some (out, args)) => vformat size fmt Text 0 0 args (set_chs size out (Run o))
               | Some None => None
               | None => vformat size fmt Text flag width args (set_ch size c (set_ch size ch_percent (Run o)))
               end) = Some s' → sink_bytes s').
    { destruct (convert c flag width args) as [[[out rest]|]|] eqn:E; [|done|].
      - apply convert_bytes in E as [Ho Hr]; [|done]. apply IH; [done|by apply set_chs_bytes].
      - apply IH; [done|]. apply set_ch_bytes; [done|by apply Hch]. }
    destruct md.
    + destruct (c =? ch_percent); (apply IH; [done|]); [done|by apply Hch].
    + destruct (is_digit c && _); [by apply IH|]. destruct (c =? ch_0); [by apply IH|exact Hconv].
    + destruct (is_digit c && _); [by apply IH|]. destruct (c =? ch_0); [by apply IH|exact Hconv].
Qed.

Lemma vsnprintf_bytes size fmt args ret buf :
  Forall is_byte fmt → Forall arg_bytes args → vsnprintf size fmt args = Some (ret, buf) → Forall is_byte buf.
Proof.
  intros Hf Ha. unfold vsnprintf. destruct (vformat _ _ _ _ _ _ _) as [s|] eqn:E; [|done].
  apply vformat_bytes in E; [|done|done|constructor]. destruct s; intros [= <- <-]; done.
Qed.

(** C32: for a non-zero size and a format whose conversions match the
    arguments, vsnprintf() returns, never writes more than size bytes, ends what it
    wrote in a NUL, and returns at most size. *)
Theorem vsnprintf_bounded size fmt args :
  0 < size → well_typed fmt Text args = true →
  ∃ ret buf, vsnprintf size fmt args = Some (ret, buf) ∧
    Z.of_nat (length buf) ≤ size ∧ last buf = Some ch_nul ∧ 0 ≤ ret ≤ size.
Proof.
  intros Hs Hw. destruct (vformat_total size fmt Text 0 0 args (Run []) Hw) as [s E].
  assert (∃ ret buf, vsnprintf size fmt args = Some (ret, buf)) as (ret & buf & Ev).
  { unfold vsnprintf. rewrite E. destruct s; eauto. }
  exists ret, buf. split; [done|]. by eapply vsnprintf_ok.
Qed.

Lemma vsnprintf_bounded_witness :
  ∃ ret buf, vsnprintf 8 (bytes "0x%08x!") [AWord 255] = Some (ret, buf) ∧
    Z.of_nat (length buf) ≤ 8 ∧ last buf = Some ch_nul ∧ 0 ≤ ret ≤ 8.
Proof. apply (vsnprintf_bounded 8 (bytes "0x%08x!") [AWord 255]); [lia|reflexivity]. Defined.

(** ** Numbers *)

(** The value a digit character stands for, and of a buffer, least significant first. *)
Definition digit_val (c : Z) : Z := if c <=? ch_9 then c - ch_0 else c - 97 + 10.
Fixpoint buf_val (base : Z) (buf : list Z) : Z :=
  match buf with
  | [] => 0
  | c :: buf => digit_val c + base * buf_val base buf
  end.

Lemma digits_val x : 0 ≤ x < 36 → digit_val (digits x) = x.
Proof.
  intros Hx. unfold digit_val, digits, ch_9, ch_0.
  destruct (Z.leb_spec x 9).
  - destruct (Z.leb_spec (48 + x) 57); lia.
  - destruct (Z.leb_spec (97 + x - 10) 57); lia.
Qed.

Lemma uint_buf_val n base u :
  2 ≤ base ≤ 16 → 0 ≤ u < 2 ^ Z.of_nat n → buf_val base (uint_buf n base u) = u.
Proof.
  intros Hb. revert u. induction n as [|n IH]; intros u Hu; simpl; [simpl in Hu; lia|].
  destruct (Z.gtb_spec u 0); simpl; [|lia].
  rewrite digits_val by (pose proof (Z.mod_pos_bound u base); lia).
  rewrite IH.
  - pose proof (Z.div_mod u base). lia.
  - rewrite Nat2Z.inj_succ, Z.pow_succ_r in Hu by lia. split; [apply Z.div_pos; lia|].
    apply Z.div_lt_upper_bound; [lia|]. nia.
Qed.

(** C33: the digits print_uint puts out for an unsigned number without a
    width, read back most significant first, give the number again, in every base
    vsnprintf() uses. *)
Theorem print_uint_roundtrip base u :
  base = 8 ∨ base = 10 ∨ base = 16 → 0 ≤ u < 2 ^ 32 →
  buf_val base (rev (print_uint 0 0 base u)) = u.
Proof.
  intros Hb Hu. unfold print_uint. simpl. rewrite rev_involutive. unfold print_buf.
  pose proof (uint_buf_val 32 base u ltac:(lia) Hu) as Hv.
  revert Hv. generalize (uint_buf 32 base u). intros [|c l] Hv; [|exact Hv].
  rewrite <-Hv. cbn [buf_val]. change (digit_val ch_0) with 0. lia.
Qed.

Lemma print_uint_roundtrip_witness : buf_val 10 (rev (print_uint 0 0 10 4096)) = 4096.
Proof. apply print_uint_roundtrip; [auto|lia]. Defined.

(** A width pads with zeros even without the 0 flag, and a width smaller than the number
    of digits drops the most significant ones: exactly [width] digit
    characters are put out whatever the number is. *)
Theorem width_truncates flag width base u :
  0 < width → Z.land flag FLAG_NEG = 0 →
  print_uint flag width base u = padded (Z.to_nat width) ch_0 (print_buf base u) ∧
  Z.of_nat (length (print_uint flag width base u)) = width.
Proof.
  intros Hw Hf.
  assert (print_uint flag width base u = padded (Z.to_nat width) ch_0 (print_buf base u)) as E.
  { unfold print_uint. rewrite (proj2 (Z.eqb_neq width 0)) by lia. rewrite Hf. simpl.
    destruct (Z.gtb_spec width 0); [|lia]. simpl.
    destruct (Z.eqb_spec (Z.lor flag FLAG_ZEROPAD) 0) as [E|E]; [|done].
    apply Z.lor_eq_0_iff in E as [_ E]. done. }
  split; [done|]. rewrite E.
  assert (∀ w l, length (padded w ch_0 l) = w) as Hl by (intros w; induction w; simpl; auto).
  rewrite Hl. lia.
Qed.

Lemma width_truncates_witness : print_uint 0 2 10 123 = bytes "23".
Proof. destruct (width_truncates 0 2 10 123) as [-> _]; [lia|done|by vm_compute]. Defined.
