(* ===== verification/Libc.v ===== *)
(** lib/libc: memcpy(), memset() and strcmp() on byte-addressed memory, for targets where
    long has 32 bits. *)
From Stdlib Require Import ZArith Lia.
From stdpp Require Import base numbers gmap list.
From S2P Require Import Prelude.

Open Scope Z_scope.

Abbreviation bmem := (gmap Z Z).

Definition lb (a : Z) : M bmem Z := λ m,
  match m !! a with Some v => Ret (v, m) | None => Stuck end.
Definition sb (a v : Z) : M bmem unit := λ m, Ret ((), <[a := v]> m).

(** ** memcpy() *)

(** sizeof(long) on the 32-bit targets. *)
Definition wsize : Z := 4.
Definition wmask : Z := wsize - 1.

(** TLOOP1( *dst++ = *src++ ), [t] times. *)
Fixpoint copy_bytes (t : nat) (dst src : Z) : M bmem unit :=
  match t with
  | O => mret ()
  | S t' => b ← lb src; _ ← sb dst b; copy_bytes t' (dst + 1) (src + 1)
  end.

(** One word: four bytes are read, then four are written. On MIPS and ARM an access
    to a word at an address that is not a multiple of its size traps. *)
Definition copy_word (dst src : Z) : M bmem unit :=
  if negb ((src mod wsize =? 0) && (dst mod wsize =? 0)) then stuck else
  b0 ← lb src; b1 ← lb (src + 1); b2 ← lb (src + 2); b3 ← lb (src + 3);
  _ ← sb dst b0; _ ← sb (dst + 1) b1; _ ← sb (dst + 2) b2; sb (dst + 3) b3.

Fixpoint copy_words (t : nat) (dst src : Z) : M bmem unit :=
  match t with
  | O => mret ()
  | S t' => _ ← copy_word dst src; copy_words t' (dst + wsize) (src + wsize)
  end.

Definition memcpy (dst0 src0 length : Z) : M bmem Z :=
  if (length =? 0) || (dst0 =? src0) then mret dst0 else
  (* how many bytes to copy before the word loop *)
  let t :=
    if negb (Z.land (Z.lor src0 dst0) wmask =? 0) then
      if negb (Z.land (Z.lxor src0 dst0) wmask =? 0) || (length <? wsize) then length
      else wsize - Z.land src0 wmask
    else 0 in
  _ ← copy_bytes (Z.to_nat t) dst0 src0;
  let dst := dst0 + t in
  let src := src0 + t in
  let length := length - t in
  (* copy whole words, then mop up any trailing bytes *)
  let w := length / wsize in
  _ ← copy_words (Z.to_nat w) dst src;
  _ ← copy_bytes (Z.to_nat (Z.land length wmask)) (dst + w * wsize) (src + w * wsize);
  mret dst0.

(** ** memset() *)

Fixpoint set_loop (n : nat) (d c : Z) : M bmem unit :=
  match n with
  | O => mret ()
  | S n' => _ ← sb d c; set_loop n' (d + 1) c
  end.

Definition memset (dst c n : Z) : M bmem Z :=
  _ ← set_loop (Z.to_nat n) dst (u8 c);
  mret dst.

(** ** strcmp() *)

(** [n] bounds the loop; bytes are unsigned. *)
Fixpoint strcmp_loop (n : nat) (s1 s2 : Z) : M bmem Z :=
  match n with
  | O => nofuel
  | S n' =>
      a ← lb s1; b ← lb s2;
      if a =? b then (if a =? 0 then mret 0 else strcmp_loop n' (s1 + 1) (s2 + 1))
      else mret (a - b)
  end.

Definition strcmp (s1 s2 : Z) : M bmem Z := λ m, strcmp_loop (S (size m)) s1 s2 m.

(** * Properties *)

(** The bytes [l] are at address [a]; memory with [l] written there. *)
Definition holds (m : bmem) (a : Z) (l : list Z) : Prop :=
  ∀ i v, l !! i = Some v → m !! (a + Z.of_nat i) = Some v.
Fixpoint blit (m : bmem) (a : Z) (l : list Z) : bmem :=
  match l with
  | [] => m
  | v :: l => blit (<[a := v]> m) (a + 1) l
  end.

Lemma blit_app m a l1 l2 : blit m a (l1 ++ l2) = blit (blit m a l1) (a + Z.of_nat (length l1)) l2.
Proof.
  revert m a. induction l1 as [|v l1 IH]; intros m a; simpl; [by rewrite Z.add_0_r|].
  rewrite IH. f_equal. lia.
Qed.

Lemma blit_other m a l x :
  ¬ (a ≤ x < a + Z.of_nat (length l)) → blit m a l !! x = m !! x.
Proof.
  revert m a. induction l as [|v l IH]; intros m a Hx; simpl in *; [done|].
  rewrite IH by lia. rewrite lookup_insert_ne by lia. done.
Qed.

Lemma blit_holds m a l : holds (blit m a l) a l.
Proof.
  revert m a. induction l as [|v l IH]; intros m a i w; [done|]. simpl.
  destruct i as [|i]; simpl; intros H.
  - simplify_eq. rewrite blit_other by lia. rewrite Z.add_0_r. apply lookup_insert_eq.
  - replace (a + Z.of_nat (S i)) with (a + 1 + Z.of_nat i) by lia. by apply IH.
Qed.

Lemma holds_app m a l1 l2 :
  holds m a (l1 ++ l2) ↔ holds m a l1 ∧ holds m (a + Z.of_nat (length l1)) l2.
Proof.
  unfold holds. split.
  - intros H. split; intros i v Hi.
    + apply H. by apply lookup_app_l_Some.
    + replace (a + Z.of_nat (length l1) + Z.of_nat i) with (a + Z.of_nat (length l1 + i)) by lia.
      apply H. rewrite lookup_app_r by lia. by replace (length l1 + i - length l1)%nat with i by lia.
  - intros [H1 H2] i v Hi. apply lookup_app_Some in Hi as [Hi|[Hl Hi]]; [by apply H1|].
    replace (a + Z.of_nat i) with (a + Z.of_nat (length l1) + Z.of_nat (i - length l1)) by lia. by apply H2.
Qed.

Lemma holds_blit m a l b k :
  holds m a l → (b + Z.of_nat (length k) ≤ a ∨ a + Z.of_nat (length l) ≤ b) → holds (blit m b k) a l.
Proof.
  intros H Hd i v Hi. rewrite blit_other; [by apply H|].
  apply lookup_lt_Some in Hi. lia.
Qed.

(** Source and destination do not overlap. *)
Definition apart (dst src len : Z) : Prop := dst + len ≤ src ∨ src + len ≤ dst.

Lemma copy_bytes_run m dst src l :
  holds m src l → apart dst src (Z.of_nat (length l)) →
  copy_bytes (length l) dst src m = Ret ((), blit m dst l).
Proof.
  revert m dst src. induction l as [|v l IH]; intros m dst src Hh Ha; simpl; [done|].
  unfold apart in Ha. simpl in Ha.
  assert (m !! src = Some v) as Hv by (rewrite <-(Z.add_0_r src); by apply (Hh 0%nat)).
  erewrite bind_ret by (unfold lb; rewrite Hv; done). erewrite bind_ret by done.
  apply IH; [|unfold apart; lia].
  intros i w Hi. assert (Hlt := lookup_lt_Some _ _ _ Hi). rewrite lookup_insert_ne by lia.
  replace (src + 1 + Z.of_nat i) with (src + Z.of_nat (S i)) by lia. by apply Hh.
Qed.

Lemma copy_word_run m dst src l :
  src mod 4 = 0 → dst mod 4 = 0 → length l = 4%nat → holds m src l →
  copy_word dst src m = Ret ((), blit m dst l).
Proof.
  intros Es Ed Hl Hh. unfold copy_word, wsize. rewrite Es, Ed. cbn [Z.eqb andb negb]. destruct l as [|b0 [|b1 [|b2 [|b3 [|]]]]]; simplify_eq/=.
  assert (m !! src = Some b0) as H0 by (rewrite <-(Z.add_0_r src); by apply (Hh 0%nat)).
  pose proof (Hh 1%nat b1 eq_refl) as H1. pose proof (Hh 2%nat b2 eq_refl) as H2. pose proof (Hh 3%nat b3 eq_refl) as H3.
  change (Z.of_nat 1) with 1 in H1. change (Z.of_nat 2) with 2 in H2. change (Z.of_nat 3) with 3 in H3.
  unfold mbind, M_bind, lb, sb. rewrite H0, H1, H2, H3.
  replace (dst + 2) with (dst + 1 + 1) by lia. by replace (dst + 3) with (dst + 1 + 1 + 1) by lia.
Qed.

Lemma copy_words_run t m dst src l :
  (t = 0%nat ∨ src mod 4 = 0 ∧ dst mod 4 = 0) →
  length l = (4 * t)%nat → holds m src l → apart dst src (Z.of_nat (length l)) →
  copy_words t dst src m = Ret ((), blit m dst l).
Proof.
  revert m dst src l. induction t as [|t IH]; intros m dst src l Hal Hl Hh Ha.
  - destruct l; [done|simpl in Hl; lia].
  - rewrite <-(take_drop 4 l) in Hh, Ha |- *. set (l1 := take 4 l) in *. set (l2 := drop 4 l) in *.
    assert (length l1 = 4%nat) as Hl1 by (unfold l1; rewrite length_take; lia).
    assert (length l2 = (4 * t)%nat) as Hl2 by (unfold l2; rewrite length_drop; lia).
    clearbody l1 l2. apply holds_app in Hh as [H1 H2]. unfold apart in Ha. rewrite length_app in Ha.
    destruct Hal as [?|[Es Ed]]; [done|].
    simpl. erewrite bind_ret by by apply copy_word_run. rewrite blit_app, Hl1 in *. unfold wsize.
    apply IH; [right; split; Z.div_mod_to_equations; lia|done| |unfold apart; lia]. apply holds_blit; [done|]. lia.
Qed.

(** The split of the length into head bytes, words and tail bytes. *)
Lemma memcpy_pieces len t :
  0 < len → 0 ≤ t ≤ len →
  ∃ w r : nat, Z.to_nat ((len - t) / wsize) = w ∧ Z.to_nat (Z.land (len - t) wmask) = r ∧
    len = t + 4 * Z.of_nat w + Z.of_nat r ∧ (len - t) / wsize = Z.of_nat w.
Proof.
  intros Hl Ht. unfold wmask, wsize. change (4 - 1) with (Z.ones 2). rewrite Z.land_ones by lia.
  change (2 ^ 2) with 4. do 2 eexists. split; [reflexivity|]. split; [reflexivity|].
  Z.div_mod_to_equations. lia.
Qed.

Lemma land_wmask x : Z.land x wmask = x mod 4.
Proof. unfold wmask, wsize. change (4 - 1) with (Z.ones 2). by rewrite Z.land_ones by lia. Qed.

(** How many bytes go before the word loop: as many as bring both pointers to
    a word, or all of them when that cannot be. *)
Lemma memcpy_head dst src len :
  0 < len →
  let t := if negb (Z.land (Z.lor src dst) wmask =? 0) then
             if negb (Z.land (Z.lxor src dst) wmask =? 0) || (len <? wsize) then len else wsize - Z.land src wmask
           else 0 in
  0 ≤ t ≤ len ∧ (t = len ∨ (src + t) mod 4 = 0 ∧ (dst + t) mod 4 = 0).
Proof.
  intros Hl. cbv zeta. rewrite (land_wmask src).
  assert (Hor : Z.land (Z.lor src dst) wmask = Z.lor (src mod 4) (dst mod 4))
    by (by rewrite Z.land_lor_distr_l, !land_wmask).
  assert (Hxor : Z.land (Z.lxor src dst) wmask = Z.lxor (src mod 4) (dst mod 4)).
  { rewrite <-!land_wmask. apply Z.bits_inj'. intros i _. rewrite !Z.lxor_spec, !Z.land_spec, Z.lxor_spec.
    by destruct (Z.testbit src i), (Z.testbit dst i), (Z.testbit wmask i). }
  rewrite Hor, Hxor. clear Hor Hxor. unfold wsize.
  destruct (Z.eqb_spec (Z.lor (src mod 4) (dst mod 4)) 0) as [E|E]; cbn [negb].
  - apply Z.lor_eq_0_iff in E as [E1 E2]. split; [lia|]. right. by rewrite !Z.add_0_r.
  - destruct (Z.eqb_spec (Z.lxor (src mod 4) (dst mod 4)) 0) as [E1|E1]; cbn [negb orb]; [|split; [lia|by left]].
    destruct (Z.ltb_spec len 4); [split; [lia|by left]|]. apply Z.lxor_eq in E1.
    split; [|right; split]; Z.div_mod_to_equations; lia.
Qed.

Lemma memcpy_run m dst src l :
  holds m src l → apart dst src (Z.of_nat (length l)) → 0 ≤ src →
  memcpy dst src (Z.of_nat (length l)) m = Ret (dst, blit m dst l).
Proof.
  intros Hh Ha Hs. unfold memcpy. destruct (Z.eqb_spec (Z.of_nat (length l)) 0) as [E|E]; simpl.
  { destruct l; [done|simpl in E; lia]. }
  destruct (Z.eqb_spec dst src) as [->|Hne]; simpl.
  { unfold apart in Ha. lia. }
  set (t := if negb (Z.land (Z.lor src dst) wmask =? 0) then _ else 0).
  destruct (memcpy_head dst src (Z.of_nat (length l)) ltac:(lia)) as [Ht Hal]. fold t in Ht, Hal.
  clearbody t. destruct (memcpy_pieces (Z.of_nat (length l)) t) as (w & r & -> & -> & Elen & ->); [lia|done|].
  rewrite <-(take_drop (Z.to_nat t) l) in Hh |- *. set (l0 := take (Z.to_nat t) l) in *.
  assert (length l0 = Z.to_nat t) as Hl0 by (unfold l0; rewrite length_take; lia).
  rewrite <-(take_drop (4 * w) (drop (Z.to_nat t) l)) in Hh |- *.
  set (l1 := take (4 * w) (drop (Z.to_nat t) l)) in *. set (l2 := drop (4 * w) _) in *.
  assert (length l1 = (4 * w)%nat) as Hl1 by (unfold l1; rewrite length_take, length_drop; lia).
  assert (length l2 = r) as Hl2 by (unfold l2; rewrite !length_drop; lia).
  clearbody l0 l1 l2. unfold apart in Ha. apply holds_app in Hh as [H0 Hh]. apply holds_app in Hh as [H1 H2].
  rewrite Hl0 in H1, H2. rewrite Hl1 in H2. rewrite Z2Nat.id in H1, H2 by lia.
  rewrite !blit_app, Hl0, Hl1, Z2Nat.id by lia.
  erewrite bind_ret by (rewrite <-Hl0; apply copy_bytes_run; [done|unfold apart; lia]).
  erewrite bind_ret by (apply copy_words_run; [destruct Hal as [->|Hal]; [left; lia|by right]|exact Hl1|apply holds_blit; [done|lia]|unfold apart; lia]).
  unfold wsize. replace (Z.of_nat w * 4) with (Z.of_nat (4 * w)) by lia.
  erewrite bind_ret; [reflexivity|]. rewrite <-Hl2. apply copy_bytes_run; [|unfold apart; lia].
  do 2 (apply holds_blit; [|lia]). done.
Qed.

(** C34: memcpy() with its head bytes, word loop and tail bytes does what a byte
    loop would: for ranges that do not overlap, of whatever length and
    alignment, the destination holds the source's bytes afterwards, nothing
    else changes, and dst is returned; no word is accessed at an address that is
    not a multiple of four. *)
Theorem memcpy_correct m dst src l :
  holds m src l → apart dst src (Z.of_nat (length l)) → 0 ≤ src →
  ∃ m', memcpy dst src (Z.of_nat (length l)) m = Ret (dst, m') ∧ holds m' dst l ∧ holds m' src l ∧
    (∀ x, ¬ (dst ≤ x < dst + Z.of_nat (length l)) → m' !! x = m !! x).
Proof.
  intros Hh Ha Hs. eexists. split; [by apply memcpy_run|]. split; [apply blit_holds|].
  split; [|intros x Hx; by apply blit_other]. apply holds_blit; [done|]. unfold apart in Ha. lia.
Qed.

Lemma memcpy_correct_witness :
  ∃ m', memcpy 101 13 6 (blit ∅ 13 [1; 2; 3; 4; 5; 6]) = Ret (101, m') ∧ holds m' 101 [1; 2; 3; 4; 5; 6].
Proof.
  destruct (memcpy_correct (blit ∅ 13 [1; 2; 3; 4; 5; 6]) 101 13 [1; 2; 3; 4; 5; 6]) as (m' & E & H & _);
    [apply blit_holds|right; simpl; lia|lia|]. by exists m'.
Defined.

Lemma set_loop_run m n d c : set_loop n d c m = Ret ((), blit m d (replicate n c)).
Proof. revert m d. induction n as [|n IH]; intros m d; simpl; [done|]. erewrite bind_ret by done. apply IH. Qed.

(** Memset() fills exactly the given range with the low byte of its
    argument and returns the pointer; a zero length changes nothing. *)
Theorem memset_correct m d c n :
  ∃ m', memset d c n m = Ret (d, m') ∧ holds m' d (replicate (Z.to_nat n) (u8 c)) ∧
    (∀ x, ¬ (d ≤ x < d + n) → m' !! x = m !! x).
Proof.
  eexists. unfold memset. erewrite bind_ret by apply set_loop_run. split; [reflexivity|].
  split; [apply blit_holds|]. intros x Hx. apply blit_other. rewrite length_replicate. lia.
Qed.

(** ** strcmp() as the lexicographic order *)

(** A NUL-terminated string of bytes at an address. *)
Definition cstring (m : bmem) (a : Z) (s : list Z) : Prop :=
  holds m a (s ++ [0]) ∧ Forall (λ c, 0 < c < 256) s.

Fixpoint lex (s t : list Z) : comparison :=
  match s, t with
  | [], [] => Eq
  | [], _ :: _ => Lt
  | _ :: _, [] => Gt
  | a :: s, b :: t => match a ?= b with Eq => lex s t | c => c end
  end.

Lemma cstring_head m a s : cstring m a s → m !! a = Some (hd 0 s).
Proof. intros [H _]. rewrite <-(Z.add_0_r a). apply (H 0%nat). by destruct s. Qed.

Lemma cstring_tail m a c s : cstring m a (c :: s) → cstring m (a + 1) s ∧ 0 < c.
Proof.
  intros [H Hc]. apply Forall_cons in Hc as [? Hc]. split; [|lia]. split; [|done].
  intros i v Hi. replace (a + 1 + Z.of_nat i) with (a + Z.of_nat (S i)) by lia. by apply H.
Qed.

Lemma strcmp_loop_run m n a b s t :
  cstring m a s → cstring m b t → (length s < n)%nat →
  ∃ r, strcmp_loop n a b m = Ret (r, m) ∧ (r ?= 0) = lex s t.
Proof.
  revert n a b t. induction s as [|c s IH]; intros n a b t Hs Ht Hn.
  all: destruct n as [|n]; [simpl in Hn; lia|]; simpl.
  all: erewrite bind_ret by (unfold lb; rewrite (cstring_head _ _ _ Hs); done).
  all: erewrite bind_ret by (unfold lb; rewrite (cstring_head _ _ _ Ht); done); simpl.
  - destruct t as [|d t]; simpl; [by eexists|]. apply cstring_tail in Ht as [_ Hd].
    destruct d as [|p|p]; [lia| |lia]. eexists. split; [done|]. done.
  - apply cstring_tail in Hs as [Hs Hc]. destruct t as [|d t]; simpl.
    + destruct (Z.eqb_spec c 0); [lia|]. eexists. split; [done|]. by apply Z.compare_gt_iff; lia.
    + apply cstring_tail in Ht as [Ht Hd]. destruct (Z.eqb_spec c d) as [->|Hne].
      * destruct (Z.eqb_spec d 0); [lia|]. rewrite Z.compare_refl. apply IH; [done..|simpl in Hn; lia].
      * eexists. split; [done|]. destruct (Z.compare_spec c d); [lia|apply Z.compare_lt_iff; lia|apply Z.compare_gt_iff; lia].
Qed.

Lemma holds_size m a l : holds m a l → (length l ≤ size m)%nat.
Proof.
  intros H. assert (Hsub : list_to_set ((λ i, a + Z.of_nat i) <$> seq 0 (length l)) ⊆ dom m).
  { intros x Hx. apply elem_of_list_to_set, list_elem_of_fmap in Hx as (i & -> & Hi).
    apply elem_of_seq in Hi. destruct (lookup_lt_is_Some_2 l i) as [v Hv]; [lia|].
    apply elem_of_dom. eexists. by apply H. }
  apply subseteq_size in Hsub. rewrite size_dom, size_list_to_set, length_fmap, length_seq in Hsub; [lia|].
  apply NoDup_fmap_2_strong; [|apply NoDup_seq]. intros x y _ _. lia.
Qed.

(** Strcmp() of two NUL-terminated strings returns, without running past
    either terminator, a number whose sign is their lexicographic order: zero
    exactly for equal strings. *)
Theorem strcmp_correct m a b s t :
  cstring m a s → cstring m b t →
  ∃ r, strcmp a b m = Ret (r, m) ∧ (r ?= 0) = lex s t ∧ (r = 0 ↔ s = t).
Proof.
  intros Hs Ht. unfold strcmp.
  destruct (strcmp_loop_run m (S (size m)) a b s t Hs Ht) as (r & E & Hr).
  { pose proof (holds_size m a (s ++ [0]) (proj1 Hs)). rewrite length_app in *. simpl in *. lia. }
  exists r. split; [done|]. split; [done|].
  assert (lex s t = Eq ↔ s = t) as Hl.
  { clear. revert t. induction s as [|c s IH]; intros [|d t]; simpl; try done.
    destruct (Z.compare_spec c d) as [->|?|?]; [rewrite IH; naive_solver|split; [done|intros [= ? ?]; lia]..]. }
  rewrite <-Hl, <-Hr. symmetry. apply Z.compare_eq_iff.
Qed.

Lemma strcmp_correct_witness : ∃ r, strcmp 10 20 (blit (blit ∅ 10 [97; 98; 0]) 20 [97; 99; 0]) =
  Ret (r, blit (blit ∅ 10 [97; 98; 0]) 20 [97; 99; 0]) ∧ (r ?= 0) = Lt.
Proof.
  destruct (strcmp_correct (blit (blit ∅ 10 [97; 98; 0]) 20 [97; 99; 0]) 10 20 [97; 98] [97; 99]) as (r & E & H & _).
  - split; [apply holds_blit; [apply (blit_holds _ 10 [97; 98; 0])|simpl; lia]|].
    do 2 (apply Forall_cons; split; [lia|]). by apply Forall_nil.
  - split; [apply (blit_holds _ 20 [97; 99; 0])|]. do 2 (apply Forall_cons; split; [lia|]). by apply Forall_nil.
  - by exists r.
Defined.
