(* ===== verification/Devlist.v ===== *)
(** kern/dev/index: the device index. index.c dispatches through the
    registered struct device_index; devlist.c implements it with a list of
    entries sorted by device number, under a spinlock. *)
From Stdlib Require Import ZArith Lia.
From stdpp Require Import base numbers gmap list sorting.
From S2P Require Import Prelude DList Heap Vmm Libc.

Open Scope Z_scope.

(** struct device_index: four function pointers. *)
Record device_index : Type := mk_device_index {
  di_add : Z;
  di_remove : Z;
  di_from_id : Z;
  di_from_name : Z
}.

(** index.c *)
Module index.
(** The address of the static table. *)
Definition __index : Z := 48.

(** Dummy implementations. *)
Definition __add (dev : Z) : M mem Z := mret EOF.
Definition __remove (dev : Z) : M mem Z := mret EOF.
Definition __from_id (major minor : Z) : M mem Z := mret NULL.
Definition __from_name (name : Z) : M mem Z := mret NULL.

Definition set_device_index (i : device_index) : M mem unit :=
  _ ← store G_device_index __index (di_add i);
  _ ← store G_device_index (__index + 4) (di_remove i);
  _ ← store G_device_index (__index + 8) (di_from_id i);
  store G_device_index (__index + 12) (di_from_name i).

Section dispatch.
Context (call1 : Z → Z → M mem Z) (call2 : Z → Z → Z → M mem Z).

Definition dev_add (dev : Z) : M mem Z :=
  fp ← load G_device_index __index; call1 fp dev.
Definition dev_remove (dev : Z) : M mem Z :=
  fp ← load G_device_index (__index + 4); call1 fp dev.
Definition dev_from_id (major minor : Z) : M mem Z :=
  fp ← load G_device_index (__index + 8); call2 fp major minor.
Definition dev_from_name (name : Z) : M mem Z :=
  fp ← load G_device_index (__index + 12); call1 fp name.
End dispatch.
End index.

(** devlist.c *)
Module devlist.
(** struct device_entry: dev at 0, node at 4. *)
Definition off_node : Z := 4.
Definition sizeof_device_entry : Z := 12.

Definition __cmp (a b : Z) : M mem Z :=
  dev_a ← load F_dev a;
  dev_b ← load F_dev b;
  amaj ← load F_id_major dev_a;
  bmaj ← load F_id_major dev_b;
  if amaj >? bmaj then mret 1 else
  if amaj <? bmaj then mret (-1) else
  amin ← load F_id_minor dev_a;
  bmin ← load F_id_minor dev_b;
  if amin >? bmin then mret 1 else
  if amin <? bmin then mret (-1) else
  mret 0.

Section code.
Context (kmalloc : Z → Z → M mem Z) (kfree : Z → M mem unit).
(** The static list sentry and lock, and the text of device names. *)
Context (__head __lock : Z) (strs : bmem).
(** How often a taken lock is tried again. *)
Context (spins : nat).

Definition strcmp_at (a b : Z) : M mem Z := λ m,
  match strcmp a b strs with
  | Ret (r, _) => Ret (r, m)
  | Panic => Panic
  | Stuck => Stuck
  | NoFuel => NoFuel
  end.

Definition __add (dev : Z) : M mem Z :=
  this ← kmalloc sizeof_device_entry 0;
  if this =? NULL then mret EOF else
  _ ← store F_dev this dev;
  _ ← spin_lock spins __lock;
  tmp ← for_each_entry __head off_node (λ tmp, c ← __cmp tmp this; mret (c >? 0));
  _ ← list_add_before (this + off_node) (tmp + off_node);
  _ ← spin_unlock __lock;
  mret 0.

(** The scan of __remove(): [None] when a device is connected to [dev],
    otherwise the last entry of [dev], or NULL. *)
Fixpoint remove_scan (n : nat) (pos dev this : Z) : M mem (option Z) :=
  if pos =? __head then mret (Some this) else
  match n with
  | O => nofuel
  | S n' =>
      let tmp := list_entry pos off_node in
      tdev ← load F_dev tmp;
      bus ← load F_bus tdev;
      if bus =? dev then mret None else
      nx ← load F_next pos;
      remove_scan n' nx dev (if tdev =? dev then tmp else this)
  end.

Definition __remove (dev : Z) : M mem Z :=
  _ ← spin_lock spins __lock;
  first ← load F_next __head;
  found ← with_fuel (λ n, remove_scan n first dev NULL);
  retval ←
    match found with
    | None => mret EOF
    | Some this =>
        if negb (this =? NULL)
        then _ ← list_del (this + off_node); _ ← kfree this; mret 0
        else mret EOF
    end;
  _ ← spin_unlock __lock;
  mret retval.

(** What both searches do with the entry their loop stops at. *)
Definition dev_of (tmp : Z) : M mem Z :=
  if negb (tmp + off_node =? __head) then load F_dev tmp else mret NULL.

(** id_major and id_minor are ints, major and minor unsigned longs. *)
Definition __from_id (major minor : Z) : M mem Z :=
  _ ← spin_lock spins __lock;
  tmp ← for_each_entry __head off_node (λ tmp,
          d ← load F_dev tmp;
          maj ← load F_id_major d;
          if u32 maj =? major
          then min ← load F_id_minor d; mret (u32 min =? minor)
          else mret false);
  retval ← dev_of tmp;
  _ ← spin_unlock __lock;
  mret retval.

Definition __from_name (name : Z) : M mem Z :=
  _ ← spin_lock spins __lock;
  tmp ← for_each_entry __head off_node (λ tmp,
          d ← load F_dev tmp;
          nm ← load F_name d;
          c ← strcmp_at nm name;
          mret (c =? 0));
  retval ← dev_of tmp;
  _ ← spin_unlock __lock;
  mret retval.

(** __init() registers this file's functions, [fps]. *)
Definition __init (fps : device_index) : M mem Z :=
  _ ← index.set_device_index fps;
  mret 0.
End code.
End devlist.
