(* ===== verification/DevlistProps.v ===== *)
(** The device index as a sorted list: what adding, removing and looking up
    a device do to it. *)
From Stdlib Require Import ZArith Lia.
From stdpp Require Import base numbers gmap list sorting.
From S2P Require Import Prelude DList Heap Vmm Bootstrap Libc Devlist Scenario.

Open Scope Z_scope.

(** ** Registered devices and their order *)

(** An entry of the list and the device it is for. *)
Record entry : Type := mk_entry {
  e_addr : Z;
  e_dev : Z;
  e_major : Z;
  e_minor : Z;
  e_bus : Z
}.

(** Device numbers in lexicographic order. *)
Definition id_lt (a b : entry) : Prop :=
  e_major a < e_major b ∨ (e_major a = e_major b ∧ e_minor a < e_minor b).
Definition id_le (a b : entry) : Prop := ¬ id_lt b a.
Definition id_after (a b : entry) : bool :=
  (e_major b <? e_major a) || ((e_major b =? e_major a) && (e_minor b <? e_minor a)).

Lemma id_after_spec a b : id_after a b = true ↔ id_lt b a.
Proof. unfold id_after, id_lt. rewrite orb_true_iff, andb_true_iff, Z.eqb_eq, !Z.ltb_lt. done. Qed.

Lemma id_after_false a b : id_after a b = false ↔ id_le a b.
Proof. unfold id_le. rewrite <-id_after_spec. by destruct (id_after a b). Qed.

Lemma id_le_lt a b c : id_le a b → id_lt b c → id_lt a c.
Proof. unfold id_le, id_lt. lia. Qed.

Lemma id_lt_le a b : id_lt a b → id_le a b.
Proof. unfold id_le, id_lt. lia. Qed.

Abbreviation sorted := (StronglySorted id_le).

(** Where a new entry goes: before the first one with a greater number. *)
Lemma sorted_insert es1 es2 e :
  sorted (es1 ++ es2) → Forall (λ x, id_after x e = false) es1 →
  match es2 with [] => True | x :: _ => id_after x e = true end →
  sorted (es1 ++ e :: es2) ∧ Forall (λ x, id_lt e x) es2.
Proof.
  intros Hs H1 H2.
  assert (Forall (λ x, id_lt e x) es2) as H2'.
  { apply StronglySorted_app in Hs as (_ & _ & Hs). destruct es2 as [|x es2]; [done|].
    apply id_after_spec in H2. apply StronglySorted_inv in Hs as [_ Hx]. constructor; [done|].
    eapply Forall_impl; [exact Hx|]. intros y Hy. unfold id_le, id_lt in *. lia. }
  split; [|done]. apply StronglySorted_app in Hs as (H12 & Hs1 & Hs2).
  apply StronglySorted_app. split_and!; [|done|].
  - intros x y Hx [->|Hy]%elem_of_cons; [|by apply H12].
    rewrite Forall_forall in H1. by apply id_after_false, H1.
  - constructor; [done|]. eapply Forall_impl; [exact H2'|]. intros y. apply id_lt_le.
Qed.

Section props.
Context {kmalloc : Z → Z → M mem Z} {kfree : Z → M mem unit}.
Context {Hheap : HeapSpec kmalloc kfree}.
Context (__head __lock : Z) (strs : bmem) (spins : nat).
Hypothesis head_static : ∀ live, ¬ heap_owned live __head.
Hypothesis lock_static : ∀ live, ¬ heap_owned live __lock.
Hypothesis spins_pos : (0 < spins)%nat.

Local Abbreviation add := (devlist.__add kmalloc __head __lock spins).
Local Abbreviation remove := (devlist.__remove kfree __head __lock spins).
Local Abbreviation from_id := (devlist.__from_id __head __lock spins).

(** A device is a static object with its number and its bus filled in. *)
Definition dev_at (m : mem) (e : entry) : Prop :=
  m !! (F_id_major, e_dev e) = Some (e_major e) ∧
  m !! (F_id_minor, e_dev e) = Some (e_minor e) ∧
  m !! (F_bus, e_dev e) = Some (e_bus e) ∧
  (∀ live, ¬ heap_owned live (e_dev e)).

(** The entries [es] are in the list, each a heap object of its own. *)
Record rep (m : mem) (live : gmap Z Z) (es : list entry) : Prop := {
  rep_heap : heap_inv m live;
  rep_list : dlist m __head (nodes devlist.off_node (e_addr <$> es));
  rep_obj : Forall (λ e, live !! e_addr e = Some devlist.sizeof_device_entry) es;
  rep_dev : Forall (λ e, m !! (F_dev, e_addr e) = Some (e_dev e)) es;
  rep_ids : Forall (dev_at m) es;
}.

(** ** The lock *)

Lemma spin_lock_run m : m !! (F_c_lock, __lock) = Some UNLOCKED →
  spin_lock spins __lock m = Ret ((), <[(F_c_lock, __lock) := LOCKED]> m).
Proof using spins_pos.
  clear strs kmalloc kfree Hheap head_static lock_static.
  intros Hl. destruct spins as [|n]; [lia|]. simpl. unfold xchg, mbind, M_bind, load. by rewrite Hl.
Qed.

Lemma spin_unlock_run m v : m !! (F_c_lock, __lock) = Some v →
  spin_unlock __lock m = Ret ((), <[(F_c_lock, __lock) := UNLOCKED]> m).
Proof using.
  clear. intros Hl. unfold spin_unlock, xchg, mbind, M_bind, load. by rewrite Hl.
Qed.

(** A section that only reads, between lock and unlock, changes nothing. *)
Lemma lock_unlock (m : mem) : m !! (F_c_lock, __lock) = Some UNLOCKED →
  <[(F_c_lock, __lock) := UNLOCKED]> (<[(F_c_lock, __lock) := LOCKED]> m) = m.
Proof using. clear. intros Hl. rewrite insert_insert_eq. by apply insert_id. Qed.

(** ** Framing *)

(** The cells the list depends on: the sentry, the entries, the devices. *)
Definition uses (es : list entry) (a : Z) : Prop :=
  a = __head ∨ ∃ e, e ∈ es ∧ (e_addr e ≤ a < e_addr e + devlist.sizeof_device_entry ∨ a = e_dev e).

Lemma uses_entry es e d : e ∈ es → 0 ≤ d < devlist.sizeof_device_entry → uses es (e_addr e + d).
Proof using. clear. intros He Hd. right. exists e. split; [done|]. left. lia. Qed.

Lemma uses_dev es e : e ∈ es → uses es (e_dev e).
Proof using. clear. intros He. right. exists e. auto. Qed.

Lemma uses_node es x : x ∈ __head :: nodes devlist.off_node (e_addr <$> es) → uses es x.
Proof using.
  clear. intros [->|Hx]%elem_of_cons; [by left|]. unfold nodes in Hx.
  apply list_elem_of_fmap in Hx as (a & -> & Ha). apply list_elem_of_fmap in Ha as (e & -> & He).
  by apply uses_entry.
Qed.

Lemma uses_not_owned m live es a : rep m live es → uses es a → ¬ heap_owned live a.
Proof using head_static.
  intros H [->|(e & He & [Ha| ->])]; [done| |].
  - eapply heap_owned_object; [apply (rep_heap _ _ _ H)|]. exists (e_addr e). eexists. split; [|exact Ha].
    pose proof (rep_obj _ _ _ H) as Ho. rewrite Forall_forall in Ho. by apply Ho.
  - pose proof (rep_ids _ _ _ H) as Hi. rewrite Forall_forall in Hi. by apply Hi.
Qed.

Lemma dev_at_frame m m' e :
  (∀ f, f ≠ F_c_lock → m' !! (f, e_dev e) = m !! (f, e_dev e)) → dev_at m e → dev_at m' e.
Proof using. intros Hs (H1 & H2 & H3 & H4). unfold dev_at. by rewrite !Hs by done. Qed.

Lemma rep_frame m m' live live' es :
  rep m live es → heap_inv m' live' →
  (∀ e, e ∈ es → live' !! e_addr e = live !! e_addr e) →
  (∀ f a, uses es a → f ≠ F_c_lock → m' !! (f, a) = m !! (f, a)) →
  rep m' live' es.
Proof using.
  intros [Hh Hl Ho Hd Hi] Hh' Hlive Hs. split; [done| | | |].
  - eapply dlist_frame; [| |exact Hl]; intros x Hx; apply Hs; try done; by apply uses_node.
  - rewrite Forall_forall in Ho |- *. intros e He. rewrite Hlive by done. by apply Ho.
  - rewrite Forall_forall in Hd |- *. intros e He. rewrite Hs; [by apply Hd| |done].
    rewrite <-(Z.add_0_r (e_addr e)). by apply uses_entry.
  - rewrite Forall_forall in Hi |- *. intros e He. eapply dev_at_frame; [|by apply Hi].
    intros f Hf. apply Hs; [by apply uses_dev|done].
Qed.

Lemma heap_lock m live v : heap_inv m live → heap_inv (<[(F_c_lock, __lock) := v]> m) live.
Proof using lock_static.
  intros H. eapply heap_inv_client; [exact H|]. intros f a Ha.
  rewrite lookup_insert_ne; [done|]. intros [= <- <-]. by apply (lock_static live).
Qed.

Lemma rep_lock m live es v : rep m live es → rep (<[(F_c_lock, __lock) := v]> m) live es.
Proof using lock_static.
  intros H. eapply rep_frame; [exact H|apply heap_lock, H|done|].
  intros f a _ Hf. rewrite lookup_insert_ne; [done|]. congruence.
Qed.

(** ** Searches *)

Lemma find_entries (f : Z → bool) (g : entry → bool) es d :
  (∀ e, e ∈ es → f (e_addr e) = g e) →
  find_or f (e_addr <$> es) d = from_option e_addr d (List.find g es).
Proof using.
  clear. unfold find_or. induction es as [|e es IH]; intros H; [done|]. simpl.
  rewrite (H e) by set_solver. destruct (g e); [done|]. apply IH. set_solver.
Qed.

(** A loop over the entries that only reads stops at the first one accepted. *)
Lemma scan_run m live es (body : Z → M mem bool) (g : entry → bool) :
  rep m live es → (∀ e, e ∈ es → body (e_addr e) m = Ret (g e, m)) →
  for_each_entry __head devlist.off_node body m =
    Ret (from_option e_addr (__head - devlist.off_node) (List.find g es), m).
Proof using.
  intros H Hb. pose (f := λ p, match body p m with Ret (b, _) => b | _ => false end).
  rewrite (for_each_entry_run m __head devlist.off_node (e_addr <$> es) body f).
  - rewrite (find_entries f g); [done|]. intros e He. unfold f. by rewrite Hb.
  - apply H.
  - intros p Hp. apply list_elem_of_fmap in Hp as (e & -> & He). unfold f. by rewrite Hb.
Qed.

Lemma dev_of_run m live es g :
  rep m live es →
  devlist.dev_of __head (from_option e_addr (__head - devlist.off_node) (List.find g es)) m =
    Ret (from_option e_dev NULL (List.find g es), m).
Proof using.
  intros H. unfold devlist.dev_of. destruct (List.find g es) as [e|] eqn:E; simpl.
  - apply List.find_some in E as [He%list_elem_of_In _].
    assert (e_addr e + devlist.off_node ≠ __head) as Hne.
    { eapply dlist_not_head; [apply H|]. apply elem_of_nodes. apply list_elem_of_fmap. by exists e. }
    rewrite (proj2 (Z.eqb_neq _ _) Hne). simpl. apply load_Some.
    pose proof (rep_dev _ _ _ H) as Hd. rewrite Forall_forall in Hd. by apply Hd.
  - rewrite Z.sub_add, Z.eqb_refl. done.
Qed.

Definition has_id (major minor : Z) (e : entry) : bool :=
  (u32 (e_major e) =? major) && (u32 (e_minor e) =? minor).

Lemma from_id_run m live es major minor :
  rep m live es → m !! (F_c_lock, __lock) = Some UNLOCKED →
  from_id major minor m = Ret (from_option e_dev NULL (List.find (has_id major minor) es), m).
Proof using lock_static spins_pos.
  intros H Hl. unfold devlist.__from_id. erewrite bind_ret by by apply spin_lock_run.
  apply (rep_lock _ _ _ LOCKED) in H.
  erewrite bind_ret; [|eapply (scan_run _ _ _ _ (has_id major minor)); [exact H|]].
  - erewrite bind_ret by by eapply dev_of_run.
    erewrite bind_ret by (eapply spin_unlock_run; by rewrite lookup_insert_eq). by rewrite lock_unlock.
  - intros e He. pose proof (rep_dev _ _ _ H) as Hd. pose proof (rep_ids _ _ _ H) as Hi.
    rewrite Forall_forall in Hd, Hi. destruct (Hi e He) as (H1 & H2 & _).
    erewrite bind_ret by by apply load_Some, Hd. erewrite bind_ret by by apply load_Some.
    unfold has_id. destruct (_ =? major); [|done]. by erewrite bind_ret by by apply load_Some.
Qed.

(** ** Adding *)

Lemma cmp_run m a b :
  m !! (F_dev, e_addr a) = Some (e_dev a) → m !! (F_dev, e_addr b) = Some (e_dev b) →
  dev_at m a → dev_at m b →
  (c ← devlist.__cmp (e_addr a) (e_addr b); mret (c >? 0)) m = Ret (id_after a b, m).
Proof using.
  clear spins_pos. intros Ha Hb (A1 & A2 & _) (B1 & B2 & _). unfold devlist.__cmp.
  unfold mbind, M_bind, load. rewrite Ha, Hb, A1, B1. unfold id_after.
  destruct (Z.gtb_spec (e_major a) (e_major b)) as [?|?].
  { rewrite (proj2 (Z.ltb_lt _ _)) by lia. done. }
  destruct (Z.ltb_spec (e_major a) (e_major b)) as [?|?].
  { rewrite (proj2 (Z.ltb_ge _ _)), (proj2 (Z.eqb_neq _ _)) by lia. done. }
  rewrite (proj2 (Z.ltb_ge (e_major b) _)), (proj2 (Z.eqb_eq _ _)) by lia. rewrite A2, B2. simpl.
  destruct (Z.gtb_spec (e_minor a) (e_minor b)) as [?|?].
  { rewrite (proj2 (Z.ltb_lt _ _)) by lia. done. }
  destruct (Z.ltb_spec (e_minor a) (e_minor b)) as [?|?].
  { rewrite (proj2 (Z.ltb_ge _ _)) by lia. done. }
  rewrite (proj2 (Z.ltb_ge _ _)) by lia. done.
Qed.

(** A heap object not yet in the list. *)
Record fresh_entry (m : mem) (live : gmap Z Z) (es : list entry) (e : entry) : Prop := {
  fresh_obj : live !! e_addr e = Some devlist.sizeof_device_entry;
  fresh_dev : m !! (F_dev, e_addr e) = Some (e_dev e);
  fresh_ids : dev_at m e;
  fresh_addr : e_addr e ∉ e_addr <$> es;
  fresh_head : e_addr e + devlist.off_node ≠ __head;
}.

Lemma fresh_lock m live es e v :
  fresh_entry m live es e → fresh_entry (<[(F_c_lock, __lock) := v]> m) live es e.
Proof using.
  intros [? ? ? ? ?]. split; try done.
  - rewrite lookup_insert_ne; [done|congruence].
  - eapply dev_at_frame; [|done]. intros f Hf. rewrite lookup_insert_ne; [done|congruence].
Qed.

Lemma insert_wp m live es1 es2 e pos (Q : unit → mem → Prop) :
  rep m live (es1 ++ es2) → fresh_entry m live (es1 ++ es2) e →
  pos = hd __head (nodes devlist.off_node (e_addr <$> es2)) →
  (∀ m', rep m' live (es1 ++ e :: es2) → m' !! (F_c_lock, __lock) = m !! (F_c_lock, __lock) → Q () m') →
  wp (list_add_before (e_addr e + devlist.off_node) pos) m Q.
Proof using head_static.
  clear spins_pos. intros H F -> HQ.
  pose proof (rep_list _ _ _ H) as Hl. rewrite fmap_app, nodes_app in Hl.
  eapply wp_list_add_tail; [exact Hl|done| |].
  { apply not_elem_of_cons. split; [apply F|]. rewrite <-nodes_app, elem_of_nodes, <-fmap_app. apply F. }
  intros m' Hl' Hs. apply HQ; [|by apply (same_but_field _ _ _ _ _ Hs)].
  assert (Hcell : ∀ f a, f ≠ F_next → f ≠ F_prev → m' !! (f, a) = m !! (f, a)).
  { intros f a. by apply same_but_field with (1 := Hs). }
  assert (Hids : ∀ x, dev_at m x → dev_at m' x).
  { intros x (H1 & H2 & H3 & H4). unfold dev_at. by rewrite !Hcell by done. }
  destruct H as [Hh _ Ho Hd Hi]. destruct F as [F1 F2 F3 F4 F5]. split.
  - eapply heap_inv_client; [exact Hh|]. intros f a Ha. apply Hs. right. intros Hin. revert Ha.
    apply elem_of_cons in Hin as [->|[->|Hin]%elem_of_cons]; [|apply head_static|].
    + eapply heap_owned_object; [done|]. do 2 eexists. split; [exact F1|]. unfold devlist.off_node, devlist.sizeof_device_entry. lia.
    + rewrite <-nodes_app, <-fmap_app in Hin. unfold nodes in Hin.
      apply list_elem_of_fmap in Hin as (x & -> & Hx). apply list_elem_of_fmap in Hx as (y & -> & Hy).
      eapply heap_owned_object; [done|]. rewrite Forall_forall in Ho. do 2 eexists. split; [by apply Ho|].
      unfold devlist.off_node, devlist.sizeof_device_entry. lia.
  - rewrite fmap_app, nodes_app, fmap_cons, nodes_cons. exact Hl'.
  - apply Forall_app in Ho as [? ?]. apply Forall_app. auto.
  - eapply (Forall_impl _ (λ x, m' !! (F_dev, e_addr x) = Some (e_dev x))) in Hd; [|intros x; by rewrite Hcell].
    apply Forall_app in Hd as [? ?]. apply Forall_app. split; [done|]. constructor; [by rewrite Hcell|done].
  - eapply Forall_impl in Hi; [|exact Hids]. apply Forall_app in Hi as [? ?]. apply Forall_app. auto.
Qed.

(** The node the insertion loop stops at. *)
Lemma stop_node (g : entry → bool) es1 es2 :
  Forall (λ x, g x = false) es1 → match es2 with [] => True | x :: _ => g x = true end →
  from_option e_addr (__head - devlist.off_node) (List.find g (es1 ++ es2)) + devlist.off_node =
    hd __head (nodes devlist.off_node (e_addr <$> es2)).
Proof using.
  clear. intros H1 H2. destruct es2 as [|x es2].
  - rewrite app_nil_r. replace (List.find g es1) with (@None entry); [simpl; lia|].
    induction H1 as [|y es1 Hy _ IH]; [done|]. simpl. by rewrite Hy.
  - replace (List.find g (es1 ++ x :: es2)) with (Some x); [done|].
    induction H1 as [|y es1 Hy _ IH]; simpl; [by rewrite H2|by rewrite Hy].
Qed.

(** After kmalloc(): the old entries are where they were, and the new one is
    filled in. *)
Lemma kmalloc_entry m live es dev e m1 p :
  rep m live es → dev_at m e → e_dev e = dev → e_addr e = p →
  (∀ f a, ¬ heap_owned live a → m1 !! (f, a) = m !! (f, a)) → live !! p = None →
  heap_inv m1 (<[p := devlist.sizeof_device_entry]> live) →
  (∀ a, p ≤ a < p + devlist.sizeof_device_entry → heap_owned live a) →
  let m2 := <[(F_dev, p) := dev]> m1 in
  let live2 := <[p := devlist.sizeof_device_entry]> live in
  rep m2 live2 es ∧ fresh_entry m2 live2 es e.
Proof using head_static.
  clear spins_pos. intros H He <- <- Hs Hp Hh Hown m2 live2.
  assert (Hne : ∀ x, x ∈ es → e_addr x ≠ e_addr e).
  { intros x Hx E. pose proof (rep_obj _ _ _ H) as Ho. rewrite Forall_forall in Ho.
    apply Ho in Hx. rewrite E, Hp in Hx. done. }
  assert (Hpo : heap_owned live (e_addr e)) by (apply Hown; unfold devlist.sizeof_device_entry; lia).
  assert (Hd : ∀ f, m2 !! (f, e_dev e) = m !! (f, e_dev e)).
  { intros f. destruct He as (_ & _ & _ & Hst). unfold m2.
    rewrite lookup_insert_ne by (intros [= _ E]; apply (Hst live); by rewrite <-E). by apply Hs. }
  split; [|split].
  - eapply rep_frame; [exact H| | |].
    + eapply heap_inv_client; [exact Hh|]. intros f a Ha. unfold m2. rewrite lookup_insert_ne; [done|].
      intros [= <- <-]. revert Ha. eapply heap_owned_object; [exact Hh|]. exists (e_addr e). eexists.
      split; [apply lookup_insert_eq|]. unfold devlist.sizeof_device_entry. lia.
    + intros x Hx. unfold live2. apply lookup_insert_ne. intros E. by apply (Hne x Hx).
    + intros f a Ha _. unfold m2. assert (Hna := uses_not_owned _ _ _ _ H Ha).
      rewrite lookup_insert_ne by (intros [= _ E]; apply Hna; by rewrite <-E). by apply Hs.
  - unfold live2. by rewrite lookup_insert_eq.
  - unfold m2. by rewrite lookup_insert_eq.
  - destruct He as (H1 & H2 & H3 & H4). unfold dev_at. by rewrite !Hd.
  - intros Hin. apply list_elem_of_fmap in Hin as (x & E & Hx). by apply (Hne x Hx).
  - intros E. apply (head_static live). rewrite <-E. apply Hown. unfold devlist.off_node, devlist.sizeof_device_entry. lia.
Qed.

Lemma add_wp m live es dev major minor bus :
  rep m live es → m !! (F_c_lock, __lock) = Some UNLOCKED → sorted es →
  (∀ a, dev_at m (mk_entry a dev major minor bus)) →
  wp (add dev) m (λ r m', m' !! (F_c_lock, __lock) = Some UNLOCKED ∧
    ((r = EOF ∧ rep m' live es) ∨
     (r = 0 ∧ ∃ p es1 es2, let e := mk_entry p dev major minor bus in
        live !! p = None ∧ es = es1 ++ es2 ∧
        rep m' (<[p := devlist.sizeof_device_entry]> live) (es1 ++ e :: es2) ∧
        sorted (es1 ++ e :: es2) ∧ Forall (λ x, id_lt e x) es2))).
Proof using head_static lock_static spins_pos.
  intros H Hl Hsort Hdev. unfold devlist.__add. apply wp_bind.
  eapply wp_mono; [apply (kmalloc_spec m live _ 0 (rep_heap _ _ _ H)); done|].
  intros p m1 [Hs Hp]. cbn beta.
  assert (Hl1 : m1 !! (F_c_lock, __lock) = Some UNLOCKED) by (by rewrite Hs).
  destruct Hp as [[-> Hh]|(Hp0 & Hp & Hh & Hown)].
  { simpl. apply wp_ret. split; [done|]. left. split; [done|].
    eapply rep_frame; [exact H|done|done|]. intros f a Ha _. apply Hs. by eapply uses_not_owned. }
  rewrite (proj2 (Z.eqb_neq _ _) Hp0). pose (e := mk_entry p dev major minor bus).
  destruct (kmalloc_entry m live es dev e m1 p H (Hdev p) eq_refl eq_refl Hs Hp Hh Hown) as [H2 F2].
  wp_step. wp_step. wp_step. eapply wp_eq; [apply spin_lock_run; rewrite lookup_insert_ne; [done|congruence]|].
  apply (rep_lock _ _ _ LOCKED) in H2. apply (fresh_lock _ _ _ _ LOCKED) in F2.
  wp_step. eapply wp_eq; [eapply (scan_run _ _ _ _ (λ x, id_after x e)); [exact H2|]|].
  { intros x Hx. pose proof (rep_dev _ _ _ H2) as Hd. pose proof (rep_ids _ _ _ H2) as Hi.
    rewrite Forall_forall in Hd, Hi. apply (cmp_run _ x e); [by apply Hd|apply F2|by apply Hi|apply F2]. }
  assert (∃ es1 es2, es = es1 ++ es2 ∧ Forall (λ x, id_after x e = false) es1 ∧
    match es2 with [] => True | x :: _ => id_after x e = true end) as (es1 & es2 & -> & E1 & E2).
  { destruct (first_split (λ x, id_after x e) es) as [?|(l1 & x & l2 & -> & ? & ?)].
    - exists es, []. by rewrite app_nil_r.
    - exists l1, (x :: l2). done. }
  wp_step. eapply (insert_wp _ _ es1 es2 e); [exact H2|exact F2|by apply stop_node|].
  intros m' H' Hlk. rewrite lookup_insert_eq in Hlk.
  wp_step. eapply wp_eq; [by eapply spin_unlock_run|]. wp_step. split; [by rewrite lookup_insert_eq|].
  right. split; [done|]. exists p, es1, es2. destruct (sorted_insert _ _ e Hsort E1 E2).
  split_and!; [done|done|by apply rep_lock|done|done].
Qed.

(** ** Removing *)

Definition on_bus (dev : Z) (e : entry) : bool := e_bus e =? dev.
Definition last_of (dev : Z) (es : list entry) (this : Z) : Z :=
  foldl (λ t e, if e_dev e =? dev then e_addr e else t) this es.

Lemma last_of_none dev es this : Forall (λ e, e_dev e ≠ dev) es → last_of dev es this = this.
Proof using.
  clear. revert this. unfold last_of. induction es as [|e es IH]; intros this Hf; [done|].
  apply Forall_cons in Hf as [He Hf]. simpl. rewrite (proj2 (Z.eqb_neq _ _) He). by apply IH.
Qed.

Lemma last_of_last dev es1 e es2 this :
  e_dev e = dev → Forall (λ x, e_dev x ≠ dev) es2 → last_of dev (es1 ++ e :: es2) this = e_addr e.
Proof using.
  clear. intros <- Hf. unfold last_of. rewrite foldl_app. simpl. rewrite Z.eqb_refl. by apply last_of_none.
Qed.

Lemma remove_scan_run m live es1 es2 dev this n :
  rep m live (es1 ++ es2) → (length es2 ≤ n)%nat →
  devlist.remove_scan __head n (hd __head (nodes devlist.off_node (e_addr <$> es2))) dev this m =
    Ret (if existsb (on_bus dev) es2 then None else Some (last_of dev es2 this), m).
Proof using.
  clear spins_pos. intros H. revert es1 this n H. induction es2 as [|e es2 IH]; intros es1 this n H Hn.
  { destruct n; simpl; by rewrite Z.eqb_refl. }
  destruct n as [|n]; simpl in Hn; [lia|].
  pose proof (rep_list _ _ _ H) as Hl. rewrite fmap_app, nodes_app, fmap_cons, nodes_cons in Hl.
  assert (e_addr e + devlist.off_node ≠ __head) as Hne.
  { eapply dlist_not_head; [exact Hl|]. apply elem_of_app. right. apply elem_of_cons. by left. }
  destruct (dlist_neighbours _ _ _ _ _ Hl) as [_ Hnx].
  pose proof (rep_dev _ _ _ H) as Hd. pose proof (rep_ids _ _ _ H) as Hi.
  apply Forall_app in Hd as [_ Hd]. apply Forall_app in Hi as [_ Hi].
  apply Forall_cons in Hd as [Hd _]. apply Forall_cons in Hi as [(_ & _ & Hb & _) _].
  simpl. rewrite (proj2 (Z.eqb_neq _ _) Hne). unfold list_entry.
  replace (e_addr e + devlist.off_node - devlist.off_node) with (e_addr e) by lia.
  erewrite bind_ret by by apply load_Some. erewrite bind_ret by by apply load_Some.
  unfold on_bus at 1. destruct (e_bus e =? dev); [done|].
  erewrite bind_ret by by apply load_Some. simpl.
  apply (IH (es1 ++ [e])); [by rewrite <-app_assoc|lia].
Qed.

Lemma scan_all m live es dev :
  rep m live es →
  (first ← load F_next __head; with_fuel (λ n, devlist.remove_scan __head n first dev NULL)) m =
    Ret (if existsb (on_bus dev) es then None else Some (last_of dev es NULL), m).
Proof using.
  intros H. destruct (dlist_edge m __head [] _ (rep_list _ _ _ H)) as [En _]. simpl in En.
  erewrite bind_ret by by apply load_Some. unfold with_fuel.
  apply (remove_scan_run m live [] es); [exact H|]. pose proof (dlist_size _ _ _ (rep_list _ _ _ H)) as Hsz.
  unfold nodes in Hsz. rewrite !length_fmap in Hsz. clear -Hsz. lia.
Qed.

(** The body of __remove() up to the release of the lock. *)
Lemma remove_refuses m live es dev :
  rep m live es → m !! (F_c_lock, __lock) = Some UNLOCKED →
  existsb (on_bus dev) es = true ∨ Forall (λ e, e_dev e ≠ dev) es →
  remove dev m = Ret (EOF, m).
Proof using lock_static spins_pos.
  intros H Hl Hor. unfold devlist.__remove. erewrite bind_ret by by apply spin_lock_run.
  apply (rep_lock _ _ _ LOCKED) in H. pose proof (scan_all _ _ _ dev H) as Hscan.
  destruct (dlist_edge _ __head [] _ (rep_list _ _ _ H)) as [En _]. simpl in En.
  erewrite bind_ret in Hscan by by apply load_Some.
  erewrite bind_ret by by apply load_Some. erewrite bind_ret by exact Hscan.
  assert (Hret : ∀ c, (if existsb (on_bus dev) es then None else Some (last_of dev es NULL)) = c →
    c = None ∨ c = Some NULL).
  { intros c <-. destruct (existsb _ es); [by left|]. right. destruct Hor as [?|Hor]; [done|]. by rewrite last_of_none. }
  destruct (Hret _ eq_refl) as [-> | ->].
  all: erewrite bind_ret by done.
  all: erewrite bind_ret by (eapply spin_unlock_run; by rewrite lookup_insert_eq).
  all: by rewrite lock_unlock.
Qed.

Lemma rep_unlink m m' live es1 e es2 :
  rep m live (es1 ++ e :: es2) →
  dlist m' __head (nodes devlist.off_node (e_addr <$> es1 ++ es2)) →
  same_but (__head :: nodes devlist.off_node (e_addr <$> es1 ++ es2)) m m' →
  rep m' live (es1 ++ es2).
Proof using head_static.
  clear spins_pos. intros [Hh Hl Ho Hd Hi] Hl' Hs.
  apply Forall_app in Ho as [Ho1 Ho2]. apply Forall_cons in Ho2 as [_ Ho2].
  apply Forall_app in Hd as [Hd1 Hd2]. apply Forall_cons in Hd2 as [_ Hd2].
  apply Forall_app in Hi as [Hi1 Hi2]. apply Forall_cons in Hi2 as [_ Hi2].
  assert (Ho := proj2 (Forall_app _ _ _) (conj Ho1 Ho2)).
  split; [|done|exact Ho| |].
  - eapply heap_inv_client; [exact Hh|]. intros f a Ha. apply Hs. right. intros Hin. revert Ha.
    apply elem_of_cons in Hin as [->|Hin]; [apply head_static|]. unfold nodes in Hin.
    apply list_elem_of_fmap in Hin as (x & -> & Hx). apply list_elem_of_fmap in Hx as (y & -> & Hy).
    eapply heap_owned_object; [done|]. rewrite Forall_forall in Ho. do 2 eexists. split; [by apply Ho|].
    unfold devlist.off_node, devlist.sizeof_device_entry. lia.
  - assert (Hd := proj2 (Forall_app _ _ _) (conj Hd1 Hd2)). eapply Forall_impl; [exact Hd|]. intros x Hx.
    cbn beta. by rewrite (same_but_field _ _ _ _ _ Hs) by done.
  - assert (Hi := proj2 (Forall_app _ _ _) (conj Hi1 Hi2)). eapply Forall_impl; [exact Hi|].
    intros x (H1 & H2 & H3 & H4). unfold dev_at. by rewrite !(same_but_field _ _ _ _ _ Hs) by done.
Qed.

Lemma remove_wp m live es1 e es2 dev :
  rep m live (es1 ++ e :: es2) → m !! (F_c_lock, __lock) = Some UNLOCKED →
  existsb (on_bus dev) (es1 ++ e :: es2) = false → e_dev e = dev → Forall (λ x, e_dev x ≠ dev) es2 →
  wp (remove dev) m (λ r m', r = 0 ∧ m' !! (F_c_lock, __lock) = Some UNLOCKED ∧
    rep m' (delete (e_addr e) live) (es1 ++ es2)).
Proof using head_static lock_static spins_pos.
  intros H Hl Hbus Hdev Hlast. unfold devlist.__remove.
  wp_step. eapply wp_eq; [by apply spin_lock_run|].
  apply (rep_lock _ _ _ LOCKED) in H. pose proof (scan_all _ _ _ dev H) as Hscan.
  destruct (dlist_edge _ __head [] _ (rep_list _ _ _ H)) as [En _]. simpl in En.
  erewrite bind_ret in Hscan by by apply load_Some. rewrite Hbus, last_of_last in Hscan by done.
  wp_step. eapply wp_eq; [by apply load_Some|]. wp_step. eapply wp_eq; [exact Hscan|].
  assert (Hobj := rep_obj _ _ _ H). apply Forall_app in Hobj as [_ Hobj]. apply Forall_cons in Hobj as [Hobj _].
  assert (e_addr e ≠ NULL) as Hnn.
  { intros E. rewrite E, (heap_inv_null _ _ (rep_heap _ _ _ H)) in Hobj. done. }
  cbv beta iota. rewrite (proj2 (Z.eqb_neq _ _) Hnn). cbn [negb].
  pose proof (rep_list _ _ _ H) as Hd. rewrite fmap_app, nodes_app, fmap_cons, nodes_cons in Hd.
  wp_step. wp_step. eapply wp_list_del; [exact Hd|]. rewrite <-nodes_app, <-fmap_app.
  intros m1 Hl1 Hs1. apply (rep_unlink _ _ _ _ _ _ H Hl1) in Hs1 as H1.
  assert (Hk1 : m1 !! (F_c_lock, __lock) = Some LOCKED).
  { rewrite (same_but_field _ _ _ _ _ Hs1) by done. apply lookup_insert_eq. }
  assert (Hne : ∀ x, x ∈ es1 ++ es2 → e_addr x ≠ e_addr e).
  { intros x Hx E. pose proof (dlist_NoDup _ _ _ Hd) as Hnd. apply NoDup_app_mid in Hnd as [Hnd _].
    apply Hnd. rewrite <-nodes_app, <-fmap_app, <-E. apply elem_of_nodes, list_elem_of_fmap. by exists x. }
  wp_step. eapply wp_mono; [by apply (kfree_spec m1 live _ _ (rep_heap _ _ _ H1) Hobj)|].
  intros [] m2 [Hh2 Hs2]. wp_step. wp_step. eapply wp_eq; [eapply spin_unlock_run; by rewrite Hs2|]. wp_step.
  split_and!; [done|apply lookup_insert_eq|]. apply rep_lock. eapply rep_frame; [exact H1|exact Hh2| |].
  - intros x Hx. apply lookup_delete_ne. intros E. by apply (Hne x Hx).
  - intros f a Ha _. apply Hs2. destruct Ha as [->|(x & Hx & [Ha| ->])]; [done| |].
    + eapply heap_owned_object; [exact Hh2|]. exists (e_addr x). eexists. split; [|exact Ha].
      rewrite lookup_delete_ne by (intros E; by apply (Hne x Hx)).
      pose proof (rep_obj _ _ _ H1) as Ho. rewrite Forall_forall in Ho. by apply Ho.
    + pose proof (rep_ids _ _ _ H1) as Hi. rewrite Forall_forall in Hi. by apply Hi.
Qed.

(** ** What the index promises *)

Definition index_inv (m : mem) (live : gmap Z Z) (es : list entry) : Prop :=
  rep m live es ∧ m !! (F_c_lock, __lock) = Some UNLOCKED ∧ sorted es.

(** C13: adding a device either fails with EOF for want of memory and leaves the
    index as it was, or puts one new entry after all devices with a smaller
    or equal number and before all with a greater one: the list stays
    sorted, older devices come first among equals, and the lock is free again. *)
Theorem devlist_add_sorted m live es dev major minor bus :
  index_inv m live es → (∀ a, dev_at m (mk_entry a dev major minor bus)) →
  wp (add dev) m (λ r m',
    (r = EOF ∧ index_inv m' live es) ∨
    (r = 0 ∧ ∃ p es1 es2, let e := mk_entry p dev major minor bus in
       live !! p = None ∧ es = es1 ++ es2 ∧ Forall (λ x, id_lt e x) es2 ∧
       index_inv m' (<[p := devlist.sizeof_device_entry]> live) (es1 ++ e :: es2))).
Proof using head_static lock_static spins_pos.
  intros (H & Hl & Hs) Hd. eapply wp_mono; [by apply add_wp|].
  intros r m' [Hl' [[-> H']|(-> & p & es1 & es2 & Hp & -> & H' & Hs' & Hf)]]; [left|right].
  - split_and!; done.
  - split; [done|]. exists p, es1, es2. split_and!; done.
Qed.

(** Looking a device number up returns the oldest device registered with it,
    or NULL when there is none, and changes nothing. *)
Theorem devlist_lookup m live es major minor :
  index_inv m live es →
  from_id major minor m = Ret (from_option e_dev NULL (List.find (has_id major minor) es), m).
Proof using lock_static spins_pos. intros (H & Hl & _). by eapply from_id_run. Qed.

(** C14: removing a device fails with EOF and changes nothing when another device is
    connected to it or when it is not registered. Otherwise its last entry is
    unlinked and freed, and the rest of the index stays as it is. *)
Theorem devlist_remove_refines m live es dev :
  index_inv m live es →
  (existsb (on_bus dev) es = true ∨ Forall (λ e, e_dev e ≠ dev) es → remove dev m = Ret (EOF, m)) ∧
  (∀ es1 e es2, es = es1 ++ e :: es2 → existsb (on_bus dev) es = false →
     e_dev e = dev → Forall (λ x, e_dev x ≠ dev) es2 →
     wp (remove dev) m (λ r m', r = 0 ∧ index_inv m' (delete (e_addr e) live) (es1 ++ es2))).
Proof using head_static lock_static spins_pos.
  intros (H & Hl & Hs). split; [by apply (remove_refuses m live)|].
  intros es1 e es2 -> Hb He Hf. eapply wp_mono; [by apply (remove_wp m live es1 e es2)|].
  intros r m' (-> & Hl' & H'). split; [done|]. split_and!; [done|done|].
  apply StronglySorted_app in Hs as (H12 & H1 & H2). apply StronglySorted_inv in H2 as [H2 _].
  apply StronglySorted_app. split_and!; [|done|done]. intros x y Hx Hy. apply H12; [done|].
  apply elem_of_cons. by right.
Qed.

Lemma find_insert (g : entry → bool) es1 e es2 :
  g e = false → List.find g (es1 ++ e :: es2) = List.find g (es1 ++ es2).
Proof using. clear. intros He. induction es1 as [|x es1 IH]; simpl; [by rewrite He|by rewrite IH]. Qed.

(** C15: a device that was added is found again under its number as long as
    no other device had that number before, and looking up any other
    number gives the same device as before. *)
Theorem devlist_add_lookup m live es dev major minor bus r m' :
  index_inv m live es → (∀ a, dev_at m (mk_entry a dev major minor bus)) →
  Forall (λ e, has_id (u32 major) (u32 minor) e = false) es →
  add dev m = Ret (r, m') → r = 0 →
  from_id (u32 major) (u32 minor) m' = Ret (dev, m') ∧
  (∀ ma mi, (ma, mi) ≠ (u32 major, u32 minor) →
     ∃ d, from_id ma mi m = Ret (d, m) ∧ from_id ma mi m' = Ret (d, m')).
Proof using head_static lock_static spins_pos.
  intros (H & Hl & Hs) Hd Hno Hadd ->.
  assert (Hw := add_wp m live es dev major minor bus H Hl Hs Hd). unfold wp in Hw. rewrite Hadd in Hw.
  destruct Hw as [Hl' [[? _]|(_ & p & es1 & es2 & _ & -> & H' & _)]]; [done|].
  set (e := mk_entry p dev major minor bus) in *. split.
  - rewrite (from_id_run _ _ _ _ _ H' Hl'). replace (List.find _ _) with (Some e); [done|]. symmetry.
    apply Forall_app in Hno as [Hno _].
    assert (has_id (u32 major) (u32 minor) e = true) as Hid by (unfold has_id; simpl; by rewrite !Z.eqb_refl).
    clear -Hno Hid. induction Hno as [|x es1 Hx _ IH]; simpl; [by rewrite Hid|by rewrite Hx].
  - intros ma mi Hne. rewrite (from_id_run _ _ _ _ _ H' Hl'), (from_id_run _ _ _ _ _ H Hl).
    rewrite find_insert; [eauto|]. unfold has_id. simpl.
    destruct (Z.eqb_spec (u32 major) ma) as [<-|]; [|done]. destruct (Z.eqb_spec (u32 minor) mi) as [<-|]; done.
Qed.
End props.

(** ** A concrete index *)

Module DevScenario.
Import Scenario.

Definition head : Z := 176.
Definition lock : Z := 192.
Definition dev1 : Z := 8.
Definition dev2 : Z := 24.

Definition devices : mem :=
  <[(F_id_major, dev1) := 4]> (<[(F_id_minor, dev1) := 1]> (<[(F_bus, dev1) := 0]>
  (<[(F_id_major, dev2) := 2]> (<[(F_id_minor, dev2) := 7]> (<[(F_bus, dev2) := dev1]>
  (<[(F_c_lock, lock) := UNLOCKED]> (<[(F_next, head) := head]> (<[(F_prev, head) := head]> booted)))))))).

Lemma static live a : STATIC_TOP ≤ a < 256 → a ≠ bootstrap_head → ¬ (64 ≤ a < 76) → ¬ heap_owned live a.
Proof.
  intros Ha Hne Ht [[H|[H _]]|H]; [done| |]; unfold in_table, lo, vmm.__simple_allocator in H; lia.
Qed.

Lemma head_static live : ¬ heap_owned live head.
Proof. apply static; unfold head, STATIC_TOP, bootstrap_head; lia. Qed.
Lemma lock_static live : ¬ heap_owned live lock.
Proof. apply static; unfold lock, STATIC_TOP, bootstrap_head; lia. Qed.

Lemma devices_heap : heap_inv devices ∅.
Proof.
  eapply (heap_inv_client booted); [exact booted_inv|]. intros f a Ha.
  unfold devices. rewrite !lookup_insert_ne; [done|..]; intros [= _ <-];
    first [ by apply (head_static ∅) in Ha | by apply (lock_static ∅) in Ha
          | by apply (heap_owned_static ∅) in Ha ].
Qed.

Lemma devices_inv : index_inv head lock devices ∅ [].
Proof.
  split; [|split; [by vm_compute|constructor]]. split; [exact devices_heap| |by constructor..].
  split; [|apply NoDup_singleton]. split; [split; by vm_compute|done].
Qed.

Lemma dev1_at a : dev_at devices (mk_entry a dev1 4 1 0).
Proof. split_and!; [by vm_compute..|]. intros live. apply heap_owned_static. by vm_compute. Qed.

Lemma devlist_add_sorted_witness :
  wp (devlist.__add kmalloc head lock 1 dev1) devices (λ r m',
    (r = EOF ∧ index_inv head lock m' ∅ []) ∨
    (r = 0 ∧ ∃ p es1 es2, (∅ : gmap Z Z) !! p = None ∧ [] = es1 ++ es2 ∧
       Forall (λ x, id_lt (mk_entry p dev1 4 1 0) x) es2 ∧
       index_inv head lock m' (<[p := devlist.sizeof_device_entry]> ∅) (es1 ++ mk_entry p dev1 4 1 0 :: es2))).
Proof.
  apply (devlist_add_sorted head lock 1 head_static lock_static); [lia|exact devices_inv|exact dev1_at].
Defined.

Lemma devlist_lookup_witness : devlist.__from_id head lock 1 4 1 devices = Ret (NULL, devices).
Proof. apply (devlist_lookup head lock 1 lock_static ltac:(lia) devices ∅ []). exact devices_inv. Defined.

Lemma added_dev1 : ∃ p m', devlist.__add kmalloc head lock 1 dev1 devices = Ret (0, m') ∧
  index_inv head lock m' (<[p := devlist.sizeof_device_entry]> ∅) [mk_entry p dev1 4 1 0].
Proof.
  destruct devices_inv as (H & Hl & Hs).
  destruct (returns_elim (devlist.__add kmalloc head lock 1 dev1) devices (λ r, r =? 0)) as (r & m' & E & ->%Z.eqb_eq);
    [by vm_compute|].
  pose proof (add_wp head lock 1 head_static lock_static ltac:(lia) devices ∅ [] dev1 4 1 0 H Hl Hs dev1_at) as Hw.
  unfold wp in Hw. rewrite E in Hw. destruct Hw as [Hl' [[? _]|(_ & p & es1 & es2 & _ & E12 & H' & Hs' & _)]]; [done|].
  symmetry in E12. apply app_eq_nil in E12 as [-> ->]. exists p, m'. split_and!; done.
Qed.

Lemma devlist_remove_refines_witness :
  ∃ m' p, devlist.__remove kfree head lock 1 dev2 m' = Ret (EOF, m') ∧
    wp (devlist.__remove kfree head lock 1 dev1) m' (λ r m'', r = 0 ∧ index_inv head lock m'' (delete p {[ p := 12 ]}) []).
Proof.
  destruct added_dev1 as (p & m' & _ & H). exists m', p.
  destruct (devlist_remove_refines head lock 1 head_static lock_static ltac:(lia) m' _ _ dev2 H) as [H1 _].
  destruct (devlist_remove_refines head lock 1 head_static lock_static ltac:(lia) m' _ _ dev1 H) as [_ H2].
  split; [apply H1; right; by repeat constructor|].
  by apply (H2 [] (mk_entry p dev1 4 1 0) []).
Defined.

Lemma devlist_add_lookup_witness :
  ∃ m', devlist.__add kmalloc head lock 1 dev1 devices = Ret (0, m') ∧
    devlist.__from_id head lock 1 4 1 m' = Ret (dev1, m').
Proof.
  destruct (returns_elim (devlist.__add kmalloc head lock 1 dev1) devices (λ r, r =? 0)) as (r & m' & E & ->%Z.eqb_eq);
    [by vm_compute|]. exists m'. split; [done|].
  apply (devlist_add_lookup head lock 1 head_static lock_static ltac:(lia) devices ∅ [] dev1 4 1 0 0 m');
    [exact devices_inv|exact dev1_at|by constructor|exact E|done].
Defined.
End DevScenario.
