(* ===== verification/Sync.v ===== *)
(** kern/arch/{i386,mips,armv7a}/sync.c: spinlocks and semaphores, run by any
    number of processors that interleave instruction by instruction on one
    shared word.

    The inline assembly is written as a list of instructions of a small
    machine. Each processor has a program counter, the scratch register,
    the result register of STREX, a condition flag and a link bit (the exclusive
    monitor of LL/SC and LDREX/STREX). A store by anybody clears every link bit, and
    a link bit may be lost at any moment. Memory is sequentially consistent; the
    barriers SMP_DMB and SMP_DSB and the hints WFE and SEV change no state.

    On ARM the C variable ret is an output of an asm statement in which the only
    instruction that writes it may be skipped. The model assumes that it then
    keeps its value, as it does when the compiler gives it the same
    register throughout; the constraint "=r" does not promise that ("+r" would). *)
From Stdlib Require Import ZArith Lia.
From stdpp Require Import base numbers list relations.
From S2P Require Import Prelude.

Open Scope Z_scope.

Definition ARM_STREX_SUCCESS : Z := 0.
Definition ARM_STREX_FAIL : Z := 1.
Definition ARM_STREX_CORRUPT : Z := -1.

(** Signed 32-bit arithmetic. *)
Definition s32 (x : Z) : Z := (x + 2 ^ 31) mod 2 ^ 32 - 2 ^ 31.

Inductive instr : Type :=
  | Load | Store (v : Z) | Xchg (v : Z)
  | Ll | Sc | Or1 | AndNot1
  | AddK (k : Z) | Test (p : Z → bool) | Wfe | StrexImm (v : Z) | StrexReg
  | MovUnless (v : Z) | MovRet (v : Z)
  | BReg (p : Z → bool) (target : nat) | BRet (p : Z → bool) (target : nat) | Jump (target : nat)
  | Strex | LockAdd (k : Z)
  | Critical | PanicHere.

Record cpu : Type := mk_cpu { pc : nat; reg : Z; ret : Z; flag : bool; link : bool }.

Definition next (c : cpu) : cpu := mk_cpu (S (pc c)) (reg c) (ret c) (flag c) (link c).
Definition goto (c : cpu) (t : nat) : cpu := mk_cpu t (reg c) (ret c) (flag c) (link c).
Definition set_reg (c : cpu) (v : Z) : cpu := mk_cpu (pc c) v (ret c) (flag c) (link c).
Definition set_ret (c : cpu) (v : Z) : cpu := mk_cpu (pc c) (reg c) v (flag c) (link c).
Definition set_flag (c : cpu) (b : bool) : cpu := mk_cpu (pc c) (reg c) (ret c) b (link c).
Definition set_link (c : cpu) (b : bool) : cpu := mk_cpu (pc c) (reg c) (ret c) (flag c) b.
Definition unlink (c : cpu) : cpu := set_link c false.

(** A conditional store of [v], whose outcome is the link bit. *)
Definition cond_store (c c_ok c_fail : cpu) (v w : Z) : option (cpu * Z * bool) :=
  if link c then Some (unlink (next c_ok), v, true) else Some (unlink (next c_fail), w, false).

(** One instruction of processor [c] on the word [w]: its new state, the new
    word, and whether the word was written. A panic stops the processor. *)
Definition exec (i : instr) (c : cpu) (w : Z) : option (cpu * Z * bool) :=
  match i with
  | Load => Some (next (set_reg c w), w, false)
  | Store v => Some (next c, v, true)
  | Xchg v => Some (next (set_reg c w), v, true)
  | Ll => Some (next (set_link (set_reg c w) true), w, false)
  | Sc => cond_store c (set_reg c 1) (set_reg c 0) (reg c) w
  | Or1 => Some (next (set_reg c (Z.lor (reg c) 1)), w, false)
  | AndNot1 => Some (next (set_reg c (Z.land (reg c) (Z.lnot 1))), w, false)
  | AddK k => Some (next (set_reg c (s32 (reg c + k))), w, false)
  | Test p => Some (next (set_flag c (p (reg c))), w, false)
  | Wfe => Some (next c, w, false)
  | StrexImm v =>
      if flag c then cond_store c (set_ret c ARM_STREX_SUCCESS) (set_ret c ARM_STREX_FAIL) v w
      else Some (next c, w, false)
  | StrexReg =>
      if flag c then cond_store c (set_ret c ARM_STREX_SUCCESS) (set_ret c ARM_STREX_FAIL) (reg c) w
      else Some (next c, w, false)
  | MovUnless v => Some (next (if flag c then c else set_ret c v), w, false)
  | MovRet v => Some (next (set_ret c v), w, false)
  | BReg p t => Some (if p (reg c) then goto c t else next c, w, false)
  | BRet p t => Some (if p (ret c) then goto c t else next c, w, false)
  | Jump t => Some (goto c t, w, false)
  | Strex => cond_store c (set_ret c ARM_STREX_SUCCESS) (set_ret c ARM_STREX_FAIL) (reg c) w
  | LockAdd k => Some (next c, s32 (w + k), true)
  | Critical => Some (next c, w, false)
  | PanicHere => None
  end.

Record machine : Type := mk_machine { word : Z; cpus : list cpu }.

Inductive step (prog : list instr) : machine → machine → Prop :=
  | step_exec w cs k c i c' w' wr :
      cs !! k = Some c → prog !! pc c = Some i → exec i c w = Some (c', w', wr) →
      step prog (mk_machine w cs)
        (mk_machine w' (if (wr : bool) then unlink <$> <[k := c']> cs else <[k := c']> cs))
  | step_lose w cs k c :
      cs !! k = Some c →
      step prog (mk_machine w cs) (mk_machine w (<[k := unlink c]> cs)).

(** ** The locks *)

(** i386: while (xchg(lock, LOCKED) != 0); ... xchg(lock, UNLOCKED). *)
Definition i386_lock : list instr :=
  [ Xchg 1; BReg (λ r, negb (r =? 0)) 0;
    Critical;
    Xchg 0; Jump 0 ].

(** MIPS: LL/SC loops; the word read as locked is stored back. *)
Definition mips_lock : list instr :=
  [ Ll; BReg (λ r, r =? 0) 4; Sc; Jump 0;
    Or1; Sc; BReg (λ r, r =? 0) 0;
    Critical;
    Ll; AndNot1; Sc; BReg (λ r, r =? 0) 8; Jump 0 ].

(** ARM: LDREX/STREX loops; spin_unlock() panics when the lock is free. *)
Definition arm_lock : list instr :=
  [ MovRet ARM_STREX_FAIL;
    Ll; Test (λ v, v =? 0); Wfe; StrexImm 1; BRet (λ r, negb (r =? ARM_STREX_SUCCESS)) 1;
    Critical;
    Load; BReg (λ v, v =? 0) 11; Store 0; Jump 0;
    PanicHere ].

(** ARM: semaphore_dec(), the section it protects, semaphore_inc(). *)
Definition arm_semaphore (limit : Z) : list instr :=
  [ MovRet ARM_STREX_FAIL;
    Ll; AddK (-1); Test (λ v, 0 <=? v); Wfe; StrexReg; BRet (λ r, negb (r =? ARM_STREX_SUCCESS)) 1;
    Critical;
    MovRet ARM_STREX_FAIL;
    Ll; AddK 1; Test (λ v, v <=? limit); MovUnless ARM_STREX_CORRUPT; StrexReg; BRet (λ r, r =? ARM_STREX_FAIL) 9;
    BRet (λ r, r =? ARM_STREX_CORRUPT) 17; Jump 0;
    PanicHere ].

(** Processors at the top of their loop, whatever is in their registers. *)
Definition at_start (cs : list cpu) : Prop := Forall (λ c, pc c = 0%nat ∧ link c = false) cs.

Definition in_section (prog : list instr) (c : cpu) : Prop :=
  match prog !! pc c with Some Critical => True | _ => False end.
Definition panicked (prog : list instr) (c : cpu) : Prop :=
  match prog !! pc c with Some PanicHere => True | _ => False end.

#[global] Instance in_section_dec prog c : Decision (in_section prog c).
Proof. unfold in_section. destruct (prog !! pc c) as [[]|]; apply _. Defined.
