(* ===== verification/SyncProps.v ===== *)
(** Mutual exclusion of the three spinlocks and the counting property of
    the ARM semaphore, for any number of processors and any interleaving. *)
From Stdlib Require Import ZArith Lia.
From stdpp Require Import base numbers list relations.
From S2P Require Import Prelude Sync.

Open Scope Z_scope.

(** ** Counting owners *)

Definition owners (own : cpu → bool) (cs : list cpu) : Z := sum_with (λ c, Z.b2z (own c)) cs.

Lemma owners_insert own cs k c c' :
  cs !! k = Some c → owners own (<[k := c']> cs) = owners own cs - Z.b2z (own c) + Z.b2z (own c').
Proof.
  intros Hk. rewrite <-(take_drop_middle cs k c Hk) at 2. rewrite (insert_take_drop _ _ _ (lookup_lt_Some _ _ _ Hk)).
  unfold owners. rewrite !sum_with_app, !sum_with_cons. lia.
Qed.

Lemma owners_ge own cs k c : cs !! k = Some c → Z.b2z (own c) ≤ owners own cs.
Proof.
  intros Hk. rewrite <-(take_drop_middle cs k c Hk). unfold owners. rewrite sum_with_app, sum_with_cons.
  pose proof (sum_with_nonneg (λ c, Z.b2z (own c)) (take k cs)) as H1.
  pose proof (sum_with_nonneg (λ c, Z.b2z (own c)) (drop (S k) cs)) as H2.
  assert (∀ l, Forall (λ x, 0 ≤ Z.b2z (own x)) l) as H.
  { intros l. apply Forall_forall. intros x _. by destruct (own x). }
  specialize (H1 (H _)). specialize (H2 (H _)). lia.
Qed.

Lemma owners_unlink own cs : (∀ c, own (unlink c) = own c) → owners own (unlink <$> cs) = owners own cs.
Proof. intros H. unfold owners. induction cs as [|c cs IH]; [done|]. cbn. rewrite H. f_equal. exact IH. Qed.

Lemma owners_two own cs j k c d :
  j ≠ k → cs !! j = Some c → cs !! k = Some d → own c = true → own d = true → 2 ≤ owners own cs.
Proof.
  intros Hne Hj Hk Hc Hd.
  assert (∀ l i x, l !! i = Some x → owners own l = owners own (take i l ++ drop (S i) l) + Z.b2z (own x)) as Hout.
  { intros l i x Hi. rewrite <-(take_drop_middle l i x Hi) at 1. unfold owners.
    rewrite !sum_with_app, sum_with_cons. lia. }
  rewrite (Hout _ _ _ Hj), Hc.
  assert (∃ k', (take j cs ++ drop (S j) cs) !! k' = Some d) as [k' Hk'].
  { apply list_elem_of_lookup. apply elem_of_app.
    destruct (decide (k < j)%nat).
    - left. apply (list_elem_of_lookup_2 _ k). by rewrite lookup_take_lt.
    - right. apply (list_elem_of_lookup_2 _ (k - S j)). rewrite lookup_drop. by replace (S j + (k - S j))%nat with k by lia. }
  pose proof (owners_ge own _ _ _ Hk'). rewrite Hd in *. simpl in *. lia.
Qed.

(** ** Invariants that follow one processor at a time *)

Section invariant.
(** [own]: does a processor hold (a unit of) the resource; [units w]: how many
    are handed out when the word is [w]; [lok w c]: what the word [w] tells
    about a processor with its link intact; [wok]: values the word takes. *)
Context (prog : list instr) (own : cpu → bool) (lok : Z → cpu → Prop) (wok : Z → Prop) (units : Z → Z).
Hypothesis own_unlink : ∀ c, own (unlink c) = own c.
Hypothesis lok_unlink : ∀ w w' c, lok w c → lok w' (unlink c).
Hypothesis exec_ok : ∀ i c w c' w' wr,
  prog !! pc c = Some i → lok w c → wok w → Z.b2z (own c) ≤ units w →
  exec i c w = Some (c', w', wr) →
  lok w' c' ∧ wok w' ∧ units w' - Z.b2z (own c') = units w - Z.b2z (own c) ∧ (wr = false → w' = w).

Definition good (s : machine) : Prop :=
  Forall (lok (word s)) (cpus s) ∧ wok (word s) ∧ owners own (cpus s) = units (word s).

Lemma good_step s s' : good s → step prog s s' → good s'.
Proof using own_unlink lok_unlink exec_ok.
  intros Hg Hst. revert Hg. destruct Hst as [w cs k c i c' w' wr Hk Hi Hx|w cs k c Hk]; intros (Hl & Hw & Ho); simpl in *.
  - assert (lok w c) as Hc by (eapply Forall_lookup_1; [exact Hl|done]).
    pose proof (owners_ge own _ _ _ Hk) as Hge. rewrite Ho in Hge.
    destruct (exec_ok _ _ _ _ _ _ Hi Hc Hw Hge Hx) as (Hc' & Hw' & Hu & Hn).
    assert (Hcount : owners own (<[k := c']> cs) = units w') by (rewrite (owners_insert _ _ _ _ _ Hk); lia).
    destruct wr; simpl; split; simpl.
    + apply Forall_forall. intros x Hx'. apply list_elem_of_fmap in Hx' as (y & -> & Hy).
      apply list_elem_of_lookup in Hy as [j Hj]. apply list_lookup_insert_Some in Hj as [(_ & <- & _)|[_ Hj]].
      * by eapply lok_unlink.
      * apply (lok_unlink w). by eapply Forall_lookup_1.
    + split; [done|]. by rewrite owners_unlink.
    + rewrite Hn in * by done. by apply Forall_insert.
    + done.
  - split_and!; simpl; [|done|].
    + apply Forall_insert; [done|]. apply (lok_unlink w). by eapply Forall_lookup_1.
    + rewrite (owners_insert _ _ _ _ _ Hk), own_unlink. lia.
Qed.

Lemma good_reachable s s' : good s → rtc (step prog) s s' → good s'.
Proof using own_unlink lok_unlink exec_ok. intros Hg. induction 1; eauto using good_step. Qed.
End invariant.

Lemma at_start_good own lok wok units w cs :
  (∀ c, pc c = 0%nat → own c = false) → (∀ c, pc c = 0%nat → link c = false → lok w c) →
  wok w → units w = 0 → at_start cs → good own lok wok units (mk_machine w cs).
Proof.
  intros Ho Hl Hw Hu Hs. split_and!; simpl; [|done|].
  - eapply Forall_impl; [exact Hs|]. naive_solver.
  - rewrite Hu. unfold owners. induction Hs as [|c cs [Hc _] _ IH]; [done|]. cbn. rewrite Ho by done. exact IH.
Qed.

(** ** The programs *)

Definition bit (w : Z) : Prop := w = 0 ∨ w = 1.

Definition i386_own (c : cpu) : bool :=
  match pc c with 1%nat => reg c =? 0 | 2%nat | 3%nat => true | _ => false end.

Definition mips_own (c : cpu) : bool :=
  match pc c with 6%nat => reg c =? 1 | 7%nat | 8%nat | 9%nat | 10%nat => true | 11%nat => reg c =? 0 | _ => false end.
Definition mips_ok (w : Z) (c : cpu) : Prop :=
  match pc c with
  | 1%nat => bit (reg c) ∧ (link c = true → reg c = w)
  | 2%nat => reg c = 1 ∧ (link c = true → w = 1)
  | 4%nat => reg c = 0 ∧ (link c = true → w = 0)
  | 5%nat => reg c = 1 ∧ (link c = true → w = 0)
  | 6%nat | 9%nat | 11%nat => bit (reg c)
  | 10%nat => reg c = 0
  | _ => True
  end.

Definition arm_own (c : cpu) : bool :=
  match pc c with 5%nat => ret c =? 0 | 6%nat | 7%nat | 8%nat | 9%nat => true | _ => false end.
Definition arm_ok (w : Z) (c : cpu) : Prop :=
  match pc c with
  | 1%nat => ret c = 1
  | 2%nat => ret c = 1 ∧ (link c = true → reg c = w)
  | 3%nat | 4%nat => ret c = 1 ∧ (flag c = true → link c = true → w = 0)
  | 5%nat => bit (ret c)
  | 8%nat => reg c = 1
  | 11%nat => False
  | _ => True
  end.

Definition sem_own (c : cpu) : bool :=
  match pc c with
  | 6%nat => ret c =? 0
  | 7%nat | 8%nat | 9%nat | 10%nat | 11%nat | 12%nat | 13%nat => true
  | 14%nat => ret c =? 1
  | _ => false
  end.
Definition sem_ok (limit : Z) (w : Z) (c : cpu) : Prop :=
  match pc c with
  | 1%nat | 9%nat => ret c = 1
  | 2%nat => ret c = 1 ∧ 0 ≤ reg c ≤ limit ∧ (link c = true → reg c = w)
  | 3%nat => ret c = 1 ∧ -1 ≤ reg c < limit ∧ (link c = true → reg c = w - 1)
  | 4%nat | 5%nat => ret c = 1 ∧ reg c < limit ∧ (flag c = true → 0 ≤ reg c) ∧ (link c = true → reg c = w - 1)
  | 6%nat => bit (ret c)
  | 10%nat => ret c = 1 ∧ 0 ≤ reg c < limit ∧ (link c = true → reg c = w)
  | 11%nat => ret c = 1 ∧ 1 ≤ reg c ≤ limit ∧ (link c = true → reg c = w + 1)
  | 12%nat | 13%nat => ret c = 1 ∧ flag c = true ∧ 1 ≤ reg c ≤ limit ∧ (link c = true → reg c = w + 1)
  | 14%nat => bit (ret c)
  | 15%nat => ret c = 0
  | 17%nat => False
  | _ => True
  end.

(** One instruction at a known program counter. *)
Ltac instr_case :=
  simpl in *; simplify_eq/=; unfold cond_store in *; simpl in *; unfold bit, ARM_STREX_SUCCESS, ARM_STREX_FAIL, ARM_STREX_CORRUPT in *;
  repeat (first
    [ progress simplify_eq/=
    | match goal with
      | H : _ ∧ _ |- _ => destruct H
      | H : true = true → _ |- _ => specialize (H eq_refl)
      | H : context [if ?b then _ else _] |- _ => destruct b eqn:?
      | |- context [if ?b then _ else _] => destruct b eqn:?
      | |- context [Z.eqb ?a ?b] => destruct (Z.eqb_spec a b)
      | H : context [Z.eqb ?a ?b] |- _ => destruct (Z.eqb_spec a b)
      | H : context [Z.leb ?a ?b] |- _ => destruct (Z.leb_spec a b)
      end ]);
  simpl in *; try (intuition lia).

Lemma i386_exec i c w c' w' wr :
  i386_lock !! pc c = Some i → True → bit w → Z.b2z (i386_own c) ≤ w →
  exec i c w = Some (c', w', wr) →
  True ∧ bit w' ∧ w' - Z.b2z (i386_own c') = w - Z.b2z (i386_own c) ∧ (wr = false → w' = w).
Proof.
  intros Hi _ Hw Ho Hx. destruct c as [p r t fl lk]. unfold i386_own in *.
  destruct p as [|[|[|[|[|p]]]]]; instr_case.
Qed.

Lemma mips_exec i c w c' w' wr :
  mips_lock !! pc c = Some i → mips_ok w c → bit w → Z.b2z (mips_own c) ≤ w →
  exec i c w = Some (c', w', wr) →
  mips_ok w' c' ∧ bit w' ∧ w' - Z.b2z (mips_own c') = w - Z.b2z (mips_own c) ∧ (wr = false → w' = w).
Proof.
  intros Hi Hl Hw Ho Hx. destruct c as [p r t fl lk]. unfold mips_own, mips_ok in *.
  destruct p as [|[|[|[|[|[|[|[|[|[|[|[|[|p]]]]]]]]]]]]]; instr_case.
  all: try (destruct Hl; subst; simpl; intuition lia).
Qed.

Lemma arm_exec i c w c' w' wr :
  arm_lock !! pc c = Some i → arm_ok w c → bit w → Z.b2z (arm_own c) ≤ w →
  exec i c w = Some (c', w', wr) →
  arm_ok w' c' ∧ bit w' ∧ w' - Z.b2z (arm_own c') = w - Z.b2z (arm_own c) ∧ (wr = false → w' = w).
Proof.
  intros Hi Hl Hw Ho Hx. destruct c as [p r t fl lk]. unfold arm_own, arm_ok in *.
  destruct p as [|[|[|[|[|[|[|[|[|[|[|[|p]]]]]]]]]]]]; instr_case.
Qed.

Lemma s32_id x : - 2 ^ 31 ≤ x < 2 ^ 31 → s32 x = x.
Proof. intros H. unfold s32. rewrite Z.mod_small by lia. lia. Qed.

Lemma sem_exec limit i c w c' w' wr :
  0 < limit < 2 ^ 31 →
  arm_semaphore limit !! pc c = Some i → sem_ok limit w c → 0 ≤ w ≤ limit →
  Z.b2z (sem_own c) ≤ limit - w → exec i c w = Some (c', w', wr) →
  sem_ok limit w' c' ∧ 0 ≤ w' ≤ limit ∧
  (limit - w') - Z.b2z (sem_own c') = (limit - w) - Z.b2z (sem_own c) ∧ (wr = false → w' = w).
Proof.
  intros Hlim Hi Hl Hw Ho Hx. destruct c as [p r t fl lk]. unfold sem_own, sem_ok in *.
  destruct p as [|[|[|[|[|[|[|[|[|[|[|[|[|[|[|[|[|[|p]]]]]]]]]]]]]]]]]]; instr_case.
  all: rewrite ?s32_id by lia; intuition lia.
Qed.

(** ** What the programs guarantee *)

(** No two processors are in their critical sections at once. *)
Definition exclusive (prog : list instr) (s : machine) : Prop :=
  ∀ j k c d, j ≠ k → cpus s !! j = Some c → cpus s !! k = Some d →
    ¬ (in_section prog c ∧ in_section prog d).

Lemma good_exclusive prog own lok s :
  (∀ c, in_section prog c → own c = true) → good own lok bit (λ w, w) s → exclusive prog s.
Proof.
  intros Hin (_ & Hw & Ho) j k c d Hne Hj Hk [Hc Hd].
  pose proof (owners_two own _ _ _ _ _ Hne Hj Hk (Hin _ Hc) (Hin _ Hd)). unfold bit in Hw. lia.
Qed.

Lemma i386_good cs s : at_start cs → rtc (step i386_lock) (mk_machine 0 cs) s →
  good i386_own (λ _ _, True) bit (λ w, w) s.
Proof.
  intros Hs. apply good_reachable; [by intros []|done|exact i386_exec|].
  apply at_start_good; [intros c Hc; unfold i386_own; by rewrite Hc|done|by left|done|done].
Qed.

Lemma mips_good cs s : at_start cs → rtc (step mips_lock) (mk_machine 0 cs) s →
  good mips_own mips_ok bit (λ w, w) s.
Proof.
  intros Hs. apply good_reachable; [by intros []| |exact mips_exec|].
  - intros w w' [p r t fl lk]. unfold mips_ok. simpl. do 12 (destruct p as [|p]; [naive_solver|]). done.
  - apply at_start_good; [intros c Hc; unfold mips_own; by rewrite Hc|intros c Hc; unfold mips_ok; by rewrite Hc|by left|done|done].
Qed.

Lemma arm_good cs s : at_start cs → rtc (step arm_lock) (mk_machine 0 cs) s →
  good arm_own arm_ok bit (λ w, w) s.
Proof.
  intros Hs. apply good_reachable; [by intros []| |exact arm_exec|].
  - intros w w' [p r t fl lk]. unfold arm_ok. simpl. do 12 (destruct p as [|p]; [naive_solver|]). done.
  - apply at_start_good; [intros c Hc; unfold arm_own; by rewrite Hc|intros c Hc; unfold arm_ok; by rewrite Hc|by left|done|done].
Qed.

Lemma sem_good limit cs s : 0 < limit < 2 ^ 31 → at_start cs →
  rtc (step (arm_semaphore limit)) (mk_machine limit cs) s →
  good sem_own (sem_ok limit) (λ w, 0 ≤ w ≤ limit) (λ w, limit - w) s.
Proof.
  intros Hlim Hs. apply good_reachable; [by intros []| |by intros; eapply sem_exec|].
  - intros w w' [p r t fl lk]. unfold sem_ok. simpl. do 18 (destruct p as [|p]; [naive_solver|]). done.
  - apply at_start_good; [intros c Hc; unfold sem_own; by rewrite Hc|intros c Hc; unfold sem_ok; by rewrite Hc|lia|lia|done].
Qed.

(** C10: whatever the number of processors and however their instructions
    interleave, with link bits lost at any time, at most one of them is between
    spin_lock() and spin_unlock(): with XCHG on i386, with LL/SC on MIPS and with
    LDREX/STREX on ARM, where spin_unlock() never reports a lock not owned. *)
Theorem spinlock_mutual_exclusion cs s :
  at_start cs →
  (rtc (step i386_lock) (mk_machine 0 cs) s → exclusive i386_lock s) ∧
  (rtc (step mips_lock) (mk_machine 0 cs) s → exclusive mips_lock s) ∧
  (rtc (step arm_lock) (mk_machine 0 cs) s → exclusive arm_lock s ∧ Forall (λ c, ¬ panicked arm_lock c) (cpus s)).
Proof.
  intros Hs. split_and!.
  - intros Hr. apply (good_exclusive _ i386_own (λ _ _, True)); [|by eapply i386_good].
    intros [p r t fl lk]. unfold in_section, i386_own. simpl. do 5 (destruct p as [|p]; [done|]). done.
  - intros Hr. apply (good_exclusive _ mips_own mips_ok); [|by eapply mips_good].
    intros [p r t fl lk]. unfold in_section, mips_own. simpl. do 13 (destruct p as [|p]; [done|]). done.
  - intros Hr. pose proof (arm_good _ _ Hs Hr) as Hg. split.
    + apply (good_exclusive _ arm_own arm_ok); [|done].
      intros [p r t fl lk]. unfold in_section, arm_own. simpl. do 12 (destruct p as [|p]; [done|]). done.
    + destruct Hg as (Hl & _). eapply Forall_impl; [exact Hl|].
      intros [p r t fl lk]. unfold panicked, arm_ok. simpl. do 12 (destruct p as [|p]; [tauto|]). tauto.
Qed.

(** C11: processors that bracket a section with semaphore_dec() and
    semaphore_inc() on a semaphore initialised to [limit]: its value stays between 0 and the
    limit, at most [limit] processors are in the section at once, and
    semaphore_inc() never reports an overflow. *)
Theorem semaphore_bounded limit cs s :
  0 < limit < 2 ^ 31 → at_start cs → rtc (step (arm_semaphore limit)) (mk_machine limit cs) s →
  0 ≤ word s ≤ limit ∧
  Z.of_nat (length (filter (in_section (arm_semaphore limit)) (cpus s))) ≤ limit ∧
  Forall (λ c, ¬ panicked (arm_semaphore limit) c) (cpus s).
Proof.
  intros Hlim Hs Hr. destruct (sem_good _ _ _ Hlim Hs Hr) as (Hl & Hw & Ho). split; [done|]. split.
  - assert (Z.of_nat (length (filter (in_section (arm_semaphore limit)) (cpus s))) ≤ owners sem_own (cpus s)); [|lia].
    clear. induction (cpus s) as [|c cs IH]; [done|]. rewrite filter_cons. unfold owners in *. simpl.
    assert (in_section (arm_semaphore limit) c → sem_own c = true) as Hc.
    { destruct c as [p r t fl lk]. unfold in_section, sem_own. simpl. do 18 (destruct p as [|p]; [done|]). done. }
    destruct (decide _) as [Hin|]; [rewrite (Hc Hin); simpl; lia|]. destruct (sem_own c); simpl; lia.
  - eapply Forall_impl; [exact Hl|].
    intros [p r t fl lk]. unfold panicked, sem_ok. simpl. do 18 (destruct p as [|p]; [tauto|]). tauto.
Qed.

(** ** Schedules *)

Definition exec_at (prog : list instr) (k : nat) (s : machine) : option machine :=
  c ← cpus s !! k;
  i ← prog !! pc c;
  '(c', w', wr) ← exec i c (word s);
  Some (mk_machine w' (if (wr : bool) then unlink <$> <[k := c']> (cpus s) else <[k := c']> (cpus s))).

Fixpoint run (prog : list instr) (sched : list nat) (s : machine) : option machine :=
  match sched with
  | [] => Some s
  | k :: sched => s' ← exec_at prog k s; run prog sched s'
  end.

Lemma exec_at_step prog k s s' : exec_at prog k s = Some s' → step prog s s'.
Proof.
  unfold exec_at. intros H. apply bind_Some in H as (c & Hc & H). apply bind_Some in H as (i & Hi & H).
  apply bind_Some in H as ([[c' w'] wr] & Hx & H). simplify_eq/=. destruct s as [w cs]. by eapply step_exec.
Qed.

Lemma run_steps prog sched s s' : run prog sched s = Some s' → rtc (step prog) s s'.
Proof.
  revert s. induction sched as [|k sched IH]; simpl; intros s H; [by simplify_eq|].
  apply bind_Some in H as (s1 & H1 & H). eapply rtc_l; [by eapply exec_at_step|by apply IH].
Qed.

(** One instruction of processor [k], seen from [k]. *)
Lemma run_cons prog k sched w cs c i c' w' wr :
  cs !! k = Some c → prog !! pc c = Some i → exec i c w = Some (c', w', wr) →
  ∃ cs', run prog (k :: sched) (mk_machine w cs) = run prog sched (mk_machine w' cs') ∧
    cs' !! k = Some (if (wr : bool) then unlink c' else c').
Proof.
  intros Hc Hi Hx. simpl. unfold exec_at. simpl. rewrite Hc. simpl. rewrite Hi. simpl. rewrite Hx. simpl.
  eexists. split; [reflexivity|]. apply lookup_lt_Some in Hc as Hlt.
  destruct wr; [|by apply list_lookup_insert_eq]. by rewrite list_lookup_fmap, list_lookup_insert_eq.
Qed.

Ltac run_next :=
  match goal with
  | Hc : ?cs !! ?k = Some _ |- context [run ?prog (?k :: ?sched) (mk_machine ?w ?cs)] =>
      let cs' := fresh "cs" in let E := fresh "E" in let Hc' := fresh "Hc" in
      destruct (run_cons prog k sched w cs _ _ _ _ _ Hc eq_refl eq_refl) as (cs' & E & Hc');
      rewrite E; clear E; cbn in Hc'; clear Hc
  end.

(** C12: a free lock can be taken and given back: whatever the other processors
    hold in their registers, a processor that runs undisturbed reaches its
    critical section after 2 instructions on i386, 5 on MIPS and 6 on ARM, and
    a few instructions later the lock is free again and the processor back at the start. *)
Theorem spinlock_progress s k c :
  word s = 0 → cpus s !! k = Some c → pc c = 0%nat →
  let ok prog n n' := ∃ s1 c1,
    run prog (replicate n k) s = Some s1 ∧ cpus s1 !! k = Some c1 ∧ in_section prog c1 ∧ ∃ s2 c2,
    run prog (replicate n' k) s1 = Some s2 ∧ word s2 = 0 ∧ cpus s2 !! k = Some c2 ∧ pc c2 = 0%nat in
  ok i386_lock 2%nat 3%nat ∧ ok mips_lock 5%nat 6%nat ∧ ok arm_lock 6%nat 5%nat.
Proof.
  intros Hw Hc Hp ok. destruct s as [w cs]. destruct c as [p r t fl lk]. simpl in Hw, Hc, Hp. subst p w. unfold ok; clear ok.
  split_and!; cbn [replicate]; repeat run_next.
  all: do 2 eexists; split; [reflexivity|]; split; [eassumption|]; split; [exact I|];
    repeat run_next; do 2 eexists; split_and!; [reflexivity|done|eassumption|done].
Qed.

(** ** Witnesses *)

Definition idle : cpu := mk_cpu 0 0 0 false false.
Definition two : list cpu := [idle; idle].

Lemma two_start : at_start two.
Proof. by repeat constructor. Qed.

(** Two processors race for the lock: the first wins, the second spins. *)
Definition race (n : nat) : list nat := concat (replicate n [0; 1]%nat).

Lemma run_is_some prog sched s : is_Some (run prog sched s) → ∃ s', run prog sched s = Some s' ∧ rtc (step prog) s s'.
Proof. intros [s' E]. exists s'. split; [done|]. by eapply run_steps. Qed.

Lemma race_runs :
  is_Some (run i386_lock (race 2) (mk_machine 0 two)) ∧ is_Some (run mips_lock (race 5) (mk_machine 0 two)) ∧
  is_Some (run arm_lock (race 6) (mk_machine 0 two)) ∧ is_Some (run (arm_semaphore 1) (race 8) (mk_machine 1 two)).
Proof. split_and!; eexists; by vm_compute. Qed.

Lemma spinlock_mutual_exclusion_witness :
  ∃ s1 s2 s3,
    (run i386_lock (race 2) (mk_machine 0 two) = Some s1 ∧ exclusive i386_lock s1) ∧
    (run mips_lock (race 5) (mk_machine 0 two) = Some s2 ∧ exclusive mips_lock s2) ∧
    (run arm_lock (race 6) (mk_machine 0 two) = Some s3 ∧ exclusive arm_lock s3).
Proof.
  destruct race_runs as (H1 & H2 & H3 & _).
  destruct (run_is_some _ _ _ H1) as (s1 & E1 & R1). destruct (run_is_some _ _ _ H2) as (s2 & E2 & R2).
  destruct (run_is_some _ _ _ H3) as (s3 & E3 & R3). exists s1, s2, s3.
  split; [|split]; (split; [assumption|]).
  - exact (proj1 (spinlock_mutual_exclusion two s1 two_start) R1).
  - exact (proj1 (proj2 (spinlock_mutual_exclusion two s2 two_start)) R2).
  - exact (proj1 (proj2 (proj2 (spinlock_mutual_exclusion two s3 two_start)) R3)).
Defined.

Lemma semaphore_bounded_witness :
  ∃ s, run (arm_semaphore 1) (race 8) (mk_machine 1 two) = Some s ∧ 0 ≤ word s ≤ 1.
Proof.
  destruct race_runs as (_ & _ & _ & H). destruct (run_is_some _ _ _ H) as (s & E & R). exists s.
  split; [assumption|]. exact (proj1 (semaphore_bounded 1 two s ltac:(lia) two_start R)).
Defined.

Lemma spinlock_progress_witness :
  ∃ s1, run arm_lock (replicate 6 1%nat) (mk_machine 0 two) = Some s1.
Proof.
  destruct (spinlock_progress (mk_machine 0 two) 1%nat idle eq_refl eq_refl eq_refl) as (_ & _ & s1 & _ & H & _).
  by exists s1.
Defined.
