(* ===== verification/Atomic.v ===== *)
(** include/arch/{i386,mips,armv7a}/atomic.h: the atomic counters, on the machine of
    Sync.v. Every processor runs one of the functions on the shared
    counter, any two of them interleaved instruction by instruction. *)
From Stdlib Require Import ZArith Lia.
From stdpp Require Import base numbers list relations.
From S2P Require Import Prelude Sync SyncProps.

Open Scope Z_scope.

(** i386: one locked instruction. *)
Definition i386_atomic_inc : list instr := [ LockAdd 1 ].
Definition i386_atomic_dec : list instr := [ LockAdd (-1) ].
(** atomic_add() and atomic_sub() of i386 and MIPS are empty. *)
Definition i386_atomic_add (val : Z) : list instr := [].
Definition i386_atomic_sub (val : Z) : list instr := [].
Definition mips_atomic_add (val : Z) : list instr := [].
Definition mips_atomic_sub (val : Z) : list instr := [].

(** MIPS: 1: ll; addu; sc; beqz 1b *)
Definition mips_atomic_inc : list instr := [ Ll; AddK 1; Sc; BReg (λ r, r =? 0) 0 ].
Definition mips_atomic_dec : list instr := [ Ll; AddK (-1); Sc; BReg (λ r, r =? 0) 0 ].

(** ARM: while (ret == ARM_STREX_FAIL) \{ ldrex; add; strex \} *)
Definition arm_atomic_add (val : Z) : list instr :=
  [ MovRet ARM_STREX_FAIL;
    BRet (λ r, negb (r =? ARM_STREX_FAIL)) 6; Ll; AddK val; Strex; Jump 1 ].
Definition arm_atomic_sub (val : Z) : list instr :=
  [ MovRet ARM_STREX_FAIL;
    BRet (λ r, negb (r =? ARM_STREX_FAIL)) 6; Ll; AddK (- val); Strex; Jump 1 ].
Definition arm_atomic_inc : list instr := arm_atomic_add 1.
Definition arm_atomic_dec : list instr := arm_atomic_sub 1.

(** A call of one of the functions; the inc and dec of ARM are add and sub of 1. *)
Inductive call : Type :=
  | I386_inc | I386_dec | Mips_inc | Mips_dec
  | Arm_add (val : Z) | Arm_sub (val : Z)
  | I386_add (val : Z) | I386_sub (val : Z) | Mips_add (val : Z) | Mips_sub (val : Z).

Definition code (o : call) : list instr :=
  match o with
  | I386_inc => i386_atomic_inc
  | I386_dec => i386_atomic_dec
  | Mips_inc => mips_atomic_inc
  | Mips_dec => mips_atomic_dec
  | Arm_add v => arm_atomic_add v
  | Arm_sub v => arm_atomic_sub v
  | I386_add v => i386_atomic_add v
  | I386_sub v => i386_atomic_sub v
  | Mips_add v => mips_atomic_add v
  | Mips_sub v => mips_atomic_sub v
  end.

(** What the comments of the headers say: counter++, counter--, counter += val, counter -= val. *)
Definition amount (o : call) : Z :=
  match o with
  | I386_inc | Mips_inc => 1
  | I386_dec | Mips_dec => -1
  | Arm_add v | I386_add v | Mips_add v => v
  | Arm_sub v | I386_sub v | Mips_sub v => - v
  end.

(** Does the function have a body? *)
Definition implemented (o : call) : bool := negb (bool_decide (length (code o) = 0%nat)).
(** What a call can do to the counter: the update of a function without a body is lost. *)
Definition effect (o : call) : Z := if implemented o then amount o else 0.

(** The counter and the processors, each with its call. *)
Record counting : Type := mk_counting { counter : Z; procs : list (call * cpu) }.

Definition lose (p : call * cpu) : call * cpu := (fst p, unlink (snd p)).

Inductive astep : counting → counting → Prop :=
  | astep_exec w ps k o c i c' w' wr :
      ps !! k = Some (o, c) → code o !! pc c = Some i → exec i c w = Some (c', w', wr) →
      astep (mk_counting w ps)
        (mk_counting w' (if (wr : bool) then lose <$> <[k := (o, c')]> ps else <[k := (o, c')]> ps))
  | astep_lose w ps k p :
      ps !! k = Some p → astep (mk_counting w ps) (mk_counting w (<[k := lose p]> ps)).

(** Processor [k] executes its next instruction, when it has one. *)
Definition turn (s : counting) (k : nat) : counting :=
  default s (
    p ← procs s !! k;
    i ← code (fst p) !! pc (snd p);
    r ← exec i (snd p) (counter s);
    let '(c', w', wr) := r in
    let ps := <[k := (fst p, c')]> (procs s) in
    Some (mk_counting w' (if (wr : bool) then lose <$> ps else ps))).

Definition begins (p : call * cpu) : Prop := pc (snd p) = 0%nat ∧ link (snd p) = false.
Definition finished (p : call * cpu) : Prop := pc (snd p) = length (code (fst p)).
#[global] Instance finished_dec p : Decision (finished p).
Proof. unfold finished. apply _. Defined.

(** * Properties *)

(** Has the call changed the counter? *)
Definition performed (p : call * cpu) : bool :=
  let '(o, c) := p in
  match o with
  | I386_inc | I386_dec => Nat.eqb (pc c) 1
  | Mips_inc | Mips_dec => match pc c with 3%nat => negb (reg c =? 0) | 4%nat => true | _ => false end
  | Arm_add _ | Arm_sub _ => match pc c with 1%nat | 5%nat => ret c =? 0 | 6%nat => true | _ => false end
  | I386_add _ | I386_sub _ | Mips_add _ | Mips_sub _ => false
  end.

(** What a processor with its link intact knows of the counter. *)
Definition proc_ok (w : Z) (p : call * cpu) : Prop :=
  let '(o, c) := p in
  match o with
  | I386_inc | I386_dec | I386_add _ | I386_sub _ | Mips_add _ | Mips_sub _ => True
  | Mips_inc | Mips_dec =>
      match pc c with
      | 1%nat => link c = true → reg c = w
      | 2%nat => link c = true → reg c = s32 (w + amount o)
      | 3%nat => bit (reg c)
      | _ => True
      end
  | Arm_add _ | Arm_sub _ =>
      match pc c with
      | 1%nat | 5%nat => bit (ret c)
      | 2%nat => ret c = 1
      | 3%nat => ret c = 1 ∧ (link c = true → reg c = w)
      | 4%nat => ret c = 1 ∧ (link c = true → reg c = s32 (w + amount o))
      | _ => True
      end
  end.

(** The counter modulo its width. *)
Definition eqm (x y : Z) : Prop := x mod 2 ^ 32 = y mod 2 ^ 32.

#[global] Instance eqm_equiv : Equivalence eqm.
Proof. split; unfold eqm; [intros x|intros x y|intros x y z]; congruence. Qed.
#[global] Instance add_eqm : Proper (eqm ==> eqm ==> eqm) Z.add.
Proof. intros x y Hx u v Hu. unfold eqm in *. by rewrite Z.add_mod, Hx, Hu, <-Z.add_mod by done. Qed.

Lemma s32_eqm x : eqm (s32 x) x.
Proof. unfold eqm, s32. rewrite Zminus_mod_idemp_l. f_equal. lia. Qed.

Definition total (ps : list (call * cpu)) : Z := sum_with (λ p, if performed p then amount (fst p) else 0) ps.

Lemma exec_ok o c w i c' w' wr :
  code o !! pc c = Some i → proc_ok w (o, c) → exec i c w = Some (c', w', wr) →
  proc_ok w' (o, c') ∧ (wr = false → w' = w) ∧
  eqm (w' + (if performed (o, c) then amount o else 0)) (w + (if performed (o, c') then amount o else 0)).
Proof.
  intros Hi Hp Hx. destruct c as [p r t fl lk].
  destruct o; unfold proc_ok, performed in *; simpl in Hi;
    [destruct p as [|p]|destruct p as [|p]|destruct p as [|[|[|[|p]]]]|destruct p as [|[|[|[|p]]]]|destruct p as [|[|[|[|[|[|p]]]]]]|
     destruct p as [|[|[|[|[|[|p]]]]]]|by destruct p..];
    instr_case.
  all: split_and?; intros; rewrite ?Z.add_0_r; first [done | apply s32_eqm | naive_solver].
Qed.

Lemma proc_ok_lose w w' p : proc_ok w p → proc_ok w' (lose p).
Proof.
  destruct p as [o [p r t fl lk]]. unfold lose, proc_ok. simpl.
  destruct o; (destruct p as [|[|[|[|[|[|p]]]]]]; simpl; naive_solver).
Qed.

Lemma performed_lose p : performed (lose p) = performed p.
Proof. by destruct p as [[] c]. Qed.

Lemma total_insert ps k p p' :
  ps !! k = Some p →
  total (<[k := p']> ps) + (if performed p then amount (fst p) else 0) = total ps + (if performed p' then amount (fst p') else 0).
Proof.
  intros Hk. rewrite <-(take_drop_middle ps k p Hk) at 2. rewrite (insert_take_drop _ _ _ (lookup_lt_Some _ _ _ Hk)).
  unfold total. rewrite !sum_with_app, !sum_with_cons. lia.
Qed.

Lemma total_lose ps : total (lose <$> ps) = total ps.
Proof. induction ps as [|p ps IH]; [done|]. unfold total in *. rewrite fmap_cons, !sum_with_cons, performed_lose, IH. done. Qed.

(** The counter holds its first value and what the performed calls added. *)
Definition counts (w0 : Z) (s : counting) : Prop :=
  Forall (proc_ok (counter s)) (procs s) ∧ eqm (counter s) (w0 + total (procs s)).

Lemma counts_step w0 s s' : counts w0 s → astep s s' → counts w0 s'.
Proof.
  intros Hg Hst. revert Hg. destruct Hst as [w ps k o c i c' w' wr Hk Hi Hx|w ps k p Hk]; intros [Hl Hw]; simpl in *.
  - assert (proc_ok w (o, c)) as Hc by (eapply Forall_lookup_1; [exact Hl|done]).
    destruct (exec_ok _ _ _ _ _ _ _ Hi Hc Hx) as (Hc' & Hn & He). pose proof (total_insert _ _ _ (o, c') Hk) as Ht. cbn [fst] in Ht.
    assert (eqm w' (w0 + total (<[k := (o, c')]> ps))) as Hsum.
    { clear -He Hw Ht. unfold eqm in *. change (2 ^ 32) with 4294967296 in *. Z.div_mod_to_equations. lia. }
    destruct wr; split; simpl; [|by rewrite total_lose|rewrite Hn in * by done; by apply Forall_insert|done].
    apply Forall_fmap, Forall_insert; [|by eapply proc_ok_lose].
    eapply Forall_impl; [exact Hl|]. intros x Hx'. by eapply proc_ok_lose.
  - split; simpl.
    + apply Forall_insert; [done|]. eapply proc_ok_lose. by eapply Forall_lookup_1.
    + pose proof (total_insert _ _ _ (lose p) Hk) as Ht. rewrite performed_lose in Ht. cbn [fst lose] in Ht.
      replace (total (<[k := lose p]> ps)) with (total ps) by lia. done.
Qed.

Lemma counts_reachable w0 s s' : counts w0 s → rtc astep s s' → counts w0 s'.
Proof. intros Hg. induction 1; eauto using counts_step. Qed.

Lemma begins_counts w ps : Forall begins ps → counts w (mk_counting w ps).
Proof.
  intros Hb. split; simpl.
  - eapply Forall_impl; [exact Hb|]. intros [o c] [Hp Hl]. unfold proc_ok. simpl in *. rewrite Hp. by destruct o.
  - assert (total ps = 0) as ->; [|by rewrite Z.add_0_r]. unfold total. induction Hb as [|[o c] ps [Hp _] _ IH]; [done|].
    rewrite sum_with_cons, IH. simpl in *. rewrite Hp. by destruct o.
Qed.

Lemma finished_performed p : finished p → performed p = implemented (fst p).
Proof. destruct p as [[] c]; unfold finished; simpl; intros E; by rewrite ?E. Qed.

Lemma begins_not_performed p : begins p → performed p = false.
Proof. destruct p as [[] c]; intros [Hp _]; simpl in *; by rewrite ?Hp. Qed.

(** The calls stay with their processors. *)
Lemma calls_reachable s s' : rtc astep s s' → fst <$> procs s' = fst <$> procs s.
Proof.
  induction 1 as [|s s1 s' Hst _ IH]; [done|]. rewrite IH. clear IH.
  assert (∀ ps : list (call * cpu), fst <$> (lose <$> ps) = fst <$> ps) as Hl.
  { intros ps. rewrite <-list_fmap_compose. by apply list_fmap_ext. }
  assert (∀ (ps : list (call * cpu)) k p p', ps !! k = Some p → fst p' = fst p → fst <$> <[k := p']> ps = fst <$> ps) as Hi.
  { intros ps k p p' Hk E. rewrite list_fmap_insert, E. apply list_insert_id. by rewrite list_lookup_fmap, Hk. }
  destruct Hst as [w ps k o c i c' w' wr Hk _ _|w ps k p Hk]; simpl; [destruct wr; simpl|]; rewrite ?Hl; by eapply Hi.
Qed.

Lemma turn_astep s k : rtc astep s (turn s k).
Proof.
  destruct s as [w ps]. unfold turn. simpl. destruct (ps !! k) as [[o c]|] eqn:Hk; simpl; [|done].
  destruct (code o !! pc c) as [i|] eqn:Hi; simpl; [|done].
  destruct (exec i c w) as [[[c' w'] wr]|] eqn:Hx; simpl; [|done].
  apply rtc_once. by eapply astep_exec.
Qed.

Lemma turns_astep ks s : rtc astep s (foldl turn s ks).
Proof. revert s. induction ks as [|k ks IH]; intros s; [done|]. simpl. etrans; [apply turn_astep|apply IH]. Qed.

(** What the turn does to the processor itself. *)
Definition alone (o : call) (cw : cpu * Z) : cpu * Z :=
  match code o !! pc (fst cw) ≫= λ i, exec i (fst cw) (snd cw) with
  | Some (c', w', wr) => (if (wr : bool) then unlink c' else c', w')
  | None => cw
  end.

Lemma turn_alone s k o c :
  procs s !! k = Some (o, c) →
  procs (turn s k) !! k = Some (o, fst (alone o (c, counter s))) ∧ counter (turn s k) = snd (alone o (c, counter s)).
Proof.
  destruct s as [w ps]. unfold turn, alone. simpl. intros Hk. rewrite Hk. simpl.
  destruct (code o !! pc c) as [i|]; simpl; [|done]. destruct (exec i c w) as [[[c' w'] wr]|]; simpl; [|done].
  pose proof (lookup_lt_Some _ _ _ Hk). destruct wr; simpl; (split; [|done]).
  - by rewrite list_lookup_fmap, list_lookup_insert_eq.
  - by rewrite list_lookup_insert_eq.
Qed.

Lemma turns_alone n s k o c :
  procs s !! k = Some (o, c) →
  procs (foldl turn s (replicate n k)) !! k = Some (o, fst (Nat.iter n (alone o) (c, counter s))) ∧
  counter (foldl turn s (replicate n k)) = snd (Nat.iter n (alone o) (c, counter s)).
Proof.
  revert s c. induction n as [|n IH]; intros s c Hk; [done|]. destruct (turn_alone s k o c Hk) as [H1 H2].
  cbn [replicate foldl]. destruct (IH _ _ H1) as [H3 H4]. rewrite Nat.iter_succ_r.
  rewrite H2 in H3, H4. by rewrite <-surjective_pairing in H3, H4.
Qed.

(** A processor that nobody disturbs for eight instructions finishes its call,
    and the counter has changed by its amount, if the function does anything at all. *)
Theorem atomic_progress s k p :
  procs s !! k = Some p → begins p →
  let s' := foldl turn s (replicate 8 k) in
  (∃ p', procs s' !! k = Some p' ∧ finished p') ∧ eqm (counter s') (counter s + effect (fst p)).
Proof.
  destruct p as [o [q r t fl lk]]. intros Hk [Hp Hl]. simpl in Hp, Hl. subst. cbn zeta.
  destruct (turns_alone 8 s k _ _ Hk) as [-> ->].
  split; [eexists; split; [done|]|]; destruct o; simpl; first [done | apply s32_eqm | by rewrite Z.add_0_r].
Qed.

(** C38: no update of an atomic counter by a function that has a body is lost: atomic_inc() and
    atomic_dec() of i386 and MIPS, and all four functions of ARM. However the
    processors interleave, and however often a conditional store fails, the counter is at every
    moment its first value plus the amounts of some of these calls, all of the
    finished ones among them and none that has not begun, modulo 2^32; when all have
    finished it is the sum. Every update by atomic_add() and atomic_sub() of i386 and
    MIPS is lost: they are empty, though their comments say counter += val and
    counter -= val, and their calls never count. *)
Theorem atomic_no_lost_update w ps s :
  Forall begins ps → rtc astep (mk_counting w ps) s →
  (∃ did : list bool,
     Forall2 (λ (d : bool) p, (finished p → d = implemented (fst p)) ∧ (begins p → d = false)) did (procs s) ∧
     eqm (counter s) (w + sum_with (λ x, if fst x : bool then amount (snd x) else 0) (zip did (fst <$> ps)))) ∧
  (Forall finished (procs s) → eqm (counter s) (w + sum_with amount (filter implemented (fst <$> ps)))) ∧
  (∀ o, implemented o = false ↔
     ∃ v, o = I386_add v ∨ o = I386_sub v ∨ o = Mips_add v ∨ o = Mips_sub v).
Proof.
  intros Hb Hr. destruct (counts_reachable w _ _ (begins_counts w ps Hb) Hr) as [_ He].
  apply calls_reachable in Hr. simpl in Hr. rewrite <-Hr. clear Hr Hb. unfold total in He. split_and!.
  - exists (performed <$> procs s). split.
    + apply Forall2_fmap_l, Forall_Forall2_diag, Forall_forall. intros p _.
      split; [apply finished_performed|apply begins_not_performed].
    + rewrite He. apply reflexive_eq. f_equal. clear. induction (procs s) as [|p l IH]; [done|].
      rewrite !fmap_cons. cbn [zip_with]. rewrite !sum_with_cons, IH. done.
  - intros Hf. rewrite He. apply reflexive_eq. f_equal. clear He. induction Hf as [|p l Hp _ IH]; [done|].
    rewrite fmap_cons, sum_with_cons, filter_cons, IH, finished_performed by done.
    case_decide as E; [|by destruct (implemented (fst p)); [destruct E|]].
    apply Is_true_eq_true in E. by rewrite sum_with_cons, E.
  - intros o. unfold implemented. split.
    + destruct o as [| | | | | |v|v|v|v]; [done..| | | |]; intros _; exists v; auto.
    + by intros (v & [-> |[-> |[-> | ->]]]).
Qed.

(** Two ARM processors add 5 and subtract 7: the first reads the counter before the second
    stores, so its conditional store fails and it starts over. *)
Lemma atomic_no_lost_update_witness :
  let ps := (λ o, (o, mk_cpu 0 0 0 false false)) <$> [Arm_add 5; Arm_sub 7] in
  let s := foldl turn (mk_counting 100 ps) (replicate 3 0%nat ++ replicate 8 1%nat ++ replicate 9 0%nat) in
  eqm (counter s) 98.
Proof.
  intros ps s. assert (Forall begins ps) as Hb by by repeat constructor.
  destruct (atomic_no_lost_update 100 ps s Hb (turns_astep _ _)) as (_ & H & _). apply H. apply (bool_decide_unpack _). by vm_compute.
Defined.

(** atomic_add() of i386 has finished before it begins. *)
Example i386_add_lost v w : finished (I386_add v, mk_cpu 0 0 0 false false) ∧
  ∀ s, rtc astep (mk_counting w [(I386_add v, mk_cpu 0 0 0 false false)]) s → eqm (counter s) w.
Proof.
  split; [done|]. intros s Hr. set (ps := [_]) in Hr.
  assert (Forall begins ps) as Hb by by repeat constructor.
  destruct (counts_reachable w _ _ (begins_counts w ps Hb) Hr) as [_ He]. rewrite He.
  apply calls_reachable in Hr. unfold ps in Hr. simpl in Hr. destruct (procs s) as [|[o c] [|? ?]]; simplify_eq/=.
  by rewrite Z.add_0_r.
Qed.
