(* ===== verification/Io.v ===== *)
(** Device access: include/arch/*/io.h and the port instructions of
    include/arch/i386/asm.h on an arbitrary device, and the two buses of drivers/io
    built on them.

    The hardware is a parameter: what a read returns and what any access does
    to the device is up to it. Every access is logged, so that what a driver
    does can be stated as the sequence of its accesses. *)
From Stdlib Require Import ZArith Lia.
From stdpp Require Import base numbers list.
From S2P Require Import Prelude AddrSpace Mmu.

Open Scope Z_scope.

(** Memory-mapped or port I/O. *)
Inductive space : Type := MEM | PORT.

(** An access of [w] bits at address [a]. *)
Inductive event : Type :=
  | Rd (sp : space) (w a v : Z)
  | Wr (sp : space) (w a v : Z).

Class hardware (H : Type) : Type := {
  hw_read : space → Z → Z → H → Z * H;
  hw_write : space → Z → Z → Z → H → H;
}.

(** Pointers to the two static struct bus_device, and the files whose
    __get_read_fp() and __get_write_fp() a bus may point to. *)
Inductive bus_ptr : Type := early_memory_bus | portio_bus.
Inductive bus_ops : Type := IO_MEM | IO_PORT.
#[global] Instance bus_ptr_eq_dec : EqDecision bus_ptr.
Proof. solve_decision. Defined.

(** A bus_read_fp or bus_write_fp: the routine of a file for a width. *)
Inductive bus_fp : Type := Fp (ops : bus_ops) (w : Z).

Record bus_device : Type := mk_bus {
  bus_parent : option bus_ptr;
  bus_base : Z;
  bus_get_read_fp : option bus_ops;
  bus_get_write_fp : option bus_ops
}.

Record chr_device : Type := mk_chr { chr_bus : option bus_ptr; chr_base : Z }.

(** The device, the log of accesses and the static variables of the drivers. *)
Record kstate (H : Type) : Type := mk_kstate {
  k_hw : H;
  k_log : list event;
  k_membus : bus_device;
  k_portbus : bus_device;
  k_uart : chr_device;
  k_kbd : chr_device;
  k_mapped_base : Z;
  k_putchar : Z;
  k_puts : Z;
  k_mmu : mmu_state
}.
Arguments mk_kstate {_}. Arguments k_hw {_}. Arguments k_log {_}. Arguments k_membus {_}.
Arguments k_portbus {_}. Arguments k_uart {_}. Arguments k_kbd {_}. Arguments k_mapped_base {_}.
Arguments k_putchar {_}. Arguments k_puts {_}. Arguments k_mmu {_}.

Section access.
Context {H : Type} `{hardware H}.

Definition kget : M (kstate H) (kstate H) := λ s, Ret (s, s).
Definition with_io (s : kstate H) (h : H) (l : list event) : kstate H :=
  mk_kstate h l (k_membus s) (k_portbus s) (k_uart s) (k_kbd s) (k_mapped_base s) (k_putchar s) (k_puts s) (k_mmu s).
Definition with_membus (s : kstate H) (b : bus_device) : kstate H :=
  mk_kstate (k_hw s) (k_log s) b (k_portbus s) (k_uart s) (k_kbd s) (k_mapped_base s) (k_putchar s) (k_puts s) (k_mmu s).
Definition with_portbus (s : kstate H) (b : bus_device) : kstate H :=
  mk_kstate (k_hw s) (k_log s) (k_membus s) b (k_uart s) (k_kbd s) (k_mapped_base s) (k_putchar s) (k_puts s) (k_mmu s).
Definition with_uart (s : kstate H) (u : chr_device) : kstate H :=
  mk_kstate (k_hw s) (k_log s) (k_membus s) (k_portbus s) u (k_kbd s) (k_mapped_base s) (k_putchar s) (k_puts s) (k_mmu s).
Definition with_kbd (s : kstate H) (u : chr_device) : kstate H :=
  mk_kstate (k_hw s) (k_log s) (k_membus s) (k_portbus s) (k_uart s) u (k_mapped_base s) (k_putchar s) (k_puts s) (k_mmu s).
Definition with_mapped_base (s : kstate H) (b : Z) : kstate H :=
  mk_kstate (k_hw s) (k_log s) (k_membus s) (k_portbus s) (k_uart s) (k_kbd s) b (k_putchar s) (k_puts s) (k_mmu s).
Definition with_console (s : kstate H) (pc ps : Z) : kstate H :=
  mk_kstate (k_hw s) (k_log s) (k_membus s) (k_portbus s) (k_uart s) (k_kbd s) (k_mapped_base s) pc ps (k_mmu s).
Definition with_mmu (s : kstate H) (x : mmu_state) : kstate H :=
  mk_kstate (k_hw s) (k_log s) (k_membus s) (k_portbus s) (k_uart s) (k_kbd s) (k_mapped_base s) (k_putchar s) (k_puts s) x.
Definition kput (f : kstate H → kstate H) : M (kstate H) unit := λ s, Ret ((), f s).

#[export] Program Instance kstate_has_mmu : HasMmu (kstate H) := {| mmu_of := k_mmu; put_mmu x s := with_mmu s x |}.
Next Obligation. done. Qed.
Next Obligation. by intros []. Qed.

(** ** Loads and stores of a device *)

Definition io_read (sp : space) (w a : Z) : M (kstate H) Z := λ s,
  let '(v, h) := hw_read sp w a (k_hw s) in
  let v := wrap w v in
  Ret (v, with_io s h (k_log s ++ [Rd sp w a v])).
Definition io_write (sp : space) (w a v : Z) : M (kstate H) unit := λ s,
  Ret ((), with_io s (hw_write sp w a (wrap w v) (k_hw s)) (k_log s ++ [Wr sp w a (wrap w v)])).

(** Which bus address a physical address is accessed at: itself on i386 and
    ARM, the uncached window on MIPS. *)
Context (iomap : Z → Z).

Definition read8 (addr : Z) : M (kstate H) Z := io_read MEM 8 (iomap addr).
Definition read16 (addr : Z) : M (kstate H) Z := io_read MEM 16 (iomap addr).
Definition read32 (addr : Z) : M (kstate H) Z := io_read MEM 32 (iomap addr).
Definition write8 (addr data : Z) : M (kstate H) unit := io_write MEM 8 (iomap addr) data.
Definition write16 (addr data : Z) : M (kstate H) unit := io_write MEM 16 (iomap addr) data.
Definition write32 (addr data : Z) : M (kstate H) unit := io_write MEM 32 (iomap addr) data.

(** The port is an unsigned short. The wide inputs have an unsigned char as
    the operand of the instruction, and so are inputs of one byte. *)
Definition inb (port : Z) : M (kstate H) Z := io_read PORT 8 (u16 port).
Definition inw (port : Z) : M (kstate H) Z := io_read PORT 8 (u16 port).
Definition ind (port : Z) : M (kstate H) Z := io_read PORT 8 (u16 port).
Definition outb (port data : Z) : M (kstate H) unit := io_write PORT 8 (u16 port) data.
Definition outw (port data : Z) : M (kstate H) unit := io_write PORT 16 (u16 port) data.
Definition outd (port data : Z) : M (kstate H) unit := io_write PORT 32 (u16 port) data.

(** do { v = rd; } while (!ready(v)); [n] bounds the number of reads. *)
Fixpoint poll (n : nat) (rd : M (kstate H) Z) (ready : Z → bool) : M (kstate H) Z :=
  match n with
  | O => nofuel
  | S n' => v ← rd; if ready v then mret v else poll n' rd ready
  end.

Definition get_bus (b : bus_ptr) : M (kstate H) bus_device :=
  s ← kget;
  mret (match b with early_memory_bus => k_membus s | portio_bus => k_portbus s end).

(** drivers/io/io-mem.c. Reads return the status and the buffer, [old] when it is
    left alone. *)
Definition mem_read (inst : bus_ptr) (w addr old : Z) : M (kstate H) (Z * Z) :=
  if decide (inst = early_memory_bus)
  then v ← io_read MEM w (iomap addr); mret (0, v)
  else mret (EOF, old).
Definition mem_write (inst : bus_ptr) (w addr val : Z) : M (kstate H) Z :=
  if decide (inst = early_memory_bus)
  then _ ← io_write MEM w (iomap addr) val; mret 0
  else mret EOF.

(** switch (data_width) *)
Definition width_ok (w : Z) : bool := (w =? 8) || (w =? 16) || (w =? 32).

Definition mem_get_fp (inst : bus_ptr) (data_width : Z) : option bus_fp :=
  if decide (inst = early_memory_bus) then
    if width_ok data_width then Some (Fp IO_MEM data_width) else None
  else None.

(** drivers/io/io-port.c *)
Definition port_get_fp (inst : bus_ptr) (data_width : Z) : option bus_fp :=
  if decide (inst = portio_bus) then
    if width_ok data_width then Some (Fp IO_PORT data_width) else None
  else None.

(** bus->get_read_fp(bus, w): the pointer must have been set. *)
Definition get_fp (ops : option bus_ops) (b : bus_ptr) (w : Z) : M (kstate H) (option bus_fp) :=
  match ops with
  | None => stuck
  | Some IO_MEM => mret (mem_get_fp b w)
  | Some IO_PORT => mret (port_get_fp b w)
  end.
Definition get_read_fp (b : bus_ptr) (w : Z) : M (kstate H) (option bus_fp) :=
  d ← get_bus b; get_fp (bus_get_read_fp d) b w.
Definition get_write_fp (b : bus_ptr) (w : Z) : M (kstate H) (option bus_fp) :=
  d ← get_bus b; get_fp (bus_get_write_fp d) b w.

(** A port is read with inb(), inw() or ind() according to the width. *)
Definition in_port (w addr : Z) : M (kstate H) Z :=
  if w =? 8 then inb addr else if w =? 16 then inw addr else ind addr.
Definition out_port (w addr val : Z) : M (kstate H) unit :=
  if w =? 8 then outb addr val else if w =? 16 then outw addr val else outd addr val.

(** A call through a bus_read_fp. A port bus connected to another bus
    passes the access on; [depth] bounds the chain of buses. *)
Fixpoint call_read (depth : nat) (fp : option bus_fp) (inst : bus_ptr) (addr old : Z) : M (kstate H) (Z * Z) :=
  match depth, fp with
  | _, None => stuck
  | _, Some (Fp IO_MEM w) => mem_read inst w addr old
  | O, _ => nofuel
  | S depth', Some (Fp IO_PORT w) =>
      d ← get_bus inst;
      match bus_parent d with
      | Some bus =>
          bus_read ← get_read_fp bus w;
          call_read depth' bus_read bus (u64 (bus_base d + addr)) old
      | None => v ← in_port w addr; mret (0, v)
      end
  end.

Fixpoint call_write (depth : nat) (fp : option bus_fp) (inst : bus_ptr) (addr val : Z) : M (kstate H) Z :=
  match depth, fp with
  | _, None => stuck
  | _, Some (Fp IO_MEM w) => mem_write inst w addr val
  | O, _ => nofuel
  | S depth', Some (Fp IO_PORT w) =>
      d ← get_bus inst;
      match bus_parent d with
      | Some bus =>
          bus_write ← get_write_fp bus w;
          call_write depth' bus_write bus (u64 (bus_base d + addr)) val
      | None => _ ← out_port w addr val; mret 0
      end
  end.

(** ** Setting the buses up *)

Definition set_bus (b : bus_ptr) (d : bus_device) : M (kstate H) unit :=
  kput (λ s, match b with early_memory_bus => with_membus s d | portio_bus => with_portbus s d end).

Definition portio_bus_connect (portio : bus_ptr) (bus : option bus_ptr) (base : Z) : M (kstate H) unit :=
  d ← get_bus portio;
  set_bus portio (mk_bus bus base (bus_get_read_fp d) (bus_get_write_fp d)).

(** Point a bus at the routines of a file. *)
Definition set_ops (b : bus_ptr) (ops : bus_ops) : M (kstate H) unit :=
  d ← get_bus b;
  set_bus b (mk_bus (bus_parent d) (bus_base d) (Some ops) (Some ops)).

Definition __portio_bus_init (portio : bus_ptr) : M (kstate H) unit := set_ops portio IO_PORT.
Definition port_jump_handler : M (kstate H) unit := __portio_bus_init portio_bus.
Definition mem_jump_handler : M (kstate H) unit := set_ops early_memory_bus IO_MEM.

(** [handler]: the address of the file's jump handler. A failed
    registration ends in an endless loop or a panic. *)
Definition portio_bus_init (portio : bus_ptr) (postmap : Z → Z) (handler : Z) : M (kstate H) unit :=
  _ ← __portio_bus_init portio;
  r ← in_mmu (jump_handlers_add (postmap handler));
  if negb (r =? 0) then panic else mret ().

Definition io_mem_init (memory_bus : bus_ptr) (postmap : Z → Z) (handler : Z) : M (kstate H) unit :=
  _ ← set_ops memory_bus IO_MEM;
  r ← in_mmu (jump_handlers_add (postmap handler));
  if negb (r =? 0) then panic else mret ().
End access.

(** iomap() of include/arch/mips/io.h, and the plain addresses of the others. *)
Definition mips_iomap (addr : Z) : Z := mips_space.TO_UNCAC (u32 addr).
Definition flat_iomap (addr : Z) : Z := u32 addr.

(** The routines of the two files by their names. *)
Module io_mem.
Section routines.
Context {H : Type} `{hardware H} (iomap : Z → Z).
Definition __read8 (inst : bus_ptr) (addr old : Z) : M (kstate H) (Z * Z) := mem_read iomap inst 8 addr old.
Definition __read16 (inst : bus_ptr) (addr old : Z) : M (kstate H) (Z * Z) := mem_read iomap inst 16 addr old.
Definition __read32 (inst : bus_ptr) (addr old : Z) : M (kstate H) (Z * Z) := mem_read iomap inst 32 addr old.
Definition __write8 (inst : bus_ptr) (addr val : Z) : M (kstate H) Z := mem_write iomap inst 8 addr val.
Definition __write16 (inst : bus_ptr) (addr val : Z) : M (kstate H) Z := mem_write iomap inst 16 addr val.
Definition __write32 (inst : bus_ptr) (addr val : Z) : M (kstate H) Z := mem_write iomap inst 32 addr val.
End routines.
End io_mem.

Module io_port.
Section routines.
Context {H : Type} `{hardware H} (iomap : Z → Z) (depth : nat).
Definition __read8 (inst : bus_ptr) (addr old : Z) : M (kstate H) (Z * Z) :=
  call_read iomap (S depth) (Some (Fp IO_PORT 8)) inst addr old.
Definition __write8 (inst : bus_ptr) (addr val : Z) : M (kstate H) Z :=
  call_write iomap (S depth) (Some (Fp IO_PORT 8)) inst addr val.
Definition __read16 (inst : bus_ptr) (addr old : Z) : M (kstate H) (Z * Z) :=
  call_read iomap (S depth) (Some (Fp IO_PORT 16)) inst addr old.
Definition __write16 (inst : bus_ptr) (addr val : Z) : M (kstate H) Z :=
  call_write iomap (S depth) (Some (Fp IO_PORT 16)) inst addr val.
Definition __read32 (inst : bus_ptr) (addr old : Z) : M (kstate H) (Z * Z) :=
  call_read iomap (S depth) (Some (Fp IO_PORT 32)) inst addr old.
Definition __write32 (inst : bus_ptr) (addr val : Z) : M (kstate H) Z :=
  call_write iomap (S depth) (Some (Fp IO_PORT 32)) inst addr val.
End routines.
End io_port.
