(* ===== verification/Uart.v ===== *)
(** drivers/serial: the NS16550, Zynq and MSIM serial drivers on their buses,
    and kern/dev/console.c, kern/debug/panic.c and drivers/serial/uart.c on top of
    them. *)
From Stdlib Require Import ZArith Lia String.
From stdpp Require Import base numbers list.
From S2P Require Import Prelude AddrSpace Mmu Io Printf.

Open Scope Z_scope.

(** Status loops give up after this many reads in the model. *)
Class patience : Type := PATIENCE : nat.
(** Buses are at most this deep: a port bus on top of the memory bus. *)
Definition BUS_DEPTH : nat := 2.

Section bus.
Context {H : Type} `{hardware H} (iomap : Z → Z).

(** inst->bus, which must not be NULL. *)
Definition bus_of (inst : chr_device) : M (kstate H) bus_ptr :=
  match chr_bus inst with Some b => mret b | None => stuck end.

(** bus_write8(bus, inst->base + reg, val), and the read into a buffer. *)
Definition reg_write (fp : option bus_fp) (inst : chr_device) (bus : bus_ptr) (reg val : Z) : M (kstate H) unit :=
  _ ← call_write iomap BUS_DEPTH fp bus (u64 (chr_base inst + reg)) val;
  mret ().
Definition reg_read (fp : option bus_fp) (inst : chr_device) (bus : bus_ptr) (reg old : Z) : M (kstate H) Z :=
  '(_, v) ← call_read iomap BUS_DEPTH fp bus (u64 (chr_base inst + reg)) old;
  mret v.

(** kern/dev/console.c: the two routines of the console. *)
Definition set_console (putchar puts : Z) : M (kstate H) unit := kput (λ s, with_console s putchar puts).
End bus.

Module ns16550.
Definition UART_BAUDRATE : Z := 115200.
Definition UART_RCV_BUFFER : Z := 0.
Definition UART_TRANS_HOLD : Z := 0.
Definition UART_INTR_ENABLE : Z := 1.
Definition UART_FIFO_CONTROL : Z := 2.
Definition UART_LINE_CONTROL : Z := 3.
Definition UART_MODEM_CONTROL : Z := 4.
Definition UART_LINE_STATUS : Z := 5.
Definition UART_DIVISOR_LSB : Z := 0.
Definition UART_DIVISOR_MSB : Z := 1.
Definition UART_IER_RBFI : Z := 0x01.
Definition UART_FCR_RTB_4 : Z := 0x40.
Definition UART_FCR_RST_TRANSMIT : Z := 0x04.
Definition UART_FCR_RST_RECEIVER : Z := 0x02.
Definition UART_FCR_ENABLE : Z := 0x01.
Definition UART_LCR_DLAB : Z := 0x80.
Definition UART_LCR_PARITY_NONE : Z := 0x00.
Definition UART_LCR_DATA_8BIT : Z := 0x3.
Definition UART_LCR_STOP_1BIT : Z := 0x0.
Definition UART_MCR_RTSC : Z := 0x02.
Definition UART_MCR_DTRC : Z := 0x01.
Definition UART_LSR_THRE : Z := 0x20.
Definition UART_LSR_DATA_READY : Z := 0x01.

Section driver.
Context {H : Type} `{hardware H} `{layout} `{patience} (iomap : Z → Z).
(** The platform's UART_FREQ and UART_BASE and the bus the UART is on. *)
Context (UART_FREQ UART_BASE : Z) (uart_bus : bus_ptr).
(** Addresses of functions: the handlers, the console routines. *)
Context (mmu_handler_p jump_handler_p putchar_p DEFAULT_KPUTS : Z) (postmap : Z → Z).

Definition __uart_ns16550_init (inst : chr_device) : M (kstate H) unit :=
  bus ← bus_of inst;
  bus_write8 ← get_write_fp bus 8;
  match bus_write8 with
  | None => mret ()
  | Some _ =>
      _ ← reg_write iomap bus_write8 inst bus UART_FIFO_CONTROL
            (Z.lor (Z.lor (Z.lor UART_FCR_RTB_4 UART_FCR_RST_TRANSMIT) UART_FCR_RST_RECEIVER) UART_FCR_ENABLE);
      _ ← reg_write iomap bus_write8 inst bus UART_LINE_CONTROL UART_LCR_DLAB;
      _ ← reg_write iomap bus_write8 inst bus UART_DIVISOR_LSB (Z.land (UART_FREQ / UART_BAUDRATE) 0xff);
      _ ← reg_write iomap bus_write8 inst bus UART_DIVISOR_MSB (Z.land (Z.shiftr (UART_FREQ / UART_BAUDRATE) 8) 0xff);
      reg_write iomap bus_write8 inst bus UART_LINE_CONTROL
        (Z.lor (Z.lor UART_LCR_DATA_8BIT UART_LCR_STOP_1BIT) UART_LCR_PARITY_NONE)
  end.

(** One register written, or nothing when the bus has no 8-bit writes. *)
Definition write_one (inst : chr_device) (reg val : Z) : M (kstate H) unit :=
  bus ← bus_of inst;
  bus_write8 ← get_write_fp bus 8;
  match bus_write8 with
  | None => mret ()
  | Some _ => reg_write iomap bus_write8 inst bus reg val
  end.

Definition __uart_ns16550_enable (inst : chr_device) : M (kstate H) unit :=
  write_one inst UART_MODEM_CONTROL (Z.lor UART_MCR_RTSC UART_MCR_DTRC).
Definition __uart_ns16550_disable (inst : chr_device) : M (kstate H) unit :=
  write_one inst UART_MODEM_CONTROL 0.
Definition __uart_ns16550_enable_interrupt (inst : chr_device) : M (kstate H) unit :=
  write_one inst UART_INTR_ENABLE UART_IER_RBFI.
Definition __uart_ns16550_disable_interrupt (inst : chr_device) : M (kstate H) unit :=
  write_one inst UART_INTR_ENABLE 0.

Definition __uart_ns16550_getchar (inst : chr_device) : M (kstate H) Z :=
  bus ← bus_of inst;
  bus_read8 ← get_read_fp bus 8;
  match bus_read8 with
  | None => mret 0
  | Some _ =>
      buf ← poll PATIENCE (reg_read iomap bus_read8 inst bus UART_LINE_STATUS 0)
              (λ buf, negb (Z.land buf UART_LSR_DATA_READY =? 0));
      buf ← reg_read iomap bus_read8 inst bus UART_RCV_BUFFER buf;
      mret (u8 buf)
  end.

Definition __uart_ns16550_putchar (inst : chr_device) (c : Z) : M (kstate H) Z :=
  bus ← bus_of inst;
  bus_read8 ← get_read_fp bus 8;
  bus_write8 ← get_write_fp bus 8;
  match bus_read8, bus_write8 with
  | Some _, Some _ =>
      _ ← poll PATIENCE (reg_read iomap bus_read8 inst bus UART_LINE_STATUS 0)
            (λ buf, negb (Z.land buf UART_LSR_THRE =? 0));
      _ ← reg_write iomap bus_write8 inst bus UART_TRANS_HOLD (u8 c);
      mret 0
  | _, _ => mret EOF
  end.

Definition early_console_putchar (c : Z) : M (kstate H) Z :=
  s ← kget;
  _ ← __uart_ns16550_putchar (k_uart s) c;
  mret 0.

Definition __mmu_handler : M (kstate H) unit := kput (λ s, with_uart s (mk_chr (chr_bus (k_uart s)) UART_BASE)).
Definition __early_console_init_bus : M (kstate H) unit :=
  kput (λ s, with_uart s (mk_chr (Some uart_bus) (chr_base (k_uart s)))).
Definition __jump_handler : M (kstate H) unit :=
  _ ← __early_console_init_bus; set_console putchar_p DEFAULT_KPUTS.

Definition early_console_init : M (kstate H) Z :=
  _ ← __early_console_init_bus;
  s ← kget;
  _ ← __uart_ns16550_init (k_uart s);
  _ ← __uart_ns16550_enable (k_uart s);
  _ ← set_console putchar_p DEFAULT_KPUTS;
  r ← in_mmu (mmu_handlers_add mmu_handler_p);
  if negb (r =? 0) then panic else
  r ← in_mmu (jump_handlers_add (postmap jump_handler_p));
  if negb (r =? 0) then panic else
  mret 0.
End driver.
End ns16550.

Module zynq.
Definition UART0_PHYSBASE : Z := 0xE0000000.
Definition UART1_PHYSBASE : Z := 0xE0001000.
Definition UART_BASE : Z := UART1_PHYSBASE.
Definition UART_OFFSET_CR : Z := 0x00.
Definition UART_OFFSET_MR : Z := 0x04.
Definition UART_OFFSET_IDR : Z := 0x0C.
Definition UART_OFFSET_ISR : Z := 0x14.
Definition UART_OFFSET_BAUDGEN : Z := 0x18.
Definition UART_OFFSET_RXTOUT : Z := 0x1C.
Definition UART_OFFSET_RXWM : Z := 0x20.
Definition UART_OFFSET_SR : Z := 0x2C.
Definition UART_OFFSET_FIFO : Z := 0x30.
Definition UART_OFFSET_BAUDDIV : Z := 0x34.
Definition UART_OFFSET_TXWM : Z := 0x44.
Definition UART_CR_STOPBRK : Z := 0x0100.
Definition UART_CR_TX_DIS : Z := 0x0020.
Definition UART_CR_TX_EN : Z := 0x0010.
Definition UART_CR_RX_DIS : Z := 0x0008.
Definition UART_CR_RX_EN : Z := 0x0004.
Definition UART_CR_TXRST : Z := 0x0002.
Definition UART_CR_RXRST : Z := 0x0001.
Definition UART_MR_CHMODE_NORM : Z := 0x00000000.
Definition UART_MR_STOPMODE_1_BIT : Z := 0x00000000.
Definition UART_MR_PARITY_NONE : Z := 0x00000020.
Definition UART_MR_CHARLEN_8_BIT : Z := 0x00000000.
Definition UART_IXR_MASK : Z := 0x00001FFF.
Definition UART_SR_RXEMPTY : Z := 0x0002.
Definition UART_SR_TXFULL : Z := 0x0010.
Definition UART_RXTOUT_DISABLE : Z := 0x00000000.
Definition UART_RXWM_RESET_VAL : Z := 0x00000020.
Definition UART_TXWM_RESET_VAL : Z := 0x00000020.

Section driver.
Context {H : Type} `{hardware H} `{layout} `{patience} (iomap : Z → Z).
Context (mmu_handler_p jump_handler_p putchar_p DEFAULT_KPUTS : Z) (postmap : Z → Z).

(** The drivers of this file call the bus routine without checking it. *)
Definition __uart_zynq_enable (inst : chr_device) : M (kstate H) unit :=
  bus ← bus_of inst;
  bus_write32 ← get_write_fp bus 32;
  reg_write iomap bus_write32 inst bus UART_OFFSET_CR (Z.lor UART_CR_TX_EN UART_CR_RX_EN).

Definition __uart_zynq_disable (inst : chr_device) : M (kstate H) unit :=
  bus ← bus_of inst;
  bus_write32 ← get_write_fp bus 32;
  reg_write iomap bus_write32 inst bus UART_OFFSET_CR (Z.lor UART_CR_TX_DIS UART_CR_RX_DIS).

Definition __uart_zynq_init (inst : chr_device) : M (kstate H) unit :=
  bus ← bus_of inst;
  bus_write32 ← get_write_fp bus 32;
  (* disable interrupts *)
  _ ← reg_write iomap bus_write32 inst bus UART_OFFSET_IDR UART_IXR_MASK;
  (* disable TX and RX *)
  _ ← __uart_zynq_disable inst;
  (* reset TX and RX, clear FIFO *)
  _ ← reg_write iomap bus_write32 inst bus UART_OFFSET_CR (Z.lor UART_CR_TXRST UART_CR_RXRST);
  (* clear flags *)
  _ ← reg_write iomap bus_write32 inst bus UART_OFFSET_ISR UART_IXR_MASK;
  (* mode reset to normal/8-N-1 *)
  _ ← reg_write iomap bus_write32 inst bus UART_OFFSET_MR
        (Z.lor (Z.lor (Z.lor UART_MR_CHMODE_NORM UART_MR_CHARLEN_8_BIT) UART_MR_PARITY_NONE) UART_MR_STOPMODE_1_BIT);
  (* trigger reset *)
  _ ← reg_write iomap bus_write32 inst bus UART_OFFSET_RXWM UART_RXWM_RESET_VAL;
  _ ← reg_write iomap bus_write32 inst bus UART_OFFSET_TXWM UART_TXWM_RESET_VAL;
  (* disable RX timeout *)
  _ ← reg_write iomap bus_write32 inst bus UART_OFFSET_RXTOUT UART_RXTOUT_DISABLE;
  (* baud rate generator and divider for 115200 *)
  _ ← reg_write iomap bus_write32 inst bus UART_OFFSET_BAUDGEN 0x3E;
  _ ← reg_write iomap bus_write32 inst bus UART_OFFSET_BAUDDIV 0x06;
  (* set CR value *)
  reg_write iomap bus_write32 inst bus UART_OFFSET_CR (Z.lor (Z.lor UART_CR_RX_DIS UART_CR_TX_DIS) UART_CR_STOPBRK).

Definition __uart_zynq_getchar (inst : chr_device) : M (kstate H) Z :=
  bus ← bus_of inst;
  bus_read8 ← get_read_fp bus 8;
  bus_read32 ← get_read_fp bus 32;
  tmp ← poll PATIENCE (reg_read iomap bus_read32 inst bus UART_OFFSET_SR 0)
          (λ tmp, Z.land tmp UART_SR_RXEMPTY =? 0);
  tmp ← reg_read iomap bus_read8 inst bus UART_OFFSET_FIFO tmp;
  mret (u8 tmp).

Definition __uart_zynq_putchar (inst : chr_device) (c : Z) : M (kstate H) Z :=
  bus ← bus_of inst;
  bus_read32 ← get_read_fp bus 32;
  bus_write8 ← get_write_fp bus 8;
  _ ← poll PATIENCE (reg_read iomap bus_read32 inst bus UART_OFFSET_SR 0)
        (λ tmp, Z.land tmp UART_SR_TXFULL =? 0);
  _ ← reg_write iomap bus_write8 inst bus UART_OFFSET_FIFO (u8 c);
  mret 0.

(** The bare-metal driver. *)
Definition uart_init : M (kstate H) unit :=
  _ ← kput (λ s, with_uart s (mk_chr (Some early_memory_bus) (chr_base (k_uart s))));
  s ← kget; __uart_zynq_init (k_uart s).
Definition uart_enable : M (kstate H) unit := s ← kget; __uart_zynq_enable (k_uart s).
Definition uart_disable : M (kstate H) unit := s ← kget; __uart_zynq_disable (k_uart s).
Definition uart_getchar : M (kstate H) Z := s ← kget; __uart_zynq_getchar (k_uart s).
Definition uart_putchar (c : Z) : M (kstate H) Z := s ← kget; _ ← __uart_zynq_putchar (k_uart s) c; mret 0.

(** The kernel driver. *)
Definition __early_console_putchar (c : Z) : M (kstate H) Z :=
  s ← kget; _ ← __uart_zynq_putchar (k_uart s) c; mret 0.
Definition __mmu_handler : M (kstate H) unit :=
  kput (λ s, with_uart s (mk_chr (chr_bus (k_uart s)) (k_mapped_base s))).
Definition __jump_handler : M (kstate H) unit :=
  _ ← kput (λ s, with_uart s (mk_chr (Some early_memory_bus) (chr_base (k_uart s))));
  set_console putchar_p DEFAULT_KPUTS.

Definition early_console_init : M (kstate H) Z :=
  _ ← kput (λ s, with_uart s (mk_chr (Some early_memory_bus) UART_BASE));
  s ← kget;
  _ ← __uart_zynq_init (k_uart s);
  _ ← __uart_zynq_enable (k_uart s);
  _ ← set_console putchar_p DEFAULT_KPUTS;
  base ← in_mmu (early_mapping_add_kmmap UART0_PHYSBASE (Z.shiftl 1 20));
  _ ← kput (λ s, with_mapped_base s base);
  if base =? 0 then panic else
  _ ← kput (λ s, with_mapped_base s (u32 (base + (UART_BASE - UART0_PHYSBASE))));
  r ← in_mmu (mmu_handlers_add mmu_handler_p);
  if negb (r =? 0) then panic else
  r ← in_mmu (jump_handlers_add (postmap jump_handler_p));
  if negb (r =? 0) then panic else
  mret 0.
End driver.
End zynq.

Module msim.
Section driver.
Context {H : Type} `{hardware H} `{layout} `{patience} (iomap : Z → Z).
Context (mmu_handler_p jump_handler_p putchar_p DEFAULT_KPUTS : Z) (postmap : Z → Z).

Definition __uart_msim_init (lp kbd : chr_device) : M (kstate H) unit := mret ().

Definition __uart_msim_putchar (lp : chr_device) (c : Z) : M (kstate H) Z :=
  bus ← bus_of lp;
  bus_write8 ← get_write_fp bus 8;
  _ ← reg_write iomap bus_write8 lp bus 0 (u8 c);
  mret 0.

(** A key is there as soon as the register is not zero. *)
Definition __uart_msim_getchar (kbd : chr_device) : M (kstate H) Z :=
  bus ← bus_of kbd;
  bus_read8 ← get_read_fp bus 8;
  b ← poll PATIENCE (reg_read iomap bus_read8 kbd bus 0 0) (λ b, negb (b =? 0));
  mret (u8 b).

Definition set_buses : M (kstate H) unit :=
  _ ← kput (λ s, with_uart s (mk_chr (Some early_memory_bus) (chr_base (k_uart s))));
  kput (λ s, with_kbd s (mk_chr (Some early_memory_bus) (chr_base (k_kbd s)))).

Definition uart_init : M (kstate H) unit :=
  _ ← set_buses; s ← kget; __uart_msim_init (k_uart s) (k_kbd s).
Definition uart_enable : M (kstate H) unit := mret ().
Definition uart_disable : M (kstate H) unit := mret ().
Definition uart_getchar : M (kstate H) Z := s ← kget; __uart_msim_getchar (k_kbd s).
Definition uart_putchar (c : Z) : M (kstate H) Z := s ← kget; __uart_msim_putchar (k_uart s) c.

Definition early_console_putchar (c : Z) : M (kstate H) Z :=
  s ← kget; _ ← __uart_msim_putchar (k_uart s) c; mret 0.
Definition __mmu_handler : M (kstate H) unit := mret ().
Definition __jump_handler : M (kstate H) unit := mret ().

Definition early_console_init : M (kstate H) Z :=
  _ ← set_buses;
  s ← kget;
  _ ← __uart_msim_init (k_uart s) (k_kbd s);
  _ ← set_console putchar_p DEFAULT_KPUTS;
  r ← in_mmu (mmu_handlers_add mmu_handler_p);
  if negb (r =? 0) then panic else
  r ← in_mmu (jump_handlers_add (postmap jump_handler_p));
  if negb (r =? 0) then panic else
  mret 0.
End driver.
End msim.

(** ** Console output *)

Definition ch_cr : Z := 13.
Definition ch_lf : Z := 10.

Section console.
Context {H : Type} `{hardware H} `{layout}.
(** What runs at a code address: the driver's putchar(). *)
Context (call_putchar : Z → Z → M (kstate H) Z).
(** get_addr_space(), and the conversions of function addresses. *)
Context (get_addr_space : Z) (premap_addr postmap_addr : Z → Z) (DEFAULT_KPUTS : Z).

(** Adjust a registered function pointer to the address space in use. *)
Definition in_space (fp : Z) : Z :=
  if get_addr_space =? 0 then (if fp >=? KERN_BASE then premap_addr fp else fp)
  else if get_addr_space =? 1 then (if fp <? KERN_BASE then postmap_addr fp else fp)
  else NULL.

Definition __get_kputchar : M (kstate H) Z := s ← kget; mret (in_space (k_putchar s)).
Definition __get_kputs : M (kstate H) Z := s ← kget; mret (in_space (k_puts s)).

Definition kputchar (c : Z) : M (kstate H) Z :=
  putchar ← __get_kputchar;
  if putchar =? NULL then mret EOF else call_putchar putchar (u8 c).

(** for (; *s != 0; ++s); the string ends at its NUL. *)
Fixpoint puts_loop (putchar : Z) (str : list Z) : M (kstate H) unit :=
  match str with
  | [] => mret ()
  | c :: str =>
      if c =? 0 then mret () else
      _ ← (if c =? ch_lf then _ ← call_putchar putchar ch_cr; mret () else mret ());
      _ ← call_putchar putchar (u8 c);
      puts_loop putchar str
  end.

Definition __kputs (str : list Z) : M (kstate H) Z :=
  putchar ← __get_kputchar;
  if putchar =? NULL then mret EOF else
  _ ← puts_loop putchar str;
  mret 0.

Definition __default_kputs (str : list Z) : M (kstate H) Z := __kputs str.

(** The console's puts routine is DEFAULT_KPUTS in every driver, at its address
    in the space in use. *)
Definition call_puts (fp : Z) (str : list Z) : M (kstate H) Z :=
  if fp =? in_space DEFAULT_KPUTS then __default_kputs str else stuck.

Definition kputs (str : list Z) : M (kstate H) Z :=
  puts ← __get_kputs;
  if puts =? NULL then mret EOF else call_puts puts str.

Definition BUFSIZ : Z := 1024.

Definition kprintf (fmt : list Z) (args : list arg) : M (kstate H) Z :=
  match vsnprintf BUFSIZ fmt args with
  | None => stuck
  | Some (result, printf_buf) => _ ← kputs printf_buf; mret result
  end.

(** __panic() never returns. *)
Definition __panic {A} : M (kstate H) A := panic.

Definition kpanic {A} (fmt : list Z) (args : list arg) : M (kstate H) A :=
  match vsnprintf BUFSIZ fmt args with
  | None => stuck
  | Some (result, buf) =>
      _ ← kputs (bytes "----- KERNEL PANIC -----" ++ [ch_lf; 0]);
      _ ← (if result >=? BUFSIZ then _ ← kputs (bytes "PANIC: message is truncated." ++ [0]); mret () else mret ());
      _ ← kputs buf;
      __panic
  end.
End console.

(** uart_puts() of the bare-metal drivers, without and with CONSOLE_NEED_CR. *)
Section raw.
Context {H : Type} (uart_putchar : Z → M (kstate H) Z) (CONSOLE_NEED_CR : bool).

Fixpoint uart_puts (str : list Z) : M (kstate H) Z :=
  match str with
  | [] => mret 0
  | c :: str =>
      if c =? 0 then mret 0 else
      _ ← (if CONSOLE_NEED_CR && (c =? ch_lf) then _ ← uart_putchar ch_cr; mret () else mret ());
      _ ← uart_putchar (u8 c);
      uart_puts str
  end.
End raw.
