(* ===== verification/UartProps.v ===== *)
(** What the serial drivers and the console do on the wire, for any device
    that gets ready in time. *)
From Stdlib Require Import ZArith Lia String.
From stdpp Require Import base numbers list.
From S2P Require Import Prelude AddrSpace Mmu Io Printf Uart.

Open Scope Z_scope.

Section io.
Context {H : Type} `{HW : hardware H}.

(** ** Polling *)

(** Does the register answer [ready] within [n] reads? *)
Fixpoint ready_within (n : nat) (sp : space) (w a : Z) (ready : Z → bool) (h : H) : bool :=
  match n with
  | O => false
  | S n => ready (wrap w (hw_read sp w a h).1) || ready_within n sp w a ready (hw_read sp w a h).2
  end.

(** The accesses of a status loop: reads that say no, then one that says yes. *)
Definition polled (sp : space) (w a : Z) (ready : Z → bool) (vs : list Z) (v : Z) : list event :=
  (Rd sp w a <$> vs) ++ [Rd sp w a v].
Definition answers (ready : Z → bool) (vs : list Z) (v : Z) : Prop :=
  Forall (λ x, ready x = false) vs ∧ ready v = true.

Lemma with_io_twice (s : kstate H) h l h' l' : with_io (with_io s h l) h' l' = with_io s h' l'.
Proof. done. Qed.

Lemma io_read_run sp w a (s : kstate H) :
  io_read sp w a s =
    Ret (wrap w (hw_read sp w a (k_hw s)).1,
         with_io s (hw_read sp w a (k_hw s)).2 (k_log s ++ [Rd sp w a (wrap w (hw_read sp w a (k_hw s)).1)])).
Proof. unfold io_read. by destruct (hw_read sp w a (k_hw s)). Qed.

(** [h'] is where reading one register takes the device from [h]. *)
Definition reads_to (sp : space) (w a : Z) (h h' : H) : Prop :=
  ∀ P : H → Prop, P h → (∀ h, P h → P (hw_read sp w a h).2) → P h'.

Lemma poll_io n sp w a ready (s : kstate H) :
  ready_within n sp w a ready (k_hw s) = true →
  ∃ vs v h, poll n (io_read sp w a) ready s = Ret (v, with_io s h (k_log s ++ polled sp w a ready vs v)) ∧
    answers ready vs v ∧ reads_to sp w a (k_hw s) h.
Proof.
  revert s. induction n as [|n IH]; intros s Hr; [done|]. cbn [poll ready_within] in *.
  erewrite bind_ret by apply io_read_run. destruct (ready (wrap w _)) eqn:Ev; simpl in Hr.
  - exists [], (wrap w (hw_read sp w a (k_hw s)).1). eexists. split_and!; [done|by split|]. intros P HP HC. by apply HC.
  - destruct (IH (with_io s (hw_read sp w a (k_hw s)).2
      (k_log s ++ [Rd sp w a (wrap w (hw_read sp w a (k_hw s)).1)]))) as (vs & v & h & E & [Hv1 Hv2] & Hh); [done|].
    rewrite E. exists (wrap w (hw_read sp w a (k_hw s)).1 :: vs), v, h. split_and!.
    + rewrite with_io_twice. unfold polled. simpl. by rewrite <-app_assoc.
    + split; [by constructor|done].
    + intros P HP HC. apply Hh; [by apply HC|done].
Qed.

Lemma poll_never n sp w a ready (s : kstate H) :
  ready_within n sp w a ready (k_hw s) = false → poll n (io_read sp w a) ready s = NoFuel.
Proof.
  revert s. induction n as [|n IH]; intros s Hr; [done|]. cbn [poll ready_within] in *.
  apply orb_false_iff in Hr as [Hr1 Hr2]. erewrite bind_ret by apply io_read_run. rewrite Hr1. by apply IH.
Qed.

(** Two ways to read a register that agree while the buses stay as they are. *)
Definition same_buses (s s' : kstate H) : Prop :=
  k_membus s' = k_membus s ∧ k_portbus s' = k_portbus s.

Lemma poll_ext n sp w a (rd : M (kstate H) Z) ready (s : kstate H) :
  (∀ s', same_buses s s' → rd s' = io_read sp w a s') → poll n rd ready s = poll n (io_read sp w a) ready s.
Proof.
  revert s. induction n as [|n IH]; intros s Hrd; [done|]. cbn [poll].
  unfold mbind, M_bind. rewrite Hrd by done. rewrite io_read_run. destruct (ready _); [done|].
  apply IH. intros s' Hs'. by apply Hrd.
Qed.

(** ** Routing on the buses *)

Context (iomap : Z → Z).

(** A bus is ready for use, and takes addresses to the given space. *)
Inductive wired (s : kstate H) : bus_ptr → bus_ops → space → (Z → Z) → Prop :=
  | wired_mem :
      bus_get_read_fp (k_membus s) = Some IO_MEM → bus_get_write_fp (k_membus s) = Some IO_MEM →
      wired s early_memory_bus IO_MEM MEM iomap
  | wired_port :
      bus_get_read_fp (k_portbus s) = Some IO_PORT → bus_get_write_fp (k_portbus s) = Some IO_PORT →
      bus_parent (k_portbus s) = None →
      wired s portio_bus IO_PORT PORT u16
  | wired_bridge :
      bus_get_read_fp (k_portbus s) = Some IO_PORT → bus_get_write_fp (k_portbus s) = Some IO_PORT →
      bus_parent (k_portbus s) = Some early_memory_bus →
      bus_get_read_fp (k_membus s) = Some IO_MEM → bus_get_write_fp (k_membus s) = Some IO_MEM →
      wired s portio_bus IO_PORT MEM (λ a, iomap (u64 (bus_base (k_portbus s) + a))).

Lemma wired_same s s' b ops sp f : same_buses s s' → wired s b ops sp f → wired s' b ops sp f.
Proof.
  intros [Em Ep] Hw. destruct Hw; [apply wired_mem; by rewrite Em|apply wired_port; by rewrite Ep|].
  rewrite <-Ep. apply wired_bridge; by rewrite ?Em, ?Ep.
Qed.

Lemma get_write_fp_run s b ops sp f w :
  wired s b ops sp f → width_ok w = true → get_write_fp b w s = Ret (Some (Fp ops w), s).
Proof.
  intros Hw Hok. unfold get_write_fp, get_bus, kget, mbind, M_bind, mret, M_ret.
  destruct Hw as [_ E|_ E _|_ E _ _ _]; rewrite E; unfold get_fp, mem_get_fp, port_get_fp;
    rewrite Hok; done.
Qed.

Lemma get_read_fp_run s b ops sp f w :
  wired s b ops sp f → width_ok w = true → get_read_fp b w s = Ret (Some (Fp ops w), s).
Proof.
  intros Hw Hok. unfold get_read_fp, get_bus, kget, mbind, M_bind, mret, M_ret.
  destruct Hw as [E _|E _ _|E _ _ _ _]; rewrite E; unfold get_fp, mem_get_fp, port_get_fp;
    rewrite Hok; done.
Qed.

(** A write through the bus is one write of the device. *)
Lemma call_write_run s b ops sp f w a v :
  wired s b ops sp f → width_ok w = true →
  call_write iomap BUS_DEPTH (Some (Fp ops w)) b a v s =
    Ret (0, with_io s (hw_write sp w (f a) (wrap w v) (k_hw s)) (k_log s ++ [Wr sp w (f a) (wrap w v)])).
Proof.
  intros Hw Hok. unfold BUS_DEPTH. destruct Hw as [E1 E2|E1 E2 E3|E1 E2 E3 E4 E5]; simpl; [done| |].
  - unfold get_bus, kget, mbind, M_bind, mret, M_ret. rewrite E3. unfold out_port.
    unfold width_ok in Hok. apply orb_true_iff in Hok as [Hok|Hok]; [apply orb_true_iff in Hok as [Hok|Hok]|];
      apply Z.eqb_eq in Hok as ->; done.
  - unfold get_bus, kget, mbind, M_bind, mret, M_ret. rewrite E3.
    unfold get_write_fp, get_bus, kget, mbind, M_bind, mret, M_ret. rewrite E5.
    unfold get_fp, mem_get_fp. rewrite Hok. done.
Qed.

(** A byte read through the bus is one read of the device, and so is a wider one
    where the memory bus carries it. *)
Lemma call_read_run s b ops sp f w a old :
  wired s b ops sp f → width_ok w = true → w = 8 ∨ sp = MEM →
  call_read iomap BUS_DEPTH (Some (Fp ops w)) b a old s = (v ← io_read sp w (f a); mret (0, v)) s.
Proof.
  intros Hw Hok H8. unfold BUS_DEPTH. destruct Hw as [E1 E2|E1 E2 E3|E1 E2 E3 E4 E5]; simpl; [done| |].
  - destruct H8 as [->|]; [|done]. unfold get_bus, kget, mbind, M_bind, mret, M_ret. rewrite E3. done.
  - unfold get_bus, kget, mbind, M_bind, mret, M_ret. rewrite E3.
    unfold get_read_fp, get_bus, kget, mbind, M_bind, mret, M_ret. rewrite E4.
    unfold get_fp, mem_get_fp. rewrite Hok. done.
Qed.

Lemma reg_read_run s b ops sp f w inst reg old :
  wired s b ops sp f → width_ok w = true → w = 8 ∨ sp = MEM →
  reg_read iomap (Some (Fp ops w)) inst b reg old s = io_read sp w (f (u64 (chr_base inst + reg))) s.
Proof.
  intros Hw Hok H8. unfold reg_read, mbind, M_bind. rewrite (call_read_run s b ops sp f) by done.
  unfold mbind, M_bind. by rewrite io_read_run.
Qed.

Lemma reg_write_run s b ops sp f w inst reg v :
  wired s b ops sp f → width_ok w = true →
  reg_write iomap (Some (Fp ops w)) inst b reg v s =
    Ret ((), with_io s (hw_write sp w (f (u64 (chr_base inst + reg))) (wrap w v) (k_hw s))
               (k_log s ++ [Wr sp w (f (u64 (chr_base inst + reg))) (wrap w v)])).
Proof. intros Hw Hok. unfold reg_write. by erewrite bind_ret by by eapply call_write_run. Qed.

Lemma poll_reg n s b ops sp f w inst reg ready :
  wired s b ops sp f → width_ok w = true → w = 8 ∨ sp = MEM →
  poll n (reg_read iomap (Some (Fp ops w)) inst b reg 0) ready s =
    poll n (io_read sp w (f (u64 (chr_base inst + reg)))) ready s.
Proof.
  intros Hw Hok H8. apply poll_ext. intros s' Hs'.
  eapply reg_read_run; [by eapply wired_same|done|done].
Qed.
End io.

(** ** One character *)

Definition ns16550_thre (v : Z) : bool := negb (Z.land v ns16550.UART_LSR_THRE =? 0).
Definition ns16550_dr (v : Z) : bool := negb (Z.land v ns16550.UART_LSR_DATA_READY =? 0).
Definition zynq_room (v : Z) : bool := Z.land v zynq.UART_SR_TXFULL =? 0.

Section putchar.
Context {H : Type} `{HW : hardware H} `{PT : patience} (iomap : Z → Z).

Lemma log_assoc (l1 l2 l3 : list event) : l1 ++ l2 ++ l3 = (l1 ++ l2) ++ l3.
Proof. apply app_assoc. Qed.

Lemma u8_idem c : wrap 8 (u8 c) = u8 c.
Proof. apply Z.mod_mod. done. Qed.

Lemma ns16550_putchar_run s inst b ops sp f c :
  wired iomap s b ops sp f → chr_bus inst = Some b →
  ready_within PATIENCE sp 8 (f (u64 (chr_base inst + ns16550.UART_LINE_STATUS))) ns16550_thre (k_hw s) = true →
  ∃ vs v h, ns16550.__uart_ns16550_putchar iomap inst c s =
      Ret (0, with_io s h (k_log s ++ polled sp 8 (f (u64 (chr_base inst + ns16550.UART_LINE_STATUS))) ns16550_thre vs v
                             ++ [Wr sp 8 (f (u64 (chr_base inst + ns16550.UART_TRANS_HOLD))) (u8 c)])) ∧
    answers ns16550_thre vs v.
Proof.
  intros Hw Hb Hr. unfold ns16550.__uart_ns16550_putchar, bus_of. rewrite Hb.
  erewrite bind_ret by done. erewrite bind_ret by by eapply get_read_fp_run.
  erewrite bind_ret by by eapply get_write_fp_run. cbv iota.
  destruct (poll_io _ _ _ _ _ s Hr) as (vs & v & h & E & Ha & _). exists vs, v. eexists. split; [|exact Ha].
  erewrite bind_ret; [|erewrite poll_reg; [exact E|exact Hw|done|by left]].
  erewrite bind_ret by (eapply reg_write_run; [eapply wired_same; [|exact Hw]; done|done]).
  rewrite with_io_twice, u8_idem. cbn [k_log with_io]. by rewrite <-app_assoc.
Qed.

Lemma zynq_putchar_run s inst b ops f c :
  wired iomap s b ops MEM f → chr_bus inst = Some b →
  ready_within PATIENCE MEM 32 (f (u64 (chr_base inst + zynq.UART_OFFSET_SR))) zynq_room (k_hw s) = true →
  ∃ vs v h, zynq.__uart_zynq_putchar iomap inst c s =
      Ret (0, with_io s h (k_log s ++ polled MEM 32 (f (u64 (chr_base inst + zynq.UART_OFFSET_SR))) zynq_room vs v
                             ++ [Wr MEM 8 (f (u64 (chr_base inst + zynq.UART_OFFSET_FIFO))) (u8 c)])) ∧
    answers zynq_room vs v ∧
    ∃ h1, reads_to MEM 32 (f (u64 (chr_base inst + zynq.UART_OFFSET_SR))) (k_hw s) h1 ∧
      h = hw_write MEM 8 (f (u64 (chr_base inst + zynq.UART_OFFSET_FIFO))) (u8 c) h1.
Proof.
  intros Hw Hb Hr. unfold zynq.__uart_zynq_putchar, bus_of. rewrite Hb.
  erewrite bind_ret by done. erewrite bind_ret by by eapply get_read_fp_run.
  erewrite bind_ret by by eapply get_write_fp_run.
  destruct (poll_io _ _ _ _ _ s Hr) as (vs & v & h & E & Ha & Hh). exists vs, v. eexists. split; [|split; [exact Ha|exists h; split; [exact Hh|reflexivity]]].
  erewrite bind_ret; [|erewrite poll_reg; [exact E|exact Hw|done|by right]].
  erewrite bind_ret by (eapply reg_write_run; [eapply wired_same; [|exact Hw]; done|done]).
  rewrite with_io_twice, u8_idem. cbn [k_log with_io]. by rewrite <-app_assoc.
Qed.

Lemma msim_putchar_run s inst b ops sp f c :
  wired iomap s b ops sp f → chr_bus inst = Some b →
  ∃ h, msim.__uart_msim_putchar iomap inst c s =
    Ret (0, with_io s h (k_log s ++ [Wr sp 8 (f (u64 (chr_base inst + 0))) (u8 c)])).
Proof.
  intros Hw Hb. unfold msim.__uart_msim_putchar, bus_of. rewrite Hb. eexists.
  erewrite bind_ret by done. erewrite bind_ret by by eapply get_write_fp_run.
  erewrite bind_ret by by eapply reg_write_run. by rewrite u8_idem.
Qed.

(** Printing a character on the NS16550 or the Zynq UART, whatever bus it
    is on: the driver reads the status register until the device has room and
    only then writes the character, once, to the transmit register, and
    touches nothing else. A device that never has room makes it wait for ever. *)
Theorem uart_putchar_trace s inst b ops sp f c :
  wired iomap s b ops sp f → chr_bus inst = Some b →
  let at_reg r := f (u64 (chr_base inst + r)) in
  let status := ready_within PATIENCE sp in
  (status 8 (at_reg ns16550.UART_LINE_STATUS) ns16550_thre (k_hw s) = true →
   ∃ vs v h, answers ns16550_thre vs v ∧
     ns16550.__uart_ns16550_putchar iomap inst c s =
       Ret (0, with_io s h (k_log s ++ polled sp 8 (at_reg ns16550.UART_LINE_STATUS) ns16550_thre vs v
                              ++ [Wr sp 8 (at_reg ns16550.UART_TRANS_HOLD) (u8 c)]))) ∧
  (status 8 (at_reg ns16550.UART_LINE_STATUS) ns16550_thre (k_hw s) = false →
   ns16550.__uart_ns16550_putchar iomap inst c s = NoFuel) ∧
  (sp = MEM → status 32 (at_reg zynq.UART_OFFSET_SR) zynq_room (k_hw s) = true →
   ∃ vs v h, answers zynq_room vs v ∧
     zynq.__uart_zynq_putchar iomap inst c s =
       Ret (0, with_io s h (k_log s ++ polled MEM 32 (at_reg zynq.UART_OFFSET_SR) zynq_room vs v
                              ++ [Wr MEM 8 (at_reg zynq.UART_OFFSET_FIFO) (u8 c)]))).
Proof.
  intros Hw Hb at_reg status. split_and!.
  - intros Hr. destruct (ns16550_putchar_run s inst b ops sp f c Hw Hb Hr) as (vs & v & h & ? & ?). eauto 6.
  - intros Hr. unfold ns16550.__uart_ns16550_putchar, bus_of. rewrite Hb.
    erewrite bind_ret by done. erewrite bind_ret by by eapply get_read_fp_run.
    erewrite bind_ret by by eapply get_write_fp_run. cbv iota. unfold mbind, M_bind.
    erewrite poll_reg; [|exact Hw|done|by left]. by rewrite poll_never.
  - intros -> Hr. destruct (zynq_putchar_run s inst b ops f c Hw Hb Hr) as (vs & v & h & ? & ? & _). eauto 6.
Qed.
End putchar.

(** ** The console against any driver *)

(** What a serial driver promises the console: in a state it likes, a
    character goes out and nothing else does. *)
Class ConsoleDriver {H : Type} (putchar : Z → M (kstate H) Z) : Type := {
  drv_ok : kstate H → Prop;
  drv_out : kstate H → list Z;
  drv_putchar s c : drv_ok s → 0 ≤ c < 256 →
    ∃ h l, putchar c s = Ret (0, with_io s h (k_log s ++ l)) ∧ drv_ok (with_io s h (k_log s ++ l)) ∧
      drv_out (with_io s h (k_log s ++ l)) = drv_out s ++ [c];
}.

(** The text up to its NUL, and how a terminal wants it. *)
Fixpoint c_text (str : list Z) : list Z :=
  match str with
  | [] => []
  | c :: str => if c =? 0 then [] else c :: c_text str
  end.
Fixpoint crlf (str : list Z) : list Z :=
  match str with
  | [] => []
  | c :: str => (if c =? ch_lf then [ch_cr; c] else [c]) ++ crlf str
  end.

(** Literal texts are bytes. *)
Lemma is_bytes (l : list Z) : forallb (λ c, (0 <=? c) && (c <? 256)) l = true → Forall (λ c, 0 ≤ c < 256) l.
Proof.
  induction l as [|c l IH]; simpl; [done|]. intros [[Hc Hc']%andb_prop Hl]%andb_prop. constructor; [lia|by apply IH].
Qed.

Section console.
Context {H : Type} `{HW : hardware H} `{LY : layout}.
Context {putchar : Z → M (kstate H) Z} `{DRV : !ConsoleDriver putchar}.
Context (call_putchar : Z → Z → M (kstate H) Z).
Context (get_addr_space : Z) (premap_addr postmap_addr : Z → Z) (DEFAULT_KPUTS : Z).

Local Abbreviation in_space := (in_space get_addr_space premap_addr postmap_addr).
Local Abbreviation kputs := (kputs call_putchar get_addr_space premap_addr postmap_addr DEFAULT_KPUTS).
Local Abbreviation kprintf := (kprintf call_putchar get_addr_space premap_addr postmap_addr DEFAULT_KPUTS).

(** The driver is registered, and its address in the space in use runs it. *)
Record registered (s : kstate H) : Prop := {
  reg_ok : drv_ok s;
  reg_puts : k_puts s = DEFAULT_KPUTS;
  reg_not_null : in_space DEFAULT_KPUTS ≠ NULL ∧ in_space (k_putchar s) ≠ NULL;
  reg_call c : call_putchar (in_space (k_putchar s)) c = putchar c;
}.

Lemma puts_loop_run s p str :
  drv_ok s → (∀ c, call_putchar p c = putchar c) → Forall (λ c, 0 ≤ c < 256) str →
  ∃ h l, puts_loop call_putchar p str s = Ret ((), with_io s h (k_log s ++ l)) ∧
    drv_ok (with_io s h (k_log s ++ l)) ∧ drv_out (with_io s h (k_log s ++ l)) = drv_out s ++ crlf (c_text str).
Proof.
  intros Hok Hp Hs. revert s Hok. induction Hs as [|c str Hc Hs IH]; intros s Hok; simpl.
  { exists (k_hw s), []. rewrite !app_nil_r. by destruct s. }
  destruct (Z.eqb_spec c 0) as [->|Hc0].
  { exists (k_hw s), []. rewrite !app_nil_r. by destruct s. }
  assert (Hu : u8 c = c) by by apply Z.mod_small.
  assert (Hone : ∀ s, drv_ok s → ∃ h l, (_ ← call_putchar p (u8 c); puts_loop call_putchar p str) s =
      Ret ((), with_io s h (k_log s ++ l)) ∧ drv_ok (with_io s h (k_log s ++ l)) ∧
      drv_out (with_io s h (k_log s ++ l)) = drv_out s ++ c :: crlf (c_text str)).
  { clear s Hok. intros s Hok. destruct (drv_putchar s c Hok Hc) as (h1 & l1 & E1 & O1 & D1).
    destruct (IH _ O1) as (h2 & l2 & E2 & O2 & D2). exists h2, (l1 ++ l2).
    erewrite bind_ret by (rewrite Hu, Hp; exact E1). rewrite E2, with_io_twice. cbn [k_log with_io] in *.
    rewrite with_io_twice in O2, D2. rewrite (app_assoc (k_log s)). split; [done|]. split; [done|].
    rewrite D2, D1, <-app_assoc. done. }
  destruct (Z.eqb_spec c ch_lf) as [->|Hlf].
  - destruct (drv_putchar s ch_cr Hok) as (h1 & l1 & E1 & O1 & D1); [by vm_compute|].
    destruct (Hone _ O1) as (h2 & l2 & E2 & O2 & D2). exists h2, (l1 ++ l2).
    erewrite bind_ret; [|erewrite bind_ret by (rewrite Hp; exact E1); reflexivity].
    cbn beta. rewrite E2, with_io_twice. cbn [k_log with_io] in *.
    rewrite with_io_twice in O2, D2. rewrite (app_assoc (k_log s)). split; [done|]. split; [done|].
    rewrite D2, D1, <-app_assoc. done.
  - erewrite bind_ret by reflexivity. cbn [crlf]. rewrite (proj2 (Z.eqb_neq _ _) Hlf). by apply Hone.
Qed.

Lemma kputs_run s str :
  registered s → Forall (λ c, 0 ≤ c < 256) str →
  ∃ h l, kputs str s = Ret (0, with_io s h (k_log s ++ l)) ∧ registered (with_io s h (k_log s ++ l)) ∧
    drv_out (with_io s h (k_log s ++ l)) = drv_out s ++ crlf (c_text str).
Proof.
  intros [Hok Hps [Hn1 Hn2] Hcall] Hs. unfold Uart.kputs, __get_kputs.
  erewrite bind_ret by (erewrite bind_ret by reflexivity; reflexivity). rewrite Hps.
  rewrite (proj2 (Z.eqb_neq _ _) Hn1). unfold call_puts. rewrite Z.eqb_refl.
  unfold __default_kputs, __kputs, __get_kputchar.
  erewrite bind_ret by (erewrite bind_ret by reflexivity; reflexivity).
  rewrite (proj2 (Z.eqb_neq _ _) Hn2).
  destruct (puts_loop_run s _ str Hok Hcall Hs) as (h & l & E & Hok' & D). exists h, l.
  erewrite bind_ret by exact E. split; [done|]. by split.
Qed.

Lemma kprintf_run s fmt args :
  registered s → well_typed fmt Text args = true → Forall is_byte fmt → Forall arg_bytes args →
  ∃ ret buf h l, vsnprintf BUFSIZ fmt args = Some (ret, buf) ∧
    kprintf fmt args s = Ret (ret, with_io s h (k_log s ++ l)) ∧ registered (with_io s h (k_log s ++ l)) ∧
    drv_out (with_io s h (k_log s ++ l)) = drv_out s ++ crlf (c_text buf).
Proof.
  intros Hreg Hw Hf Ha. destruct (vformat_total BUFSIZ fmt Text 0 0 args (Run []) Hw) as [o Eo].
  assert (∃ ret buf, vsnprintf BUFSIZ fmt args = Some (ret, buf)) as (ret & buf & Ev)
    by (unfold vsnprintf; rewrite Eo; destruct o; eauto).
  destruct (kputs_run s buf Hreg) as (h & l & E & Hreg' & D); [by eapply vsnprintf_bytes|].
  exists ret, buf, h, l. split; [done|]. split; [|done]. unfold Uart.kprintf. rewrite Ev.
  by erewrite bind_ret by exact E.
Qed.

(** panic() says what it has to say and does not come back. *)
Lemma kpanic_run {A} s fmt args :
  registered s → well_typed fmt Text args = true → Forall is_byte fmt → Forall arg_bytes args →
  kpanic (A := A) call_putchar get_addr_space premap_addr postmap_addr DEFAULT_KPUTS fmt args s = Panic.
Proof.
  intros Hreg Hw Hf Ha. destruct (kprintf_run s fmt args Hreg Hw Hf Ha) as (ret & buf & _ & _ & Ev & _).
  unfold kpanic. rewrite Ev.
  assert (Hsay : ∀ str s, registered s → Forall (λ c, 0 ≤ c < 256) str → ∃ s', kputs str s = Ret (0, s') ∧ registered s').
  { intros str s0 H0 Hs. destruct (kputs_run s0 str H0 Hs) as (h & l & E & H1 & _). eauto. }
  destruct (Hsay (bytes "----- KERNEL PANIC -----" ++ [ch_lf; 0]) s Hreg) as (s1 & E1 & H1); [by apply is_bytes|].
  erewrite bind_ret by exact E1. destruct (ret >=? BUFSIZ).
  - destruct (Hsay (bytes "PANIC: message is truncated." ++ [0]) s1 H1) as (s2 & E2 & H2); [by apply is_bytes|].
    erewrite bind_ret by (erewrite bind_ret by exact E2; reflexivity).
    destruct (Hsay buf s2 H2) as (s3 & E3 & _); [by eapply vsnprintf_bytes|]. by erewrite bind_ret by exact E3.
  - erewrite bind_ret by reflexivity.
    destruct (Hsay buf s1 H1) as (s3 & E3 & _); [by eapply vsnprintf_bytes|]. by erewrite bind_ret by exact E3.
Qed.

(** C26: with any serial driver registered that keeps its promise, kprintf()
    formats the message into its 1024-byte buffer, puts out exactly its text
    with every line feed preceded by a carriage return, in order and nothing else,
    and returns what vsnprintf() returned. *)
Theorem kprintf_output s fmt args :
  registered s → well_typed fmt Text args = true → Forall is_byte fmt → Forall arg_bytes args →
  ∃ ret buf h l, vsnprintf BUFSIZ fmt args = Some (ret, buf) ∧
    kprintf fmt args s = Ret (ret, with_io s h (k_log s ++ l)) ∧
    drv_out (with_io s h (k_log s ++ l)) = drv_out s ++ crlf (c_text buf).
Proof.
  intros Hreg Hw Hf Ha. destruct (kprintf_run s fmt args Hreg Hw Hf Ha) as (ret & buf & h & l & ? & ? & _ & ?).
  by exists ret, buf, h, l.
Qed.
End console.

(** ** The drivers keep the promise *)

#[global] Instance space_eq_dec : EqDecision space.
Proof. solve_decision. Defined.

(** The bytes written to one register. *)
Definition written (sp : space) (a : Z) (l : list event) : list Z :=
  omap (λ e, match e with
             | Wr sp' 8 a' v => if decide (sp' = sp ∧ a' = a) then Some v else None
             | _ => None
             end) l.

Lemma written_app sp a l1 l2 : written sp a (l1 ++ l2) = written sp a l1 ++ written sp a l2.
Proof. apply omap_app. Qed.

Lemma written_reads sp a sp' w a' vs : written sp a (Rd sp' w a' <$> vs) = [].
Proof. by induction vs. Qed.

Lemma written_polled sp a sp' w a' ready vs v : written sp a (polled sp' w a' ready vs v) = [].
Proof. unfold polled. by rewrite written_app, written_reads. Qed.

Lemma written_one sp a v : written sp a [Wr sp 8 a v] = [v].
Proof. unfold written. simpl. by rewrite decide_True. Qed.

Section instances.
Context {H : Type} `{HW : hardware H} `{PT : patience} (iomap : Z → Z).
Context (b : bus_ptr) (ops : bus_ops) (sp : space) (f : Z → Z) (base : Z).

(** The UART at [base] of a ready bus, and a device that always makes room in time. *)
Definition uart_at (s : kstate H) : Prop := k_uart s = mk_chr (Some b) base ∧ wired iomap s b ops sp f.

#[export] Program Instance ns16550_console : ConsoleDriver (ns16550.early_console_putchar (H := H) iomap) := {|
  drv_ok s := uart_at s ∧
    ∀ h, ready_within PATIENCE sp 8 (f (u64 (base + ns16550.UART_LINE_STATUS))) ns16550_thre h = true;
  drv_out s := written sp (f (u64 (base + ns16550.UART_TRANS_HOLD))) (k_log s);
|}.
Next Obligation.
  intros s c [[Eu Hw] Hr] Hc. unfold ns16550.early_console_putchar. erewrite bind_ret by reflexivity.
  destruct (ns16550_putchar_run iomap s (k_uart s) b ops sp f c Hw) as (vs & v & h & E & _); [by rewrite Eu|by rewrite Eu|].
  rewrite Eu in E. cbn [chr_base] in E. exists h. eexists. split; [|split].
  - erewrite bind_ret by (rewrite Eu; exact E). reflexivity.
  - split; [|done]. split; [done|]. by eapply wired_same; [|exact Hw].
  - cbn [k_log with_io]. rewrite !written_app, written_polled, written_one. simpl. do 2 f_equal. by apply Z.mod_small.
Qed.

#[export] Program Instance msim_console : ConsoleDriver (msim.early_console_putchar (H := H) iomap) := {|
  drv_ok := uart_at;
  drv_out s := written sp (f (u64 (base + 0))) (k_log s);
|}.
Next Obligation.
  intros s c [Eu Hw] Hc. unfold msim.early_console_putchar. erewrite bind_ret by reflexivity.
  destruct (msim_putchar_run iomap s (k_uart s) b ops sp f c Hw) as (h & E); [by rewrite Eu|].
  rewrite Eu in E. cbn [chr_base] in E. exists h. eexists. split; [|split].
  - erewrite bind_ret by (rewrite Eu; exact E). reflexivity.
  - split; [done|]. by eapply wired_same; [|exact Hw].
  - cbn [k_log with_io]. rewrite !written_app, written_one. do 2 f_equal. by apply Z.mod_small.
Qed.
End instances.

#[export] Program Instance zynq_console {H : Type} `{HW : hardware H} `{PT : patience} (iomap : Z → Z)
    (b : bus_ptr) (ops : bus_ops) (f : Z → Z) (base : Z) :
    ConsoleDriver (zynq.__early_console_putchar (H := H) iomap) := {|
  drv_ok s := uart_at iomap b ops MEM f base s ∧
    ∀ h, ready_within PATIENCE MEM 32 (f (u64 (base + zynq.UART_OFFSET_SR))) zynq_room h = true;
  drv_out s := written MEM (f (u64 (base + zynq.UART_OFFSET_FIFO))) (k_log s);
|}.
Next Obligation.
  intros H HW PT iomap b ops f base s c [[Eu Hw] Hr] Hc. unfold zynq.__early_console_putchar.
  erewrite bind_ret by reflexivity.
  destruct (zynq_putchar_run iomap s (k_uart s) b ops f c Hw) as (vs & v & h & E & _); [by rewrite Eu|by rewrite Eu|].
  rewrite Eu in E. cbn [chr_base] in E. exists h. eexists. split; [|split].
  - erewrite bind_ret by (rewrite Eu; exact E). reflexivity.
  - split; [|done]. split; [done|]. by eapply wired_same; [|exact Hw].
  - cbn [k_log with_io]. rewrite !written_app, written_polled, written_one. simpl. do 2 f_equal. by apply Z.mod_small.
Qed.

(** ** A concrete machine: a UART that is busy every other time it is asked *)

Module UartScenario.
Record toy : Type := mk_toy { busy : bool }.
#[export] Instance toy_hw : hardware toy := {|
  hw_read sp w a h := if busy h then (0x10, mk_toy false) else (0x20, mk_toy true);
  hw_write sp w a v h := mk_toy true
|}.
#[export] Instance toy_patience : patience := 3%nat.

Definition mem_bus : bus_device := mk_bus None 0 (Some IO_MEM) (Some IO_MEM).
Definition port_bus : bus_device := mk_bus None 0 (Some IO_PORT) (Some IO_PORT).
Definition s0 : kstate toy :=
  mk_kstate (mk_toy true) [] mem_bus port_bus (mk_chr (Some portio_bus) 0x3f8) (mk_chr None 0) 0
    0x80100000 0x80200000 fresh.

Lemma s0_wired : wired flat_iomap s0 portio_bus IO_PORT PORT u16.
Proof. by apply wired_port. Qed.

Lemma uart_putchar_trace_witness :
  ∃ vs v h, ns16550.__uart_ns16550_putchar flat_iomap (k_uart s0) 65 s0 =
    Ret (0, with_io s0 h (polled PORT 8 0x3fd ns16550_thre vs v ++ [Wr PORT 8 0x3f8 65])).
Proof.
  destruct (uart_putchar_trace flat_iomap s0 (k_uart s0) portio_bus IO_PORT PORT u16 65 s0_wired eq_refl)
    as ((vs & v & h & _ & E) & _); [by vm_compute|]. by exists vs, v, h.
Defined.

Definition putchar_at (fp c : Z) : M (kstate toy) Z :=
  if fp =? 0x80100000 then ns16550.early_console_putchar flat_iomap c else stuck.

#[export] Instance toy_console : ConsoleDriver (ns16550.early_console_putchar (H := toy) flat_iomap) :=
  ns16550_console flat_iomap portio_bus IO_PORT PORT u16 0x3f8.

Lemma s0_registered : registered putchar_at 1 (λ a, a) (λ a, a) 0x80200000 s0.
Proof.
  split; [|done|by vm_compute|done]. split; [split; [done|exact s0_wired]|]. by intros [[]].
Qed.

Lemma kprintf_output_witness :
  ∃ ret buf h l, vsnprintf BUFSIZ (bytes "x=%d" ++ [ch_lf]) [AWord 7] = Some (ret, buf) ∧
    kprintf putchar_at 1 (λ a, a) (λ a, a) 0x80200000 (bytes "x=%d" ++ [ch_lf]) [AWord 7] s0 = Ret (ret, with_io s0 h l) ∧
    written PORT 0x3f8 l = crlf (c_text buf).
Proof.
  destruct (kprintf_output putchar_at 1 (λ a, a) (λ a, a) 0x80200000 s0 (bytes "x=%d" ++ [ch_lf]) [AWord 7] s0_registered)
    as (ret & buf & h & l & E1 & E2 & E3).
  - reflexivity.
  - apply (bool_decide_unpack (Forall (λ c, 0 ≤ c < 256) (bytes "x=%d" ++ [ch_lf]))). by vm_compute.
  - constructor; [exact I|constructor].
  - exists ret, buf, h, l. split; [exact E1|]. split; [exact E2|exact E3].
Defined.
End UartScenario.
