(* ===== verification/Sd.v ===== *)
(** drivers/sd/sd-zynq.c: the SD host controller driver of the ARM firmware,
    and drivers/timer/timer-a9.c with the sleep loops of
    firmware/arch/armv7a/fwmain.c that it uses. *)
From Stdlib Require Import ZArith Lia.
From stdpp Require Import base numbers list.
From S2P Require Import Prelude AddrSpace Mmu Io Printf Uart.

Open Scope Z_scope.

(** ** The global timer *)

Module timer.
Definition MPCORE_PHYSBASE : Z := 0xF8F00000.
Definition GT_PHYSBASE : Z := MPCORE_PHYSBASE + 0x200.
Definition GT_BASE : Z := GT_PHYSBASE.
Definition GT_COUNTER_LO_OFFSET : Z := 0x00.
Definition GT_COUNTER_HI_OFFSET : Z := 0x04.
Definition GT_TPUS : Z := 400.
Definition GT_TPS : Z := GT_TPUS * 1000000.

Section code.
Context {H : Type} `{hardware H}.

Definition gt_get_tpus : Z := GT_TPUS.
Definition gt_get_tps : Z := GT_TPS.

(** HI, LO, HI again, until both HI agree; [n] bounds the tries. *)
Fixpoint gt_read (n : nat) : M (kstate H) Z :=
  match n with
  | O => nofuel
  | S n' =>
      hi ← read32 flat_iomap (GT_BASE + GT_COUNTER_HI_OFFSET);
      lo ← read32 flat_iomap (GT_BASE + GT_COUNTER_LO_OFFSET);
      tmp ← read32 flat_iomap (GT_BASE + GT_COUNTER_HI_OFFSET);
      if negb (hi =? tmp) then gt_read n' else
      mret (Z.lor (u64 (Z.shiftl hi 32)) lo)
  end.

Definition timer_read (n : nat) : M (kstate H) Z := gt_read n.

(** do { time1 = timer_read(); } while (time1 < time); *)
Fixpoint wait_until (tries n : nat) (time : Z) : M (kstate H) unit :=
  match n with
  | O => nofuel
  | S n' =>
      time1 ← timer_read tries;
      if time1 <? time then wait_until tries n' time else mret ()
  end.

Definition sleep (tries n : nat) (s : Z) : M (kstate H) unit :=
  time ← timer_read tries;
  wait_until tries n (u64 (time + u64 (gt_get_tps * s))).

Definition usleep (tries n : nat) (us : Z) : M (kstate H) unit :=
  time ← timer_read tries;
  wait_until tries n (u64 (time + u64 (gt_get_tpus * us))).
End code.
End timer.

(** ** The SD controller *)

Module sd.
Definition SD0_PHYSBASE : Z := 0xE0100000.
Definition SD_SDMA_SYS_ADDR_OFFSET : Z := 0x00.
Definition SD_BLK_SIZE_OFFSET : Z := 0x04.
Definition SD_BLK_CNT_OFFSET : Z := 0x06.
Definition SD_ARGMT_OFFSET : Z := 0x08.
Definition SD_XFER_MODE_OFFSET : Z := 0x0C.
Definition SD_CMD_OFFSET : Z := 0x0E.
Definition SD_RESP0_OFFSET : Z := 0x10.
Definition SD_PRES_STATE_OFFSET : Z := 0x24.
Definition SD_HOST_CTRL1_OFFSET : Z := 0x28.
Definition SD_POWER_CTRL_OFFSET : Z := 0x29.
Definition SD_CLK_CTRL_OFFSET : Z := 0x2C.
Definition SD_TIMEOUT_CTRL_OFFSET : Z := 0x2E.
Definition SD_SW_RST_OFFSET : Z := 0x2F.
Definition SD_NORM_INTR_STS_OFFSET : Z := 0x30.
Definition SD_ERR_INTR_STS_OFFSET : Z := 0x32.
Definition SD_NORM_INTR_STS_EN_OFFSET : Z := 0x34.
Definition SD_ERR_INTR_STS_EN_OFFSET : Z := 0x36.
Definition SD_NORM_INTR_SIG_EN_OFFSET : Z := 0x38.
Definition SD_ERR_INTR_SIG_EN_OFFSET : Z := 0x3A.
Definition SD_CAPS_OFFSET : Z := 0x40.
Definition SD_TM_MUL_SIN_BLK_SEL : Z := 0x20.
Definition SD_TM_DAT_DIR_SEL : Z := 0x10.
Definition SD_TM_AUTO_CMD12_EN : Z := 0x04.
Definition SD_TM_BLK_CNT_EN : Z := 0x02.
Definition SD_TM_DMA_EN : Z := 0x01.
Definition SD_PSR_CARD_INSRT : Z := 0x00010000.
Definition SD_PSR_INHIBIT_DAT : Z := 0x00000002.
Definition SD_PSR_INHIBIT_CMD : Z := 0x00000001.
Definition SD_HC_DMA_SDMA : Z := 0x00.
Definition SD_PC_BUS_VSEL_3V3 : Z := 0x0E.
Definition SD_PC_BUS_PWR : Z := 0x01.
Definition SD_CC_SDCLK_FREQ_D128 : Z := 0x4000.
Definition SD_CC_SD_CLK_EN : Z := 0x0004.
Definition SD_CC_INT_CLK_STABLE : Z := 0x0002.
Definition SD_CC_INT_CLK_EN : Z := 0x0001.
Definition SD_SWRST_ALL_MASK : Z := 0x00000001.
Definition SD_NORM_INTR_ALL : Z := 0xFFFF.
Definition SD_INTR_ERR : Z := 0x8000.
Definition SD_INTR_CARD : Z := 0x0100.
Definition SD_INTR_TC : Z := 0x0002.
Definition SD_INTR_CC : Z := 0x0001.
Definition SD_ERR_INTR_ALL : Z := 0xF3FF.
Definition SD_DAT_PRESENT : Z := 0x20.
Definition SD_CMD_INX_CHK_EN : Z := 0x10.
Definition SD_CMD_CRC_CHK_EN : Z := 0x08.
Definition SD_CMD_RESP_L48_BSY_CHK : Z := 0x03.
Definition SD_CMD_RESP_L48 : Z := 0x02.
Definition SD_CMD_RESP_L136 : Z := 0x01.
Definition SD_CMD_RESP_NONE : Z := 0x00.
Definition SD_CMD0 : Z := 0x0000.
Definition SD_CMD1 : Z := 0x0100.
Definition SD_CMD2 : Z := 0x0200.
Definition SD_CMD3 : Z := 0x0300.
Definition SD_CMD4 : Z := 0x0400.
Definition SD_CMD5 : Z := 0x0500.
Definition SD_CMD6 : Z := 0x0600.
Definition SD_CMD7 : Z := 0x0700.
Definition SD_CMD8 : Z := 0x0800.
Definition SD_CMD9 : Z := 0x0900.
Definition SD_CMD10 : Z := 0x0A00.
Definition SD_CMD12 : Z := 0x0C00.
Definition SD_CMD16 : Z := 0x1000.
Definition SD_CMD17 : Z := 0x1100.
Definition SD_CMD18 : Z := 0x1200.
Definition SD_CMD23 : Z := 0x1700.
Definition SD_CMD24 : Z := 0x1800.
Definition SD_CMD25 : Z := 0x1900.
Definition SD_CMD52 : Z := 0x3400.
Definition SD_CMD55 : Z := 0x3700.
Definition SD_ACMD6 : Z := 0x8600.
Definition SD_ACMD13 : Z := 0x8D00.
Definition SD_ACMD23 : Z := 0x9700.
Definition SD_ACMD41 : Z := 0xA900.
Definition SD_ACMD42 : Z := 0xAA00.
Definition SD_ACMD51 : Z := 0xB300.
Definition SD_CMD8_VOL_PATTERN : Z := 0x01AA.
Definition SD_RESP_READY : Z := 0x80000000.
Definition SD_ACMD41_HCS : Z := 0x40000000.
Definition SD_ACMD41_3V3 : Z := 0x00300000.
Definition SD_RESP_NONE : Z := SD_CMD_RESP_NONE.
Definition SD_RESP_R1 : Z := Z.lor (Z.lor SD_CMD_RESP_L48 SD_CMD_CRC_CHK_EN) SD_CMD_INX_CHK_EN.
Definition SD_RESP_R1B : Z := Z.lor (Z.lor SD_CMD_RESP_L48_BSY_CHK SD_CMD_CRC_CHK_EN) SD_CMD_INX_CHK_EN.
Definition SD_RESP_R2 : Z := Z.lor SD_CMD_RESP_L136 SD_CMD_CRC_CHK_EN.
Definition SD_RESP_R3 : Z := SD_CMD_RESP_L48.
Definition SD_RESP_R6 : Z := Z.lor (Z.lor SD_CMD_RESP_L48_BSY_CHK SD_CMD_CRC_CHK_EN) SD_CMD_INX_CHK_EN.
Definition SD_BASE : Z := SD0_PHYSBASE.

(** sd_frame_cmd(): the response type of each command. *)
Definition one_of (cmd : Z) (l : list Z) : bool := existsb (Z.eqb cmd) l.
Definition sd_frame_cmd (cmd : Z) : Z :=
  let cmd :=
    if one_of cmd [SD_CMD0; SD_CMD4] then Z.lor cmd SD_RESP_NONE
    else if one_of cmd [SD_ACMD6; SD_CMD7; SD_CMD10; SD_CMD12; SD_ACMD13; SD_CMD16; SD_ACMD42; SD_CMD52; SD_CMD55]
    then Z.lor cmd SD_RESP_R1
    else if one_of cmd [SD_CMD17; SD_CMD18; SD_CMD23; SD_ACMD23; SD_CMD24; SD_CMD25; SD_ACMD51]
    then Z.lor cmd (Z.lor SD_RESP_R1 SD_DAT_PRESENT)
    else if one_of cmd [SD_CMD5] then Z.lor cmd SD_RESP_R1B
    else if one_of cmd [SD_CMD2; SD_CMD9] then Z.lor cmd SD_RESP_R2
    else if one_of cmd [SD_CMD1; SD_ACMD41] then Z.lor cmd SD_RESP_R3
    else if one_of cmd [SD_CMD3] then Z.lor cmd SD_RESP_R6
    else if one_of cmd [SD_CMD6] then Z.lor cmd (Z.lor SD_RESP_R1 SD_DAT_PRESENT)
    else if one_of cmd [SD_CMD8] then Z.lor cmd SD_RESP_R1
    else cmd in
  Z.land cmd 0x3FFF.

(** Bits of a register. *)
Definition bits_set (v mask : Z) : bool := negb (Z.land v mask =? 0).

Section code.
Context {H : Type} `{hardware H} `{patience}.
(** usleep() *)
Context (usleep : Z → M (kstate H) unit).

Definition rd8 (reg : Z) : M (kstate H) Z := read8 flat_iomap (SD_BASE + reg).
Definition rd16 (reg : Z) : M (kstate H) Z := read16 flat_iomap (SD_BASE + reg).
Definition rd32 (reg : Z) : M (kstate H) Z := read32 flat_iomap (SD_BASE + reg).
Definition wr8 (reg v : Z) : M (kstate H) unit := write8 flat_iomap (SD_BASE + reg) v.
Definition wr16 (reg v : Z) : M (kstate H) unit := write16 flat_iomap (SD_BASE + reg) v.
Definition wr32 (reg v : Z) : M (kstate H) unit := write32 flat_iomap (SD_BASE + reg) v.

Definition sd_init : M (kstate H) unit :=
  (* reset *)
  _ ← wr8 SD_SW_RST_OFFSET SD_SWRST_ALL_MASK;
  _ ← poll PATIENCE (rd8 SD_SW_RST_OFFSET) (λ v, negb (bits_set v SD_SWRST_ALL_MASK));
  (* enable internal clock *)
  _ ← wr16 SD_CLK_CTRL_OFFSET (Z.lor SD_CC_SDCLK_FREQ_D128 SD_CC_INT_CLK_EN);
  _ ← poll PATIENCE (rd16 SD_CLK_CTRL_OFFSET) (λ v, bits_set v SD_CC_INT_CLK_STABLE);
  (* enable SD clock *)
  clk ← rd16 SD_CLK_CTRL_OFFSET;
  _ ← wr16 SD_CLK_CTRL_OFFSET (Z.lor clk SD_CC_SD_CLK_EN);
  (* enable bus power *)
  _ ← wr8 SD_POWER_CTRL_OFFSET (Z.lor SD_PC_BUS_VSEL_3V3 SD_PC_BUS_PWR);
  _ ← wr8 SD_HOST_CTRL1_OFFSET SD_HC_DMA_SDMA;
  (* enable interrupt status except card, but disable all interrupt signals *)
  _ ← wr16 SD_NORM_INTR_STS_EN_OFFSET (Z.land SD_NORM_INTR_ALL (Z.lnot SD_INTR_CARD));
  _ ← wr16 SD_ERR_INTR_STS_EN_OFFSET SD_ERR_INTR_ALL;
  _ ← wr16 SD_NORM_INTR_SIG_EN_OFFSET 0x0;
  _ ← wr16 SD_ERR_INTR_SIG_EN_OFFSET 0x0;
  (* set block size to 512 *)
  wr16 SD_BLK_SIZE_OFFSET 512.

(** The transfer mode: 1 is a DMA read, 2 a DMA write. *)
Definition xfer_mode (mode : Z) : Z :=
  if mode =? 1 then
    Z.lor (Z.lor (Z.lor (Z.lor SD_TM_MUL_SIN_BLK_SEL SD_TM_DAT_DIR_SEL) SD_TM_AUTO_CMD12_EN) SD_TM_BLK_CNT_EN) SD_TM_DMA_EN
  else if mode =? 2 then
    Z.lor (Z.lor (Z.lor SD_TM_MUL_SIN_BLK_SEL SD_TM_AUTO_CMD12_EN) SD_TM_BLK_CNT_EN) SD_TM_DMA_EN
  else SD_TM_DMA_EN.

(** do { result = read16(status); if (result & SD_INTR_ERR) return ...; }
    while (!(result & done)); [true] when it ended in an error. *)
Definition wait_status (fin : Z) : M (kstate H) bool :=
  result ← poll PATIENCE (rd16 SD_NORM_INTR_STS_OFFSET)
             (λ result, bits_set result SD_INTR_ERR || bits_set result fin);
  mret (bits_set result SD_INTR_ERR).

Definition sd_send_cmd (cmd count arg mode : Z) : M (kstate H) Z :=
  let cmd := sd_frame_cmd cmd in
  state ← rd32 SD_PRES_STATE_OFFSET;
  if bits_set state SD_PSR_INHIBIT_CMD then mret (-1) else
  if bits_set state SD_PSR_INHIBIT_DAT && bits_set cmd SD_DAT_PRESENT then mret (-2) else
  _ ← wr16 SD_BLK_CNT_OFFSET count;
  _ ← wr16 SD_TIMEOUT_CTRL_OFFSET 0xE;
  _ ← wr32 SD_ARGMT_OFFSET arg;
  _ ← wr16 SD_NORM_INTR_STS_OFFSET SD_NORM_INTR_ALL;
  _ ← wr16 SD_ERR_INTR_STS_OFFSET SD_ERR_INTR_ALL;
  _ ← wr16 SD_XFER_MODE_OFFSET (xfer_mode mode);
  _ ← wr16 SD_CMD_OFFSET cmd;
  err ← wait_status SD_INTR_CC;
  if (err : bool) then mret (-3) else
  _ ← wr16 SD_NORM_INTR_STS_OFFSET SD_INTR_CC;
  mret 0.

(** CMD55 and ACMD41 until the card is ready: its answer, or [None] after an
    error. [n] bounds the rounds. *)
Fixpoint acmd41_loop (n : nat) : M (kstate H) (option Z) :=
  match n with
  | O => nofuel
  | S n' =>
      ret ← sd_send_cmd SD_CMD55 0 0 0;
      if negb (ret =? 0) then mret None else
      ret ← sd_send_cmd SD_ACMD41 0 (Z.lor SD_ACMD41_HCS SD_ACMD41_3V3) 0;
      if negb (ret =? 0) then mret None else
      resp ← rd32 SD_RESP0_OFFSET;
      if negb (bits_set resp SD_RESP_READY) then acmd41_loop n' else mret (Some resp)
  end.

(** CMD3 until the card has chosen an address. *)
Fixpoint cmd3_loop (n : nat) : M (kstate H) (option Z) :=
  match n with
  | O => nofuel
  | S n' =>
      ret ← sd_send_cmd SD_CMD3 0 0 0;
      if negb (ret =? 0) then mret None else
      resp ← rd32 SD_RESP0_OFFSET;
      let resp := Z.land resp 0xFFFF0000 in
      if resp =? 0 then cmd3_loop n' else mret (Some resp)
  end.

Definition sd_init_card : M (kstate H) Z :=
  state ← rd32 SD_PRES_STATE_OFFSET;
  if negb (bits_set state SD_PSR_CARD_INSRT) then mret (-1) else
  _ ← usleep 2000;
  ret ← sd_send_cmd SD_CMD0 0 0 0;
  if negb (ret =? 0) then mret (-2) else
  ret ← sd_send_cmd SD_CMD8 0 SD_CMD8_VOL_PATTERN 0;
  if negb (ret =? 0) then mret (-3) else
  resp ← rd32 SD_RESP0_OFFSET;
  if negb (resp =? SD_CMD8_VOL_PATTERN) then mret (-4) else
  ready ← acmd41_loop PATIENCE;
  match ready with
  | None => mret (-5)
  | Some resp =>
      let cardtype := if bits_set resp SD_ACMD41_HCS then 1 else 0 in
      ret ← sd_send_cmd SD_CMD2 0 0 0;
      if negb (ret =? 0) then mret (-6) else
      rca ← cmd3_loop PATIENCE;
      match rca with
      | None => mret (-7)
      | Some resp =>
          ret ← sd_send_cmd SD_CMD9 0 resp 0;
          if negb (ret =? 0) then mret (-8) else
          ret ← sd_send_cmd SD_CMD7 0 resp 0;
          if negb (ret =? 0) then mret (-9) else
          mret cardtype
      end
  end.

(** sd_read() and sd_write() differ in the command and the transfer mode. *)
Definition transfer (cmd mode pa count offset : Z) : M (kstate H) Z :=
  state32 ← rd32 SD_PRES_STATE_OFFSET;
  if negb (bits_set state32 SD_PSR_CARD_INSRT) then mret (-1) else
  _ ← wr32 SD_SDMA_SYS_ADDR_OFFSET pa;
  ret ← sd_send_cmd cmd count offset mode;
  if negb (ret =? 0) then mret (-2) else
  err ← wait_status SD_INTR_TC;
  if (err : bool) then _ ← wr16 SD_ERR_INTR_STS_OFFSET SD_ERR_INTR_ALL; mret (-3) else
  _ ← wr16 SD_NORM_INTR_STS_OFFSET SD_INTR_TC;
  mret 0.

Definition sd_read (pa count offset : Z) : M (kstate H) Z := transfer SD_CMD18 1 pa count offset.
Definition sd_write (pa count offset : Z) : M (kstate H) Z := transfer SD_CMD25 2 pa count offset.
End code.
End sd.
