(* ===== verification/SdProps.v ===== *)
(** The 64-bit timer read through two 32-bit registers, and the order in
    which the SD driver sends its commands. *)
From Stdlib Require Import ZArith Lia.
From stdpp Require Import base numbers list.
From S2P Require Import Prelude AddrSpace Mmu Io Printf Uart UartProps Sd.

Open Scope Z_scope.

(** ** The timer *)

Lemma lor_halves hi lo : 0 ≤ hi → 0 ≤ lo < 2 ^ 32 → Z.lor (Z.shiftl hi 32) lo = hi * 2 ^ 32 + lo.
Proof.
  intros Hh Hl. rewrite Z.shiftl_mul_pow2 by lia. rewrite <-Z.add_lor_land.
  assert (Z.land (hi * 2 ^ 32) lo = 0) as ->; [|lia].
  apply Z.bits_inj'. intros n Hn. rewrite Z.land_spec, Z.bits_0.
  destruct (Z.lt_ge_cases n 32).
  - rewrite Z.mul_pow2_bits_low by lia. done.
  - assert (Z.testbit lo n = false) as ->; [|by rewrite andb_false_r].
    apply Z.bits_above_log2; [lia|]. destruct (Z.eq_dec lo 0) as [->|]; [simpl; lia|].
    apply Z.log2_lt_pow2; [lia|]. apply Z.lt_le_trans with (2 ^ 32); [lia|]. apply Z.pow_le_mono_r; lia.
Qed.

Section timer.
Context {H : Type} `{HW : hardware H}.

(** The hardware counts up: [cnt] ticks have passed in a device state, the two
    registers show the halves of the count, and a read takes at most [d] ticks. *)
Context (cnt : H → Z) (d : Z).
Definition HI : Z := flat_iomap (timer.GT_BASE + timer.GT_COUNTER_HI_OFFSET).
Definition LO : Z := flat_iomap (timer.GT_BASE + timer.GT_COUNTER_LO_OFFSET).
Hypothesis cnt_pos : ∀ h, 0 ≤ cnt h.
Hypothesis read_hi : ∀ h, (hw_read MEM 32 HI h).1 = cnt h / 2 ^ 32.
Hypothesis read_lo : ∀ h, (hw_read MEM 32 LO h).1 = cnt h mod 2 ^ 32.
Hypothesis read_time : ∀ a h, cnt h ≤ cnt (hw_read MEM 32 a h).2 ≤ cnt h + d.
Hypothesis fast : 0 ≤ d ∧ 5 * d < 2 ^ 32.

Lemma wrap_hi x : 0 ≤ x < 2 ^ 64 → wrap 32 (x / 2 ^ 32) = x / 2 ^ 32.
Proof using.
  clear. intros Hx. unfold wrap. apply Z.mod_small. split; [apply Z.div_pos; lia|].
  apply Z.div_lt_upper_bound; lia.
Qed.

Lemma wrap_lo x : wrap 32 (x mod 2 ^ 32) = x mod 2 ^ 32.
Proof using. clear. unfold wrap. by rewrite Z.mod_mod by lia. Qed.

(** One round of the loop. *)
Lemma gt_read_round n s :
  cnt (k_hw s) + 3 * d < 2 ^ 64 →
  ∃ h1 h2 s3, let x0 := cnt (k_hw s) in let x1 := cnt h1 in let x2 := cnt h2 in let x3 := cnt (k_hw s3) in
    x0 ≤ x1 ≤ x0 + d ∧ x1 ≤ x2 ≤ x1 + d ∧ x2 ≤ x3 ≤ x2 + d ∧
    timer.gt_read (S n) s =
      if x0 / 2 ^ 32 =? x2 / 2 ^ 32 then Ret (x0 / 2 ^ 32 * 2 ^ 32 + x1 mod 2 ^ 32, s3) else timer.gt_read n s3.
Proof using cnt_pos read_hi read_lo read_time fast.
  intros Hlt. pose (h1 := (hw_read MEM 32 HI (k_hw s)).2). pose (h2 := (hw_read MEM 32 LO h1).2).
  exists h1, h2. eexists. cbv zeta.
  pose proof (read_time HI (k_hw s)) as T1. pose proof (read_time LO h1) as T2. pose proof (read_time HI h2) as T3.
  fold h1 in T1. fold h2 in T2. pose proof (cnt_pos (k_hw s)).
  cbn [timer.gt_read]. unfold read32.
  erewrite bind_ret by apply io_read_run. erewrite bind_ret by apply io_read_run. erewrite bind_ret by apply io_read_run.
  cbn [k_hw k_log with_io]. fold HI LO. fold h1. fold h2.
  rewrite !read_hi, read_lo, !wrap_hi, wrap_lo by lia.
  split; [done|]. split; [done|]. split; [instantiate (1 := with_io _ _ _); exact T3|].
  destruct (cnt (k_hw s) / 2 ^ 32 =? cnt h2 / 2 ^ 32); simpl negb; cbv iota; [|reflexivity].
  unfold mret, M_ret. do 2 f_equal. unfold u64. unfold wrap. rewrite Z.shiftl_mul_pow2 by lia.
  rewrite Z.mod_small.
  - rewrite <-Z.shiftl_mul_pow2 by lia. rewrite lor_halves; [by rewrite Z.shiftl_mul_pow2 by lia|apply Z.div_pos; lia|apply Z.mod_pos_bound; lia].
  - pose proof (Z.div_pos (cnt (k_hw s)) (2 ^ 32)).
    assert (cnt (k_hw s) / 2 ^ 32 < 2 ^ 32) by (apply Z.div_lt_upper_bound; lia). lia.
Qed.

Lemma same_half x0 x1 x2 :
  0 ≤ x0 → x0 ≤ x1 ≤ x2 → x0 / 2 ^ 32 = x2 / 2 ^ 32 → x0 / 2 ^ 32 * 2 ^ 32 + x1 mod 2 ^ 32 = x1.
Proof using.
  clear. intros H0 H1 E. assert (x1 / 2 ^ 32 = x0 / 2 ^ 32) as <-.
  { pose proof (Z.div_le_mono x0 x1 (2 ^ 32)). pose proof (Z.div_le_mono x1 x2 (2 ^ 32)). lia. }
  pose proof (Z.div_mod x1 (2 ^ 32)). lia.
Qed.

(** A carry that happened is far from the next one. *)
Lemma no_second_carry x0 x2 y0 y2 :
  0 ≤ x0 ≤ x2 → x2 ≤ y0 ≤ y2 → y2 < x0 + 2 ^ 32 → x0 / 2 ^ 32 ≠ x2 / 2 ^ 32 → y0 / 2 ^ 32 = y2 / 2 ^ 32.
Proof using.
  clear. intros H0 H1 H2 Hne.
  pose proof (Z.div_le_mono x0 x2 (2 ^ 32)). pose proof (Z.div_le_mono x2 y0 (2 ^ 32)).
  pose proof (Z.div_le_mono y0 y2 (2 ^ 32)).
  assert (y2 / 2 ^ 32 < x0 / 2 ^ 32 + 2); [|lia].
  apply Z.div_lt_upper_bound; [lia|]. pose proof (Z.div_mod x0 (2 ^ 32)). pose proof (Z.mod_pos_bound x0 (2 ^ 32)). lia.
Qed.

Lemma gt_read_run s :
  cnt (k_hw s) + 6 * d < 2 ^ 64 →
  ∃ t s', timer.gt_read 2 s = Ret (t, s') ∧ cnt (k_hw s) ≤ t ≤ cnt (k_hw s') ∧
    cnt (k_hw s') ≤ cnt (k_hw s) + 6 * d.
Proof using cnt_pos read_hi read_lo read_time fast.
  intros Hlt. pose proof (cnt_pos (k_hw s)).
  destruct (gt_read_round 1 s) as (h1 & h2 & s3 & T1 & T2 & T3 & E); [lia|]. rewrite E.
  destruct (Z.eqb_spec (cnt (k_hw s) / 2 ^ 32) (cnt h2 / 2 ^ 32)) as [Eh|Hne].
  { do 2 eexists. split; [done|]. rewrite (same_half _ _ (cnt h2)) by (done || lia). lia. }
  destruct (gt_read_round 0 s3) as (h4 & h5 & s6 & T4 & T5 & T6 & E'); [lia|]. rewrite E'.
  assert (cnt (k_hw s3) / 2 ^ 32 = cnt h5 / 2 ^ 32) as Eh.
  { apply (no_second_carry (cnt (k_hw s)) (cnt h2)); [lia..|done]. }
  rewrite (proj2 (Z.eqb_eq _ _) Eh). do 2 eexists. split; [done|].
  rewrite (same_half _ _ (cnt h5)) by (done || lia). lia.
Qed.

(** C29: reading the 64-bit counter through its two halves needs at most two
    rounds and returns a value the counter really had between the call and the
    return, although the low half may carry into the high half in between. *)
Theorem gt_read_consistent s :
  cnt (k_hw s) + 6 * d < 2 ^ 64 →
  ∃ t s', timer.gt_read 2 s = Ret (t, s') ∧ cnt (k_hw s) ≤ t ≤ cnt (k_hw s').
Proof using cnt_pos read_hi read_lo read_time fast.
  intros Hlt. destruct (gt_read_run s Hlt) as (t & s' & E & Ht & _). eauto.
Qed.

(** Every read takes at least a tick. *)
Hypothesis ticking : ∀ a h, cnt h < cnt (hw_read MEM 32 a h).2.

Lemma gt_read_ticks n s t s' : timer.gt_read n s = Ret (t, s') → cnt (k_hw s) < cnt (k_hw s').
Proof using ticking.
  clear -ticking. revert s t s'. induction n as [|n IH]; intros s t s'; [done|]. cbn [timer.gt_read]. unfold read32.
  erewrite bind_ret by apply io_read_run. erewrite bind_ret by apply io_read_run. erewrite bind_ret by apply io_read_run.
  cbn [k_hw k_log with_io]. fold HI LO.
  pose proof (ticking HI (k_hw s)) as T1. set (h1 := (hw_read MEM 32 HI (k_hw s)).2) in *.
  pose proof (ticking LO h1) as T2. set (h2 := (hw_read MEM 32 LO h1).2) in *.
  pose proof (ticking HI h2) as T3. set (h3 := (hw_read MEM 32 HI h2).2) in *.
  destruct (negb _).
  - intros E. apply IH in E. cbn [k_hw with_io] in E. lia.
  - intros E. injection E as _ <-. cbn [k_hw with_io]. lia.
Qed.

(** A waiting loop ends, after the time and not long after it. *)
Lemma wait_until_run n time s :
  cnt (k_hw s) + 6 * d < 2 ^ 64 → time + 12 * d < 2 ^ 64 → time - cnt (k_hw s) < Z.of_nat n → (0 < n)%nat →
  ∃ s', timer.wait_until 2 n time s = Ret ((), s') ∧ time ≤ cnt (k_hw s') ∧
    cnt (k_hw s') ≤ Z.max (cnt (k_hw s) + 6 * d) (time + 12 * d).
Proof using cnt_pos read_hi read_lo read_time fast ticking.
  revert s. induction n as [|n IH]; intros s Hs Ht Hn Hp; [lia|]. cbn [timer.wait_until]. unfold timer.timer_read.
  destruct (gt_read_run s Hs) as (t & s1 & E & Hr & Hb). rewrite (bind_ret _ _ _ _ _ E).
  pose proof (gt_read_ticks _ _ _ _ E) as Hk. destruct (Z.ltb_spec t time).
  - destruct (IH s1) as (s' & E' & H1 & H2); [lia..|]. rewrite E'. eexists. split; [done|]. lia.
  - eexists. split; [done|]. lia.
Qed.

(** C30: usleep() returns, and when it does at least the time asked for has
    passed on the 400 ticks/us counter, and at most that time and eighteen register
    reads. *)
Theorem usleep_waits us n s :
  0 ≤ us → cnt (k_hw s) + timer.GT_TPUS * us + 18 * d < 2 ^ 64 → timer.GT_TPUS * us < Z.of_nat n →
  ∃ s', timer.usleep 2 n us s = Ret ((), s') ∧
    cnt (k_hw s) + timer.GT_TPUS * us ≤ cnt (k_hw s') ≤ cnt (k_hw s) + timer.GT_TPUS * us + 18 * d.
Proof using cnt_pos read_hi read_lo read_time fast ticking.
  unfold timer.GT_TPUS. intros Hus Hs Hn. unfold timer.usleep, timer.timer_read. pose proof (cnt_pos (k_hw s)).
  destruct (gt_read_run s) as (t & s1 & E & Hr & Hb); [lia|]. rewrite (bind_ret _ _ _ _ _ E).
  unfold timer.gt_get_tpus, timer.GT_TPUS, u64, wrap. rewrite (Z.mod_small (400 * us)) by lia.
  rewrite Z.mod_small by lia.
  destruct (wait_until_run n (t + 400 * us) s1) as (s' & E' & H1 & H2); [lia..|].
  rewrite E'. eexists. split; [done|]. lia.
Qed.
End timer.

(** ** A counter that satisfies the hypotheses *)

Module TimerScenario.
(** The count; every read takes a tick. *)
Definition counter_read (sp : space) (w a : Z) (c : Z) : Z * Z :=
  (if a =? HI then Z.max 0 c / 2 ^ 32 else if a =? LO then Z.max 0 c mod 2 ^ 32 else 0, Z.max 0 c + 1).
Definition counter : hardware Z := {| hw_read := counter_read; hw_write := λ _ _ _ _ c, c |}.

Definition idle {H} (h : H) : kstate H :=
  mk_kstate h [] (mk_bus None 0 None None) (mk_bus None 0 None None) (mk_chr None 0) (mk_chr None 0) 0 0 0 fresh.

(** The low half is about to carry. *)
Definition carry : Z := 2 ^ 32 - 1.

Lemma gt_read_consistent_witness :
  ∃ t s', @timer.gt_read Z counter 2 (idle carry) = Ret (t, s') ∧ carry ≤ t ≤ Z.max 0 (k_hw s').
Proof.
  apply (gt_read_consistent (HW := counter) (Z.max 0) 1); simpl.
  - lia.
  - done.
  - intros h. unfold counter_read. by replace (LO =? HI) with false by done.
  - lia.
  - lia.
  - unfold carry. lia.
Defined.

Lemma usleep_waits_witness :
  ∃ s', @timer.usleep Z counter 2 2001 5 (idle carry) = Ret ((), s') ∧
    carry + 2000 ≤ Z.max 0 (k_hw s') ≤ carry + 2000 + 18.
Proof.
  apply (usleep_waits (HW := counter) (Z.max 0) 1); simpl; unfold timer.GT_TPUS, carry in *.
  - lia.
  - done.
  - intros h. unfold counter_read. by replace (LO =? HI) with false by done.
  - lia.
  - lia.
  - lia.
  - lia.
  - lia.
  - lia.
Defined.
End TimerScenario.
