(* ===== verification/SdProtocol.v ===== *)
(** What the SD driver puts on its registers: the command sequence that brings
    a card up, and the accesses of a block transfer, on any controller that
    answers its commands. *)
From Stdlib Require Import ZArith Lia.
From stdpp Require Import base numbers list sets.
From S2P Require Import Prelude AddrSpace Mmu Io Printf Uart UartProps Sd SdProps.

Open Scope Z_scope.

(** A register of the controller. *)
Definition sdreg (r : Z) : Z := flat_iomap (sd.SD_BASE + r).

(** The accesses that make a command: its argument, then its number. *)
Definition is_command (e : event) : bool :=
  match e with
  | Wr MEM w a _ => (w =? 32) && (a =? sdreg sd.SD_ARGMT_OFFSET) || (w =? 16) && (a =? sdreg sd.SD_CMD_OFFSET)
  | _ => false
  end.
Definition proto (l : list event) : list event := List.filter is_command l.
Definition command (cmd arg : Z) : list event :=
  [Wr MEM 32 (sdreg sd.SD_ARGMT_OFFSET) arg; Wr MEM 16 (sdreg sd.SD_CMD_OFFSET) (sd.sd_frame_cmd cmd)].

Lemma proto_app l l' : proto (l ++ l') = proto l ++ proto l'.
Proof. apply List.filter_app. Qed.

Lemma proto_polled w a ready vs v : proto (polled MEM w a ready vs v) = [].
Proof. unfold polled. rewrite proto_app. induction vs as [|x vs IH]; [done|]. exact IH. Qed.

(** All the stores of a sequence of accesses. *)
Definition is_store (e : event) : bool := match e with Wr _ _ _ _ => true | _ => false end.
Definition stores (l : list event) : list event := List.filter is_store l.

Lemma stores_app l l' : stores (l ++ l') = stores l ++ stores l'.
Proof. apply List.filter_app. Qed.

Lemma stores_polled w a ready vs v : stores (polled MEM w a ready vs v) = [].
Proof. unfold polled. rewrite stores_app. induction vs as [|x vs IH]; [done|]. exact IH. Qed.

Lemma proto_stores l : proto l = proto (stores l).
Proof.
  induction l as [|[] l IH]; [done|exact IH|].
  unfold proto, stores in *. cbn [List.filter is_store]. destruct (is_command _); [by rewrite IH|done].
Qed.

(** The stores of sd_send_cmd() up to the command itself. *)
Definition issue (cmd count arg mode : Z) : list event :=
  [Wr MEM 16 (sdreg sd.SD_BLK_CNT_OFFSET) (u16 count);
   Wr MEM 16 (sdreg sd.SD_TIMEOUT_CTRL_OFFSET) 0xE;
   Wr MEM 32 (sdreg sd.SD_ARGMT_OFFSET) (u32 arg);
   Wr MEM 16 (sdreg sd.SD_NORM_INTR_STS_OFFSET) sd.SD_NORM_INTR_ALL;
   Wr MEM 16 (sdreg sd.SD_ERR_INTR_STS_OFFSET) sd.SD_ERR_INTR_ALL;
   Wr MEM 16 (sdreg sd.SD_XFER_MODE_OFFSET) (u16 (sd.xfer_mode mode));
   Wr MEM 16 (sdreg sd.SD_CMD_OFFSET) (sd.sd_frame_cmd cmd)].
Definition ack (bits : Z) : list event := [Wr MEM 16 (sdreg sd.SD_NORM_INTR_STS_OFFSET) bits].

(** ** Running driver code *)

Section does.
Context {H : Type} `{HW : hardware H}.

(** [c] returns from [s]; its result, its accesses and the device state it
    leaves satisfy [Q]; nothing else of the kernel's state changes. *)
Definition does {A} (c : M (kstate H) A) (s : kstate H) (Q : A → list event → H → Prop) : Prop :=
  ∃ a h l, c s = Ret (a, with_io s h (k_log s ++ l)) ∧ Q a l h.

Lemma with_io_same (s : kstate H) : with_io s (k_hw s) (k_log s ++ []) = s.
Proof. rewrite app_nil_r. by destruct s. Qed.

Lemma does_ret {A} (a : A) s (Q : A → list event → H → Prop) : Q a [] (k_hw s) → does (mret a) s Q.
Proof. intros HQ. exists a, (k_hw s), []. by rewrite with_io_same. Qed.

Lemma does_bind {A B} (c : M (kstate H) A) (f : A → M (kstate H) B) s (Q : B → list event → H → Prop) :
  does c s (λ a l h, ∀ s', k_hw s' = h → does (f a) s' (λ b l' h', Q b (l ++ l') h')) →
  does (c ≫= f) s Q.
Proof.
  intros (a & h & l & E & Hf). destruct (Hf (with_io s h (k_log s ++ l)) eq_refl) as (b & h' & l' & E' & HQ).
  exists b, h', (l ++ l'). split; [|done].
  erewrite bind_ret by exact E. rewrite E'. rewrite with_io_twice. cbn [k_log with_io]. by rewrite app_assoc.
Qed.

Lemma does_mono {A} (c : M (kstate H) A) s (Q Q' : A → list event → H → Prop) :
  does c s Q → (∀ a l h, Q a l h → Q' a l h) → does c s Q'.
Proof. intros (a & h & l & E & HQ) Hm. exists a, h, l. auto. Qed.

Lemma does_read w a s (Q : Z → list event → H → Prop) :
  (let v := wrap w (hw_read MEM w a (k_hw s)).1 in Q v [Rd MEM w a v] (hw_read MEM w a (k_hw s)).2) →
  does (io_read MEM w a) s Q.
Proof. intros HQ. do 3 eexists. split; [apply io_read_run|exact HQ]. Qed.

Lemma does_write w a v s (Q : unit → list event → H → Prop) :
  Q () [Wr MEM w a (wrap w v)] (hw_write MEM w a (wrap w v) (k_hw s)) → does (io_write MEM w a v) s Q.
Proof. intros HQ. do 3 eexists. split; [reflexivity|exact HQ]. Qed.

(** The accesses of the driver. *)
Lemma does_rd32 r s (Q : Z → list event → H → Prop) :
  (let v := wrap 32 (hw_read MEM 32 (sdreg r) (k_hw s)).1 in
   Q v [Rd MEM 32 (sdreg r) v] (hw_read MEM 32 (sdreg r) (k_hw s)).2) → does (sd.rd32 r) s Q.
Proof. apply does_read. Qed.
Lemma does_wr16 r v s (Q : unit → list event → H → Prop) :
  Q () [Wr MEM 16 (sdreg r) (wrap 16 v)] (hw_write MEM 16 (sdreg r) (wrap 16 v) (k_hw s)) → does (sd.wr16 r v) s Q.
Proof. apply does_write. Qed.
Lemma does_wr32 r v s (Q : unit → list event → H → Prop) :
  Q () [Wr MEM 32 (sdreg r) (wrap 32 v)] (hw_write MEM 32 (sdreg r) (wrap 32 v) (k_hw s)) → does (sd.wr32 r v) s Q.
Proof. apply does_write. Qed.
End does.

(** The next access of a routine, and the state after it. *)
Tactic Notation "access" simple_intropattern(s) simple_intropattern(E) :=
  apply does_bind; first [ apply does_rd32 | apply does_wr16 | apply does_wr32 ]; cbv beta zeta; intros s E.


Section poll.
Context {H : Type} `{HW : hardware H}.

(** A status loop that ends keeps whatever reads keep. *)
Lemma does_poll n w a ready s (I : H → Prop) (Q : Z → list event → H → Prop) :
  ready_within n MEM w a ready (k_hw s) = true → I (k_hw s) → (∀ h, I h → I (hw_read MEM w a h).2) →
  (∀ vs v h, answers ready vs v → I h → Q v (polled MEM w a ready vs v) h) →
  does (poll n (io_read MEM w a) ready) s Q.
Proof.
  revert s Q. induction n as [|n IH]; intros s Q Hr HI Hstep HQ; [done|]. cbn [poll ready_within] in *.
  apply does_bind, does_read. cbv zeta. destruct (ready (wrap w _)) eqn:Ev; simpl in Hr.
  - intros s' Es. apply does_ret. apply (HQ []); [by split|]. rewrite Es. auto.
  - intros s' Es. apply IH; [by rewrite Es|rewrite Es; auto|done|]. intros vs v h [Hvs Hv] Hh.
    apply (HQ (_ :: vs)); [|done]. split; [by constructor|done].
Qed.
End poll.

(** ** Cards that answer *)

(** The answer a repeated command waits for. *)
Definition final_answer (cmd resp : Z) : Prop :=
  if cmd =? sd.sd_frame_cmd sd.SD_ACMD41 then sd.bits_set resp sd.SD_RESP_READY = true
  else if cmd =? sd.sd_frame_cmd sd.SD_CMD3 then Z.land resp 0xFFFF0000 ≠ 0
  else True.

Definition CMD_REG : Z := sdreg sd.SD_CMD_OFFSET.
Definition STS_REG : Z := sdreg sd.SD_NORM_INTR_STS_OFFSET.

(** What the driver relies on: a written command completes or fails, data
    follows a data command, and the power-up and address commands get their
    final answer after [rounds] more times. *)
Class sd_card (H : Type) `{HW : hardware H} `{PT : patience} : Type := {
  last_cmd : H → Z;
  rounds : Z → H → nat;
  card_read : ∀ w a h,
    last_cmd (hw_read MEM w a h).2 = last_cmd h ∧ ∀ c, (rounds c (hw_read MEM w a h).2 ≤ rounds c h)%nat;
  card_write : ∀ w a v h, a ≠ CMD_REG →
    last_cmd (hw_write MEM w a v h) = last_cmd h ∧ ∀ c, (rounds c (hw_write MEM w a v h) ≤ rounds c h)%nat;
  card_command : ∀ v h, let h' := hw_write MEM 16 CMD_REG v h in
    last_cmd h' = v ∧ (rounds v h' ≤ pred (rounds v h))%nat ∧ ∀ c, (rounds c h' ≤ rounds c h)%nat;
  card_completes : ∀ v h,
    ready_within PATIENCE MEM 16 STS_REG
      (λ result, sd.bits_set result sd.SD_INTR_ERR || sd.bits_set result sd.SD_INTR_CC)
      (hw_write MEM 16 CMD_REG v h) = true;
  card_transfers : ∀ h,
    last_cmd h = sd.sd_frame_cmd sd.SD_CMD18 ∨ last_cmd h = sd.sd_frame_cmd sd.SD_CMD25 →
    ready_within PATIENCE MEM 16 STS_REG
      (λ result, sd.bits_set result sd.SD_INTR_ERR || sd.bits_set result sd.SD_INTR_TC)
      (hw_write MEM 16 STS_REG sd.SD_INTR_CC h) = true;
  card_final : ∀ h, rounds (last_cmd h) h = 0%nat →
    final_answer (last_cmd h) (wrap 32 (hw_read MEM 32 (sdreg sd.SD_RESP0_OFFSET) h).1);
}.

Section card.
Context {H : Type} `{HW : hardware H} `{PT : patience} `{Card : !sd_card H}.

(** The device has moved on: it asks for no more rounds than before. *)
Definition later (h h' : H) : Prop := ∀ c, (rounds c h' ≤ rounds c h)%nat.

#[global] Instance later_preorder : PreOrder later.
Proof using.
  split; [by intros h c|]. intros h1 h2 h3 H1 H2 c. etrans; [apply H2|apply H1].
Qed.

Lemma later_read w a h : later h (hw_read MEM w a h).2.
Proof using. exact (proj2 (card_read w a h)). Qed.
Lemma later_write w a v h : a ≠ CMD_REG → later h (hw_write MEM w a v h).
Proof using. intros Ha. exact (proj2 (card_write w a v h Ha)). Qed.
Lemma last_write w a v h : a ≠ CMD_REG → last_cmd (hw_write MEM w a v h) = last_cmd h.
Proof using. intros Ha. exact (proj1 (card_write w a v h Ha)). Qed.
Lemma later_command v h : later h (hw_write MEM 16 CMD_REG v h).
Proof using. exact (proj2 (proj2 (card_command v h))). Qed.


(** How a command can end: not sent, failed, or done. *)
Inductive sent (cmd count arg mode : Z) (h0 : H) : Z → list event → H → Prop :=
  | sent_not r l h : r = -1 ∨ r = -2 → stores l = [] → later h0 h → sent cmd count arg mode h0 r l h
  | sent_failed l h : stores l = issue cmd count arg mode → later h0 h → sent cmd count arg mode h0 (-3) l h
  | sent_done l h :
      stores l = issue cmd count arg mode ++ ack sd.SD_INTR_CC → later h0 h →
      (∃ h', h = hw_write MEM 16 STS_REG sd.SD_INTR_CC h' ∧ last_cmd h' = sd.sd_frame_cmd cmd) →
      (rounds (sd.sd_frame_cmd cmd) h ≤ pred (rounds (sd.sd_frame_cmd cmd) h0))%nat →
      sent cmd count arg mode h0 0 l h.

Lemma frame_small cmd : 0 ≤ cmd → wrap 16 (sd.sd_frame_cmd cmd) = sd.sd_frame_cmd cmd.
Proof using.
  clear. intros Hc. unfold wrap. apply Z.mod_small. unfold sd.sd_frame_cmd. set (x := if sd.one_of _ _ then _ else _).
  clearbody x. change 0x3FFF with (Z.ones 14). rewrite Z.land_ones by lia.
  pose proof (Z.mod_pos_bound x (2 ^ 14)). lia.
Qed.

(** The status loop after a command. *)
Lemma wait_status_spec fin s :
  ready_within PATIENCE MEM 16 STS_REG
    (λ result, sd.bits_set result sd.SD_INTR_ERR || sd.bits_set result fin) (k_hw s) = true →
  does (sd.wait_status fin) s (λ err l h, ∃ vs v,
    l = polled MEM 16 STS_REG (λ _, true) vs v ∧ err = sd.bits_set v sd.SD_INTR_ERR ∧
    (err = false → sd.bits_set v fin = true) ∧ last_cmd h = last_cmd (k_hw s) ∧ later (k_hw s) h).
Proof using Card.
  intros Hr. apply does_bind.
  apply (does_poll _ _ _ _ _ (λ h, last_cmd h = last_cmd (k_hw s) ∧ later (k_hw s) h)); [done|done| |].
  { intros h [Ha Hl]. split; [by rewrite (proj1 (card_read _ _ _))|]. etrans; [exact Hl|apply later_read]. }
  intros vs v h [_ Hv] Hh s' <-. apply does_ret. exists vs, v. rewrite app_nil_r. split; [done|]. split; [done|].
  split; [|done]. intros E. by rewrite E in Hv.
Qed.

Lemma send_cmd_spec cmd count arg mode s :
  0 ≤ cmd → does (sd.sd_send_cmd cmd count arg mode) s (sent cmd count arg mode (k_hw s)).
Proof using Card.
  intros Hc. unfold sd.sd_send_cmd. access s1 E1.
  assert (later (k_hw s) (k_hw s1)) as L1 by (rewrite E1; apply later_read). destruct (sd.bits_set _ _).
  { apply does_ret. by apply sent_not; [left| |]. }
  destruct (sd.bits_set _ sd.SD_PSR_INHIBIT_DAT && _).
  { apply does_ret. by apply sent_not; [right| |]. }
  access s2 E2. access s3 E3. access s4 E4. access s5 E5. access s6 E6. access s7 E7.
  assert (later (k_hw s) (k_hw s7)) as L7.
  { etrans; [exact L1|]. rewrite E7, E6, E5, E4, E3, E2. by repeat (etrans; [|apply later_write; done]). }
  access s8 E8. rewrite frame_small in E8 |- * by done.
  destruct (card_command (sd.sd_frame_cmd cmd) (k_hw s7)) as (C1 & C2 & C3).
  pose proof (card_completes (sd.sd_frame_cmd cmd) (k_hw s7)) as Hr. 
  change CMD_REG with (sdreg sd.SD_CMD_OFFSET) in C1, C2, C3, Hr. rewrite <-E8 in C1, C2, C3, Hr. clear E8.
  assert (later (k_hw s) (k_hw s8)) as L8 by (etrans; [exact L7|exact C3]).
  apply does_bind. eapply does_mono; [by apply wait_status_spec|].
  intros err l h (vs & v & -> & -> & _ & La & Lh) s9 <-. destruct (sd.bits_set v _).
  { apply does_ret. apply sent_failed; [|by etrans]. rewrite !stores_app, stores_polled. done. }
  access s10 E10. apply does_ret. apply sent_done.
  - rewrite !stores_app, stores_polled. done.
  - etrans; [exact L8|]. etrans; [exact Lh|]. rewrite E10. by apply later_write.
  - exists (k_hw s9). split; [exact E10|congruence].
  - rewrite E10. etrans; [apply later_write; done|]. etrans; [apply Lh|]. etrans; [exact C2|].
    apply Nat.pred_le_mono. apply L7.
Qed.

(** The response register holds the final answer once no round is left. *)
Lemma resp_final cmd h :
  last_cmd h = sd.sd_frame_cmd cmd → rounds (sd.sd_frame_cmd cmd) h = 0%nat →
  final_answer (sd.sd_frame_cmd cmd) (wrap 32 (hw_read MEM 32 (sdreg sd.SD_RESP0_OFFSET) h).1).
Proof using. intros <- Hz. by apply card_final. Qed.

(** ** Bringing a card up *)

Definition ACMD41_ARG : Z := Z.lor sd.SD_ACMD41_HCS sd.SD_ACMD41_3V3.

(** A command that did not succeed was sent or not. *)
Inductive failed (cmd arg : Z) : list event → Prop :=
  | failed_before : failed cmd arg []
  | failed_after : failed cmd arg (command cmd arg).

(** Rounds of CMD55 and ACMD41; [true] when the card said it is ready. *)
Inductive powering : bool → list event → Prop :=
  | powering_55 l : failed sd.SD_CMD55 0 l → powering false l
  | powering_41 l : failed sd.SD_ACMD41 ACMD41_ARG l → powering false (command sd.SD_CMD55 0 ++ l)
  | powering_ready : powering true (command sd.SD_CMD55 0 ++ command sd.SD_ACMD41 ACMD41_ARG)
  | powering_again b l :
      powering b l → powering b (command sd.SD_CMD55 0 ++ command sd.SD_ACMD41 ACMD41_ARG ++ l).

(** Rounds of CMD3, until the card has published an address. *)
Inductive addressing : option Z → list event → Prop :=
  | addressing_failed l : failed sd.SD_CMD3 0 l → addressing None l
  | addressing_done rca : rca ≠ 0 → Z.land rca 0xFFFF0000 = rca → addressing (Some rca) (command sd.SD_CMD3 0)
  | addressing_again o l : addressing o l → addressing o (command sd.SD_CMD3 0 ++ l).

(** Identification, once the card is powered. *)
Inductive ident_trace : Z → list event → Prop :=
  | ident_cmd2 l : failed sd.SD_CMD2 0 l → ident_trace (-6) l
  | ident_cmd3 l : addressing None l → ident_trace (-7) (command sd.SD_CMD2 0 ++ l)
  | ident_cmd9 rca l l' :
      addressing (Some rca) l → failed sd.SD_CMD9 rca l' → ident_trace (-8) (command sd.SD_CMD2 0 ++ l ++ l')
  | ident_cmd7 rca l l' :
      addressing (Some rca) l → failed sd.SD_CMD7 rca l' →
      ident_trace (-9) (command sd.SD_CMD2 0 ++ l ++ command sd.SD_CMD9 rca ++ l')
  | ident_done ty rca l :
      addressing (Some rca) l → ty = 0 ∨ ty = 1 →
      ident_trace ty (command sd.SD_CMD2 0 ++ l ++ command sd.SD_CMD9 rca ++ command sd.SD_CMD7 rca).

(** The bring-up sequence, and the return value that tells how far it got. *)
Inductive init_trace : Z → list event → Prop :=
  | init_no_card : init_trace (-1) []
  | init_cmd0 l : failed sd.SD_CMD0 0 l → init_trace (-2) l
  | init_cmd8 l : failed sd.SD_CMD8 sd.SD_CMD8_VOL_PATTERN l → init_trace (-3) (command sd.SD_CMD0 0 ++ l)
  | init_voltage : init_trace (-4) (command sd.SD_CMD0 0 ++ command sd.SD_CMD8 sd.SD_CMD8_VOL_PATTERN)
  | init_power l :
      powering false l →
      init_trace (-5) (command sd.SD_CMD0 0 ++ command sd.SD_CMD8 sd.SD_CMD8_VOL_PATTERN ++ l)
  | init_ready r lp l :
      powering true lp → ident_trace r l →
      init_trace r (command sd.SD_CMD0 0 ++ command sd.SD_CMD8 sd.SD_CMD8_VOL_PATTERN ++ lp ++ l).

(** A command sent with success, or a reason to give up. *)
Lemma send_spec cmd count arg mode s :
  0 ≤ cmd → does (sd.sd_send_cmd cmd count arg mode) s (λ r l h,
    later (k_hw s) h ∧
    ((r =? 0) = false ∧ failed cmd (u32 arg) (proto l) ∨
     r = 0 ∧ proto l = command cmd (u32 arg) ∧ last_cmd h = sd.sd_frame_cmd cmd ∧
     (rounds (sd.sd_frame_cmd cmd) h ≤ pred (rounds (sd.sd_frame_cmd cmd) (k_hw s)))%nat)).
Proof using Card.
  intros Hc. eapply does_mono; [by apply send_cmd_spec|]. intros r l h [? ? ? Hr Es|? ? Es|? ? Es ? (h' & -> & ?)].
  - split; [done|]. left. rewrite proto_stores, Es. split; [lia|constructor].
  - split; [done|]. left. rewrite proto_stores, Es. split; [done|constructor].
  - split; [done|]. right. rewrite proto_stores, Es. rewrite last_write by done. done.
Qed.

Lemma acmd41_spec n s :
  (rounds (sd.sd_frame_cmd sd.SD_ACMD41) (k_hw s) ≤ n)%nat →
  does (sd.acmd41_loop (S n)) s (λ o l h, later (k_hw s) h ∧ powering (if o then true else false) (proto l)).
Proof using Card.
  revert s. induction n as [n IH] using lt_wf_ind. intros s Hn. cbn [sd.acmd41_loop].
  apply does_bind. eapply does_mono; [by apply send_spec|].
  intros r l1 h1 [L1 [[-> F1]|(-> & P1 & _)]] s1 <-.
  { apply does_ret. rewrite app_nil_r. split; [done|]. by apply powering_55. }
  change (0 =? 0) with true. cbn [negb]. apply does_bind. eapply does_mono; [by apply send_spec|].
  intros r l2 h2 [L2 [[-> F2]|(-> & P2 & La & Lr)]] s2 <-.
  { apply does_ret. rewrite app_nil_r, proto_app, P1. split; [by etrans|]. by apply powering_41. }
  change (0 =? 0) with true. cbn [negb]. access s3 E3.
  assert (later (k_hw s) (k_hw s3)) as L3 by (etrans; [exact L1|]; etrans; [exact L2|]; rewrite E3; apply later_read).
  destruct (sd.bits_set _ _) eqn:Eb; cbn [negb].
  { apply does_ret. rewrite !proto_app, P1, P2. split; [done|]. apply powering_ready. }
  assert (rounds (sd.sd_frame_cmd sd.SD_ACMD41) (k_hw s2) ≠ 0%nat) as Hnz.
  { intros Hz. pose proof (resp_final _ _ La Hz) as Hf. change (sd.bits_set
      (wrap 32 (hw_read MEM 32 (sdreg sd.SD_RESP0_OFFSET) (k_hw s2)).1) sd.SD_RESP_READY = true) in Hf. congruence. }
  pose proof (L1 (sd.sd_frame_cmd sd.SD_ACMD41)) as Hr1. destruct n as [|n]; [lia|].
  eapply does_mono; [apply (IH n); [lia|]|].
  { pose proof (proj2 (card_read 32 (sdreg sd.SD_RESP0_OFFSET) (k_hw s2)) (sd.sd_frame_cmd sd.SD_ACMD41)) as Hr3.
    rewrite E3. lia. }
  intros o l4 h4 [L4 Hp]. split; [by etrans|]. rewrite !proto_app, P1, P2. by apply powering_again.
Qed.

Lemma cmd3_spec n s :
  (rounds (sd.sd_frame_cmd sd.SD_CMD3) (k_hw s) ≤ n)%nat →
  does (sd.cmd3_loop (S n)) s (λ o l h, later (k_hw s) h ∧ addressing o (proto l)).
Proof using Card.
  revert s. induction n as [n IH] using lt_wf_ind. intros s Hn. cbn [sd.cmd3_loop].
  apply does_bind. eapply does_mono; [by apply send_spec|].
  intros r l1 h1 [L1 [[-> F1]|(-> & P1 & La & Lr)]] s1 <-.
  { apply does_ret. rewrite app_nil_r. split; [done|]. by apply addressing_failed. }
  change (0 =? 0) with true. cbn [negb]. access s2 E2.
  assert (later (k_hw s) (k_hw s2)) as L2 by (etrans; [exact L1|]; rewrite E2; apply later_read).
  destruct (Z.eqb_spec (Z.land (wrap 32 (hw_read MEM 32 (sdreg sd.SD_RESP0_OFFSET) (k_hw s1)).1) 0xFFFF0000) 0) as [Ez|Ez].
  2: { apply does_ret. rewrite !proto_app, P1. split; [done|]. apply addressing_done; [done|].
       by rewrite <-Z.land_assoc, Z.land_diag. }
  assert (rounds (sd.sd_frame_cmd sd.SD_CMD3) (k_hw s1) ≠ 0%nat) as Hnz.
  { intros Hz. pose proof (resp_final _ _ La Hz) as Hf. change (Z.land
      (wrap 32 (hw_read MEM 32 (sdreg sd.SD_RESP0_OFFSET) (k_hw s1)).1) 0xFFFF0000 ≠ 0) in Hf. congruence. }
  destruct n as [|n]; [lia|]. eapply does_mono; [apply (IH n); [lia|]|].
  { pose proof (proj2 (card_read 32 (sdreg sd.SD_RESP0_OFFSET) (k_hw s1)) (sd.sd_frame_cmd sd.SD_CMD3)) as Hr3.
    rewrite E2. lia. }
  intros o l4 h4 [L4 Hp]. split; [by etrans|]. rewrite !proto_app, P1. by apply addressing_again.
Qed.

Lemma addressing_u32 rca l : addressing (Some rca) l → u32 rca = rca.
Proof using.
  clear. remember (Some rca) as o. induction 1 as [|x Hnz Hl|]; simplify_eq; [|auto].
  assert (0 ≤ rca) by (rewrite <-Hl; apply Z.land_nonneg; lia).
  assert (rca < 2 ^ 32); [|unfold u32, wrap; apply Z.mod_small; lia].
  rewrite <-Hl. destruct (Z.eq_dec (Z.land rca 0xFFFF0000) 0) as [->|]; [lia|].
  apply Z.log2_lt_pow2; [lia|]. eapply Z.le_lt_trans; [apply Z.log2_land; lia|].
  apply Z.min_lt_iff. right. done.
Qed.

(** A command that has to succeed before the next step. *)
Lemma send_or_fail cmd count arg mode s (fail : Z) (k : M (kstate H) Z) (Q : Z → list event → H → Prop) :
  0 ≤ cmd →
  (∀ l h, later (k_hw s) h → failed cmd (u32 arg) (proto l) → Q fail l h) →
  (∀ l s', later (k_hw s) (k_hw s') → proto l = command cmd (u32 arg) → does k s' (λ r l' h, Q r (l ++ l') h)) →
  does (ret ← sd.sd_send_cmd cmd count arg mode; if negb (ret =? 0) then mret fail else k) s Q.
Proof using Card.
  intros Hc Hf Hk. apply does_bind. eapply does_mono; [by apply send_spec|].
  intros r l h [L1 [[-> F1]|(-> & P1 & _)]] s1 <-.
  - apply does_ret. rewrite app_nil_r. by apply Hf.
  - by apply Hk.
Qed.

Lemma later_rounds h h' c n : later h h' → (rounds c h ≤ n)%nat → (rounds c h' ≤ n)%nat.
Proof using. intros Hl Hn. etrans; [apply Hl|done]. Qed.

(** The part after the card is powered. *)
Lemma ident_spec ty s :
  (rounds (sd.sd_frame_cmd sd.SD_CMD3) (k_hw s) < PATIENCE)%nat → ty = 0 ∨ ty = 1 →
  does
    (ret ← sd.sd_send_cmd sd.SD_CMD2 0 0 0;
     if negb (ret =? 0) then mret (-6) else
     rca ← sd.cmd3_loop PATIENCE;
     match rca with
     | None => mret (-7)
     | Some resp =>
         ret ← sd.sd_send_cmd sd.SD_CMD9 0 resp 0;
         if negb (ret =? 0) then mret (-8) else
         ret ← sd.sd_send_cmd sd.SD_CMD7 0 resp 0;
         if negb (ret =? 0) then mret (-9) else
         mret ty
     end) s (λ r l h, ident_trace r (proto l)).
Proof using Card.
  intros Hn Hty. apply send_or_fail; [done| |].
  { intros l h _ F. by apply ident_cmd2. }
  intros l1 s1 L1 P1. apply does_bind. destruct PATIENCE as [|n] eqn:EP; [lia|].
  eapply does_mono; [apply cmd3_spec; eapply later_rounds; [exact L1|lia]|].
  intros [rca|] l2 h2 [L2 A2] s2 <-.
  2: { apply does_ret. rewrite app_nil_r, proto_app, P1. by apply ident_cmd3. }
  pose proof (addressing_u32 _ _ A2) as Eu. apply send_or_fail; [done| |].
  { intros l h _ F. rewrite Eu in F. rewrite !proto_app, P1. by eapply ident_cmd9. }
  intros l3 s3 L3 P3. rewrite Eu in P3. apply send_or_fail; [done| |].
  { intros l h _ F. rewrite Eu in F. rewrite !proto_app, P1, P3. by eapply ident_cmd7. }
  intros l4 s4 L4 P4. rewrite Eu in P4. apply does_ret. rewrite !proto_app, P1, P3, P4. by apply ident_done.
Qed.

(** ** Block transfers *)

(** The stores of a transfer, and the return value that tells how far it got. *)
Inductive transfer_trace (cmd mode pa count offset : Z) : Z → list event → Prop :=
  | transfer_no_card : transfer_trace cmd mode pa count offset (-1) []
  | transfer_busy :
      transfer_trace cmd mode pa count offset (-2) [Wr MEM 32 (sdreg sd.SD_SDMA_SYS_ADDR_OFFSET) (u32 pa)]
  | transfer_refused :
      transfer_trace cmd mode pa count offset (-2)
        (Wr MEM 32 (sdreg sd.SD_SDMA_SYS_ADDR_OFFSET) (u32 pa) :: issue cmd count offset mode)
  | transfer_error :
      transfer_trace cmd mode pa count offset (-3)
        (Wr MEM 32 (sdreg sd.SD_SDMA_SYS_ADDR_OFFSET) (u32 pa) ::
         issue cmd count offset mode ++ ack sd.SD_INTR_CC ++
         [Wr MEM 16 (sdreg sd.SD_ERR_INTR_STS_OFFSET) sd.SD_ERR_INTR_ALL])
  | transfer_complete :
      transfer_trace cmd mode pa count offset 0
        (Wr MEM 32 (sdreg sd.SD_SDMA_SYS_ADDR_OFFSET) (u32 pa) ::
         issue cmd count offset mode ++ ack sd.SD_INTR_CC ++ ack sd.SD_INTR_TC).

Lemma transfer_spec cmd mode pa count offset s :
  cmd = sd.SD_CMD18 ∨ cmd = sd.SD_CMD25 →
  does (sd.transfer cmd mode pa count offset) s (λ r l h, transfer_trace cmd mode pa count offset r (stores l) ∧
    (r = 0 → ∃ v, sd.bits_set v sd.SD_INTR_TC = true ∧ Rd MEM 16 STS_REG v ∈ l)).
Proof using Card.
  intros Hcmd. unfold sd.transfer. access s1 E1.
  destruct (sd.bits_set _ _); cbn [negb]; [|apply does_ret; split; [apply transfer_no_card|done]].
  access s2 E2. apply does_bind. eapply does_mono; [apply send_cmd_spec; destruct Hcmd as [->| ->]; done|].
  intros r l h Hs s3 <-. inversion Hs as [? ? ? Hr Es|? ? Es|? ? Es _ (h' & Eh & La) _]; subst.
  { destruct (Z.eqb_spec r 0); [lia|]. cbn [negb]. apply does_ret. rewrite !stores_app, Es.
    split; [apply transfer_busy|done]. }
  { apply does_ret. rewrite !stores_app, Es. split; [apply transfer_refused|done]. }
  change (0 =? 0) with true. cbn [negb]. apply does_bind. eapply does_mono.
  { apply wait_status_spec. rewrite Eh. apply card_transfers. rewrite La. destruct Hcmd as [->| ->]; auto. }
  intros err l4 h4 (vs & v & -> & -> & Hv & _) s4 <-. destruct (sd.bits_set v _).
  - access s5 E5. apply does_ret. rewrite !stores_app, Es, stores_polled. split; [apply transfer_error|done].
  - access s5 E5. apply does_ret. rewrite !stores_app, Es, stores_polled. split; [apply transfer_complete|].
    intros _. exists v. split; [auto|]. unfold polled. rewrite !elem_of_app. set_solver.
Qed.

(** C28: sd_read() and sd_write() return on every controller that answers,
    and the stores they make are exactly the multi-block DMA transfer: buffer
    address, block count, timeout, block number, cleared status, transfer mode,
    command, and the two acknowledgements; the return value tells how far it got,
    and 0 means the transfer-complete bit was seen. *)
Theorem sd_transfer_sequence pa count offset s :
  (∃ r h l, sd.sd_read pa count offset s = Ret (r, with_io s h (k_log s ++ l)) ∧
     transfer_trace sd.SD_CMD18 1 pa count offset r (stores l) ∧
     (r = 0 → ∃ v, sd.bits_set v sd.SD_INTR_TC = true ∧ Rd MEM 16 STS_REG v ∈ l)) ∧
  (∃ r h l, sd.sd_write pa count offset s = Ret (r, with_io s h (k_log s ++ l)) ∧
     transfer_trace sd.SD_CMD25 2 pa count offset r (stores l) ∧
     (r = 0 → ∃ v, sd.bits_set v sd.SD_INTR_TC = true ∧ Rd MEM 16 STS_REG v ∈ l)).
Proof using Card. split; apply transfer_spec; auto. Qed.
(** ** The whole bring-up *)

(** usleep() comes back and leaves the controller alone. *)
Context (usleep : Z → M (kstate H) unit) (h0 : H).
Hypothesis usleep_returns : ∀ s,
  k_hw s = (hw_read MEM 32 (sdreg sd.SD_PRES_STATE_OFFSET) h0).2 →
  does (usleep 2000) s (λ _ l h, proto l = [] ∧ later (k_hw s) h).

(** C27: sd_init_card() returns on every controller that answers, and its
    commands on the wire are the bring-up sequence of an SD card, in order: reset, voltage
    check, rounds of CMD55 and ACMD41 until the card is ready, identification, rounds
    of CMD3 until it has an address, then its data and its selection under that
    very address; the return value names the step that failed and nothing is
    sent after it. *)
Theorem sd_init_card_sequence s :
  k_hw s = h0 → (∀ c, (rounds c (k_hw s) < PATIENCE)%nat) →
  ∃ r h l, sd.sd_init_card usleep s = Ret (r, with_io s h (k_log s ++ l)) ∧ init_trace r (proto l).
Proof using Card usleep_returns.
  intros <- Hn. change (does (sd.sd_init_card usleep) s (λ r l h, init_trace r (proto l))). unfold sd.sd_init_card.
  access s1 E1. assert (later (k_hw s) (k_hw s1)) as L1 by (rewrite E1; apply later_read).
  destruct (sd.bits_set _ _); cbn [negb]; [|apply does_ret; apply init_no_card].
  apply does_bind. eapply does_mono; [by apply usleep_returns|]. intros _ l2 h2 [P2 L2] s2 <-. apply send_or_fail; [done| |].
  { intros l h _ F. rewrite !proto_app, P2. by apply init_cmd0. }
  intros l3 s3 L3 P3. apply send_or_fail; [done| |].
  { intros l h _ F. rewrite !proto_app, P2, P3. by apply init_cmd8. }
  intros l4 s4 L4 P4. access s5 E5. destruct (_ =? sd.SD_CMD8_VOL_PATTERN); cbn [negb].
  2: { apply does_ret. rewrite !proto_app, P2, P3, P4. apply init_voltage. }
  assert (later (k_hw s) (k_hw s5)) as L5.
  { rewrite E5. do 3 (etrans; [eassumption|]). etrans; [exact L4|apply later_read]. }
  apply does_bind. pose proof (Hn (sd.sd_frame_cmd sd.SD_ACMD41)) as Hp. pose proof (Hn (sd.sd_frame_cmd sd.SD_CMD3)) as Ha.
  destruct PATIENCE as [|n] eqn:EP; [lia|].
  eapply does_mono; [apply acmd41_spec; eapply later_rounds; [exact L5|lia]|].
  intros [resp|] l6 h6 [L6 Hw] s6 <-.
  2: { apply does_ret. rewrite !proto_app, P2, P3, P4. simpl. rewrite app_nil_r. by apply init_power. }
  rewrite <-EP. eapply does_mono; [apply ident_spec|].
  { eapply Nat.le_lt_trans; [apply L6|]. eapply Nat.le_lt_trans; [apply L5|]. by rewrite EP. }
  { destruct (sd.bits_set _ _); auto. }
  intros r l7 h7 Hi. rewrite !proto_app, P2, P3, P4. exact (init_ready _ _ _ Hw Hi).
Qed.

End card.

(** ** A controller with a card that needs three rounds to power up *)

Module SdScenario.
Record dev : Type := mk_dev { d_last : Z; d_cold : nat; d_time : Z }.

Definition respond (d : dev) : Z :=
  if d_last d =? sd.sd_frame_cmd sd.SD_ACMD41 then (if d_cold d then 0xC0300000 else 0x00300000)
  else if d_last d =? sd.sd_frame_cmd sd.SD_CMD3 then 0x12340500
  else sd.SD_CMD8_VOL_PATTERN.

Definition dev_read (sp : space) (w a : Z) (d : dev) : Z * dev :=
  ((if a =? sdreg sd.SD_PRES_STATE_OFFSET then sd.SD_PSR_CARD_INSRT
    else if a =? STS_REG then Z.lor sd.SD_INTR_CC sd.SD_INTR_TC
    else if a =? sdreg sd.SD_RESP0_OFFSET then respond d
    else if a =? LO then d_time d else 0),
   mk_dev (d_last d) (d_cold d) (d_time d + 500000)).
Definition dev_write (sp : space) (w a v : Z) (d : dev) : dev :=
  if a =? CMD_REG
  then mk_dev v (if v =? sd.sd_frame_cmd sd.SD_ACMD41 then pred (d_cold d) else d_cold d) (d_time d)
  else d.

#[export] Instance dev_hw : hardware dev := {| hw_read := dev_read; hw_write := dev_write |}.
#[export] Instance dev_patience : patience := 5%nat.

#[export] Program Instance dev_card : sd_card dev := {|
  last_cmd := d_last;
  rounds c d := if c =? sd.sd_frame_cmd sd.SD_ACMD41 then d_cold d else 0%nat
|}.
Next Obligation. done. Qed.
Next Obligation. intros w a v h Ha. simpl. unfold dev_write. apply Z.eqb_neq in Ha as ->. done. Qed.
Next Obligation.
  intros v h. cbn [hw_write dev_hw]. unfold dev_write. rewrite Z.eqb_refl. cbv zeta. cbn [d_last d_cold].
  split; [done|]. destruct (v =? _); split; try lia; intros c; destruct (c =? _); lia.
Qed.
Next Obligation. done. Qed.
Next Obligation. done. Qed.
Next Obligation.
  intros h. simpl. unfold dev_read, final_answer, respond. simpl fst.
  destruct (d_last h =? sd.sd_frame_cmd sd.SD_ACMD41); [by intros ->|].
  destruct (d_last h =? sd.sd_frame_cmd sd.SD_CMD3); done.
Qed.

Definition inserted : dev := mk_dev 0 3 0.

(** The timer while it is read; the controller does not see it. *)
Lemma timer_read_dev t s :
  k_hw s = mk_dev 0 3 t → 0 ≤ t < 2 ^ 31 →
  does (timer.timer_read 1) s (λ t' l h, t' = t + 500000 ∧ proto l = [] ∧ h = mk_dev 0 3 (t + 1500000)).
Proof.
  intros E Ht. unfold timer.timer_read. cbn [timer.gt_read]. unfold read32.
  apply does_bind, does_read. cbv zeta. intros s1 E1. rewrite E in E1 |- *.
  apply does_bind, does_read. cbv zeta. intros s2 E2. rewrite E1 in E2 |- *.
  apply does_bind, does_read. cbv zeta. intros s3 E3. rewrite E2 in E3 |- *.
  apply does_ret. rewrite E3. split; [|split; [done|]].
  - change (wrap 32 (t + 500000) = t + 500000). apply Z.mod_small. lia.
  - simpl. f_equal. lia.
Qed.

Lemma usleep_dev s :
  k_hw s = mk_dev 0 3 500000 →
  does (timer.usleep 1 2 2000) s (λ _ l h, proto l = [] ∧ later (k_hw s) h).
Proof.
  intros E. apply does_bind. eapply does_mono; [by apply (timer_read_dev 500000)|].
  intros t l h (-> & P & ->) s1 E1. apply does_bind. eapply does_mono; [by apply (timer_read_dev 2000000)|].
  intros t' l' h' (-> & P' & ->) s2 E2. apply does_ret. rewrite !proto_app, P, P', E, E2. split; [done|].
  intros c. done.
Qed.

Definition s0 : kstate dev := TimerScenario.idle inserted.

Lemma sd_init_card_sequence_witness :
  ∃ r h l, sd.sd_init_card (timer.usleep 1 2) s0 = Ret (r, with_io s0 h (k_log s0 ++ l)) ∧ init_trace r (proto l).
Proof.
  apply (sd_init_card_sequence (timer.usleep 1 2) inserted).
  - intros s E. apply usleep_dev. exact E.
  - reflexivity.
  - intros c. simpl. destruct (c =? _); unfold PATIENCE, dev_patience; lia.
Defined.

Lemma sd_transfer_sequence_witness :
  ∃ r h l, sd.sd_read 0x100000 8 64 s0 = Ret (r, with_io s0 h (k_log s0 ++ l)) ∧
    transfer_trace sd.SD_CMD18 1 0x100000 8 64 r (stores l).
Proof.
  destruct (sd_transfer_sequence 0x100000 8 64 s0) as [(r & h & l & E & T & _) _]. exists r, h, l. split; [exact E|exact T].
Defined.

(** It ends with a card of the high-capacity type. *)
Example init_card_type :
  match sd.sd_init_card (timer.usleep 1 2) s0 with Ret (r, s) => r = 1 | _ => False end.
Proof. vm_compute. reflexivity. Qed.
End SdScenario.
