(* ===== verification/Boot.v ===== *)
(** From power-on to the kernel: the disk drivers, the firmware's readdisk()
    (firmware/arch/armv7a/fwmain.c, firmware/arch/mips/mach-msim/main.c,
    drivers/block/msim-ddisk.c) and the boot loaders that put the kernel's
    ELF segments in memory (boot/arch/armv7a/bootmain.c,
    boot/arch/mips/mach-msim/bootsect.c, boot/arch/i386/bootmain.c).

    Main memory is seen by the processor and by DMA, so it is a part of the
    hardware. *)
From Stdlib Require Import ZArith Lia String.
From stdpp Require Import base numbers gmap list.
From S2P Require Import Prelude Util AddrSpace Mmu Io Printf Libc Uart Sd.

Open Scope Z_scope.

Class ram (H : Type) : Type := {
  ram_of : H → bmem;
  with_ram : bmem → H → H;
  ram_of_with : ∀ m h, ram_of (with_ram m h) = m;
  with_ram_of : ∀ h, with_ram (ram_of h) h = h;
  with_ram_twice : ∀ m m' h, with_ram m (with_ram m' h) = with_ram m h;
}.

(** ** Memory accesses of the processor *)

Section memory.
Context {H : Type} `{hardware H} `{ram H}.

Definition in_ram {A} (c : M bmem A) : M (kstate H) A := λ s,
  match c (ram_of (k_hw s)) with
  | Ret (a, m) => Ret (a, with_io s (with_ram m (k_hw s)) (k_log s))
  | Panic => Panic
  | Stuck => Stuck
  | NoFuel => NoFuel
  end.

(** Little-endian loads, and the store of a word. *)
Definition load8 (a : Z) : M (kstate H) Z := in_ram (lb a).
Definition load16 (a : Z) : M (kstate H) Z :=
  b0 ← load8 a; b1 ← load8 (a + 1); mret (b0 + 2 ^ 8 * b1).
Definition load32 (a : Z) : M (kstate H) Z :=
  h0 ← load16 a; h1 ← load16 (a + 2); mret (h0 + 2 ^ 16 * h1).
Definition store32 (a v : Z) : M (kstate H) unit :=
  in_ram (_ ← sb a (u8 v); _ ← sb (a + 1) (u8 (Z.shiftr v 8));
          _ ← sb (a + 2) (u8 (Z.shiftr v 16)); sb (a + 3) (u8 (Z.shiftr v 24))).
End memory.

Definition SECTOR_SIZE : Z := 512.

(** ** The MSIM disk *)

Module msim_dd.
Definition MSIM_DD_DMAADDR : Z := 0x0.
Definition MSIM_DD_SECTOR : Z := 0x4.
Definition MSIM_DD_STAT : Z := 0x8.
Definition MSIM_DD_COMMAND : Z := 0x8.
Definition MSIM_DD_SIZE : Z := 0xc.
Definition STAT_ERROR : Z := 0x8.
Definition STAT_INTR : Z := 0x4.
Definition CMD_ACK : Z := 0x4.
Definition CMD_WRITE : Z := 0x2.
Definition CMD_READ : Z := 0x1.
Definition MSIM_DD_REG (paddr reg : Z) : Z := u32 (paddr + reg).

Section driver.
Context {H : Type} `{hardware H} `{ram H} `{patience}.
(** The address of the buffer the device writes to. *)
Context (msim_dd_dma : Z).

Definition msim_dd_init (paddr : Z) : M (kstate H) unit :=
  write32 mips_iomap (MSIM_DD_REG paddr MSIM_DD_DMAADDR) (mips_space.kva2pa msim_dd_dma).
Definition msim_dd_get_sector_count (paddr : Z) : M (kstate H) Z :=
  read32 mips_iomap (MSIM_DD_REG paddr MSIM_DD_SIZE).
Definition msim_dd_check_interrupt (paddr : Z) : M (kstate H) Z :=
  v ← read32 mips_iomap (MSIM_DD_REG paddr MSIM_DD_STAT);
  mret (if Z.land v STAT_INTR =? 0 then 0 else 1).
Definition msim_dd_ack_interrupt (paddr : Z) : M (kstate H) unit :=
  write32 mips_iomap (MSIM_DD_REG paddr MSIM_DD_COMMAND) CMD_ACK.

(** The address, the sector, the command; when polling, wait for the interrupt,
    acknowledge it and look at the error bit. *)
Definition msim_dd_command (paddr sect cmd : Z) : M (kstate H) unit :=
  _ ← write32 mips_iomap (MSIM_DD_REG paddr MSIM_DD_DMAADDR) (mips_space.kva2pa msim_dd_dma);
  _ ← write32 mips_iomap (MSIM_DD_REG paddr MSIM_DD_SECTOR) sect;
  write32 mips_iomap (MSIM_DD_REG paddr MSIM_DD_COMMAND) cmd.
Definition msim_dd_finish (paddr : Z) : M (kstate H) bool :=
  _ ← poll PATIENCE (msim_dd_check_interrupt paddr) (λ v, negb (v =? 0));
  _ ← msim_dd_ack_interrupt paddr;
  v ← read32 mips_iomap (MSIM_DD_REG paddr MSIM_DD_STAT);
  mret (negb (Z.land v STAT_ERROR =? 0)).

Definition msim_dd_read_sector (paddr sect buf : Z) (poll : bool) : M (kstate H) Z :=
  _ ← msim_dd_command paddr sect CMD_READ;
  if poll then
    err ← msim_dd_finish paddr;
    if (err : bool) then mret (-1) else
    _ ← in_ram (memcpy buf msim_dd_dma SECTOR_SIZE);
    mret 0
  else mret 0.

Definition msim_dd_write_sector (paddr sect buf : Z) (poll : bool) : M (kstate H) Z :=
  _ ← in_ram (memcpy msim_dd_dma buf SECTOR_SIZE);
  _ ← msim_dd_command paddr sect CMD_WRITE;
  if poll then
    err ← msim_dd_finish paddr;
    mret (if (err : bool) then -1 else 0)
  else mret 0.
End driver.
End msim_dd.

(** ** The ATA disk of the i386 boot loader *)

Module ata.
Definition ATA_REG_DATA : Z := 0x00.
Definition ATA_REG_NSECT : Z := 0x02.
Definition ATA_REG_LBAL : Z := 0x03.
Definition ATA_REG_LBAM : Z := 0x04.
Definition ATA_REG_LBAH : Z := 0x05.
Definition ATA_REG_DEVICE : Z := 0x06.
Definition ATA_REG_STATUS : Z := 0x07.
Definition ATA_REG_CMD : Z := ATA_REG_STATUS.
Definition ATA_REG_DEVSEL : Z := ATA_REG_DEVICE.
Definition ATA_LBA : Z := Z.shiftl 1 6.
Definition ATA_DEVICE_OBS : Z := Z.lor (Z.shiftl 1 7) (Z.shiftl 1 5).
Definition ATA_BUSY : Z := Z.shiftl 1 7.
Definition ATA_DRDY : Z := Z.shiftl 1 6.
Definition ATA_CMD_PIO_READ : Z := 0x20.
Definition IDE_PORTBASE : Z := 0x1f0.

Section driver.
Context {H : Type} `{hardware H} `{ram H} `{patience}.

Definition IDE_PIO_READ (reg : Z) : M (kstate H) Z := inb (IDE_PORTBASE + reg).
Definition IDE_PIO_WRITE (reg data : Z) : M (kstate H) unit := outb (IDE_PORTBASE + reg) data.

(** rep insl: [cnt] words from the port to memory. *)
Fixpoint insl (port addr : Z) (cnt : nat) : M (kstate H) unit :=
  match cnt with
  | O => mret ()
  | S cnt' =>
      v ← io_read PORT 32 (u16 port);
      _ ← store32 addr v;
      insl port (u32 (addr + 4)) cnt'
  end.
Definition IDE_PIO_FETCH (dst : Z) : M (kstate H) unit :=
  insl (IDE_PORTBASE + ATA_REG_DATA) dst (Z.to_nat (SECTOR_SIZE / 4)).

Definition waitdisk : M (kstate H) unit :=
  _ ← poll PATIENCE (IDE_PIO_READ ATA_REG_STATUS) (λ v, Z.land v (Z.lor ATA_BUSY ATA_DRDY) =? ATA_DRDY);
  mret ().

Definition readsect (dst sector : Z) : M (kstate H) unit :=
  _ ← waitdisk;
  _ ← IDE_PIO_WRITE ATA_REG_NSECT 1;
  _ ← IDE_PIO_WRITE ATA_REG_LBAL (Z.land sector 0xff);
  _ ← IDE_PIO_WRITE ATA_REG_LBAM (Z.land (Z.shiftr sector 8) 0xff);
  _ ← IDE_PIO_WRITE ATA_REG_LBAH (Z.land (Z.shiftr sector 16) 0xff);
  _ ← IDE_PIO_WRITE ATA_REG_DEVSEL (Z.lor (Z.land (Z.shiftr sector 24) 0xff) (Z.lor ATA_DEVICE_OBS ATA_LBA));
  _ ← IDE_PIO_WRITE ATA_REG_CMD ATA_CMD_PIO_READ;
  _ ← waitdisk;
  IDE_PIO_FETCH dst.
End driver.
End ata.

(** ** readdisk() of the two firmwares *)

Section readdisk.
Context {H : Type} `{hardware H} `{ram H}.
(** The sector driver with its failure test, how a chunk is copied, the
    address of the buffer on the stack, and fwpanic(). *)
Context (read_sector : Z → Z → M (kstate H) Z) (failure : Z → bool) (copy : Z → Z → Z → M bmem unit).
Context (sector_buf : Z) (fwpanic : M (kstate H) unit).

(** [n] bounds the number of chunks. *)
Fixpoint read_loop (n : nat) (sector offset buf len : Z) : M (kstate H) unit :=
  if negb (len >? 0) then mret () else
  match n with
  | O => nofuel
  | S n' =>
      let l := min2 len (SECTOR_SIZE - offset) in
      r ← read_sector sector_buf sector;
      _ ← (if failure r then fwpanic else mret ());
      _ ← in_ram (copy buf (sector_buf + offset) l);
      read_loop n' (u32 (sector + 1)) 0 (u32 (buf + l)) (len - l)
  end.

Definition readdisk (sector offset buf len : Z) : M (kstate H) unit :=
  read_loop (Z.to_nat len) (u32 (sector + offset / SECTOR_SIZE)) (offset mod SECTOR_SIZE) buf len.
End readdisk.

(** uart_puts(msg); while (1); *)
Definition fwpanic {H : Type} (puts : list Z → M (kstate H) unit) (msg : list Z) : M (kstate H) unit :=
  _ ← puts msg; panic.

Module arm_fw.
Section firmware.
Context {H : Type} `{hardware H} `{ram H} `{patience}.
Context (puts : list Z → M (kstate H) unit) (sector_buf : Z).

Definition readdisk (sector offset buf len : Z) : M (kstate H) unit :=
  readdisk (λ pa sector, sd.sd_read pa 1 sector) (λ r, negb (r =? 0))
    (λ dst src l, _ ← memcpy dst src l; mret ())
    sector_buf (fwpanic puts (bytes "read disk error" ++ [ch_lf])) sector offset buf len.
End firmware.
End arm_fw.

Module msim_fw.
Section firmware.
Context {H : Type} `{hardware H} `{ram H} `{patience}.
Context (puts : list Z → M (kstate H) unit) (sector_buf msim_dd_dma MSIM_DISK_PHYSADDR : Z).

(** for (i = 0; i < l; ++i) buf[i] = sector_buf[offset + i]; *)
Definition readdisk (sector offset buf len : Z) : M (kstate H) unit :=
  readdisk (λ buf sector, msim_dd.msim_dd_read_sector msim_dd_dma MSIM_DISK_PHYSADDR sector buf true) (λ r, r <? 0)
    (λ dst src l, copy_bytes (Z.to_nat l) dst src)
    sector_buf (fwpanic puts (bytes "read disk error")) sector offset buf len.
End firmware.
End msim_fw.

(** ** ELF headers and the partition table, in memory *)

Module elf.
(** struct elf32hdr *)
Definition e_entry : Z := 24.
Definition e_phoff : Z := 28.
Definition e_phentsize : Z := 42.
Definition e_phnum : Z := 44.
Definition sizeof_elf32hdr : Z := 52.
(** struct elf32_phdr *)
Definition p_type : Z := 0.
Definition p_offset : Z := 4.
Definition p_vaddr : Z := 8.
Definition p_paddr : Z := 12.
Definition p_filesz : Z := 16.
Definition sizeof_elf32_phdr : Z := 32.
Definition PT_LOAD : Z := 1.
(** struct mbr, packed *)
Definition BOOTLOADER_SIZE : Z := 446.
Definition sizeof_part_entry : Z := 16.
Definition off_first_sector_lba : Z := 8.
Definition first_sector_lba (part : Z) : Z := BOOTLOADER_SIZE + part * sizeof_part_entry + off_first_sector_lba.
End elf.

(** ** The boot loaders of ARM and MIPS *)

Section loader.
Context {H : Type} `{hardware H} `{ram H}.
(** The firmware's readdisk(), the addresses of the two headers on the stack,
    and the field that says where a segment goes. *)
Context (readdisk : Z → Z → Z → Z → M (kstate H) unit) (eh ph : Z) (p_addr : Z).

(** The loop over the program headers; e_phnum is below 2^16, so [n] of that size
    is always enough. *)
Fixpoint load_loop (n : nat) (lba pos i : Z) : M (kstate H) unit :=
  e_phnum ← load16 (eh + elf.e_phnum);
  if negb (i <? e_phnum) then mret () else
  match n with
  | O => nofuel
  | S n' =>
      _ ← readdisk lba pos ph elf.sizeof_elf32_phdr;
      p_type ← load32 (ph + elf.p_type);
      _ ← (if p_type =? elf.PT_LOAD then
             seg ← load32 (ph + p_addr);
             p_offset ← load32 (ph + elf.p_offset);
             p_filesz ← load32 (ph + elf.p_filesz);
             readdisk lba p_offset seg p_filesz
           else mret ());
      e_phentsize ← load16 (eh + elf.e_phentsize);
      load_loop n' lba (u32 (pos + e_phentsize)) (u16 (i + 1))
  end.

(** Everything up to the jump; the result is the entry address. *)
Definition load_kernel (n : nat) (lba : Z) : M (kstate H) Z :=
  _ ← readdisk lba 0 eh elf.sizeof_elf32hdr;
  pos ← load32 (eh + elf.e_phoff);
  _ ← load_loop n lba pos 0;
  load32 (eh + elf.e_entry).
End loader.

Module arm_boot.
Definition FW_BASE : Z := 0x1FF00000.
Definition MBR_ADDR : Z := 0x1FE00000.
Section boot.
Context {H : Type} `{hardware H} `{ram H}.
Context (uart_puts : list Z → M (kstate H) unit) (readdisk : Z → Z → Z → Z → M (kstate H) unit) (eh ph : Z).

(** The address jumped to. The partition's start is copied byte by byte. *)
Definition boot_main (n : nat) : M (kstate H) Z :=
  _ ← uart_puts (bytes "BL: Hello!" ++ [ch_cr; ch_lf]);
  lba ← load32 (MBR_ADDR + elf.first_sector_lba 1);
  entry ← load_kernel readdisk eh ph elf.p_paddr n lba;
  _ ← uart_puts (bytes "BL: Kernel loaded." ++ [ch_cr; ch_lf]);
  mret entry.
End boot.
End arm_boot.

Module mips_boot.
Section boot.
Context {H : Type} `{hardware H} `{ram H} (eh ph : Z).

Definition boot (n : nat) (readdisk : Z → Z → Z → Z → M (kstate H) unit) (mbr_addr : Z) : M (kstate H) Z :=
  lba ← load32 (mbr_addr + elf.first_sector_lba 1);
  load_kernel readdisk eh ph elf.p_vaddr n lba.
End boot.
End mips_boot.

(** ** The boot loader of i386 *)

Module i386_boot.
Definition ELF_BUFFER : Z := 0x10000.
Definition PGSIZE : Z := 4096.
Section boot.
Context {H : Type} `{hardware H} `{ram H} `{patience}.

(** [n] bounds the number of sectors. *)
Fixpoint readseg_loop (n : nat) (pa epa sector : Z) : M (kstate H) unit :=
  if negb (pa <? epa) then mret () else
  match n with
  | O => nofuel
  | S n' => _ ← ata.readsect pa sector; readseg_loop n' (u32 (pa + SECTOR_SIZE)) epa (u32 (sector + 1))
  end.

Definition readseg (pa count offset : Z) : M (kstate H) unit :=
  let epa := u32 (pa + count) in
  let sector := offset / SECTOR_SIZE in
  let pa := u32 (pa - offset mod SECTOR_SIZE) in
  readseg_loop (Z.to_nat (count + SECTOR_SIZE)) pa epa sector.

Fixpoint load_loop (n : nat) (ph eph part_offset : Z) : M (kstate H) unit :=
  if negb (ph <? eph) then mret () else
  match n with
  | O => nofuel
  | S n' =>
      p_type ← load32 (ph + elf.p_type);
      _ ← (if p_type =? elf.PT_LOAD then
             pa ← load32 (ph + elf.p_paddr);
             p_filesz ← load32 (ph + elf.p_filesz);
             p_offset ← load32 (ph + elf.p_offset);
             readseg pa p_filesz (u32 (part_offset + p_offset))
           else mret ());
      load_loop n' (u32 (ph + elf.sizeof_elf32_phdr)) eph part_offset
  end.

(** [start]: where the BIOS has put the MBR. *)
Definition bootmain (start : Z) : M (kstate H) Z :=
  lba ← load32 (start + elf.first_sector_lba 1);
  let part_offset := u32 (lba * SECTOR_SIZE) in
  _ ← readseg ELF_BUFFER PGSIZE part_offset;
  e_phoff ← load32 (ELF_BUFFER + elf.e_phoff);
  e_phnum ← load16 (ELF_BUFFER + elf.e_phnum);
  let ph := u32 (ELF_BUFFER + e_phoff) in
  let eph := u32 (ph + e_phnum * elf.sizeof_elf32_phdr) in
  _ ← load_loop (Z.to_nat e_phnum) ph eph part_offset;
  load32 (ELF_BUFFER + elf.e_entry).
End boot.
End i386_boot.

(** io_mem_init() of a driver built without a kernel has no handler to
    register. *)
Definition raw_io_mem_init {H : Type} (memory_bus : bus_ptr) : M (kstate H) unit := set_ops memory_bus IO_MEM.

(** ** The firmware of ARM, from reset to the jump into the MBR *)

Section fw_main.
Context {H : Type} `{hardware H} `{ram H} `{patience}.
Context (tries naps : nat) (CONSOLE_NEED_CR : bool).

Definition MBR : Z := 0x1FE00000.
Definition line (msg : string) : list Z := bytes msg ++ [ch_lf].
Definition puts (str : list Z) : M (kstate H) unit :=
  _ ← uart_puts (zynq.uart_putchar flat_iomap) CONSOLE_NEED_CR str; mret ().

(** [Some] address jumped to, or [None] when it spins. *)
Definition fw_main : M (kstate H) (option Z) :=
  _ ← raw_io_mem_init early_memory_bus;
  _ ← timer.sleep tries naps 1;
  _ ← zynq.uart_init flat_iomap;
  _ ← zynq.uart_enable flat_iomap;
  _ ← puts (line "FW: Hello!");
  _ ← sd.sd_init;
  _ ← puts (line "FW: SD Controller initialized.");
  ret ← sd.sd_init_card (timer.usleep tries naps);
  if (ret =? 0) || (ret =? 1) then
    _ ← (if ret =? 0 then puts (line "FW: SD Card initialized.") else puts (line "FW: SDHC Card initialized."));
    ret ← sd.sd_read MBR 1 0;
    if ret =? 0 then
      _ ← puts (line "FW: Card read OK.");
      b0 ← load8 (MBR + 510);
      mbr_ok ← (if b0 =? 0x55 then b1 ← load8 (MBR + 511); mret (b1 =? 0xAA) else mret false);
      if (mbr_ok : bool) then _ ← puts (line "FW: MBR valid."); mret (Some MBR)
      else _ ← puts (line "FW: MBR not valid."); mret None
    else _ ← puts (line "FW: Card read failed."); mret None
  else _ ← puts (line "FW: Card initialization failed."); mret None.
End fw_main.

(** The firmware of MSIM: the MBR goes to a buffer on the stack. *)
Section msim_main.
Context {H : Type} `{hardware H} `{ram H} `{patience}.
Context (CONSOLE_NEED_CR : bool) (msim_dd_dma MSIM_DISK_PHYSADDR mbr : Z).

Definition main : M (kstate H) (option Z) :=
  _ ← raw_io_mem_init early_memory_bus;
  _ ← msim.uart_init;
  _ ← uart_puts (msim.uart_putchar mips_iomap) CONSOLE_NEED_CR (bytes "FW: Hello world!" ++ [ch_cr; ch_lf]);
  _ ← msim_dd.msim_dd_init msim_dd_dma MSIM_DISK_PHYSADDR;
  ret ← msim_dd.msim_dd_read_sector msim_dd_dma MSIM_DISK_PHYSADDR 0 mbr true;
  if ret =? 0 then mret (Some mbr) else mret None.
End msim_main.
