(* ===== verification/BootProps.v ===== *)
(** What the firmware and the boot loaders leave in memory: readdisk() against
    the disk image, for any sector driver that keeps its contract, and the
    ELF loaders against the image's program headers. *)
From Stdlib Require Import ZArith Lia String.
From stdpp Require Import base numbers gmap list sets.
From S2P Require Import Prelude Util AddrSpace Mmu Io Printf Libc Uart UartProps Sd SdProps SdProtocol Boot.

Open Scope Z_scope.

(** ** Disk images *)

(** [n] bytes of an image from byte [p] on. *)
Definition disk_bytes (image : Z → Z) (p : Z) (n : nat) : list Z := (λ i, image (p + Z.of_nat i)) <$> seq 0 n.

Lemma disk_bytes_length image p n : length (disk_bytes image p n) = n.
Proof. unfold disk_bytes. by rewrite length_fmap, length_seq. Qed.

Lemma disk_bytes_lookup image p n i v :
  disk_bytes image p n !! i = Some v ↔ (i < n)%nat ∧ v = image (p + Z.of_nat i).
Proof.
  unfold disk_bytes. rewrite list_lookup_fmap_Some. setoid_rewrite lookup_seq. split.
  - intros (j & -> & -> & Hj). by split.
  - intros [Hi ->]. by exists i.
Qed.

(** A range of memory holds a part of the image. *)
Definition holds_image (m : bmem) (a : Z) (image : Z → Z) (p n : Z) : Prop :=
  ∀ i, 0 ≤ i < n → m !! (a + i) = Some (image (p + i)).

Lemma holds_image_bytes m a image p n :
  0 ≤ n → holds m a (disk_bytes image p (Z.to_nat n)) ↔ holds_image m a image p n.
Proof.
  intros Hn. split.
  - intros Hh i Hi. replace i with (Z.of_nat (Z.to_nat i)) by lia. apply Hh.
    apply disk_bytes_lookup. split; [lia|done].
  - intros Hh i v [Hi ->]%disk_bytes_lookup. apply Hh. lia.
Qed.

Lemma holds_image_app m a image p n k :
  holds_image m a image p n → holds_image m (a + n) image (p + n) k → holds_image m a image p (n + k).
Proof.
  intros H1 H2 i Hi. destruct (Z.lt_ge_cases i n); [apply H1; lia|].
  replace (a + i) with (a + n + (i - n)) by lia. rewrite H2 by lia. do 2 f_equal. lia.
Qed.

Lemma holds_image_sub m a image p n d k :
  holds_image m a image p n → 0 ≤ d → d + k ≤ n → holds_image m (a + d) image (p + d) k.
Proof. intros Hh Hd Hk i Hi. replace (a + d + i) with (a + (d + i)) by lia. rewrite Hh by lia. do 2 f_equal. lia. Qed.

(** Nothing changes outside the places described by [P]. *)
Definition only (P : Z → Prop) (m m' : bmem) : Prop := ∀ x, ¬ P x → m' !! x = m !! x.
Definition within (a n x : Z) : Prop := a ≤ x < a + n.

Lemma only_trans P m1 m2 m3 : only P m1 m2 → only P m2 m3 → only P m1 m3.
Proof. intros H1 H2 x Hx. by rewrite H2, H1. Qed.
Lemma only_mono P Q m m' : only P m m' → (∀ x, P x → Q x) → only Q m m'.
Proof. intros H1 HPQ x Hx. apply H1. naive_solver. Qed.

Lemma holds_image_only P m m' a image p n :
  holds_image m a image p n → only P m m' → (∀ x, within a n x → ¬ P x) → holds_image m' a image p n.
Proof. intros Hh Ho Hd i Hi. rewrite Ho; [by apply Hh|]. apply Hd. unfold within. lia. Qed.

(** ** Running code on memory *)

Section does_ram.
Context {H : Type} `{HW : hardware H} `{RAM : ram H}.

Lemma does_in_ram {A} (c : M bmem A) s a m (Q : A → list event → H → Prop) :
  c (ram_of (k_hw s)) = Ret (a, m) → Q a [] (with_ram m (k_hw s)) → does (in_ram c) s Q.
Proof.
  intros E HQ. exists a, (with_ram m (k_hw s)), []. split; [|done]. unfold in_ram. rewrite E. by rewrite app_nil_r.
Qed.

Lemma does_load8 a s v (Q : Z → list event → H → Prop) :
  ram_of (k_hw s) !! a = Some v → Q v [] (k_hw s) → does (load8 a) s Q.
Proof.
  intros E HQ. eapply does_in_ram; [by unfold lb; rewrite E|]. by rewrite with_ram_of.
Qed.
End does_ram.

(** Little-endian numbers in an image. *)
Definition img16 (image : Z → Z) (p : Z) : Z := image p + 2 ^ 8 * image (p + 1).
Definition img32 (image : Z → Z) (p : Z) : Z := img16 image p + 2 ^ 16 * img16 image (p + 2).

Section loads.
Context {H : Type} `{HW : hardware H} `{RAM : ram H}.

Lemma does_load16 a n d s image p (Q : Z → list event → H → Prop) :
  holds_image (ram_of (k_hw s)) a image p n → 0 ≤ d → d + 2 ≤ n →
  Q (img16 image (p + d)) [] (k_hw s) → does (load16 (a + d)) s Q.
Proof.
  intros Hh Hd Hn HQ. apply does_bind. eapply does_load8; [apply Hh; lia|]. intros s1 E1.
  apply does_bind. eapply does_load8; [rewrite E1, <-Z.add_assoc; apply Hh; lia|]. intros s2 E2.
  apply does_ret. rewrite E2, E1. unfold img16. by rewrite Z.add_assoc.
Qed.

Lemma does_load32 a n d s image p (Q : Z → list event → H → Prop) :
  holds_image (ram_of (k_hw s)) a image p n → 0 ≤ d → d + 4 ≤ n →
  Q (img32 image (p + d)) [] (k_hw s) → does (load32 (a + d)) s Q.
Proof.
  intros Hh Hd Hn HQ. apply does_bind. eapply does_load16; [done|lia..|]. intros s1 E1.
  apply does_bind. rewrite <-Z.add_assoc. eapply does_load16; [by rewrite E1|lia..|]. intros s2 E2.
  apply does_ret. rewrite E2, E1. unfold img32. by rewrite Z.add_assoc.
Qed.
End loads.

(** ** Sector drivers *)

(** A sector driver: the image it reads, the sectors it cannot read, the
    memory it uses for itself, and what a call does. *)
Class SectorReader {H : Type} `{RAM : ram H} (rd : Z → Z → M (kstate H) Z) (failure : Z → bool) : Type := {
  image : Z → Z;
  faulty : Z → bool;
  private : Z → Prop;
  reader_ok : H → Prop;
  reader_ok_ram : ∀ m h, reader_ok h → reader_ok (with_ram m h);
  read_sector_spec : ∀ s buf sect,
    reader_ok (k_hw s) → 0 ≤ sect < 2 ^ 32 → 0 ≤ buf → buf + SECTOR_SIZE < 2 ^ 32 →
    (∀ x, within buf SECTOR_SIZE x → ¬ private x) →
    does (rd buf sect) s (λ r _ h, reader_ok h ∧
      if faulty sect then failure r = true else
      failure r = false ∧ holds_image (ram_of h) buf image (SECTOR_SIZE * sect) SECTOR_SIZE ∧
      only (λ x, within buf SECTOR_SIZE x ∨ private x) (ram_of (k_hw s)) (ram_of h));
}.

Section readdisk.
Context {H : Type} `{HW : hardware H} `{RAM : ram H}.
Context (rd : Z → Z → M (kstate H) Z) (failure : Z → bool) `{!SectorReader rd failure}.
Context (copy : Z → Z → Z → M bmem unit) (sector_buf : Z) (die : M (kstate H) unit).

(** How a chunk is copied does not matter. *)
Hypothesis copy_ok : ∀ m dst src l,
  holds m src l → apart dst src (Z.of_nat (length l)) → 0 ≤ src →
  copy dst src (Z.of_nat (length l)) m = Ret ((), blit m dst l).
(** The sector buffer is ordinary memory. *)
Hypothesis buffer_ok : 0 ≤ sector_buf ∧ sector_buf + SECTOR_SIZE < 2 ^ 32 ∧
  ∀ x, within sector_buf SECTOR_SIZE x → ¬ private x.

(** What readdisk() may change besides its destination. *)
Definition scratch (x : Z) : Prop := within sector_buf SECTOR_SIZE x ∨ private x.

(** A destination: in the address space and none of the driver's memory. *)
Definition free_range (buf len : Z) : Prop :=
  0 ≤ buf ∧ buf + len < 2 ^ 32 ∧ ∀ x, within buf len x → ¬ scratch x.

(** Copying a chunk out of the sector buffer. *)
Lemma copy_chunk s p off buf l :
  holds_image (ram_of (k_hw s)) sector_buf image p SECTOR_SIZE → 0 ≤ off → 0 < l → off + l ≤ SECTOR_SIZE →
  free_range buf l →
  does (in_ram (copy buf (sector_buf + off) l)) s (λ _ _ h,
    (reader_ok (k_hw s) → reader_ok h) ∧ holds_image (ram_of h) buf image (p + off) l ∧
    only (within buf l) (ram_of (k_hw s)) (ram_of h)).
Proof using SectorReader0 buffer_ok copy_ok.
  intros Hh Ho Hl Hs (Hb1 & Hb2 & Hd). set (bs := disk_bytes image (p + off) (Z.to_nat l)).
  assert (Z.of_nat (length bs) = l) as Hlen by (unfold bs; rewrite disk_bytes_length; lia).
  assert (apart buf (sector_buf + off) l) as Ha.
  { unfold apart. destruct (Z.le_gt_cases (buf + l) (sector_buf + off)); [by left|right].
    destruct (Z.le_gt_cases (sector_buf + off + l) buf); [done|]. exfalso.
    apply (Hd (Z.max buf (sector_buf + off))); unfold scratch, within; lia. }
  eapply does_in_ram.
  - rewrite <-Hlen. apply copy_ok; [|by rewrite Hlen|lia].
    apply holds_image_bytes; [lia|]. by eapply holds_image_sub.
  - split; [apply reader_ok_ram|]. rewrite ram_of_with. split.
    + apply holds_image_bytes; [lia|]. apply blit_holds.
    + intros x Hx. apply blit_other. rewrite Hlen. exact Hx.
Qed.

Lemma read_loop_run n s sector off buf len :
  reader_ok (k_hw s) → 0 ≤ sector → 0 ≤ off < SECTOR_SIZE → 0 ≤ len ≤ Z.of_nat n →
  SECTOR_SIZE * sector + off + len ≤ SECTOR_SIZE * 2 ^ 32 → free_range buf len →
  (∀ k, sector ≤ k → SECTOR_SIZE * k < SECTOR_SIZE * sector + off + len → faulty k = false) →
  does (read_loop rd failure copy sector_buf die n sector off buf len) s (λ _ _ h,
    reader_ok h ∧ holds_image (ram_of h) buf image (SECTOR_SIZE * sector + off) len ∧
    only (λ x, within buf len x ∨ scratch x) (ram_of (k_hw s)) (ram_of h)).
Proof using SectorReader0 buffer_ok copy_ok.
  revert s sector off buf len. induction n as [|n IH]; intros s sector off buf len Hok Hs Ho Hn Ht Hf Hgood.
  all: cbn [read_loop]; destruct (Z.gtb_spec len 0) as [Hl|Hl]; cbn [negb]; try lia.
  1,3: assert (len = 0) as -> by lia; apply does_ret; split; [done|]; split; [intros i Hi; lia|done].
  assert (min2 len (SECTOR_SIZE - off) = Z.min len (SECTOR_SIZE - off)) as Em by (unfold min2; destruct (Z.ltb_spec len (SECTOR_SIZE - off)); lia).
  rewrite Em. clear Em. unfold SECTOR_SIZE in *. set (l := Z.min len (512 - off)) in *.
  assert (0 < l ≤ len ∧ off + l ≤ 512 ∧ (l = len ∨ off + l = 512)) as Hlb by lia. clearbody l.
  destruct buffer_ok as (B1 & B2 & B3). destruct Hf as (F1 & F2 & F3).
  apply does_bind. eapply does_mono; [apply read_sector_spec; [done|lia|done..]|].
  rewrite (Hgood sector) by lia. intros r l1 h1 (Hok1 & -> & Hh1 & Ho1) s1 <-.
  apply does_bind, does_ret. intros s2 E2.
  apply does_bind. eapply does_mono.
  { apply (copy_chunk s2 (512 * sector) off buf l); [by rewrite E2|unfold SECTOR_SIZE; lia..|].
    split; [done|]. split; [lia|]. intros x Hx. apply F3. unfold within in *. lia. }
  intros _ l3 h3 (Hok3 & Hh3 & Ho3) s3 <-. rewrite E2 in Hok3, Ho3.
  assert (only (λ x, within buf len x ∨ scratch x) (ram_of (k_hw s)) (ram_of (k_hw s3))) as Hos.
  { eapply only_trans; [eapply only_mono; [exact Ho1|]|eapply only_mono; [exact Ho3|]].
    - intros x [Hx|Hx]; right; [by left|by right].
    - intros x Hx. left. unfold within in *. lia. }
  destruct (Z.eq_dec (len - l) 0) as [Ez|Ez].
  { rewrite Ez. replace len with l in * by lia. destruct n; cbn [read_loop negb Z.gtb Z.compare]; apply does_ret; auto. }
  assert (u32 (sector + 1) = sector + 1) as -> by (apply Z.mod_small; lia).
  assert (u32 (buf + l) = buf + l) as -> by (apply Z.mod_small; lia).
  eapply does_mono; [apply (IH s3 (sector + 1) 0 (buf + l) (len - l)); [auto|lia..| |]|].
  { split; [lia|]. split; [lia|]. intros x Hx. apply F3. unfold within in *. lia. }
  { intros k Hk1 Hk2. apply Hgood; lia. }
  intros _ l4 h4 (Hok4 & Hh4 & Ho4). split; [done|]. split.
  - replace len with (l + (len - l)) by lia. apply holds_image_app.
    + eapply holds_image_only; [exact Hh3|exact Ho4|]. intros x Hx [Hx2|Hx2]; [unfold within in *; lia|].
      apply (F3 x); [unfold within in *; lia|done].
    + replace (512 * sector + off + l) with (512 * (sector + 1) + 0) by lia. exact Hh4.
  - eapply only_trans; [exact Hos|]. eapply only_mono; [exact Ho4|]. intros x [Hx|Hx]; [left; unfold within in *; lia|by right].
Qed.

Lemma readdisk_run s sector off buf len :
  reader_ok (k_hw s) → 0 ≤ sector → 0 ≤ off → 0 ≤ len →
  SECTOR_SIZE * sector + off + len < SECTOR_SIZE * 2 ^ 32 → free_range buf len →
  (∀ k, SECTOR_SIZE * sector + off < SECTOR_SIZE * (k + 1) → SECTOR_SIZE * k < SECTOR_SIZE * sector + off + len →
     faulty k = false) →
  does (readdisk rd failure copy sector_buf die sector off buf len) s (λ _ _ h,
    reader_ok h ∧ holds_image (ram_of h) buf image (SECTOR_SIZE * sector + off) len ∧
    only (λ x, within buf len x ∨ scratch x) (ram_of (k_hw s)) (ram_of h)).
Proof using SectorReader0 buffer_ok copy_ok.
  intros Hok Hs Ho Hl Ht Hf Hgood. unfold readdisk. unfold SECTOR_SIZE in *.
  pose proof (Z.div_mod off 512). pose proof (Z.mod_pos_bound off 512). pose proof (Z.div_pos off 512).
  assert (u32 (sector + off / 512) = sector + off / 512) as -> by (apply Z.mod_small; lia).
  eapply does_mono; [apply read_loop_run; unfold SECTOR_SIZE; [done|lia..|done|]|].
  { intros k Hk1 Hk2. apply Hgood; lia. }
  intros _ l h (Hok' & Hh & Ho'). split; [done|]. split; [|done].
  by replace (512 * sector + off) with (512 * (sector + off / 512) + off mod 512) by lia.
Qed.

(** C18: readdisk() copies exactly the asked bytes of the disk image to memory,
    from any byte offset and of any length, through one sector buffer, and
    touches nothing else but that buffer and the driver's own memory. It
    always returns when the sectors it needs can be read. *)
Theorem readdisk_correct s sector off buf len :
  reader_ok (k_hw s) → 0 ≤ sector → 0 ≤ off → 0 ≤ len →
  SECTOR_SIZE * sector + off + len < SECTOR_SIZE * 2 ^ 32 → free_range buf len →
  (∀ k, SECTOR_SIZE * sector + off < SECTOR_SIZE * (k + 1) → SECTOR_SIZE * k < SECTOR_SIZE * sector + off + len →
     faulty k = false) →
  ∃ h l, readdisk rd failure copy sector_buf die sector off buf len s = Ret ((), with_io s h (k_log s ++ l)) ∧
    (∀ i, 0 ≤ i < len → ram_of h !! (buf + i) = Some (image (SECTOR_SIZE * sector + off + i))) ∧
    (∀ x, ¬ (buf ≤ x < buf + len) → ¬ scratch x → ram_of h !! x = ram_of (k_hw s) !! x).
Proof using SectorReader0 buffer_ok copy_ok.
  intros Hok Hs Ho Hl Ht Hf Hgood.
  destruct (readdisk_run s sector off buf len) as ([] & h & l & E & _ & Hh & Hon); [done..|].
  exists h, l. split; [done|]. split; [exact Hh|]. intros x Hx Hns. apply Hon. intros [?|?]; auto.
Qed.
End readdisk.

(** ** Loading a kernel *)

(** What a boot loader asks of the firmware's readdisk(). *)
Class DiskReader {H : Type} `{RAM : ram H} (readdisk : Z → Z → Z → Z → M (kstate H) unit) : Type := {
  disk_image : Z → Z;
  disk_image_byte : ∀ p, 0 ≤ disk_image p < 256;
  readable : Z → Z → Prop;
  usable : Z → Prop;
  disk_ok : H → Prop;
  readdisk_spec : ∀ s sector off buf len,
    disk_ok (k_hw s) → 0 ≤ sector → 0 ≤ off → 0 ≤ len → readable (SECTOR_SIZE * sector + off) len →
    0 ≤ buf → buf + len < 2 ^ 32 → (∀ x, within buf len x → usable x) →
    does (readdisk sector off buf len) s (λ _ _ h,
      disk_ok h ∧ holds_image (ram_of h) buf disk_image (SECTOR_SIZE * sector + off) len ∧
      only (λ x, within buf len x ∨ ¬ usable x) (ram_of (k_hw s)) (ram_of h));
}.

Lemma img16_range image p : (∀ p, 0 ≤ image p < 256) → 0 ≤ img16 image p < 2 ^ 16.
Proof. intros Hi. unfold img16. pose proof (Hi p). pose proof (Hi (p + 1)). lia. Qed.
Lemma img32_range image p : (∀ p, 0 ≤ image p < 256) → 0 ≤ img32 image p < 2 ^ 32.
Proof. intros Hi. unfold img32. pose proof (img16_range image p Hi). pose proof (img16_range image (p + 2) Hi). lia. Qed.

Definition disjoint (a n b k : Z) : Prop := ∀ x, within a n x → within b k x → False.

Section loader.
Context {H : Type} `{HW : hardware H} `{RAM : ram H}.
Context (readdisk : Z → Z → Z → Z → M (kstate H) unit) `{!DiskReader readdisk}.
Context (eh ph : Z) (p_addr lba : Z).

(** The ELF file that starts at sector [lba], as its headers describe it. *)
Definition file : Z := SECTOR_SIZE * lba.
Definition phnum : Z := img16 disk_image (file + elf.e_phnum).
Definition phdr (i : Z) : Z :=
  file + u32 (img32 disk_image (file + elf.e_phoff) + i * img16 disk_image (file + elf.e_phentsize)).
Definition loadable (i : Z) : Prop := 0 ≤ i < phnum ∧ img32 disk_image (phdr i + elf.p_type) = elf.PT_LOAD.
Definition seg_dest (i : Z) : Z := img32 disk_image (phdr i + p_addr).
Definition seg_pos (i : Z) : Z := file + img32 disk_image (phdr i + elf.p_offset).
Definition seg_size (i : Z) : Z := img32 disk_image (phdr i + elf.p_filesz).

(** An image this loader can load: its headers can be read, and its segments
    overlap neither each other nor the loader. *)
Record loadable_image : Prop := {
  li_lba : 0 ≤ lba;
  li_addr : 0 ≤ p_addr ≤ 28;
  li_eh : 0 ≤ eh ∧ eh + elf.sizeof_elf32hdr < 2 ^ 32 ∧ ∀ x, within eh elf.sizeof_elf32hdr x → usable x;
  li_ph : 0 ≤ ph ∧ ph + elf.sizeof_elf32_phdr < 2 ^ 32 ∧ ∀ x, within ph elf.sizeof_elf32_phdr x → usable x;
  li_apart : disjoint eh elf.sizeof_elf32hdr ph elf.sizeof_elf32_phdr;
  li_header : readable (file + 0) elf.sizeof_elf32hdr;
  li_phdr : ∀ i, 0 ≤ i < phnum → readable (phdr i) elf.sizeof_elf32_phdr;
  li_seg : ∀ i, loadable i →
    readable (seg_pos i) (seg_size i) ∧ seg_dest i + seg_size i < 2 ^ 32 ∧
    (∀ x, within (seg_dest i) (seg_size i) x → usable x) ∧
    disjoint (seg_dest i) (seg_size i) eh elf.sizeof_elf32hdr ∧
    disjoint (seg_dest i) (seg_size i) ph elf.sizeof_elf32_phdr;
  li_segs : ∀ i j, loadable i → loadable j → i ≠ j → disjoint (seg_dest i) (seg_size i) (seg_dest j) (seg_size j);
}.

(** Where the loader writes. *)
Definition loader_writes (x : Z) : Prop :=
  within eh elf.sizeof_elf32hdr x ∨ within ph elf.sizeof_elf32_phdr x ∨ ¬ usable x ∨
  ∃ i, loadable i ∧ within (seg_dest i) (seg_size i) x.

(** The state of the loop before header [i]. *)
Definition loaded (m0 : bmem) (i : Z) (h : H) : Prop :=
  disk_ok h ∧ holds_image (ram_of h) eh disk_image (file + 0) elf.sizeof_elf32hdr ∧
  only loader_writes m0 (ram_of h) ∧
  ∀ j, loadable j → j < i → holds_image (ram_of h) (seg_dest j) disk_image (seg_pos j) (seg_size j).

Hypothesis image_ok : loadable_image.

(** A call of readdisk() that misses a range leaves what is there. *)
Lemma keep_image m m' b k a p n :
  only (λ x, within b k x ∨ ¬ usable x) m m' → holds_image m a disk_image p n →
  disjoint a n b k → (∀ x, within a n x → usable x) → holds_image m' a disk_image p n.
Proof using. intros Ho Hh Hd Hu. eapply holds_image_only; [done..|]. intros x Hx [Hx2|Hx2]; [by eapply Hd|auto]. Qed.

Lemma disjoint_sym a n b k : disjoint a n b k → disjoint b k a n.
Proof using. intros Hd x H1 H2. by eapply Hd. Qed.

(** Reading program header [i] keeps the state. *)
Lemma read_phdr s m0 i :
  loaded m0 i (k_hw s) → 0 ≤ i < phnum →
  does (readdisk lba (phdr i - file) ph elf.sizeof_elf32_phdr) s (λ _ _ h,
    loaded m0 i h ∧ holds_image (ram_of h) ph disk_image (phdr i) elf.sizeof_elf32_phdr).
Proof using image_ok.
  intros (Hok & He & Ho & Hsegs) Hi. destruct image_ok. destruct li_ph0 as (P1 & P2 & P3).
  assert (SECTOR_SIZE * lba + (phdr i - file) = phdr i) as Ep by (unfold file; lia).
  eapply does_mono; [apply readdisk_spec; [done|done| |done|rewrite Ep; auto|done..]|].
  { unfold phdr, u32, wrap. pose proof (Z.mod_pos_bound (img32 disk_image (file + elf.e_phoff) +
      i * img16 disk_image (file + elf.e_phentsize)) (2 ^ 32)). lia. }
  rewrite Ep. intros _ l h (Hok' & Hh & Ho'). split; [|done]. split; [done|]. split; [|split].
  - eapply keep_image; [done..|]. apply li_eh0.
  - eapply only_trans; [exact Ho|]. eapply only_mono; [exact Ho'|]. unfold loader_writes. tauto.
  - intros j Hj Hlt. destruct (li_seg0 j Hj) as (_ & _ & Hu & _ & Hd). eapply keep_image; [done|by apply Hsegs|done|done].
Qed.

Lemma next_phdr i : u32 (phdr i - file + img16 disk_image (file + elf.e_phentsize)) = phdr (i + 1) - file.
Proof using.
  unfold phdr, u32, wrap. rewrite !Z.add_simpl_l, Zplus_mod_idemp_l. f_equal. lia.
Qed.

Lemma first_phdr : img32 disk_image (file + elf.e_phoff) = phdr 0 - file.
Proof using.
  unfold phdr, u32, wrap. rewrite Z.add_simpl_l, Z.mul_0_l, Z.add_0_r. symmetry. apply Z.mod_small.
  apply img32_range, disk_image_byte.
Qed.

(** Reading a loadable segment extends the state. *)
Lemma read_seg s m0 i :
  loaded m0 i (k_hw s) → loadable i →
  does (readdisk lba (seg_pos i - file) (seg_dest i) (seg_size i)) s (λ _ _ h, loaded m0 (i + 1) h).
Proof using image_ok.
  intros (Hok & He & Ho & Hsegs) Hi. destruct image_ok. destruct (li_seg0 i Hi) as (S1 & S2 & S3 & S4 & S5).
  assert (SECTOR_SIZE * lba + (seg_pos i - file) = seg_pos i) as Ep by (unfold file; lia).
  eapply does_mono; [apply readdisk_spec; [done|done| | |by rewrite Ep| |done..]|].
  { unfold seg_pos. pose proof (img32_range disk_image (phdr i + elf.p_offset) disk_image_byte). lia. }
  { apply img32_range, disk_image_byte. }
  { apply img32_range, disk_image_byte. }
  rewrite Ep. intros _ l h (Hok' & Hh & Ho'). split; [done|]. split; [|split].
  - eapply keep_image; [done|done|by apply disjoint_sym|]. apply li_eh0.
  - eapply only_trans; [exact Ho|]. eapply only_mono; [exact Ho'|]. unfold loader_writes.
    intros x [Hx|Hx]; [do 3 right; by exists i|tauto].
  - intros j Hj Hlt. destruct (Z.eq_dec j i) as [->|Hne]; [done|].
    eapply keep_image; [done|apply Hsegs; [done|lia]|by apply li_segs0|]. by apply li_seg0.
Qed.

(** Skipping a header that is not loadable. *)
Lemma loaded_skip m0 i h : loaded m0 i h → ¬ loadable i → loaded m0 (i + 1) h.
Proof using.
  intros (Hok & He & Ho & Hsegs) Hi. split_and!; [done..|]. intros j Hj Hlt.
  destruct (Z.eq_dec j i) as [->|]; [done|]. apply Hsegs; [done|lia].
Qed.

Lemma load_loop_run n s m0 i :
  loaded m0 i (k_hw s) → 0 ≤ i ≤ phnum → phnum - i ≤ Z.of_nat n →
  does (load_loop readdisk eh ph p_addr n lba (phdr i - file) i) s (λ _ _ h, loaded m0 phnum h).
Proof using image_ok.
  revert s i. induction n as [|n IH]; intros s i HL Hi Hn; cbn [load_loop].
  all: destruct HL as (Hok & He & HL'); apply does_bind; eapply does_load16; [exact He|done|done|].
  all: replace (file + 0 + elf.e_phnum) with (file + elf.e_phnum) by lia; fold phnum; intros s1 E1.
  all: destruct (Z.ltb_spec i phnum) as [Hlt|Hge]; cbn [negb]; try lia.
  1,3: apply does_ret; rewrite E1; replace phnum with i by lia; by split.
  assert (loaded m0 i (k_hw s1)) as HL by (rewrite E1; by split). clear Hok He HL' E1.
  apply does_bind. eapply does_mono; [apply read_phdr; [done|lia]|]. intros _ l2 h2 (HL2 & Hp) s2 <-.
  assert (0 ≤ p_addr ≤ 28) as Hpa by apply image_ok.
  apply does_bind. eapply does_load32; [exact Hp|done|done|]. intros s3 E3. rewrite <-E3 in HL2, Hp. clear s2 E3.
  apply does_bind. eapply does_mono with (Q := λ _ _ h, loaded m0 (i + 1) h).
  { destruct (Z.eqb_spec (img32 disk_image (phdr i + elf.p_type)) elf.PT_LOAD) as [Et|Et].
    - apply does_bind. eapply does_load32; [exact Hp|lia|unfold elf.sizeof_elf32_phdr; lia|]. intros s4 E4. rewrite <-E4 in HL2, Hp.
      apply does_bind. eapply does_load32; [exact Hp|done|done|]. intros s5 E5. rewrite <-E5 in HL2, Hp.
      apply does_bind. eapply does_load32; [exact Hp|done|done|]. intros s6 E6. rewrite <-E6 in HL2, Hp.
      replace (img32 disk_image (phdr i + elf.p_offset)) with (seg_pos i - file) by (unfold seg_pos; lia).
      apply read_seg; [done|]. split; [lia|done].
    - apply does_ret. apply loaded_skip; [done|]. by intros []. }
  intros _ l4 h4 HL4 s4 <-. apply does_bind. eapply does_load16; [apply HL4|done|done|]. intros s5 E5.
  replace (file + 0 + elf.e_phentsize) with (file + elf.e_phentsize) by lia. rewrite next_phdr.
  assert (phnum < 2 ^ 16) by apply img16_range, disk_image_byte.
  assert (u16 (i + 1) = i + 1) as -> by (apply Z.mod_small; lia).
  apply IH; [by rewrite E5|lia|lia].
Qed.

Lemma load_kernel_run n s :
  disk_ok (k_hw s) → phnum ≤ Z.of_nat n →
  does (load_kernel readdisk eh ph p_addr n lba) s (λ entry _ h,
    entry = img32 disk_image (file + elf.e_entry) ∧ loaded (ram_of (k_hw s)) phnum h).
Proof using image_ok.
  intros Hok Hn. unfold load_kernel. destruct image_ok as [? ? (E1 & E2 & E3) ? ? ? ? ? ?].
  apply does_bind. eapply does_mono; [by apply readdisk_spec|]. intros _ l1 h1 (Hok1 & He & Ho) s1 <-.
  apply does_bind. eapply does_load32; [exact He|done|done|]. intros s2 Es2.
  replace (SECTOR_SIZE * lba + 0 + elf.e_phoff) with (file + elf.e_phoff) by (unfold file; lia). rewrite first_phdr.
  apply does_bind. eapply does_mono; [apply (load_loop_run n s2 (ram_of (k_hw s)) 0)|].
  { rewrite Es2. split; [done|]. split; [done|]. split.
    - eapply only_mono; [exact Ho|]. unfold loader_writes. tauto.
    - intros j [Hj _] Hlt. lia. }
  { split; [lia|]. apply img16_range, disk_image_byte. }
  { lia. }
  intros _ l3 h3 HL s3 <-. eapply does_load32; [apply HL|done|done|].
  replace (file + 0 + elf.e_entry) with (file + elf.e_entry) by lia. done.
Qed.

(** C17: the boot loader of ARM and MIPS, on any firmware whose readdisk()
    keeps its contract, loads every PT_LOAD segment of the kernel's ELF file to the
    address its program header names and jumps to the file's entry point;
    besides the segments it writes nothing but its two header buffers and what
    the firmware uses. It always gets there, after at most e_phnum rounds. *)
Theorem boot_loads_segments n s :
  disk_ok (k_hw s) → phnum ≤ Z.of_nat n →
  ∃ h l, load_kernel readdisk eh ph p_addr n lba s =
      Ret (img32 disk_image (file + elf.e_entry), with_io s h (k_log s ++ l)) ∧
    (∀ i k, loadable i → 0 ≤ k < seg_size i →
       ram_of h !! (seg_dest i + k) = Some (disk_image (seg_pos i + k))) ∧
    (∀ x, ¬ loader_writes x → ram_of h !! x = ram_of (k_hw s) !! x).
Proof using image_ok.
  intros Hok Hn. destruct (load_kernel_run n s Hok Hn) as (entry & h & l & E & -> & (_ & _ & Ho & Hs)).
  exists h, l. split; [done|]. split; [|exact Ho]. intros i k Hi Hk. apply Hs; [done|apply Hi|done].
Qed.
End loader.

(** ** The firmware's readdisk() is what the loader asks for *)

Section discharge.
Context {H : Type} `{HW : hardware H} `{RAM : ram H}.
Context (rd : Z → Z → M (kstate H) Z) (failure : Z → bool) `{SR : !SectorReader rd failure}.
Context (copy : Z → Z → Z → M bmem unit) (sector_buf : Z) (die : M (kstate H) unit).
Hypothesis copy_ok : ∀ m dst src l,
  holds m src l → apart dst src (Z.of_nat (length l)) → 0 ≤ src →
  copy dst src (Z.of_nat (length l)) m = Ret ((), blit m dst l).
Hypothesis buffer_ok : 0 ≤ sector_buf ∧ sector_buf + SECTOR_SIZE < 2 ^ 32 ∧
  ∀ x, within sector_buf SECTOR_SIZE x → ¬ private x.
Hypothesis bytes_ok : ∀ p, 0 ≤ image p < 256.

Program Definition firmware_reader : DiskReader (Boot.readdisk rd failure copy sector_buf die) := {|
  disk_image := image;
  readable p n := p + n < SECTOR_SIZE * 2 ^ 32 ∧
    ∀ k, p < SECTOR_SIZE * (k + 1) → SECTOR_SIZE * k < p + n → faulty k = false;
  usable x := ¬ scratch rd failure sector_buf x;
  disk_ok := reader_ok
|}.
Next Obligation. apply bytes_ok. Qed.
Next Obligation.
  intros s sector off buf len Hok Hs Ho Hl [Ht Hgood] Hb Hbl Hu.
  eapply does_mono; [apply readdisk_run; [done..| |done]; by split|].
  intros _ l h (Hok' & Hh & Hon). split; [done|]. split; [done|]. eapply only_mono; [exact Hon|].
  intros x [Hx|Hx]; [by left|right; auto].
Qed.
End discharge.

(** ** The MSIM disk as a sector driver *)

Section msim.
Context {H : Type} `{HW : hardware H} `{RAM : ram H} `{PT : patience}.
Context (base msim_dd_dma : Z).

Definition dd_reg (r : Z) : Z := mips_iomap (msim_dd.MSIM_DD_REG base r).
Definition dd_intr (v : Z) : bool := negb (Z.land v msim_dd.STAT_INTR =? 0).
Definition dd_error (v : Z) : bool := negb (Z.land v msim_dd.STAT_ERROR =? 0).
Definition dd_started (sect : Z) (h : H) : H :=
  hw_write MEM 32 (dd_reg msim_dd.MSIM_DD_COMMAND) msim_dd.CMD_READ
    (hw_write MEM 32 (dd_reg msim_dd.MSIM_DD_SECTOR) sect
      (hw_write MEM 32 (dd_reg msim_dd.MSIM_DD_DMAADDR) (u32 (mips_space.kva2pa msim_dd_dma)) h)).

(** What the simulator's disk does with a read command: it raises its
    interrupt in time, and the sector is then in the DMA buffer unless the error
    bit is set. *)
Class msim_disk : Type := {
  dd_image : Z → Z;
  dd_faulty : Z → bool;
  dd_idle : H → Prop;
  dd_busy : Z → bmem → H → Prop;
  dd_done : Z → bmem → H → Prop;
  dd_idle_ram : ∀ m h, dd_idle h → dd_idle (with_ram m h);
  dd_start : ∀ sect h, dd_idle h → dd_busy sect (ram_of h) (dd_started sect h);
  dd_ready : ∀ sect m h, dd_busy sect m h →
    ready_within PATIENCE MEM 32 (dd_reg msim_dd.MSIM_DD_STAT) dd_intr h = true;
  dd_poll : ∀ sect m h, dd_busy sect m h →
    let '(v, h') := hw_read MEM 32 (dd_reg msim_dd.MSIM_DD_STAT) h in
    if dd_intr (u32 v) then dd_done sect m h' else dd_busy sect m h';
  dd_ack : ∀ sect m h, dd_done sect m h →
    let '(v, h') := hw_read MEM 32 (dd_reg msim_dd.MSIM_DD_STAT)
                      (hw_write MEM 32 (dd_reg msim_dd.MSIM_DD_COMMAND) msim_dd.CMD_ACK h) in
    dd_idle h' ∧ dd_error (u32 v) = dd_faulty sect ∧
    (dd_faulty sect = false →
     ram_of h' = blit m msim_dd_dma (disk_bytes dd_image (SECTOR_SIZE * sect) (Z.to_nat SECTOR_SIZE)));
}.

Context `{MD : !msim_disk}.

Lemma does_poll_dd n sect m s (Q : Z → list event → H → Prop) :
  ready_within n MEM 32 (dd_reg msim_dd.MSIM_DD_STAT) dd_intr (k_hw s) = true → dd_busy sect m (k_hw s) →
  (∀ v l h, dd_done sect m h → Q v l h) →
  does (poll n (msim_dd.msim_dd_check_interrupt base) (λ v, negb (v =? 0))) s Q.
Proof using.
  revert s Q. induction n as [|n IH]; intros s Q Hr Hb HQ; [done|]. cbn [poll ready_within] in *.
  apply does_bind. apply does_bind. apply does_read. cbv zeta. intros s1 E1. apply does_ret. intros s2 E2.
  pose proof (dd_poll sect m (k_hw s) Hb) as Hp. change (mips_iomap (msim_dd.MSIM_DD_REG base msim_dd.MSIM_DD_STAT)) with (dd_reg msim_dd.MSIM_DD_STAT) in *.
  destruct (hw_read MEM 32 (dd_reg msim_dd.MSIM_DD_STAT) (k_hw s)) as [v h'] eqn:Er. cbn [fst snd] in *.
  rewrite E1 in E2. unfold dd_intr in Hr, Hp. destruct (Z.land (u32 v) msim_dd.STAT_INTR =? 0); cbn in *.
  - apply IH; [by rewrite E2|by rewrite E2|auto].
  - apply does_ret. apply HQ. by rewrite E2.
Qed.

(** The whole poll, acknowledge and error check. *)
Lemma dd_finish_run sect m s :
  dd_busy sect m (k_hw s) →
  does (msim_dd.msim_dd_finish base) s (λ err _ h, dd_idle h ∧ err = dd_faulty sect ∧
    (dd_faulty sect = false →
     ram_of h = blit m msim_dd_dma (disk_bytes dd_image (SECTOR_SIZE * sect) (Z.to_nat SECTOR_SIZE)))).
Proof using.
  intros Hb. apply does_bind. eapply does_poll_dd; [by eapply dd_ready|done|]. intros _ l1 h1 Hd s1 <-.
  apply does_bind, does_write. intros s2 E2. apply does_bind, does_read. cbv zeta. intros s3 E3. apply does_ret.
  pose proof (dd_ack sect m (k_hw s1) Hd) as Ha.
  change (wrap 32 msim_dd.CMD_ACK) with msim_dd.CMD_ACK in E2. rewrite E2 in E3 |- *.
  change (mips_iomap (msim_dd.MSIM_DD_REG base ?r)) with (dd_reg r) in *.
  destruct (hw_read MEM 32 (dd_reg msim_dd.MSIM_DD_STAT) _) as [v h']. cbn [fst snd] in *. subst. exact Ha.
Qed.

#[export] Program Instance msim_reader
    (dma_ok : 0 ≤ msim_dd_dma) :
  SectorReader (λ buf sector, msim_dd.msim_dd_read_sector msim_dd_dma base sector buf true) (λ r, r <? 0) := {|
  image := dd_image;
  faulty := dd_faulty;
  private := within msim_dd_dma SECTOR_SIZE;
  reader_ok := dd_idle;
  reader_ok_ram := dd_idle_ram
|}.
Next Obligation.
  intros dma_ok s buf sect Hok Hs Hb1 Hb2 Hp. unfold msim_dd.msim_dd_read_sector, msim_dd.msim_dd_command.
  apply does_bind. apply does_bind, does_write. intros s1 E1. apply does_bind, does_write. intros s2 E2.
  apply does_write. intros s3 E3. rewrite E2, E1 in E3.
  assert (dd_busy sect (ram_of (k_hw s)) (k_hw s3)) as Hbusy.
  { rewrite E3. unfold wrap at 2. rewrite (Z.mod_small sect) by lia. by apply dd_start. }
  apply does_bind. eapply does_mono; [by apply dd_finish_run|]. intros err l4 h4 (Hi & -> & Hm) s4 <-.
  destruct (dd_faulty sect) eqn:Ef; [apply does_ret; done|]. specialize (Hm eq_refl).
  set (bs := disk_bytes dd_image (SECTOR_SIZE * sect) (Z.to_nat SECTOR_SIZE)) in *.
  assert (length bs = Z.to_nat SECTOR_SIZE) as Hlen by apply disk_bytes_length.
  assert (apart buf msim_dd_dma SECTOR_SIZE) as Ha.
  { unfold apart. destruct (Z.le_gt_cases (buf + SECTOR_SIZE) msim_dd_dma); [by left|right].
    destruct (Z.le_gt_cases (msim_dd_dma + SECTOR_SIZE) buf); [done|]. exfalso. unfold SECTOR_SIZE in *.
    apply (Hp (Z.max buf msim_dd_dma)); unfold within; lia. }
  apply does_bind. eapply does_in_ram.
  { change SECTOR_SIZE with (Z.of_nat (Z.to_nat SECTOR_SIZE)) at 1. rewrite <-Hlen. apply memcpy_run; [|by rewrite Hlen|done].
    rewrite Hm. apply blit_holds. }
  intros s5 E5. apply does_ret. rewrite E5, ram_of_with. split; [by apply dd_idle_ram|]. split; [done|]. split.
  - apply holds_image_bytes; [done|]. apply blit_holds.
  - intros x Hx. assert (Z.of_nat (length bs) = SECTOR_SIZE) as El by (rewrite Hlen; done). clearbody bs.
    rewrite blit_other, Hm, blit_other; [done|rewrite El; intros ?; apply Hx; by right|rewrite El; intros ?; apply Hx; by left].
Qed.
End msim.

Lemma copy_bytes_ok m dst src l :
  holds m src l → apart dst src (Z.of_nat (length l)) → 0 ≤ src →
  copy_bytes (Z.to_nat (Z.of_nat (length l))) dst src m = Ret ((), blit m dst l).
Proof. intros Hh Ha _. rewrite Nat2Z.id. by apply copy_bytes_run. Qed.

(** ** A small MSIM machine with a kernel on its disk *)

Module BootScenario.
Definition le16 (v : Z) : list Z := [v mod 256; v / 256 mod 256].
Definition le32 (v : Z) : list Z := le16 (v mod 65536) ++ le16 (v / 65536).

(** An ELF file with one loadable segment of eight bytes and one note. *)
Definition elf_file : list Z :=
  replicate 24 0 ++ le32 0x1000 ++ le32 52 ++ replicate 10 0 ++ le16 32 ++ le16 2 ++ replicate 6 0 ++
  le32 1 ++ le32 116 ++ le32 0x1000 ++ le32 0x1000 ++ le32 8 ++ replicate 12 0 ++
  le32 4 ++ replicate 28 0 ++
  [1; 2; 3; 4; 5; 6; 7; 8].
(** It starts at sector 1. *)
Definition disk (p : Z) : Z := if p <? 512 then 0 else Z.max 0 (Z.min 255 (nth (Z.to_nat (p - 512)) elf_file 0)).

Record box : Type := mk_box { b_ram : bmem; b_dma : Z; b_sect : Z; b_stat : Z }.
Definition BASE : Z := 0x10000020.
Definition DMA : Z := 0x80005000.
Definition SB : Z := 0x80004000.

Definition box_write (sp : space) (w a v : Z) (b : box) : box :=
  if a =? dd_reg BASE 0 then mk_box (b_ram b) v (b_sect b) (b_stat b)
  else if a =? dd_reg BASE 4 then mk_box (b_ram b) (b_dma b) v (b_stat b)
  else if v =? 1 then
    mk_box (blit (b_ram b) (b_dma b + 0x80000000) (disk_bytes disk (SECTOR_SIZE * b_sect b) (Z.to_nat SECTOR_SIZE)))
      (b_dma b) (b_sect b) 4
  else mk_box (b_ram b) (b_dma b) (b_sect b) 0.

#[export] Instance box_hw : hardware box := {| hw_read sp w a b := (b_stat b, b); hw_write := box_write |}.
#[export] Program Instance box_memory : ram box := {|
  ram_of := b_ram; with_ram m b := mk_box m (b_dma b) (b_sect b) (b_stat b)
|}.
Next Obligation. done. Qed.
Next Obligation. by intros []. Qed.
Next Obligation. done. Qed.
#[export] Instance box_patience : patience := 1%nat.

Definition moved (sect : Z) (m : bmem) (b : box) : Prop :=
  b_stat b = 4 ∧ b_ram b = blit m DMA (disk_bytes disk (SECTOR_SIZE * sect) (Z.to_nat SECTOR_SIZE)).

#[export] Program Instance box_disk : msim_disk BASE DMA := {|
  dd_image := disk; dd_faulty _ := false; dd_idle _ := True; dd_busy := moved; dd_done := moved
|}.
Next Obligation. done. Qed.
Next Obligation. done. Qed.
Next Obligation. intros sect m h [E _]. cbn [PATIENCE box_patience ready_within hw_read box_hw fst]. by rewrite E. Qed.
Next Obligation. intros sect m h [E Hm]. cbn [hw_read box_hw]. rewrite E. by split. Qed.
Next Obligation. intros sect m h [E Hm]. cbn [hw_read hw_write box_hw]. split; [done|]. split; [done|]. intros _. exact Hm. Qed.

Definition rd (buf sector : Z) : M (kstate box) Z := msim_dd.msim_dd_read_sector DMA BASE sector buf true.
#[export] Instance box_reader : SectorReader rd (λ r, r <? 0) := msim_reader BASE DMA ltac:(done).

Definition s0 : kstate box := TimerScenario.idle (mk_box ∅ 0 0 0).

Lemma readdisk_correct_witness :
  ∃ h l, msim_fw.readdisk (λ _, mret ()) SB DMA BASE 1 116 0x80001000 8 s0 = Ret ((), with_io s0 h l) ∧
    ∀ i, 0 ≤ i < 8 → ram_of h !! (0x80001000 + i) = Some (disk (512 + 116 + i)).
Proof.
  destruct (readdisk_correct rd (λ r, r <? 0) (λ dst src l, copy_bytes (Z.to_nat l) dst src) SB
    (fwpanic (λ _, mret ()) (bytes "read disk error")) copy_bytes_ok) with (s := s0) (sector := 1) (off := 116)
    (buf := 0x80001000) (len := 8) as (h & l & E & Hh & _).
  - split; [done|]. split; [done|]. intros x. cbn. unfold within, SB, DMA, SECTOR_SIZE. lia.
  - exact I.
  - lia.
  - lia.
  - lia.
  - unfold SECTOR_SIZE. lia.
  - split; [lia|]. split; [lia|]. intros x. unfold scratch. cbn. unfold within, SB, DMA, SECTOR_SIZE. lia.
  - done.
  - exists h, l. split; [exact E|]. exact Hh.
Defined.

Definition firmware : Z → Z → Z → Z → M (kstate box) unit := msim_fw.readdisk (λ _, mret ()) SB DMA BASE.

Lemma SB_ok : 0 ≤ SB ∧ SB + SECTOR_SIZE < 2 ^ 32 ∧ ∀ x, within SB SECTOR_SIZE x → ¬ private (rd := rd) x.
Proof. split; [done|]. split; [done|]. intros x. cbn. unfold within, SB, DMA, SECTOR_SIZE. lia. Qed.

Lemma disk_byte p : 0 ≤ disk p < 256.
Proof. unfold disk. destruct (p <? 512); lia. Qed.

#[export] Instance box_firmware : DiskReader firmware :=
  firmware_reader rd (λ r, r <? 0) (λ dst src l, copy_bytes (Z.to_nat l) dst src) SB
    (fwpanic (λ _, mret ()) (bytes "read disk error")) copy_bytes_ok SB_ok disk_byte.

Definition EH : Z := 0x80003000.
Definition PH : Z := 0x80003100.

(** Only the first header is loadable. *)
Lemma loadable_first i : loadable firmware 1 i → i = 0.
Proof.
  intros [Hi Ht]. assert (phnum firmware 1 = 2) as Hn by by vm_compute. rewrite Hn in Hi.
  destruct (Z.eq_dec i 0); [done|]. assert (i = 1) as -> by lia. by vm_compute in Ht.
Qed.

Lemma kernel_image : loadable_image firmware EH PH elf.p_vaddr 1.
Proof.
  assert (∀ x, usable (readdisk := firmware) x ↔ ¬ (within SB 512 x ∨ within DMA 512 x)) as Hu by done.
  split.
  - done.
  - done.
  - split; [done|]. split; [done|]. intros x Hx. apply Hu. unfold within, EH, SB, DMA, elf.sizeof_elf32hdr in *. lia.
  - split; [done|]. split; [done|]. intros x Hx. apply Hu. unfold within, PH, SB, DMA, elf.sizeof_elf32_phdr in *. lia.
  - intros x. unfold within, EH, PH, elf.sizeof_elf32hdr, elf.sizeof_elf32_phdr. lia.
  - by split.
  - intros i Hi. split; [|done]. assert (phnum firmware 1 = 2) as Hn by by vm_compute. rewrite Hn in Hi.
    assert (i = 0 ∨ i = 1) as [-> | ->] by lia; by vm_compute.
  - intros i Hi%loadable_first. subst i.
    replace (seg_dest firmware elf.p_vaddr 1 0) with 0x1000 by by vm_compute.
    replace (seg_size firmware 1 0) with 8 by by vm_compute.
    replace (seg_pos firmware 1 0) with 628 by by vm_compute.
    split; [by split|]. split; [done|]. split; [|split].
    + intros x Hx. apply Hu. unfold within, SB, DMA in *. lia.
    + intros x. unfold within, EH, elf.sizeof_elf32hdr. lia.
    + intros x. unfold within, PH, elf.sizeof_elf32_phdr. lia.
  - intros i j Hi%loadable_first Hj%loadable_first Hne. congruence.
Qed.

(** The segment arrives where it belongs. *)
Lemma boot_loads_segments_witness :
  ∃ h l, load_kernel firmware EH PH elf.p_vaddr 2 1 s0 = Ret (0x1000, with_io s0 h l) ∧
    ∀ k, 0 ≤ k < 8 → ram_of h !! (0x1000 + k) = Some (disk (628 + k)).
Proof.
  destruct (boot_loads_segments firmware EH PH elf.p_vaddr 1 kernel_image 2 s0) as (h & l & E & Hs & _).
  - exact I.
  - apply Z.leb_le. vm_compute. reflexivity.
  - exists h, l. split; [exact E|]. intros k Hk.
    replace 0x1000 with (seg_dest firmware elf.p_vaddr 1 0) by (vm_compute; reflexivity).
    replace 628 with (seg_pos firmware 1 0) by (vm_compute; reflexivity).
    apply Hs; [split; [split|]|].
    + lia.
    + apply Z.ltb_lt. vm_compute. reflexivity.
    + vm_compute. reflexivity.
    + replace (seg_size firmware 1 0) with 8 by (vm_compute; reflexivity). exact Hk.
Defined.
End BootScenario.
