(* ===== verification/AtaProps.v ===== *)
(** The i386 boot loader's disk reads: what readsect() and readseg() leave in
    memory, on any ATA drive that follows the PIO protocol. *)
From Stdlib Require Import ZArith Lia String.
From stdpp Require Import base numbers gmap list.
From S2P Require Import Prelude Util AddrSpace Mmu Io Printf Libc Uart UartProps Sd SdProps SdProtocol Boot BootProps.

Open Scope Z_scope.

Section drive.
Context {H : Type} `{HW : hardware H} `{RAM : ram H} `{PT : patience}.

Definition port (reg : Z) : Z := u16 (ata.IDE_PORTBASE + reg).
Definition drive_ready (v : Z) : bool := Z.land v (Z.lor ata.ATA_BUSY ata.ATA_DRDY) =? ata.ATA_DRDY.

(** The six stores of a read command. *)
Definition command_regs (sector : Z) (h : H) : H :=
  let out r v h := hw_write PORT 8 (port r) v h in
  out ata.ATA_REG_CMD ata.ATA_CMD_PIO_READ
    (out ata.ATA_REG_DEVSEL (Z.lor (Z.land (Z.shiftr sector 24) 0xff) 0xE0)
      (out ata.ATA_REG_LBAH (Z.land (Z.shiftr sector 16) 0xff)
        (out ata.ATA_REG_LBAM (Z.land (Z.shiftr sector 8) 0xff)
          (out ata.ATA_REG_LBAL (Z.land sector 0xff)
            (out ata.ATA_REG_NSECT 1 h))))).

(** The PIO protocol: an idle drive gets ready; a read command with a 28-bit
    sector number makes it busy; when it is ready again its data port delivers the
    sector word by word. The drive does not touch memory. *)
Class ata_drive : Type := {
  ata_image : Z → Z;
  ata_image_byte : ∀ p, 0 ≤ ata_image p < 256;
  ata_idle : H → Prop;
  ata_busy : Z → H → Prop;
  ata_data : Z → Z → H → Prop;
  ata_idle_ready : ∀ h, ata_idle h → ready_within PATIENCE PORT 8 (port ata.ATA_REG_STATUS) drive_ready h = true;
  ata_idle_status : ∀ h, ata_idle h →
    let h' := (hw_read PORT 8 (port ata.ATA_REG_STATUS) h).2 in ata_idle h' ∧ ram_of h' = ram_of h;
  ata_command : ∀ sector h, ata_idle h → 0 ≤ sector < 2 ^ 28 →
    let h' := command_regs sector h in ata_busy sector h' ∧ ram_of h' = ram_of h;
  ata_busy_ready : ∀ sector h, ata_busy sector h →
    ready_within PATIENCE PORT 8 (port ata.ATA_REG_STATUS) drive_ready h = true;
  ata_busy_status : ∀ sector h, ata_busy sector h →
    let '(v, h') := hw_read PORT 8 (port ata.ATA_REG_STATUS) h in
    ram_of h' = ram_of h ∧ if drive_ready (u8 v) then ata_data sector 0 h' else ata_busy sector h';
  ata_word : ∀ sector k h, ata_data sector k h → 0 ≤ k < 128 →
    let '(v, h') := hw_read PORT 32 (port ata.ATA_REG_DATA) h in
    u32 v = img32 ata_image (SECTOR_SIZE * sector + 4 * k) ∧ ram_of h' = ram_of h ∧
    (if k =? 127 then ata_idle h' else ata_data sector (k + 1) h');
  ata_idle_ram : ∀ m h, ata_idle h → ata_idle (with_ram m h);
  ata_data_ram : ∀ sector k m h, ata_data sector k h → ata_data sector k (with_ram m h);
}.

Context `{AD : !ata_drive}.

Lemma does_read_port w a s (Q : Z → list event → H → Prop) :
  (let v := wrap w (hw_read PORT w a (k_hw s)).1 in Q v [Rd PORT w a v] (hw_read PORT w a (k_hw s)).2) →
  does (io_read PORT w a) s Q.
Proof using. intros HQ. do 3 eexists. split; [apply io_read_run|exact HQ]. Qed.

Lemma does_outb reg v s (Q : unit → list event → H → Prop) :
  Q () [Wr PORT 8 (port reg) (u8 v)] (hw_write PORT 8 (port reg) (u8 v) (k_hw s)) → does (ata.IDE_PIO_WRITE reg v) s Q.
Proof using. intros HQ. do 3 eexists. split; [reflexivity|exact HQ]. Qed.

(** waitdisk(), from an idle drive and after a command. *)
Lemma wait_idle n s :
  ready_within n PORT 8 (port ata.ATA_REG_STATUS) drive_ready (k_hw s) = true → ata_idle (k_hw s) →
  does (poll n (ata.IDE_PIO_READ ata.ATA_REG_STATUS) drive_ready) s (λ _ _ h,
    ata_idle h ∧ ram_of h = ram_of (k_hw s)).
Proof using AD.
  revert s. induction n as [|n IH]; intros s Hr Hi; [done|]. cbn [poll ready_within] in *.
  apply does_bind. apply does_read_port. cbv zeta. intros s1 E1. destruct (ata_idle_status _ Hi) as [Hi1 Em].
  fold (port ata.ATA_REG_STATUS) in *. rewrite <-E1 in Hi1, Em, Hr.
  destruct (drive_ready _) eqn:Ed; [by apply does_ret|]. cbn in Hr.
  eapply does_mono; [by apply IH|]. intros _ l h [Hh Hm]. split; [done|congruence].
Qed.

Lemma wait_busy n sector s :
  ready_within n PORT 8 (port ata.ATA_REG_STATUS) drive_ready (k_hw s) = true → ata_busy sector (k_hw s) →
  does (poll n (ata.IDE_PIO_READ ata.ATA_REG_STATUS) drive_ready) s (λ _ _ h,
    ata_data sector 0 h ∧ ram_of h = ram_of (k_hw s)).
Proof using AD.
  revert s. induction n as [|n IH]; intros s Hr Hi; [done|]. cbn [poll ready_within] in *.
  apply does_bind. apply does_read_port. cbv zeta. intros s1 E1. pose proof (ata_busy_status _ _ Hi) as Hb.
  fold (port ata.ATA_REG_STATUS) in *. destruct (hw_read PORT 8 (port ata.ATA_REG_STATUS) (k_hw s)) as [v h'].
  cbn [fst snd] in *. subst h'. destruct Hb as [Em Hb]. change (u8 v) with (wrap 8 v) in Hb.
  destruct (drive_ready (wrap 8 v)) eqn:Ed; [by apply does_ret|]. cbn in Hr.
  eapply does_mono; [by apply IH|]. intros _ l h [Hh Hm]. split; [done|congruence].
Qed.

(** A word of the image stored as its four bytes. *)
Lemma word_bytes p (v := img32 ata_image p) :
  [u8 v; u8 (Z.shiftr v 8); u8 (Z.shiftr v 16); u8 (Z.shiftr v 24)] = disk_bytes ata_image p 4.
Proof using.
  unfold disk_bytes. cbn [seq fmap list_fmap]. rewrite !Z.shiftr_div_pow2 by lia. unfold u8, wrap, v, img32, img16.
  pose proof (ata_image_byte p). pose proof (ata_image_byte (p + 1)). pose proof (ata_image_byte (p + 2)).
  pose proof (ata_image_byte (p + 2 + 1)). change (Z.of_nat 0) with 0. change (Z.of_nat 1) with 1.
  change (Z.of_nat 2) with 2. change (Z.of_nat 3) with 3. rewrite Z.add_0_r. replace (p + 3) with (p + 2 + 1) by lia.
  repeat f_equal; Z.div_mod_to_equations; lia.
Qed.

Lemma does_store32 a p s (Q : unit → list event → H → Prop) :
  Q () [] (with_ram (blit (ram_of (k_hw s)) a (disk_bytes ata_image p 4)) (k_hw s)) →
  does (store32 a (img32 ata_image p)) s Q.
Proof using.
  intros HQ. eapply does_in_ram; [|exact HQ]. rewrite <-word_bytes.
  unfold mbind, M_bind, sb. cbn [blit]. replace (a + 2) with (a + 1 + 1) by lia. by replace (a + 3) with (a + 1 + 1 + 1) by lia.
Qed.

(** rep insl for the rest of a sector. *)
Lemma insl_run cnt sector k dst s :
  ata_data sector k (k_hw s) → 0 ≤ k → (0 < cnt)%nat → k + Z.of_nat cnt = 128 → 0 ≤ dst → dst + 4 * Z.of_nat cnt < 2 ^ 32 →
  does (ata.insl (ata.IDE_PORTBASE + ata.ATA_REG_DATA) dst cnt) s (λ _ _ h,
    ata_idle h ∧ holds_image (ram_of h) dst ata_image (SECTOR_SIZE * sector + 4 * k) (4 * Z.of_nat cnt) ∧
    only (within dst (4 * Z.of_nat cnt)) (ram_of (k_hw s)) (ram_of h)).
Proof using AD.
  revert k dst s. induction cnt as [|cnt IH]; intros k dst s Hd Hk Hc Ht Hb1 Hb2; [lia|]. cbn [ata.insl].
  apply does_bind, does_read_port. cbv zeta. intros s1 E1. pose proof (ata_word _ _ _ Hd) as Hw. fold (port ata.ATA_REG_DATA) in *.
  destruct (hw_read PORT 32 (port ata.ATA_REG_DATA) (k_hw s)) as [v h']. cbn [fst snd] in *. subst h'.
  destruct Hw as (Ev & Em & Hn); [lia|]. change (u32 v) with (wrap 32 v) in Ev. rewrite Ev.
  apply does_bind, does_store32. intros s2 E2. rewrite Em in E2.
  set (p := SECTOR_SIZE * sector + 4 * k) in *. set (m1 := blit (ram_of (k_hw s)) dst (disk_bytes ata_image p 4)) in *.
  assert (holds_image m1 dst ata_image p 4) as Hh1 by (apply (holds_image_bytes _ _ _ _ 4); [lia|apply blit_holds]).
  assert (only (within dst 4) (ram_of (k_hw s)) m1) as Ho1 by (intros x Hx; apply blit_other; rewrite disk_bytes_length; exact Hx).
  clearbody m1. assert (ram_of (k_hw s2) = m1) as Em2 by (rewrite E2; apply ram_of_with).
  destruct cnt as [|cnt].
  - replace (k =? 127) with true in Hn by lia. cbn [ata.insl]. apply does_ret. rewrite Em2.
    split; [rewrite E2; by apply ata_idle_ram|]. by replace (4 * Z.of_nat 1) with 4 by lia.
  - replace (k =? 127) with false in Hn by lia. assert (u32 (dst + 4) = dst + 4) as -> by (apply Z.mod_small; lia).
    eapply does_mono; [apply (IH (k + 1)); [rewrite E2; by apply ata_data_ram|lia..]|].
    intros _ l h (Hi & Hh & Ho). rewrite Em2 in Ho. split; [done|]. split.
    + replace (4 * Z.of_nat (S (S cnt))) with (4 + 4 * Z.of_nat (S cnt)) by lia. apply holds_image_app.
      * eapply holds_image_only; [exact Hh1|exact Ho|]. unfold within. lia.
      * replace (p + 4) with (SECTOR_SIZE * sector + 4 * (k + 1)) by (unfold p; lia). exact Hh.
    + eapply only_trans; [eapply only_mono; [exact Ho1|]|eapply only_mono; [exact Ho|]]; unfold within; lia.
Qed.

Lemma u8_land v : u8 v = Z.land v 255.
Proof using. clear. unfold u8, wrap. change 255 with (Z.ones 8). by rewrite Z.land_ones by lia. Qed.
Lemma u8_byte x : u8 (Z.land x 255) = Z.land x 255.
Proof using. clear. by rewrite u8_land, <-Z.land_assoc, Z.land_diag. Qed.
Lemma u8_devsel x : u8 (Z.lor (Z.land x 255) (Z.lor ata.ATA_DEVICE_OBS ata.ATA_LBA)) = Z.lor (Z.land x 255) 0xE0.
Proof using. clear. by rewrite u8_land, Z.land_lor_distr_l, <-Z.land_assoc, Z.land_diag. Qed.

Lemma readsect_run dst sector s :
  ata_idle (k_hw s) → 0 ≤ sector < 2 ^ 28 → 0 ≤ dst → dst + SECTOR_SIZE < 2 ^ 32 →
  does (ata.readsect dst sector) s (λ _ _ h,
    ata_idle h ∧ holds_image (ram_of h) dst ata_image (SECTOR_SIZE * sector) SECTOR_SIZE ∧
    only (within dst SECTOR_SIZE) (ram_of (k_hw s)) (ram_of h)).
Proof using AD.
  intros Hi Hs Hd Hb. apply does_bind. apply does_bind. eapply does_mono; [apply wait_idle; [by apply ata_idle_ready|done]|].
  intros v l1 h1 [Hi1 Em1] s1 <-. apply does_ret. intros s2 E2. rewrite <-E2 in Hi1, Em1.
  apply does_bind, does_outb. intros s3 E3. apply does_bind, does_outb. intros s4 E4.
  apply does_bind, does_outb. intros s5 E5. apply does_bind, does_outb. intros s6 E6.
  apply does_bind, does_outb. intros s7 E7. apply does_bind, does_outb. intros s8 E8.
  destruct (ata_command sector _ Hi1 Hs) as [Hb8 Em8].
  assert (k_hw s8 = command_regs sector (k_hw s2)) as E.
  { rewrite E8, E7, E6, E5, E4, E3. unfold command_regs.
    rewrite u8_devsel, !u8_byte. done. }
  rewrite <-E in Hb8, Em8. clear E E3 E4 E5 E6 E7 E8.
  apply does_bind. apply does_bind. eapply does_mono; [apply wait_busy; [by eapply ata_busy_ready|done]|].
  intros v' l9 h9 [Hd9 Em9] s9 <-. apply does_ret. intros s10 E10. rewrite <-E10 in Hd9, Em9.
  eapply does_mono; [apply (insl_run 128 sector 0); [done|lia|lia|lia|done|exact Hb]|].
  intros _ l h (Hi' & Hh & Ho). rewrite Z.add_0_r in Hh. rewrite Em9, Em8, Em1 in Ho. by split_and!.
Qed.

(** The sectors readseg() goes through; [pa] is where the first one goes. *)
Lemma readseg_loop_run n pa epa sector s :
  ata_idle (k_hw s) → 0 ≤ pa → epa + SECTOR_SIZE < 2 ^ 32 → 0 ≤ sector →
  epa - pa ≤ SECTOR_SIZE * Z.of_nat n → SECTOR_SIZE * sector + (epa - pa) ≤ SECTOR_SIZE * 2 ^ 28 →
  does (i386_boot.readseg_loop n pa epa sector) s (λ _ _ h,
    ata_idle h ∧ holds_image (ram_of h) pa ata_image (SECTOR_SIZE * sector) (epa - pa) ∧
    only (λ x, pa ≤ x < epa + SECTOR_SIZE - 1) (ram_of (k_hw s)) (ram_of h)).
Proof using AD.
  unfold SECTOR_SIZE. revert pa sector s. induction n as [|n IH]; intros pa sector s Hi Hp He Hs Hn Ht.
  all: cbn [i386_boot.readseg_loop]; destruct (Z.ltb_spec pa epa) as [Hlt|Hge]; cbn [negb]; try lia.
  1,3: apply does_ret; split_and!; [done|intros i Hi'; lia|done].
  apply does_bind. eapply does_mono; [apply readsect_run; unfold SECTOR_SIZE; [done|lia..]|]. unfold SECTOR_SIZE.
  intros _ l1 h1 (Hi1 & Hh1 & Ho1) s1 <-.
  assert (u32 (pa + 512) = pa + 512) as -> by (apply Z.mod_small; lia).
  destruct (Z.le_gt_cases epa (pa + 512)) as [Hlast|Hmore].
  { assert (∀ k sc, i386_boot.readseg_loop k (pa + 512) epa sc s1 = Ret ((), s1)) as El.
    { intros [|k] sc; cbn [i386_boot.readseg_loop]; by replace (pa + 512 <? epa) with false by lia. }
    exists (), (k_hw s1), []. rewrite with_io_same. split; [apply El|]. split_and!; [done| |].
    - intros i Hi'. apply Hh1. lia.
    - eapply only_mono; [exact Ho1|]. unfold within. lia. }
  assert (u32 (sector + 1) = sector + 1) as -> by (apply Z.mod_small; lia).
  unfold SECTOR_SIZE. eapply does_mono; [apply IH; [done|lia..]|]. intros _ l2 h2 (Hi2 & Hh2 & Ho2). split; [done|]. split.
  - replace (epa - pa) with (512 + (epa - (pa + 512))) by lia. apply holds_image_app.
    + eapply holds_image_only; [exact Hh1|exact Ho2|]. unfold within. lia.
    + replace (512 * sector + 512) with (512 * (sector + 1)) by lia. exact Hh2.
  - eapply only_trans; [eapply only_mono; [exact Ho1|]|eapply only_mono; [exact Ho2|]]; unfold within; simpl; lia.
Qed.

(** C19: readseg() of the i386 boot loader puts the [count] bytes of the disk
    that start at byte [offset] at [pa], whatever the alignment of the offset; since it
    moves whole sectors it may also overwrite up to 511 bytes before and
    after them, and nothing further away. It always comes back. *)
Theorem readseg_correct pa count offset s :
  ata_idle (k_hw s) → 0 ≤ count → 0 ≤ offset → SECTOR_SIZE ≤ pa → pa + count + SECTOR_SIZE < 2 ^ 32 →
  offset + count ≤ SECTOR_SIZE * 2 ^ 28 - SECTOR_SIZE →
  ∃ h l, i386_boot.readseg pa count offset s = Ret ((), with_io s h (k_log s ++ l)) ∧ ata_idle h ∧
    (∀ i, 0 ≤ i < count → ram_of h !! (pa + i) = Some (ata_image (offset + i))) ∧
    (∀ x, x ≤ pa - SECTOR_SIZE ∨ pa + count + SECTOR_SIZE - 1 ≤ x → ram_of h !! x = ram_of (k_hw s) !! x).
Proof using AD.
  unfold SECTOR_SIZE. intros Hi Hc Ho Hp Hb Ht. unfold i386_boot.readseg, SECTOR_SIZE.
  pose proof (Z.div_mod offset 512). pose proof (Z.mod_pos_bound offset 512). pose proof (Z.div_pos offset 512).
  assert (u32 (pa + count) = pa + count) as -> by (apply Z.mod_small; lia).
  assert (u32 (pa - offset mod 512) = pa - offset mod 512) as -> by (apply Z.mod_small; lia).
  destruct (readseg_loop_run (Z.to_nat (count + 512)) (pa - offset mod 512) (pa + count) (offset / 512) s)
    as ([] & h & l & E & Hi' & Hh & Hon); unfold SECTOR_SIZE; [done|lia..|].
  exists h, l. split; [done|]. split; [done|]. split.
  - intros i Hi2. replace (pa + i) with (pa - offset mod 512 + (offset mod 512 + i)) by lia.
    rewrite Hh by lia. unfold SECTOR_SIZE. do 2 f_equal. lia.
  - intros x Hx. apply Hon. unfold SECTOR_SIZE. lia.
Qed.
End drive.

(** ** A drive that follows the protocol *)

Module AtaScenario.
Record drive : Type := mk_drive { d_ram : bmem; d_sect : Z; d_word : Z }.
Definition image (p : Z) : Z := p mod 256.

Definition drive_read (sp : space) (w a : Z) (d : drive) : Z * drive :=
  if a =? port ata.ATA_REG_DATA
  then (img32 image (SECTOR_SIZE * d_sect d + 4 * d_word d), mk_drive (d_ram d) (d_sect d) (d_word d + 1))
  else (ata.ATA_DRDY, d).
(** The four pieces of the sector number. *)
Definition drive_write (sp : space) (w a v : Z) (d : drive) : drive :=
  if a =? port ata.ATA_REG_LBAL then mk_drive (d_ram d) v 0
  else if a =? port ata.ATA_REG_LBAM then mk_drive (d_ram d) (d_sect d + 2 ^ 8 * v) 0
  else if a =? port ata.ATA_REG_LBAH then mk_drive (d_ram d) (d_sect d + 2 ^ 16 * v) 0
  else if a =? port ata.ATA_REG_DEVSEL then mk_drive (d_ram d) (d_sect d + 2 ^ 24 * Z.land v 15) 0
  else d.

#[export] Instance drive_hw : hardware drive := {| hw_read := drive_read; hw_write := drive_write |}.
#[export] Program Instance drive_memory : ram drive := {|
  ram_of := d_ram; with_ram m d := mk_drive m (d_sect d) (d_word d)
|}.
Next Obligation. done. Qed.
Next Obligation. by intros []. Qed.
Next Obligation. done. Qed.
#[export] Instance drive_patience : patience := 1%nat.

Lemma image_byte p : 0 ≤ image p < 256.
Proof. unfold image. apply Z.mod_pos_bound. lia. Qed.

(** The four pieces make the sector number. *)
Lemma lba_pieces sector :
  0 ≤ sector < 2 ^ 28 →
  Z.land sector 0xff + 2 ^ 8 * Z.land (Z.shiftr sector 8) 0xff + 2 ^ 16 * Z.land (Z.shiftr sector 16) 0xff +
    2 ^ 24 * Z.land (Z.lor (Z.land (Z.shiftr sector 24) 0xff) 0xE0) 15 = sector.
Proof.
  intros Hs. rewrite Z.land_lor_distr_l, <-Z.land_assoc. change (Z.land 0xE0 15) with 0. rewrite Z.lor_0_r.
  change (Z.land 255 15) with (Z.ones 4). change 255 with (Z.ones 8).
  rewrite !Z.land_ones, !Z.shiftr_div_pow2 by lia. Z.div_mod_to_equations. lia.
Qed.

#[export] Program Instance drive_ata : ata_drive := {|
  ata_image := image; ata_image_byte := image_byte;
  ata_idle _ := True; ata_busy sector d := d_sect d = sector ∧ d_word d = 0;
  ata_data sector k d := d_sect d = sector ∧ d_word d = k
|}.
Next Obligation. done. Qed.
Next Obligation. done. Qed.
Next Obligation. intros sector h _ Hs. split; [|done]. split; [|done]. cbv zeta. unfold command_regs. apply lba_pieces. done. Qed.
Next Obligation. done. Qed.
Next Obligation. intros sector h Hb. done. Qed.
Next Obligation.
  intros sector k h [<- <-] Hk. cbn [hw_read drive_hw]. unfold drive_read. rewrite Z.eqb_refl.
  split; [apply Z.mod_small, img32_range, image_byte|]. split; [done|]. by destruct (d_word h =? 127).
Qed.
Next Obligation. done. Qed.
Next Obligation. done. Qed.

Definition s0 : kstate drive := TimerScenario.idle (mk_drive ∅ 0 0).

Lemma readseg_correct_witness :
  ∃ h l, i386_boot.readseg 0x100000 1000 700 s0 = Ret ((), with_io s0 h l) ∧
    ∀ i, 0 ≤ i < 1000 → ram_of h !! (0x100000 + i) = Some (image (700 + i)).
Proof.
  destruct (readseg_correct 0x100000 1000 700 s0) as (h & l & E & _ & Hh & _); unfold SECTOR_SIZE.
  - exact I.
  - lia.
  - lia.
  - lia.
  - lia.
  - lia.
  - exists h, l. split; [exact E|exact Hh].
Defined.
End AtaScenario.
