(* ===== verification/ArmMm.v ===== *)
(** kern/arch/armv7a/mm.c: the two-level page tables of ARM, with sections of
    1 MiB and pages of 4 KiB. The entries of both levels are words of memory; the
    mapping routines report every section and page with kprintf(), so they run
    on a state that has memory and a console. *)
From Stdlib Require Import ZArith Lia String.
From stdpp Require Import base numbers gmap list.
From S2P Require Import Prelude Util Pmm AddrSpace Pgtable Printf Io Uart.

Open Scope Z_scope.

Module arm.
Definition ARM_SECT_SHIFT : Z := 20.
Definition ARM_SECT_SIZE : Z := Z.shiftl 1 ARM_SECT_SHIFT.
Definition ARM_PAGE_SHIFT : Z := 12.
Definition ARM_PAGE_SIZE : Z := Z.shiftl 1 ARM_PAGE_SHIFT.
Definition ARM_PT_AP_USER_NONE : Z := 0x1.
Definition ARM_PT_AP_USER_READ : Z := 0x2.
Definition ARM_PT_AP_USER_BOTH : Z := 0x3.
Definition ARM_PT_L1_TABLE_BASE_MASK : Z := 0xFFFFFC00.
Definition ARM_PT_L1_SECT_BASE_MASK : Z := 0xFFF00000.
Definition ARM_PT_L1_TYPE_MASK : Z := 0x3.
Definition ARM_PT_L1_SECT : Z := 0x2.
Definition ARM_PT_L1_TABLE : Z := 0x1.
Definition ARM_PT_L1_FREE : Z := 0x0.
Definition ARM_PT_L2_PAGE_BASE_MASK : Z := 0xFFFFF000.
Definition ARM_PT_L2_PAGE : Z := 0x2.
Definition ARM_PT_L1_LENGTH : Z := 4096.
Definition ARM_PT_L2_LENGTH : Z := 256.
Definition ARM_PT_L1_SIZE : Z := ARM_PT_L1_LENGTH * 4.
Definition ARM_PT_L2_SIZE : Z := ARM_PT_L2_LENGTH * 4.
Definition VMA_EXEC : Z := 0x01.
Definition VMA_WRITE : Z := 0x02.
Definition VMA_READ : Z := 0x04.
Definition MAP_TYPE_MASK : Z := 0x30000.
Definition MAP_USER_MEM : Z := 0x00000.
Definition MAP_KERN_MEM : Z := 0x10000.
Definition MAP_PRIV_DEV : Z := 0x20000.
Definition MAP_SHARED_DEV : Z := 0x30000.

(** memset(index, 0, ...) on a table of [n] words. *)
Definition page_index_clear (index : Z) : M mem unit := clear_entries index (Z.to_nat ARM_PT_L1_LENGTH).
Definition __pt_l2_clear (pt : Z) : M mem unit := clear_entries pt (Z.to_nat ARM_PT_L2_LENGTH).

(** The attributes of an entry. *)
Record attrs : Type := mk_attrs { at_ap : Z; at_tex : Z; at_c : Z; at_b : Z; at_s : Z; at_xn : Z }.
Definition flag_set (f mask : Z) : bool := negb (Z.land f mask =? 0).
Definition convert_flags (flags : Z) : attrs :=
  let ap := if flag_set flags VMA_WRITE then ARM_PT_AP_USER_BOTH
            else if flag_set flags VMA_READ then ARM_PT_AP_USER_READ else ARM_PT_AP_USER_NONE in
  let xn := if flag_set flags VMA_EXEC then 0 else 1 in
  let f := Z.land flags MAP_TYPE_MASK in
  if f =? MAP_USER_MEM then mk_attrs ap 1 1 1 1 xn
  else if f =? MAP_KERN_MEM then mk_attrs ap 1 1 1 1 xn
  else if f =? MAP_PRIV_DEV then mk_attrs ap 2 0 0 0 xn
  else if f =? MAP_SHARED_DEV then mk_attrs ap 0 0 1 0 xn
  else mk_attrs ap 1 1 1 1 xn.

Section code.
(** The two caches, and the cache routines of kern/mm/vmm/vmm.c. *)
Context (pt_l1_cache pt_l2_cache : Z) (cache_alloc : Z → M mem Z) (cache_free : Z → Z → M mem Z).
Context (kva2pa : Z → Z).

Definition l1_index (vaddr : Z) : Z := Z.shiftr vaddr ARM_SECT_SHIFT.
Definition l2_index (vaddr : Z) : Z := Z.land (Z.shiftr vaddr ARM_PAGE_SHIFT) 0xFF.

Definition __arm_unmap_l1 (page_table vaddr : Z) : M mem unit :=
  e ← load F_pte (entry page_table (l1_index vaddr));
  _ ← (if Z.land e ARM_PT_L1_TYPE_MASK =? ARM_PT_L1_TABLE
       then _ ← cache_free pt_l2_cache (Z.land e ARM_PT_L1_TABLE_BASE_MASK); mret ()
       else mret ());
  store F_pte (entry page_table (l1_index vaddr)) 0.

(** The words put in the two tables; paddr is cut to 32 bits. *)
Definition sect_entry (a : attrs) (paddr : Z) : Z :=
  u32 (Z.lor (Z.lor (Z.lor (Z.lor (Z.lor (Z.lor (Z.lor ARM_PT_L1_SECT paddr) (Z.shiftl (at_s a) 16))
    (Z.shiftl (at_tex a) 12)) (Z.shiftl (at_ap a) 10)) (Z.shiftl (at_xn a) 4)) (Z.shiftl (at_c a) 3)) (Z.shiftl (at_b a) 2)).
Definition page_entry (a : attrs) (paddr : Z) : Z :=
  u32 (Z.lor (Z.lor (Z.lor (Z.lor (Z.lor (Z.lor (Z.lor ARM_PT_L2_PAGE paddr) (Z.shiftl (at_s a) 10))
    (Z.shiftl (at_tex a) 6)) (Z.shiftl (at_ap a) 4)) (Z.shiftl (at_c a) 3)) (Z.shiftl (at_b a) 2)) (at_xn a)).

Definition __arm_map_table (page_table vaddr : Z) : M mem unit :=
  e ← load F_pte (entry page_table (l1_index vaddr));
  if Z.land e ARM_PT_L1_TYPE_MASK =? ARM_PT_L1_TABLE then mret () else
  l2 ← cache_alloc pt_l2_cache;
  _ ← assert (negb (l2 =? NULL));
  store F_pte (entry page_table (l1_index vaddr)) (u32 (Z.lor ARM_PT_L1_TABLE (kva2pa l2))).

Definition init_pgindex : M mem Z := cache_alloc pt_l1_cache.

(** Free the second tables from entry [i] on. *)
Fixpoint free_l2 (n : nat) (table i : Z) : M mem unit :=
  match n with
  | O => mret ()
  | S n' =>
      e ← load F_pte (entry table i);
      _ ← (if Z.land e ARM_PT_L1_TYPE_MASK =? ARM_PT_L1_TABLE
           then _ ← cache_free pt_l2_cache (Z.land e ARM_PT_L1_TABLE_BASE_MASK); mret ()
           else mret ());
      free_l2 n' table (i + 1)
  end.
Definition destroy_pgindex (pgindex : Z) : M mem unit :=
  _ ← free_l2 (Z.to_nat ARM_PT_L1_LENGTH) pgindex 0;
  _ ← cache_free pt_l1_cache pgindex;
  mret ().

(** The physical address and the size of what is mapped; the size is 0 when
    nothing is. *)
Definition get_mapped (pt vaddr : Z) : M mem (Z * Z) :=
  e1 ← load F_pte (entry pt (l1_index vaddr));
  let type := Z.land e1 ARM_PT_L1_TYPE_MASK in
  if type =? ARM_PT_L1_TABLE then
    let t2 := Z.land e1 ARM_PT_L1_TABLE_BASE_MASK in
    e2 ← load F_pte (entry t2 (l2_index vaddr));
    mret (Z.land e2 ARM_PT_L2_PAGE_BASE_MASK, ARM_PAGE_SIZE)
  else if type =? ARM_PT_L1_SECT then mret (Z.land e1 ARM_PT_L1_SECT_BASE_MASK, ARM_SECT_SIZE)
  else mret (0, 0).

Fixpoint unmap_loop (n : nat) (table vaddr size head_paddr block_size this_size : Z) : M mem Z :=
  if negb (block_size <? size) then mret block_size else
  match n with
  | O => nofuel
  | S n' =>
      let vaddr := u32 (vaddr + this_size) in
      r ← get_mapped table vaddr;
      let '(this_paddr, this_size) := r in
      if (this_size =? 0) || negb (this_paddr =? u64 (head_paddr + block_size)) then mret block_size
      else unmap_loop n' table vaddr size head_paddr (u32 (block_size + this_size)) this_size
  end.

(** *paddr is never written. *)
Definition arm_unmap_pages (pgindex vaddr size : Z) : M mem Z :=
  r ← get_mapped pgindex vaddr;
  let '(this_paddr, this_size) := r in
  if this_size =? 0 then mret 0 else
  unmap_loop (Z.to_nat (size / ARM_PAGE_SIZE + 1)) pgindex vaddr size this_paddr this_size this_size.

(** *** The routines that print

    They run on the state of the whole kernel: [on_mem] is code that works on
    memory, [kprintf] the console. *)
Context {K : Type} (on_mem : ∀ A, M mem A → M K A) (kprintf : list Z → list arg → M K Z).
Arguments on_mem {A}.

Definition sect_fmt : list Z :=
  bytes "DEBUG: map_sect(pt=0x%08x, paddr=0x%08x, vaddr=0x%08x, flags=0x%08x)" ++ [ch_lf].
Definition page_fmt : list Z :=
  bytes "DEBUG: map_page(pt=0x%08x, paddr=0x%08x, vaddr=0x%08x, flags=0x%08x)" ++ [ch_lf].
Definition map_args (page_table paddr vaddr flags : Z) : list arg :=
  [AWord page_table; AWord (u32 paddr); AWord vaddr; AWord flags].

Definition __arm_map_sect (page_table paddr vaddr flags : Z) : M K unit :=
  _ ← kprintf sect_fmt (map_args page_table paddr vaddr flags);
  on_mem (
    (* cleanup *)
    _ ← __arm_unmap_l1 page_table vaddr;
    (* apply map *)
    store F_pte (entry page_table (l1_index vaddr)) (sect_entry (convert_flags flags) paddr)).

(** The second table is reached through its physical address. *)
Definition __arm_map_page (page_table paddr vaddr flags : Z) : M K unit :=
  _ ← kprintf page_fmt (map_args page_table paddr vaddr flags);
  on_mem (
    _ ← __arm_map_table page_table (ALIGN_BELOW 32 vaddr ARM_SECT_SIZE);
    e1 ← load F_pte (entry page_table (l1_index vaddr));
    let t2 := Z.land e1 ARM_PT_L1_TABLE_BASE_MASK in
    store F_pte (entry t2 (l2_index vaddr)) (page_entry (convert_flags flags) paddr)).

(** [n] bounds the number of sections. *)
Fixpoint early_loop (n : nat) (index paddr vaddr vend : Z) : M K unit :=
  if negb (vaddr <? vend) then mret () else
  match n with
  | O => nofuel
  | S n' =>
      _ ← __arm_map_sect index paddr vaddr (Z.lor MAP_SHARED_DEV VMA_EXEC);
      early_loop n' index (u64 (paddr + ARM_SECT_SIZE)) (u32 (vaddr + ARM_SECT_SIZE)) vend
  end.

(** The check only refuses a misaligned length with both addresses aligned. *)
Definition page_index_early_map (index paddr vaddr length : Z) : M K Z :=
  if IS_ALIGNED 64 paddr ARM_SECT_SIZE && IS_ALIGNED 32 vaddr ARM_SECT_SIZE && negb (IS_ALIGNED 32 length ARM_SECT_SIZE)
  then mret EOF else
  _ ← early_loop (Z.to_nat (length / ARM_SECT_SIZE + 1)) index paddr vaddr (u32 (vaddr + length));
  mret 0.

(** A section where it fits, a page elsewhere; [n] bounds the number of steps. *)
Fixpoint map_loop (n : nat) (pgindex vaddr paddr size flags : Z) : M K unit :=
  if negb (size >? 0) then mret () else
  match n with
  | O => nofuel
  | S n' =>
      if IS_ALIGNED 32 vaddr ARM_SECT_SIZE && IS_ALIGNED 64 paddr ARM_SECT_SIZE && (size >=? ARM_SECT_SIZE) then
        _ ← __arm_map_sect pgindex paddr vaddr flags;
        map_loop n' pgindex (u32 (vaddr + ARM_SECT_SIZE)) (u64 (paddr + ARM_SECT_SIZE)) (u32 (size - ARM_SECT_SIZE)) flags
      else
        _ ← __arm_map_page pgindex paddr vaddr flags;
        map_loop n' pgindex (u32 (vaddr + ARM_PAGE_SIZE)) (u64 (paddr + ARM_PAGE_SIZE)) (u32 (size - ARM_PAGE_SIZE)) flags
  end.

Definition arm_map_pages (pgindex vaddr paddr size flags : Z) : M K Z :=
  if pgindex =? NULL then mret EOF else
  if negb (IS_ALIGNED 32 vaddr ARM_PAGE_SIZE && IS_ALIGNED 64 paddr ARM_PAGE_SIZE && IS_ALIGNED 32 size ARM_PAGE_SIZE)
  then mret EOF else
  _ ← map_loop (Z.to_nat (size / ARM_PAGE_SIZE)) pgindex vaddr paddr size flags;
  mret 0.
End code.

(** ** Setting the component up *)

Section setup.
Context (kmalloc : Z → Z → M mem Z) (cache_create : Z → M mem Z) (free_pages : pages → M mem unit).
(** The function pointers the caches are given. *)
Context (page_index_clear_p pt_l2_clear_p : Z).
(** RAM_PHYSBASE, KERN_BASE, and the symbols RAM_SIZE and kern_end. *)
Context (RAM_PHYSBASE KERN_BASE RAM_SIZE kern_end : Z) (premap_addr : Z → Z).

Definition get_mem_physbase : Z := RAM_PHYSBASE.
Definition get_mem_size : Z := RAM_SIZE.

Definition add_memory_pages : M mem unit :=
  free_pages (mk_pages (premap_addr kern_end) (u64 (get_mem_size - (kern_end - KERN_BASE))) 0 0).

Definition sizeof_allocator_cache : Z := 28.

(** One cache of objects as large as their alignment. *)
Definition new_cache (size clear_p : Z) : M mem Z :=
  cache ← kmalloc sizeof_allocator_cache 0;
  _ ← assert (negb (cache =? NULL));
  _ ← store F_c_size cache size;
  _ ← store F_c_align cache size;
  _ ← store F_c_flags cache 0;
  _ ← store F_c_create_obj cache clear_p;
  _ ← store F_c_destroy_obj cache clear_p;
  r ← cache_create cache;
  _ ← assert (r =? 0);
  mret cache.

(** The values of pt_l1_cache and pt_l2_cache. *)
Definition arch_mm_init : M mem (Z * Z) :=
  l1 ← new_cache ARM_PT_L1_SIZE page_index_clear_p;
  l2 ← new_cache ARM_PT_L2_SIZE pt_l2_clear_p;
  mret (l1, l2).

(** get_addr_space() with the program counter it reads. *)
Definition get_addr_space (pc : Z) : Z := if pc >? KERN_BASE then 1 else 0.
End setup.
End arm.

(** * Properties *)

(** What the processor makes of a virtual address: sections by the first
    table alone, pages by a second one. *)
Definition translate (m : mem) (pt va : Z) : option Z :=
  e1 ← m !! (F_pte, entry pt (va / 2 ^ 20));
  if Z.land e1 3 =? 2 then Some (Z.land e1 0xFFF00000 + va mod 2 ^ 20)
  else if Z.land e1 3 =? 1 then
    e2 ← m !! (F_pte, entry (Z.land e1 0xFFFFFC00) (va / 2 ^ 12 mod 256));
    if Z.land e2 2 =? 2 then Some (Z.land e2 0xFFFFF000 + va mod 2 ^ 12) else None
  else None.

Definition EARLY_FLAGS : Z := Z.lor arm.MAP_SHARED_DEV arm.VMA_EXEC.

(** The word for an early section: its base and the bits 0x406. *)
Lemma early_entry p : 0 ≤ p < 2 ^ 12 → arm.sect_entry (arm.convert_flags EARLY_FLAGS) (p * 2 ^ 20) = p * 2 ^ 20 + 0x406.
Proof.
  intros Hp. unfold arm.sect_entry. change (arm.convert_flags EARLY_FLAGS) with (arm.mk_attrs 1 0 0 1 0 0).
  cbn [arm.at_ap arm.at_tex arm.at_c arm.at_b arm.at_s arm.at_xn].
  change (Z.shiftl 0 16) with 0. change (Z.shiftl 0 12) with 0. change (Z.shiftl 0 4) with 0. change (Z.shiftl 0 3) with 0.
  rewrite !Z.lor_0_r, (Z.lor_comm arm.ARM_PT_L1_SECT), <-!Z.lor_assoc.
  change (Z.lor arm.ARM_PT_L1_SECT (Z.lor (Z.shiftl 1 10) (Z.shiftl 1 2))) with 0x406.
  rewrite lor_add_low by lia. apply wrap_small. unfold in_range. lia.
Qed.

Lemma early_entry_type p : 0 ≤ p → Z.land (p * 2 ^ 20 + 0x406) 3 = 2.
Proof. intros Hp. change 3 with (Z.ones 2). rewrite Z.land_ones by lia. Z.div_mod_to_equations. lia. Qed.

Lemma early_entry_base p : 0 ≤ p < 2 ^ 12 → Z.land (p * 2 ^ 20 + 0x406) 0xFFF00000 = p * 2 ^ 20.
Proof.
  intros Hp. rewrite <-lor_add_low by lia. rewrite Z.land_lor_distr_l. change (Z.land 0x406 0xFFF00000) with 0.
  rewrite Z.lor_0_r, <-Z.shiftl_mul_pow2 by lia. change 0xFFF00000 with (Z.shiftl (Z.ones 12) 20).
  rewrite <-Z.shiftl_land, Z.land_ones by lia. by rewrite Z.mod_small by lia.
Qed.

(** What the mapping routines need of their surroundings: [mc_at m l s] says that memory is
    [m] and that the lines [l] have been shown. *)
Class MemConsole {K : Type} (on_mem : ∀ A, M mem A → M K A) (kprintf : list Z → list arg → M K Z) := {
  mc_at : mem → list (list Z * list arg) → K → Prop;
  mc_mem {A} m l s (c : M mem A) a m' :
    mc_at m l s → c m = Ret (a, m') → ∃ s', on_mem A c s = Ret (a, s') ∧ mc_at m' l s';
  mc_print m l s fmt a b c d :
    mc_at m l s → fmt = arm.sect_fmt ∨ fmt = arm.page_fmt →
    ∃ r s', kprintf fmt [AWord a; AWord b; AWord c; AWord d] s = Ret (r, s') ∧
      mc_at m (l ++ [(fmt, [AWord a; AWord b; AWord c; AWord d])]) s';
}.

Section early.
Context (index : Z).

(** No entry of the sections from [v] on is a second table. *)
Definition no_tables (m : mem) (v k : Z) : Prop :=
  ∀ i, v ≤ i < v + k → ∃ e, m !! (F_pte, entry index i) = Some e ∧ Z.land e 3 ≠ 1.

(** The table with [k] sections entered. *)
Fixpoint sections (m : mem) (p v : Z) (k : nat) : mem :=
  match k with
  | O => m
  | S k => sections (<[(F_pte, entry index v) := p * 2 ^ 20 + 0x406]> m) (p + 1) (v + 1) k
  end.

Lemma sections_other m p v k f a :
  (∀ i, v ≤ i < v + Z.of_nat k → (f, a) ≠ (F_pte, entry index i)) → sections m p v k !! (f, a) = m !! (f, a).
Proof.
  revert m p v. induction k as [|k IH]; intros m p v Ho; [done|]. cbn [sections].
  rewrite IH by (intros i Hi; apply Ho; lia). rewrite lookup_insert_ne; [done|]. intros E. apply (Ho v); [lia|done].
Qed.

Lemma sections_entry m p v k i :
  v ≤ i < v + Z.of_nat k → sections m p v k !! (F_pte, entry index i) = Some ((p + (i - v)) * 2 ^ 20 + 0x406).
Proof.
  revert m p v. induction k as [|k IH]; intros m p v Hi; [lia|]. cbn [sections].
  destruct (Z.eq_dec i v) as [->|Hne].
  - rewrite sections_other by (intros j Hj [= E]; unfold entry in E; lia). rewrite lookup_insert_eq. do 3 f_equal. lia.
  - rewrite IH by lia. do 3 f_equal. lia.
Qed.

Lemma no_tables_insert m v k e :
  no_tables m v k → no_tables (<[(F_pte, entry index v) := e]> m) (v + 1) (k - 1).
Proof.
  intros Hn i Hi. rewrite lookup_insert_ne by (intros [= E]; unfold entry in E; lia). apply Hn. lia.
Qed.

(** What the processor makes of a section entered early. *)
Lemma section_translates m i q va :
  m !! (F_pte, entry index i) = Some (q * 2 ^ 20 + 0x406) → 0 ≤ q < 2 ^ 12 → i * 2 ^ 20 ≤ va < (i + 1) * 2 ^ 20 →
  translate m index va = Some (q * 2 ^ 20 + (va - i * 2 ^ 20)).
Proof.
  intros E Hq Hva. unfold translate. assert (va / 2 ^ 20 = i) as -> by (Z.div_mod_to_equations; lia).
  rewrite E. cbn [mbind option_bind]. rewrite early_entry_type, early_entry_base by lia. cbn [Z.eqb Pos.eqb]. f_equal.
  Z.div_mod_to_equations. lia.
Qed.

Lemma sections_translate m p v k va :
  0 ≤ p → p + Z.of_nat k ≤ 2 ^ 12 → v * 2 ^ 20 ≤ va < (v + Z.of_nat k) * 2 ^ 20 →
  translate (sections m p v k) index va = Some (p * 2 ^ 20 + (va - v * 2 ^ 20)).
Proof.
  intros Hp Hp2 Hva. set (i := va / 2 ^ 20).
  assert (v ≤ i < v + Z.of_nat k ∧ i * 2 ^ 20 ≤ va < (i + 1) * 2 ^ 20) as [Hi Hvi] by (unfold i; Z.div_mod_to_equations; lia).
  rewrite (section_translates _ i (p + (i - v))); [f_equal; lia|by apply sections_entry|lia|done].
Qed.

Lemma no_tables_sections m p v k v' k' :
  0 ≤ p → no_tables m v' k' → no_tables (sections m p v k) v' k'.
Proof.
  intros Hp Hn i Hi. destruct (decide (v ≤ i < v + Z.of_nat k)) as [Hd|Hd].
  - rewrite sections_entry by done. eexists. split; [done|]. rewrite early_entry_type by lia. done.
  - rewrite sections_other; [by apply Hn|]. intros j Hj [= E]. unfold entry in E. lia.
Qed.

(** The same for the lines shown. *)
Fixpoint sect_lines (p v : Z) (k : nat) : list (list Z * list arg) :=
  match k with
  | O => []
  | S k => (arm.sect_fmt, [AWord index; AWord (p * 2 ^ 20); AWord (v * 2 ^ 20); AWord EARLY_FLAGS]) ::
           sect_lines (p + 1) (v + 1) k
  end.

Context (pt_l2_cache : Z) (cache_free : Z → Z → M mem Z).
Context {K : Type} {on_mem : ∀ A, M mem A → M K A} {kprintf : list Z → list arg → M K Z}.
Context {MC : MemConsole on_mem kprintf}.

Local Abbreviation early_map := (arm.page_index_early_map pt_l2_cache cache_free on_mem kprintf).

Lemma map_sect_run m l s p v :
  mc_at m l s → no_tables m v 1 → 0 ≤ p < 2 ^ 12 →
  ∃ s', arm.__arm_map_sect pt_l2_cache cache_free on_mem kprintf index (p * 2 ^ 20) (v * 2 ^ 20) EARLY_FLAGS s = Ret ((), s') ∧
    mc_at (<[(F_pte, entry index v) := p * 2 ^ 20 + 0x406]> m) (l ++ sect_lines p v 1) s'.
Proof.
  intros Hs Hn Hp. destruct (Hn v) as (e & He & Ht); [lia|]. unfold arm.__arm_map_sect.
  destruct (mc_print m l s arm.sect_fmt index (p * 2 ^ 20) (v * 2 ^ 20) EARLY_FLAGS Hs) as (r & s1 & E1 & Hs1); [by left|].
  assert (u32 (p * 2 ^ 20) = p * 2 ^ 20) as Eu by (apply wrap_small; unfold in_range; lia).
  unfold arm.map_args. rewrite Eu, (bind_ret _ _ _ _ _ E1).
  eapply mc_mem; [exact Hs1|].
  assert (arm.l1_index (v * 2 ^ 20) = v) as Ev by (unfold arm.l1_index; rewrite Z.shiftr_div_pow2 by done; by rewrite Z.div_mul).
  unfold arm.__arm_unmap_l1. rewrite Ev, early_entry by done.
  unfold mbind, M_bind, load, store. rewrite He. change arm.ARM_PT_L1_TYPE_MASK with 3. change arm.ARM_PT_L1_TABLE with 1.
  destruct (Z.eqb_spec (Z.land e 3) 1); [done|]. unfold mret, M_ret. by rewrite insert_insert_eq.
Qed.

Lemma early_loop_run k n m l s p v :
  mc_at m l s →
  no_tables m v (Z.of_nat k) → (k ≤ n)%nat → 0 ≤ p → p + Z.of_nat k ≤ 2 ^ 12 → 0 ≤ v → v + Z.of_nat k < 2 ^ 12 →
  ∃ s', arm.early_loop pt_l2_cache cache_free on_mem kprintf n index (p * 2 ^ 20) (v * 2 ^ 20) ((v + Z.of_nat k) * 2 ^ 20) s =
      Ret ((), s') ∧ mc_at (sections m p v k) (l ++ sect_lines p v k) s'.
Proof.
  revert n m l s p v. induction k as [|k IH]; intros n m l s p v Hs Hn Hk Hp Hp2 Hv Hv2.
  - exists s. rewrite app_nil_r. split; [|done].
    destruct n; cbn [arm.early_loop]; by rewrite (proj2 (Z.ltb_ge _ _)) by lia.
  - destruct n as [|n]; [lia|]. cbn [arm.early_loop].
    rewrite (proj2 (Z.ltb_lt _ _)) by lia. cbn [negb].
    destruct (map_sect_run m l s p v Hs) as (s1 & E1 & Hs1); [intros i Hi; apply Hn; lia|lia|].
    rewrite (bind_ret _ _ _ _ _ E1).
    change arm.ARM_SECT_SIZE with (2 ^ 20). unfold wrap.
    rewrite !Z.mod_small by lia. replace (p * 2 ^ 20 + 2 ^ 20) with ((p + 1) * 2 ^ 20) by lia.
    replace (v * 2 ^ 20 + 2 ^ 20) with ((v + 1) * 2 ^ 20) by lia.
    replace (v + Z.of_nat (S k)) with (v + 1 + Z.of_nat k) by lia. cbn [sections].
    destruct (IH n _ _ _ (p + 1) (v + 1) Hs1) as (s2 & E2 & Hs2); [|lia..|].
    { replace (Z.of_nat k) with (Z.of_nat (S k) - 1) by lia. by apply no_tables_insert. }
    exists s2. split; [exact E2|]. by rewrite <-app_assoc in Hs2.
Qed.

Lemma early_map_run m l s p v k :
  mc_at m l s →
  no_tables m v k → 0 ≤ k → 0 ≤ p → p + k ≤ 2 ^ 12 → 0 ≤ v → v + k < 2 ^ 12 →
  ∃ s', early_map index (p * 2 ^ 20) (v * 2 ^ 20) (k * 2 ^ 20) s = Ret (0, s') ∧
    mc_at (sections m p v (Z.to_nat k)) (l ++ sect_lines p v (Z.to_nat k)) s'.
Proof.
  intros Hs Hn Hk Hp Hp2 Hv Hv2. unfold arm.page_index_early_map.
  assert (IS_ALIGNED 32 (k * 2 ^ 20) arm.ARM_SECT_SIZE = true) as ->.
  { change arm.ARM_SECT_SIZE with (2 ^ 20). rewrite IS_ALIGNED_spec by lia. by rewrite Z.mod_mul by lia. }
  rewrite andb_false_r. change arm.ARM_SECT_SIZE with (2 ^ 20).
  rewrite Z.div_mul by lia. unfold wrap. rewrite Z.mod_small by lia.
  replace (v * 2 ^ 20 + k * 2 ^ 20) with ((v + Z.of_nat (Z.to_nat k)) * 2 ^ 20) by lia.
  destruct (early_loop_run (Z.to_nat k) (Z.to_nat (k + 1)) m l s p v Hs) as (s1 & E1 & Hs1);
    [by rewrite Z2Nat.id by lia|lia..|].
  rewrite (bind_ret _ _ _ _ _ E1). by exists s1.
Qed.

(** Whatever it is asked to map, the code only prints and works on memory. *)
Lemma early_map_keeps (P : K → Prop) paddr vaddr len s r s' :
  (∀ A (c : M mem A) s a s', P s → on_mem A c s = Ret (a, s') → P s') →
  (∀ a b c d s r s', P s → kprintf arm.sect_fmt [AWord a; AWord b; AWord c; AWord d] s = Ret (r, s') → P s') →
  P s → early_map index paddr vaddr len s = Ret (r, s') → P s'.
Proof using.
  intros Hmem Hpr Hs. unfold arm.page_index_early_map. destruct (_ && _); [intros E; by injection E as <- <-|].
  intros E. apply bind_ret_inv in E as ([] & s1 & E & E1). injection E1 as <- <-.
  set (n := Z.to_nat _) in E. set (vend := u32 (vaddr + len)) in E. clearbody n vend.
  revert s paddr vaddr Hs E. induction n as [|n IH]; intros s pa va Hs E; cbn [arm.early_loop] in E.
  - destruct (negb _); [by injection E as <-|done].
  - destruct (negb _); [by injection E as <-|].
    apply bind_ret_inv in E as ([] & s2 & E & E2). eapply IH; [|exact E2].
    apply bind_ret_inv in E as (? & s3 & E & E3). eapply Hmem; [|exact E3]. by eapply Hpr.
Qed.

(** The early mapping of ARM with sections: a section-aligned range is
    mapped to the physical range as the processor translates it, byte for byte,
    no other cell of memory changes, and one line is shown for each section. The
    first-level table is never run past. *)
Theorem arm_early_map_translates m l s p v k :
  mc_at m l s → no_tables m v k → 0 ≤ k → 0 ≤ p → p + k ≤ 2 ^ 12 → 0 ≤ v → v + k < 2 ^ 12 →
  ∃ m' s', early_map index (p * 2 ^ 20) (v * 2 ^ 20) (k * 2 ^ 20) s = Ret (0, s') ∧
    mc_at m' (l ++ sect_lines p v (Z.to_nat k)) s' ∧
    (∀ va, v * 2 ^ 20 ≤ va < (v + k) * 2 ^ 20 → translate m' index va = Some (p * 2 ^ 20 + (va - v * 2 ^ 20))) ∧
    (∀ f a, (∀ i, v ≤ i < v + k → (f, a) ≠ (F_pte, entry index i)) → m' !! (f, a) = m !! (f, a)).
Proof.
  intros Hs Hn Hk Hp Hp2 Hv Hv2. exists (sections m p v (Z.to_nat k)).
  destruct (early_map_run m l s p v k) as (s' & E & Hs'); [done..|]. exists s'. split_and!; [done|done| |].
  - intros va Hva. apply sections_translate; lia.
  - intros f a Ha. apply sections_other. intros i Hi. apply Ha. lia.
Qed.
End early.

(** ** An empty index *)

Module ArmScenario.
Definition empty_index : mem := foldr (λ i m, <[(F_pte, entry 0x4000 (Z.of_nat i)) := 0]> m) ∅ (seq 0 16).

(** Memory with a record of what was printed. *)
Definition recorded : Type := mem * list (list Z * list arg).
Definition record (fmt : list Z) (args : list arg) : M recorded Z := λ '(m, l), Ret (0, (m, l ++ [(fmt, args)])).
#[export] Program Instance recorded_console : MemConsole (K := recorded) (@on_fst _ _) record := {| mc_at m l s := s = (m, l) |}.
Next Obligation. intros A m l s c a m' -> E. eexists. split; [by apply on_fst_ret|done]. Qed.
Next Obligation. intros m l s fmt a b c d -> _. by eexists _, _. Qed.

Lemma arm_early_map_translates_witness :
  ∃ m' l', arm.page_index_early_map 0 (λ _ _, mret 0) (@on_fst _ _) record 0x4000 (256 * 2 ^ 20) (8 * 2 ^ 20) (4 * 2 ^ 20)
      ((empty_index, []) : recorded) = Ret (0, (m', l')) ∧
    translate m' 0x4000 0x812345 = Some 0x10012345 ∧ length l' = 4%nat.
Proof.
  destruct (arm_early_map_translates 0x4000 0 (λ _ _, mret 0) empty_index [] (empty_index, []) 256 8 4) as (m' & s' & E & Hs & Ht & _).
  - reflexivity.
  - intros i Hi. exists 0. split; [|done].
    assert (i = 8 ∨ i = 9 ∨ i = 10 ∨ i = 11) as Hc by lia.
    destruct Hc as [Hc|[Hc|[Hc|Hc]]]; rewrite Hc; vm_compute; reflexivity.
  - lia.
  - lia.
  - lia.
  - lia.
  - lia.
  - cbn in Hs. subst s'. eexists m', _. split; [exact E|]. rewrite (Ht 0x812345) by lia. split; reflexivity.
Defined.
End ArmScenario.
