(* ===== verification/MemInit.v ===== *)
(** The memory management of kern/init/init.c as a whole: kmalloc() and the page
    allocator, each calling the other through the registered function
    pointers, and the four steps in which master_init() brings them up. The messages
    between the steps are left out. *)
From Stdlib Require Import ZArith Lia.
From stdpp Require Import base numbers gmap list.
From S2P Require Import Prelude DList Util Pmm Heap Flff Vmm Bootstrap Ff FfProps ArmMm.

Open Scope Z_scope.

Definition BOOTSTRAP_POOL_SIZE : Z := 1024.

(** The four entry points. *)
Record mm_ops : Type := mk_mm_ops {
  op_kmalloc : Z → Z → M mem Z;
  op_kfree : Z → M mem unit;
  op_alloc_pages : pages → M mem (Z * pages);
  op_free_pages : pages → M mem unit;
}.

Section wired.
(** The static list heads of flff.c and ff.c, and the function pointers of the
    bootstrap allocator, of the proper one and of the page allocator. *)
Context (bootstrap_head proper_head ff_head : Z) (pa2kva : Z → Z).
Context (boot_fps proper_fps : simple_allocator) (ffp : page_allocator).

(** What runs when a registered function is called. *)
Definition call_alloc (o : mm_ops) (fp size flags : Z) : M mem Z :=
  if fp =? sa_alloc boot_fps then flff.__bootstrap_alloc (op_alloc_pages o) pa2kva bootstrap_head size flags
  else if fp =? sa_alloc proper_fps then flff.__proper_alloc (op_alloc_pages o) pa2kva proper_head size flags
  else stuck.
Definition call_free (o : mm_ops) (fp obj : Z) : M mem unit :=
  if fp =? sa_free boot_fps then flff.__bootstrap_free (op_free_pages o) bootstrap_head obj
  else if fp =? sa_free proper_fps then flff.__proper_free (op_free_pages o) proper_head obj
  else stuck.
Definition call_alloc_pages (o : mm_ops) (fp : Z) (p : pages) : M mem (Z * pages) :=
  if fp =? alloc_fp ffp then ff.__alloc (op_kfree o) ff_head p else stuck.
Definition call_free_pages (o : mm_ops) (fp : Z) (p : pages) : M mem unit :=
  if fp =? free_fp ffp then ff.__free (op_kmalloc o) (op_kfree o) ff_head p else stuck.

Definition call_get_free (fp : Z) : M mem Z :=
  if fp =? get_free_fp ffp then ff.__get_free else stuck.

(** The allocators call each other at most [n] levels deep. *)
Fixpoint wired (n : nat) : mm_ops :=
  match n with
  | O => mk_mm_ops (λ _ _, nofuel) (λ _, nofuel) (λ _, nofuel) (λ _, nofuel)
  | S n' =>
      let o := wired n' in
      mk_mm_ops (vmm.kmalloc (call_alloc o)) (vmm.kfree (call_free o))
        (λ p, r ← pmm.alloc_pages (call_alloc_pages o) (Some p); mret (fst r, default p (snd r)))
        (pmm.free_pages (call_free_pages o))
  end.

(** The architecture's add_memory_pages(). *)
Context (add_memory_pages : mm_ops → M mem unit).

(** master_init(), up to the first look at the free memory, whose value is
    the result. *)
Definition mm_bootstrap (n : nat) (bootstrap_pool : Z) : M mem Z :=
  _ ← flff.simple_allocator_bootstrap bootstrap_head (vmm.set_simple_allocator (Some boot_fps))
        bootstrap_pool BOOTSTRAP_POOL_SIZE;
  _ ← ff.page_allocator_init ff_head ffp;
  _ ← add_memory_pages (wired n);
  pmm.get_free_memory call_get_free.

(** Then the proper heap, and the page allocator's blocks moved into it. *)
Definition mm_move (n : nat) : M mem Z :=
  old ← vmm.get_simple_allocator;
  _ ← flff.simple_allocator_init proper_head (vmm.set_simple_allocator (Some proper_fps));
  ff.page_allocator_move (op_kmalloc (wired n)) ff_head (call_free (wired n) (sa_free old)).

Definition mm_bring_up (n : nat) (bootstrap_pool : Z) : M mem Z :=
  free ← mm_bootstrap n bootstrap_pool;
  _ ← mm_move n;
  mret free.
End wired.

(** * Properties *)

Lemma wp_with_fuel {A} (c : nat → M mem A) m (Q : A → mem → Prop) : wp (c (base.size m)) m Q → wp (with_fuel c) m Q.
Proof. done. Qed.

(** ** The page allocator with one block, whatever its heap does *)

Section one_block.
Context (kmalloc : Z → Z → M mem Z) (kfree : Z → M mem unit) (head : Z).

(** The list holds the block [b] for the range of [sz] bytes at [pa]. *)
Record one_block (m : mem) (b pa sz : Z) : Prop := {
  ob_list : dlist m head [b + ff.off_node];
  ob_paddr : m !! (F_paddr, b) = Some pa;
  ob_size : m !! (F_size, b) = Some sz;
  ob_free : m !! (G_free_space, 0) = Some sz;
}.

(** Where the allocator writes for a block. *)
Definition ff_cells (b : Z) : list Z := [b; b + ff.off_node; head].
Definition not_counter (f : fld) (a : Z) : Prop := f ≠ G_free_space ∨ a ≠ 0.

Lemma free_first_run m m1 b pg :
  ff.blk_ok (ff.mk_blk b (paddr pg) (size pg)) → kmalloc ff.sizeof_block 0 m = Ret (b, m1) → b ≠ NULL →
  dlist m1 head [] → b + ff.off_node ≠ head → m1 !! (G_free_space, 0) = Some 0 →
  wp (ff.__free kmalloc kfree head pg) m (λ _ m',
    one_block m' b (paddr pg) (size pg) ∧ ∀ f a, a ∉ ff_cells b → not_counter f a → m' !! (f, a) = m1 !! (f, a)).
Proof using.
  intros (Hp & Hs & Hps & Hpa & Hsa) Hk Hb Hd Hne Hfs. simpl in *. unfold ff.__free.
  rewrite !IS_ALIGNED_page, !bool_decide_true by (done || lia). simpl.
  wp_step. eapply wp_eq; [exact Hk|]. rewrite (proj2 (Z.eqb_neq _ _) Hb). wp_run.
  set (m2 := <[(F_flags, b) := _]> _).
  assert (Hd2 : dlist m2 head []) by (eapply dlist_frame; [| |exact Hd]; intros x _; unfold m2; by mem_simpl).
  destruct (dlist_edge _ _ [] [] Hd2) as [En _]. simpl in En. eapply wp_load; [exact En|].
  wp_step. unfold with_fuel. eapply (wp_eq _ _ NULL m2).
  { destruct (base.size m2); cbn [ff.find_prev]; by rewrite Z.eqb_refl. }
  change (NULL =? NULL) with true. cbn [negb]. wp_step.
  eapply (wp_list_add m2 head [] []); [done|done|set_unfold; naive_solver|]. intros m3 Hd3 Hs3.
  assert (H3 : ∀ f a, f ≠ F_next → f ≠ F_prev → m3 !! (f, a) = m2 !! (f, a)) by (intros; by eapply same_but_field).
  wp_step. unfold ff.merge_downwards. change (NULL =? NULL) with true. wp_run.
  unfold ff.merge_upwards, list_is_last. destruct (dlist_edge _ _ [b + ff.off_node] [] Hd3) as [En3 _]. simpl in En3.
  wp_run. rewrite Z.eqb_refl. cbn [negb]. wp_run. change (NULL =? NULL) with true. cbn match. wp_run.
  eapply wp_load; [rewrite H3 by done; unfold m2; mem_simpl; exact Hfs|]. wp_run.
  rewrite wrap_small by (unfold in_range; lia). split.
  - split; [|mem_simpl; rewrite H3 by done; unfold m2; by mem_simpl..|by mem_simpl].
    eapply dlist_frame; [| |exact Hd3]; intros x _; by mem_simpl.
  - intros f a Ha Hc. unfold ff_cells, not_counter in *. set_unfold. rewrite lookup_insert_ne by naive_solver.
    rewrite Hs3 by (right; set_unfold; naive_solver). unfold m2. rewrite !lookup_insert_ne by naive_solver. done.
Qed.

(** A request smaller than the block is cut from its front. *)
Lemma cut_first_run m b pa sz pg :
  one_block m b pa sz → b + ff.off_node ≠ head → 0 ≤ pa → pa + sz < 2 ^ 64 →
  page_aligned (size pg) → 0 < size pg < sz →
  ∃ m', ff.__alloc kfree head pg m = Ret ((0, set_paddr pg pa), m') ∧
    one_block m' b (pa + size pg) (sz - size pg) ∧
    (∀ f a, (a ≠ b ∧ not_counter f a) ∨ f = F_next ∨ f = F_prev → m' !! (f, a) = m !! (f, a)).
Proof using.
  clear kmalloc. intros [Hd Hpa Hsz Hfs] Hne Hp0 Hp1 Hal Hn.
  enough (wp (ff.__alloc kfree head pg) m (λ r m', r = (0, set_paddr pg pa) ∧
    one_block m' b (pa + size pg) (sz - size pg) ∧
    (∀ f a, (a ≠ b ∧ not_counter f a) ∨ f = F_next ∨ f = F_prev → m' !! (f, a) = m !! (f, a)))) as Hw.
  { apply wp_elim in Hw as (r & m' & E & -> & H). by exists m'. }
  unfold ff.__alloc. rewrite IS_ALIGNED_page, bool_decide_true by (done || lia). simpl.
  wp_step. eapply wp_load; [exact Hfs|]. destruct (Z.gtb_spec (size pg) sz); [lia|]. wp_step.
  eapply wp_eq.
  { apply (for_each_entry_run m head ff.off_node [b] _ (λ _, sz >=? size pg)); [done|].
    intros p ->%list_elem_of_singleton. by erewrite bind_ret by by apply load_Some. }
  assert (find_or (λ _, sz >=? size pg) [b] (head - ff.off_node) = b) as ->.
  { unfold find_or. simpl. by destruct (Z.geb_spec sz (size pg)); [|lia]. }
  rewrite (proj2 (Z.eqb_neq _ _) Hne). wp_run. rewrite !wrap_small by (unfold in_range; lia).
  rewrite (proj2 (Z.eqb_neq _ _)) by lia. wp_run. rewrite wrap_small by (unfold in_range; lia).
  split; [done|]. split.
  - split; [|by mem_simpl..]. eapply dlist_frame; [| |exact Hd]; intros x _; by mem_simpl.
  - unfold not_counter. intros f a [[? ?]|[->| ->]]; rewrite !lookup_insert_ne by naive_solver; done.
Qed.

(** page_allocator_move(): the block is copied to the new heap and the old one freed. *)
Lemma move_one_run m m1 b new pa sz (old_free : Z → M mem unit) (Q : Z → mem → Prop) :
  dlist m head [b + ff.off_node] →
  kmalloc ff.sizeof_block 0 m = Ret (new, m1) → new ≠ NULL →
  one_block m1 b pa sz → new + ff.off_node ≠ head → new ≠ b → 
  (∀ m3, one_block m3 new pa sz → (∀ f a, a ∉ ff_cells new → a ≠ b + ff.off_node → m3 !! (f, a) = m1 !! (f, a)) →
     wp (old_free b) m3 (λ _ m4, one_block m4 new pa sz ∧ Q 0 m4)) →
  wp (ff.page_allocator_move kmalloc head old_free) m Q.
Proof using.
  clear kfree. intros Hd Hk Hn [Hd1 Hpa Hsz Hfs] Hh Hnb Hold. unfold ff.page_allocator_move.
  destruct (dlist_edge _ _ [] _ Hd) as [En _]. simpl in En. wp_step. eapply wp_load; [exact En|].
  wp_step. apply wp_with_fuel. pose proof (dlist_size _ _ _ Hd) as Hsize. simpl in Hsize.
  destruct (base.size m) as [|[|k]]; [lia|lia|]. cbn [ff.move_loop].
  assert (b + ff.off_node ≠ head) as Hbh by (eapply dlist_not_head; [exact Hd|set_solver]).
  rewrite (proj2 (Z.eqb_neq _ _) Hbh). unfold list_entry. replace (b + ff.off_node - ff.off_node) with b by lia.
  wp_step. eapply wp_eq; [exact Hk|]. rewrite (proj2 (Z.eqb_neq _ _) Hn). wp_run.
  set (m3 := <[(F_size, new) := _]> _).
  assert (Hd3 : dlist m3 head [b + ff.off_node]) by (eapply dlist_frame; [| |exact Hd1]; intros x _; unfold m3; by mem_simpl).
  eapply (wp_list_add m3 head [b + ff.off_node] []); [done|done|set_unfold; intros [?|[?|?]]; [done|lia|done]|].
  intros m4 Hd4 Hs4. wp_step. eapply (wp_list_del m4 head [] (b + ff.off_node) [new + ff.off_node]); [done|].
  intros m5 Hd5 Hs5.
  assert (H5 : ∀ f a, f ≠ F_next → f ≠ F_prev → m5 !! (f, a) = m3 !! (f, a)).
  { intros. rewrite (same_but_field _ _ _ _ _ Hs5) by done. by eapply same_but_field. }
  wp_step. eapply wp_mono; [apply Hold|].
  - split; [done|rewrite H5 by done; unfold m3; by mem_simpl..].
  - intros f a Ha Hab. unfold ff_cells in Ha. set_unfold.
    rewrite Hs5 by (right; set_unfold; naive_solver). rewrite Hs4 by (right; set_unfold; naive_solver).
    unfold m3. rewrite !lookup_insert_ne by naive_solver. done.
  - intros [] m6 [[Hd6 _ _ _] HQ]. destruct (dlist_edge _ _ [new + ff.off_node] [] Hd6) as [En6 _]. simpl in En6.
    wp_step. eapply wp_load; [exact En6|]. cbn [ff.move_loop]. rewrite Z.eqb_refl. by wp_run.
Qed.
End one_block.

Lemma one_block_frame head m m' b pa sz :
  one_block head m b pa sz → (∀ f a, a ∈ 0 :: ff_cells head b → m' !! (f, a) = m !! (f, a)) → one_block head m' b pa sz.
Proof.
  intros [Hd Hp Hs Hf] Hm. unfold ff_cells in Hm. split; [|by rewrite Hm by set_solver..].
  eapply dlist_frame; [| |exact Hd]; intros x Hx; apply Hm; set_solver.
Qed.

Lemma object_single p sz a : p ≤ a < p + sz → in_object {[p := sz]} a.
Proof. intros. exists p, sz. by rewrite lookup_singleton_eq. Qed.

(** Static variables are no part of a heap, nor is an object on it. *)
Lemma static_not_owned lo hi head live a :
  STATIC_TOP + 64 ≤ lo → STATIC_TOP + 64 ≤ head → 0 ≤ a < STATIC_TOP + 64 → ¬ flff.pool_owned lo hi head live a.
Proof. intros ? ? ? [->|[? _]]; lia. Qed.

Lemma cells_not_owned lo hi head ff_head m b a :
  flff.pool_inv lo hi head m {[b := ff.sizeof_block]} → ¬ (lo ≤ head < hi) → ¬ (lo ≤ ff_head < hi) → ff_head ≠ head →
  a ∈ ff_cells ff_head b → ¬ flff.pool_owned lo hi head {[b := ff.sizeof_block]} a.
Proof.
  intros Hp Hh Hf Hne Ha. destruct (live_in_pool lo hi head m _ b ff.sizeof_block Hp) as [Hb1 Hb2]; [by rewrite lookup_singleton_eq|].
  unfold ff_cells, ff.off_node, ff.sizeof_block in *. intros [->|[Hin Ho]]; [set_unfold; lia|]. apply Ho.
  apply object_single. set_unfold. lia.
Qed.

(** ** The bring-up *)

Section bring_up.
Context (pool bootstrap_head proper_head ff_head : Z) (pa2kva : Z → Z).
Context (boot_fps proper_fps : simple_allocator) (ffp : page_allocator).
Context (add_memory_pages : mm_ops → M mem unit) (memory : pages).
(** As on ARM, add_memory_pages() gives away one range of memory. *)
Hypothesis Hadd : ∀ o, add_memory_pages o = op_free_pages o memory.
Local Abbreviation top := (pool + BOOTSTRAP_POOL_SIZE).
(** The first page of the memory, where the proper heap starts. *)
Local Abbreviation lo := (pa2kva (u32 (paddr memory))).
Local Abbreviation hi := (pa2kva (u32 (paddr memory)) + PAGE_SIZE).

Hypothesis Hpool : STATIC_TOP + 64 ≤ pool ∧ pool mod 16 = 0 ∧ top < pool + PAGE_SIZE ∧ top ≤ 2 ^ 32 - PAGE_SIZE.
Hypothesis Hboot : STATIC_TOP + 64 ≤ bootstrap_head ∧ ¬ (pool ≤ bootstrap_head < top).
Hypothesis Hff : STATIC_TOP + 64 ≤ ff_head ∧ ¬ (pool ≤ ff_head < top) ∧ ff_head ≠ bootstrap_head.

(** page_allocator_init() writes static variables and its list head only. *)
Lemma page_init_run m :
  wp (ff.page_allocator_init ff_head ffp) m (λ _ m',
    dlist m' ff_head [] ∧ m' !! (G_free_space, 0) = Some 0 ∧ registered m' ffp ∧
    ∀ f a, STATIC_TOP ≤ a → a ≠ ff_head → m' !! (f, a) = m !! (f, a)).
Proof using.
  clear. unfold ff.page_allocator_init, pmm.set_page_allocator. wp_run. apply wp_INIT_LIST_HEAD. intros m1 Hd Hs. wp_run.
  assert (m1 !! (G_free_space, 0) = Some 0) as H0.
  { rewrite (same_but_field _ _ _ _ _ Hs) by done. by mem_simpl. }
  split_and!.
  - eapply dlist_frame; [| |exact Hd]; intros x _; by mem_simpl.
  - by mem_simpl.
  - split_and!; by mem_simpl.
  - intros f a Ha Hne. unfold STATIC_TOP in Ha. mem_simpl. rewrite Hs by set_solver. by mem_simpl.
Qed.

(** The heap does not notice. *)
Lemma whole_frame m m' :
  flff.trep pool top bootstrap_head m [flff.whole pool top] → table_at boot_fps m →
  (∀ f a, STATIC_TOP ≤ a → a ≠ ff_head → m' !! (f, a) = m !! (f, a)) →
  flff.trep pool top bootstrap_head m' [flff.whole pool top] ∧ table_at boot_fps m'.
Proof using Hpool Hboot Hff.
  intros [Ht Hl Hh] Htab Hs. unfold BOOTSTRAP_POOL_SIZE in *.
  assert (∀ f a, pool ≤ a < pool + 1024 ∨ a = bootstrap_head → m' !! (f, a) = m !! (f, a)) as Hp.
  { intros f a Ha. destruct Hff as (_ & ? & ?), Hpool as (? & _), Hboot as (? & _). apply Hs; unfold STATIC_TOP in *; lia. }
  split; [split; [done| |]|].
  - assert (∀ x, x ∈ [bootstrap_head; pool + flff.off_node] → pool ≤ x < pool + 1024 ∨ x = bootstrap_head) as Hx.
    { unfold flff.off_node. intros x [->|Hx]%elem_of_cons; [by right|]. apply list_elem_of_singleton in Hx as ->. left. lia. }
    eapply dlist_frame; [| |exact Hl]; intros x Hin; apply Hp, Hx, Hin.
  - apply Forall_singleton. apply Forall_singleton in Hh as [H1 H2]. unfold flff.hdr_at. cbn in *.
    rewrite !Hp by lia. done.
  - eapply table_frame; [|exact Htab]. intros f a Ha. destruct Hff as (? & _).
    unfold in_table, vmm.__simple_allocator, STATIC_TOP in *. apply Hs; unfold STATIC_TOP; lia.
Qed.

(** The page allocator manages the range with a block on the heap at
    [lo', hi'), the only object there. *)
Record on_heap (lo' hi' head : Z) (fps : simple_allocator) (m : mem) (b pa sz : Z) : Prop := {
  oh_block : one_block ff_head m b pa sz;
  oh_pool : flff.pool_inv lo' hi' head m {[b := ff.sizeof_block]};
  oh_table : table_at fps m;
  oh_registered : registered m ffp;
}.

Lemma registered_frame m m' :
  registered m ffp → (∀ f a, f = G_page_allocator → 0 ≤ a < STATIC_TOP → m' !! (f, a) = m !! (f, a)) → registered m' ffp.
Proof using. intros (H1 & H2 & H3) Hs. unfold registered, STATIC_TOP in *. by rewrite !Hs. Qed.

(** kmalloc() right after the bootstrap. *)
Lemma boot_kmalloc_run n m :
  flff.trep pool top bootstrap_head m [flff.whole pool top] → table_at boot_fps m →
  ∃ b m', op_kmalloc (wired bootstrap_head proper_head ff_head pa2kva boot_fps proper_fps ffp (S n)) ff.sizeof_block 0 m = Ret (b, m') ∧
    b ≠ NULL ∧ flff.pool_inv pool top bootstrap_head m' {[b := ff.sizeof_block]} ∧
    (∀ f a, ¬ flff.pool_owned pool top bootstrap_head ∅ a → m' !! (f, a) = m !! (f, a)).
Proof using Hpool Hboot.
  intros Ht (Ha & _). cbn [wired op_kmalloc]. rewrite (vmm.kmalloc_dispatch _ _ _ _ _ Ha). unfold call_alloc. rewrite Z.eqb_refl.
  unfold flff.__bootstrap_alloc.
  match goal with |- context [flff.__alloc ?al _ _ _ _] =>
    pose proof (flff.whole_alloc pool top bootstrap_head (pool_ok _ _ Hpool) (head_ok _ _ _ Hboot) m ff.sizeof_block 0 al pa2kva Ht) as Hw end.
  apply wp_elim in Hw as (p & m1 & E & Hp & _ & Hi & Hs & _); [|done|unfold ff.sizeof_block, BOOTSTRAP_POOL_SIZE; lia].
  by exists p, m1.
Qed.

Lemma block_in_pool m b :
  flff.pool_inv pool top bootstrap_head m {[b := ff.sizeof_block]} → pool + 32 ≤ b ∧ b + 32 ≤ pool + 1024.
Proof using.
  intros Hp. by apply (live_in_pool pool top bootstrap_head m _ b ff.sizeof_block Hp); rewrite lookup_singleton_eq.
Qed.

(** The first half: the page allocator manages exactly the memory, with its bookkeeping
    on the stack, and the free memory printed is the memory's size. *)
Theorem mm_bootstrap_ready n m :
  is_Some (m !! (F_bh_flags, pool)) → ff.blk_ok (ff.mk_blk 0 (paddr memory) (size memory)) →
  wp (mm_bootstrap bootstrap_head proper_head ff_head pa2kva boot_fps proper_fps ffp add_memory_pages (S (S n)) pool) m
    (λ free m', free = size memory ∧ ∃ b,
       on_heap pool top bootstrap_head boot_fps m' b (paddr memory) (size memory)).
Proof using Hadd Hpool Hboot Hff.
  intros Hf Hok. unfold mm_bootstrap. wp_step. replace BOOTSTRAP_POOL_SIZE with (top - pool) at 1 by lia.
  apply (bootstrap_run pool top bootstrap_head Hpool Hboot boot_fps m); [unfold BOOTSTRAP_POOL_SIZE; lia|
    by replace (top - pool) with 1024 by (unfold BOOTSTRAP_POOL_SIZE; lia)|done|].
  intros m1 Ht1 Htab1. wp_step. eapply wp_mono; [apply page_init_run|]. intros r2 m2 (Hd2 & Hf2 & Hr2 & Hs2).
  destruct (whole_frame m1 m2 Ht1 Htab1 Hs2) as [Ht2 Htab2].
  destruct (boot_kmalloc_run n m2 Ht2 Htab2) as (b & m3 & Ek & Hnn & Hp3 & Hs3).
  assert (¬ flff.pool_owned pool top bootstrap_head ∅ ff_head) as Hffo by (clear -Hff; unfold flff.pool_owned; naive_solver).
  destruct (block_in_pool m3 b Hp3) as [Hb1 Hb2].
  wp_step. rewrite Hadd. cbn [wired op_free_pages]. unfold pmm.free_pages. wp_step.
  eapply wp_load; [apply Hr2|]. unfold call_free_pages. rewrite Z.eqb_refl.
  eapply wp_mono; [eapply (free_first_run _ _ ff_head m2 m3 b memory); [done|exact Ek|done| | |]|].
  { eapply dlist_frame; [| |exact Hd2]; intros x ->%list_elem_of_singleton; by apply Hs3. }
  { unfold ff.off_node. clear -Hff Hb1 Hb2. unfold BOOTSTRAP_POOL_SIZE in *. lia. }
  { rewrite Hs3; [done|]. by apply static_not_owned; [apply Hpool|apply Hboot|]. }
  intros [] m4 [Hb4 Hs4]. unfold pmm.get_free_memory. destruct Hb4 as [Hd4 Hpa4 Hsz4 Hf4] eqn:E4. clear E4.
  assert (registered m4 ffp) as Hr4.
  { apply (registered_frame m2); [done|]. intros f a -> Ha.
    rewrite Hs4; [apply Hs3; apply static_not_owned; [apply Hpool|apply Hboot|clear -Ha; lia]| |by left]. unfold ff_cells, ff.off_node, STATIC_TOP in *.
    clear -Hff Hpool Hb1 Ha. set_unfold. lia. }
  wp_step. eapply wp_load; [apply Hr4|]. unfold call_get_free, ff.__get_free. rewrite Z.eqb_refl.
  eapply wp_load; [done|]. split; [done|]. exists b. split; [done| |..|done].
  - apply (pool_inv_frame _ _ _ m3); [done|]. intros f a Ha. apply Hs4.
    + intros Hc. revert Ha. eapply cells_not_owned; [exact Hp3|apply Hboot|apply Hff|apply Hff|exact Hc].
    + right. intros ->. revert Ha. apply static_not_owned; [apply Hpool|apply Hboot|done].
  - eapply table_frame; [|exact Htab2]. intros f a Ha.
    assert (64 ≤ a < 76) as Ha' by exact Ha. rewrite Hs4; [|unfold ff_cells, ff.off_node, STATIC_TOP in *; clear -Hff Hpool Hb1 Ha'; set_unfold; lia|right; clear -Ha'; lia].
    apply Hs3. apply static_not_owned; [apply Hpool|apply Hboot|clear -Ha'; unfold STATIC_TOP; lia].
Qed.

(** *** The move to the proper heap *)

Hypothesis Hpage : STATIC_TOP + 64 ≤ lo ∧ lo mod 16 = 0 ∧ hi ≤ 2 ^ 32 - PAGE_SIZE.
Hypothesis Hproper : STATIC_TOP + 64 ≤ proper_head ∧ ¬ (lo ≤ proper_head < hi) ∧ ¬ (pool ≤ proper_head < top) ∧
  proper_head ≠ ff_head ∧ proper_head ≠ bootstrap_head.
Hypothesis Hapart : (hi ≤ pool ∨ top ≤ lo) ∧ ¬ (lo ≤ ff_head < hi) ∧ ¬ (lo ≤ bootstrap_head < hi).
Hypothesis Hfps : sa_alloc boot_fps ≠ sa_alloc proper_fps.
Hypothesis Hmem : ff.blk_ok (ff.mk_blk 0 (paddr memory) (size memory)) ∧ PAGE_SIZE < size memory.
Local Abbreviation boot_heap_of := (on_heap pool top bootstrap_head boot_fps).
Local Abbreviation ops := (wired bootstrap_head proper_head ff_head pa2kva boot_fps proper_fps ffp).

(** simple_allocator_init() writes its list head and the dispatch table. *)
Lemma proper_init_run m :
  wp (flff.simple_allocator_init proper_head (vmm.set_simple_allocator (Some proper_fps))) m (λ _ m',
    dlist m' proper_head [] ∧ table_at proper_fps m' ∧
    ∀ f a, a ≠ proper_head → ¬ in_table a → m' !! (f, a) = m !! (f, a)).
Proof using.
  clear. unfold flff.simple_allocator_init. wp_run. apply wp_INIT_LIST_HEAD. intros m1 Hd Hs. cbn. wp_run. split_and!.
  - eapply dlist_frame; [| |exact Hd]; intros x _; by mem_simpl.
  - split_and!; by mem_simpl.
  - intros f a Hne Ha. unfold in_table, vmm.__simple_allocator in Ha.
    rewrite !lookup_insert_ne by (intros [= _ <-]; unfold vmm.__simple_allocator in *; lia). apply Hs. set_solver.
Qed.

(** What stays of the old heap: the block, its bookkeeping, the registered page allocator. *)
Lemma init_keeps m m' b :
  boot_heap_of m b (paddr memory) (size memory) →
  (∀ f a, a ≠ proper_head → ¬ in_table a → m' !! (f, a) = m !! (f, a)) →
  one_block ff_head m' b (paddr memory) (size memory) ∧
  flff.pool_inv pool top bootstrap_head m' {[b := ff.sizeof_block]} ∧ registered m' ffp.
Proof using Hpool Hboot Hff Hproper.
  intros [Hb Hp _ Hr] Hs. destruct (block_in_pool m b Hp) as [Hb1 Hb2].
  split_and!.
  - eapply one_block_frame; [exact Hb|]. intros f a Ha.
    apply Hs; unfold in_table, vmm.__simple_allocator, ff_cells, ff.off_node, STATIC_TOP, BOOTSTRAP_POOL_SIZE in *;
      clear -Ha Hb1 Hb2 Hff Hpool Hproper; set_unfold; lia.
  - apply (pool_inv_frame _ _ _ m); [done|]. intros f a [->|[Ha _]]; apply Hs;
      unfold in_table, vmm.__simple_allocator, STATIC_TOP in *; clear -Ha Hpool Hproper Hboot || clear -Hproper Hboot; lia.
  - apply (registered_frame m); [done|]. intros f a _ Ha. apply Hs; unfold in_table, vmm.__simple_allocator, STATIC_TOP in *;
      clear -Ha Hproper; lia.
Qed.

(** The first page comes off the front of the memory. *)
Lemma first_page_run n m b :
  one_block ff_head m b (paddr memory) (size memory) → b + ff.off_node ≠ ff_head → registered m ffp →
  ∃ m', op_alloc_pages (ops (S n)) (mk_pages 0 PAGE_SIZE 0 0) m = Ret ((0, mk_pages (paddr memory) PAGE_SIZE 0 0), m') ∧
    one_block ff_head m' b (paddr memory + PAGE_SIZE) (size memory - PAGE_SIZE) ∧
    (∀ f a, (a ≠ b ∧ not_counter f a) ∨ f = F_next ∨ f = F_prev → m' !! (f, a) = m !! (f, a)).
Proof using Hmem.
  intros Hb Hne (Ha & _). destruct Hmem as [(Hp & Hs & Hps & _) Hsz]. simpl in *.
  destruct (cut_first_run (op_kfree (ops n)) ff_head m b _ _ (mk_pages 0 PAGE_SIZE 0 0) Hb Hne Hp Hps) as (m' & E & H);
    [done|simpl; by split|].
  exists m'. split; [|exact H]. cbn [wired op_alloc_pages]. unfold pmm.alloc_pages.
  rewrite (bind_ret _ _ _ (0, Some (mk_pages (paddr memory) PAGE_SIZE 0 0)) m'); [done|].
  erewrite bind_ret by by apply load_Some. unfold call_alloc_pages. rewrite Z.eqb_refl.
  by rewrite (bind_ret _ _ _ _ _ E).
Qed.

(** kmalloc() on the empty proper heap takes that page. *)
Lemma proper_kmalloc_run n m b :
  one_block ff_head m b (paddr memory) (size memory) → pool + 32 ≤ b ∧ b + 32 ≤ pool + 1024 → registered m ffp →
  dlist m proper_head [] → table_at proper_fps m →
  ∃ new m', op_kmalloc (ops (S (S n))) ff.sizeof_block 0 m = Ret (new, m') ∧ new ≠ NULL ∧
    one_block ff_head m' b (paddr memory + PAGE_SIZE) (size memory - PAGE_SIZE) ∧
    flff.pool_inv lo hi proper_head m' {[new := ff.sizeof_block]} ∧
    (∀ f a, a ≠ b → not_counter f a → ¬ flff.pool_owned lo hi proper_head ∅ a → m' !! (f, a) = m !! (f, a)).
Proof using Hpool Hff Hpage Hproper Hapart Hfps Hmem.
  intros Hb Hbp Hr Hd (Ha & _).
  destruct (first_page_run n m b Hb) as (m1 & E & Hb1 & Hs1); [unfold ff.off_node, BOOTSTRAP_POOL_SIZE in *; clear -Hbp Hff; lia|done|].
  assert (STATIC_TOP ≤ lo ∧ lo mod 16 = 0 ∧ hi ≤ lo + PAGE_SIZE ∧ hi ≤ 2 ^ 32 - PAGE_SIZE) as Hp.
  { clear -Hpage. unfold STATIC_TOP in *. split_and!; [lia|apply Hpage|lia|apply Hpage]. }
  assert (STATIC_TOP ≤ proper_head ∧ ¬ (lo ≤ proper_head < hi)) as Hh by (clear -Hproper; unfold STATIC_TOP in *; split; [lia|apply Hproper]).
  pose proof (flff.first_alloc lo hi proper_head Hp Hh m m1 ff.sizeof_block 0 (op_alloc_pages (ops (S n))) pa2kva
    (mk_pages (paddr memory) PAGE_SIZE 0 0)) as Hw.
  apply wp_elim in Hw as (new & m' & E' & Hn & Hi & Hs & Ho); [|done|done|done|done|done|done| |done].
  2: { eapply dlist_frame; [| |exact Hd]; intros x _; apply Hs1; auto. }
  exists new, m'. split_and!; [|done| |done|].
  - cbn [wired op_kmalloc]. rewrite (vmm.kmalloc_dispatch _ _ _ _ _ Ha). unfold call_alloc.
    rewrite (proj2 (Z.eqb_neq _ _)) by congruence. rewrite Z.eqb_refl. exact E'.
  - eapply one_block_frame; [exact Hb1|]. intros f a Hin. apply Hs. unfold flff.pool_owned, ff_cells, ff.off_node, STATIC_TOP, BOOTSTRAP_POOL_SIZE in *.
    clear -Hin Hbp Hapart Hproper Hpage Hff. set_unfold. lia.
  - intros f a Hne Hc Hno. rewrite Hs by done. apply Hs1. by left.
Qed.

Lemma new_in_page m b :
  flff.pool_inv lo hi proper_head m {[b := ff.sizeof_block]} → lo + 32 ≤ b ∧ b + 32 ≤ hi.
Proof using.
  intros Hp. by apply (live_in_pool lo hi proper_head m _ b ff.sizeof_block Hp); rewrite lookup_singleton_eq.
Qed.

(** The two heaps share no cell. *)
Lemma heaps_apart live live' a :
  flff.pool_owned pool top bootstrap_head live a → ¬ flff.pool_owned lo hi proper_head live' a.
Proof using Hproper Hapart. clear Hff. unfold flff.pool_owned. intros [->|[? _]] [?|[? _]]; clear -H H0 Hproper Hapart || clear -H Hproper Hapart; lia. Qed.

(** The old block lies in the old heap only, the new one in the new heap only. *)
Lemma old_block_apart live b a :
  pool + 32 ≤ b ∧ b + 32 ≤ pool + 1024 → a ∈ ff_cells ff_head b → ¬ flff.pool_owned lo hi proper_head live a.
Proof using Hff Hproper Hapart.
  unfold flff.pool_owned, ff_cells, ff.off_node, BOOTSTRAP_POOL_SIZE in *. intros Hb Ha. clear -Hb Ha Hff Hproper Hapart. set_unfold. lia.
Qed.

Lemma new_block_apart live b a :
  lo + 32 ≤ b ∧ b + 32 ≤ hi → a ∈ ff_cells ff_head b → ¬ flff.pool_owned pool top bootstrap_head live a.
Proof using Hff Hboot Hapart.
  unfold flff.pool_owned, ff_cells, ff.off_node, BOOTSTRAP_POOL_SIZE in *. intros Hb Ha. clear -Hb Ha Hff Hboot Hapart. set_unfold. lia.
Qed.

Local Abbreviation moved := (on_heap lo hi proper_head proper_fps).

(** The old heap takes its object back. *)
Lemma old_free_run n m m3 b new pa sz :
  flff.pool_inv pool top bootstrap_head m {[b := ff.sizeof_block]} →
  flff.pool_inv lo hi proper_head m {[new := ff.sizeof_block]} → table_at proper_fps m → registered m ffp →
  one_block ff_head m3 new pa sz →
  (∀ f a, a ∉ ff_cells ff_head new → a ≠ b + ff.off_node → m3 !! (f, a) = m !! (f, a)) →
  wp (call_free bootstrap_head proper_head boot_fps proper_fps (ops n) (sa_free boot_fps) b) m3 (λ _ m4,
    moved m4 new pa sz ∧ flff.pool_inv pool top bootstrap_head m4 ∅).
Proof using Hpool Hboot Hff Hpage Hproper Hapart.
  clear Hfps Hmem Hadd. intros Hb Hn Ht Hr Ho Hs. pose proof (block_in_pool _ _ Hb) as Hbb. pose proof (new_in_page _ _ Hn) as Hnb.
  assert (b + ff.off_node ∈ ff_cells ff_head b) as Hbn by (unfold ff_cells; set_solver).
  assert (flff.pool_inv pool top bootstrap_head m3 {[b := ff.sizeof_block]}) as Hb3.
  { apply (pool_inv_frame _ _ _ m); [done|]. intros f a Ha. apply Hs; intros H; revert Ha.
    - by eapply new_block_apart.
    - rewrite H. eapply cells_not_owned; [exact Hb|apply Hboot|apply Hff|apply Hff|exact Hbn]. }
  unfold call_free. rewrite Z.eqb_refl. unfold flff.__bootstrap_free.
  eapply wp_mono; [apply (flff.pool_free pool top bootstrap_head (pool_ok _ _ Hpool) (head_ok _ _ _ Hboot) (pool_small _ _ Hpool) m3
    _ b ff.sizeof_block _ Hb3); by rewrite lookup_singleton_eq|].
  rewrite delete_singleton_eq. intros [] m4 [Hp4 Hs4]. split; [|done].
  assert (∀ f a, 0 ≤ a < STATIC_TOP + 64 → m4 !! (f, a) = m !! (f, a)) as Hst.
  { intros f a Ha. rewrite Hs4 by (apply static_not_owned; [apply Hpool|apply Hboot|done]).
    apply Hs; unfold ff_cells, ff.off_node, STATIC_TOP in *; clear -Ha Hbb Hnb Hpool Hpage Hff; set_unfold; lia. }
  split.
  - eapply one_block_frame; [exact Ho|]. intros f a [->|Ha]%elem_of_cons; apply Hs4.
    + apply static_not_owned; [apply Hpool|apply Hboot|done].
    + by eapply new_block_apart.
  - apply (pool_inv_frame _ _ _ m); [done|]. intros f a Ha.
    rewrite Hs4 by (intros H; by apply (heaps_apart _ _ _ H) in Ha). apply Hs; intros H; revert Ha.
    + apply (cells_not_owned _ _ _ ff_head m); [exact Hn|apply Hproper|apply Hapart|clear -Hproper; lia|exact H].
    + rewrite H. by eapply old_block_apart.
  - eapply table_frame; [|exact Ht]. intros f a Ha. apply Hst. change (64 ≤ a < 76) in Ha. unfold STATIC_TOP. clear -Ha. lia.
  - eapply registered_frame; [exact Hr|]. intros f a _ Ha. apply Hst. clear -Ha. unfold STATIC_TOP in *. lia.
Qed.

Lemma mm_move_run n m b :
  boot_heap_of m b (paddr memory) (size memory) →
  wp (mm_move bootstrap_head proper_head ff_head pa2kva boot_fps proper_fps ffp (S (S n))) m (λ r m', r = 0 ∧
    ∃ new, moved m' new (paddr memory + PAGE_SIZE) (size memory - PAGE_SIZE) ∧
      flff.pool_inv pool top bootstrap_head m' ∅).
Proof using Hpool Hboot Hff Hpage Hproper Hapart Hfps Hmem.
  clear Hadd. intros Hb. unfold mm_move, vmm.get_simple_allocator. destruct (oh_table _ _ _ _ _ _ _ _ Hb) as (Ha & Hf & Hz). wp_run.
  eapply wp_mono; [apply proper_init_run|]. intros _ m2 (Hd2 & Ht2 & Hs2).
  destruct (init_keeps m m2 b Hb Hs2) as (Hb2 & Hp2 & Hr2). pose proof (block_in_pool _ _ Hp2) as Hbb.
  destruct (proper_kmalloc_run n m2 b Hb2 Hbb Hr2 Hd2 Ht2) as (new & m3 & E & Hn & Hb3 & Hp3 & Hs3).
  pose proof (new_in_page _ _ Hp3) as Hnb.
  assert (∀ f a, 0 ≤ a < STATIC_TOP + 64 → not_counter f a → m3 !! (f, a) = m2 !! (f, a)) as Hst.
  { intros f a Ha' Hc. apply Hs3; [|done|apply static_not_owned; [apply Hpage|apply Hproper|done]].
    clear -Ha' Hbb Hpool. lia. }
  eapply (move_one_run _ ff_head m2 m3 b new); [apply Hb2|exact E|done|exact Hb3|..].
  - unfold ff.off_node. clear -Hapart Hnb. lia.
  - clear -Hapart Hnb Hbb. unfold BOOTSTRAP_POOL_SIZE in *. lia.
  - intros m4 Hb4 Hs4. eapply wp_mono; [eapply (old_free_run _ m3 m4 b new); [|exact Hp3| | |exact Hb4|exact Hs4]|].
    + apply (pool_inv_frame _ _ _ m2); [done|]. intros f a Hin. apply Hs3.
      * intros ->. revert Hin. eapply cells_not_owned; [exact Hp2|apply Hboot|apply Hff|apply Hff|unfold ff_cells; set_solver].
      * right. intros ->. revert Hin. apply static_not_owned; [apply Hpool|apply Hboot|done].
      * by eapply heaps_apart.
    + eapply table_frame; [|exact Ht2]. intros f a Hin. change (64 ≤ a < 76) in Hin.
      apply Hst; unfold STATIC_TOP, not_counter; clear -Hin; lia.
    + eapply registered_frame; [exact Hr2|]. intros f a -> Hin. apply Hst; [clear -Hin; lia|by left].
    + intros [] m5 [Hm Hp]. split; [apply Hm|]. split; [done|]. by exists new.
Qed.

(** C7: the whole bring-up of master_init(), with kmalloc() and the page allocator
    calling each other, on a machine whose add_memory_pages() frees one range
    of memory, as ARM's does, page-aligned and larger than one page, with
    the pool, the list heads and the first page of the memory apart from each
    other: it always returns, nested no deeper than kmalloc() asking for
    one page. The first page of the memory has become the proper heap, whose only object
    is the block of the page allocator that manages the rest of the memory; kmalloc()
    dispatches to the proper heap, and the pool on the stack has no live
    object left, so that it may go. Several ranges, as i386 and MIPS add, are not
    covered, and with one page of memory the conclusion fails
    ([MemScenario.one_page_mixes_heaps]). *)
Theorem mm_bring_up_ready n m :
  is_Some (m !! (F_bh_flags, pool)) →
  wp (mm_bring_up bootstrap_head proper_head ff_head pa2kva boot_fps proper_fps ffp add_memory_pages (S (S n)) pool) m
    (λ free m', free = size memory ∧ flff.pool_inv pool top bootstrap_head m' ∅ ∧
       ∃ new, moved m' new (paddr memory + PAGE_SIZE) (size memory - PAGE_SIZE)).
Proof using Hadd Hpool Hboot Hff Hpage Hproper Hapart Hfps Hmem.
  intros Hf. unfold mm_bring_up. wp_step. eapply wp_mono; [apply mm_bootstrap_ready; [done|apply Hmem]|].
  intros free m1 [-> [b Hb]]. wp_step. eapply wp_mono; [exact (mm_move_run n m1 b Hb)|].
  intros r m2 (_ & new & Hm & Hp). wp_step. split; [done|]. split; [done|]. by exists new.
Qed.
End bring_up.

(** ** A machine *)

Module MemScenario.
(** ARM with 64 KB left after the kernel, which ends 1 MB above KERN_BASE; the
    pool at 256, the three list heads between the static variables and the pool. *)
Definition KERN_BASE : Z := 0x80000000.
Definition kern_end : Z := KERN_BASE + 0x100000.
Definition boot_fps : simple_allocator := mk_simple_allocator 11 12 13.
Definition proper_fps : simple_allocator := mk_simple_allocator 14 15 16.
Definition ffp : page_allocator := mk_page_allocator 21 22 23.
Definition arm_memory (ram : Z) (o : mm_ops) : M mem unit :=
  arm.add_memory_pages (op_free_pages o) KERN_BASE ram kern_end (λ v, v - KERN_BASE).
Definition bring_up (n : nat) (ram : Z) : M mem Z :=
  mm_bring_up 128 192 160 id boot_fps proper_fps ffp (arm_memory ram) n 256.
Definition memory : pages := mk_pages 0x100000 0x10000 0 0.
Definition stack : mem := {[ (F_bh_flags, 256) := 0 ]}.

Lemma mm_bring_up_ready_witness :
  wp (bring_up 2 0x110000) stack (λ free m', free = 0x10000 ∧ ∃ new,
    flff.pool_inv 0x100000 0x101000 192 m' {[new := ff.sizeof_block]} ∧ m' !! (F_paddr, new) = Some 0x101000).
Proof.
  eapply wp_mono; [apply (mm_bring_up_ready 256 128 192 160 id boot_fps proper_fps ffp _ memory); [done|..]|].
  1-8: by cbv -[Z.le Z.lt not]; lia.
  - by eexists.
  - intros free m' (-> & _ & new & [[_ Hp _ _] Hi _ _]). split; [done|]. by exists new.
Defined.

Definition cell_after {A} (c : M mem A) (m : mem) (f : fld) (a : Z) : option Z :=
  match c m with Ret (_, m') => m' !! (f, a) | _ => None end.

(** One level of nesting is too few: kmalloc() of the proper heap asks for a page. *)
Example one_level_too_few : bring_up 1 0x110000 stack = NoFuel.
Proof. by vm_compute. Qed.

(** A machine with a single page of memory: taking that page uses up the page
    allocator's block, which still lies in the old heap and is freed to the new one, so
    the proper heap's list starts with a block on the stack (its node at 256 + 12), and the page
    allocator keeps a block of size 0. *)
Example one_page_mixes_heaps :
  cell_after (bring_up 3 0x101000) stack F_next 192 = Some 268 ∧
  cell_after (bring_up 3 0x101000) stack F_size (0x100000 + 32) = Some 0.
Proof. by vm_compute. Qed.

(** After a proper bring-up the same field points into the page. *)
Example two_pages_do_not :
  cell_after (bring_up 3 0x102000) stack F_next 192 = Some (0x100000 + 64 + 12).
Proof. by vm_compute. Qed.
End MemScenario.
