(* ===== verification/KernInit.v ===== *)
(** kern/init/initcalls.c: the initcalls that master_init() runs. *)
From Stdlib Require Import ZArith Lia.
From stdpp Require Import base numbers gmap list.
From S2P Require Import Prelude.

Open Scope Z_scope.

(** ** Initcalls *)

Section initcalls.
Context {S : Type}.
(** A call through an initcall_t, and the message for a failed one. *)
Context (call : Z → M S Z) (oops : Z → M S unit).

(** for (this = start; this < end; this += 1): [l] are the pointers between the
    two symbols. *)
Fixpoint initcall_loop (l : list Z) (failed : bool) : M S bool :=
  match l with
  | [] => mret failed
  | this :: l =>
      ret ← call this;
      if ret <? 0 then _ ← oops this; initcall_loop l true else initcall_loop l failed
  end.

Definition run_initcalls (greet : M S unit) (l : list Z) : M S Z :=
  _ ← greet;
  failed ← initcall_loop l false;
  mret (if (failed : bool) then EOF else 0).

Definition do_early_initcalls : M S unit → list Z → M S Z := run_initcalls.
Definition do_initcalls : M S unit → list Z → M S Z := run_initcalls.

(** A chain of calls: every pointer once, in order, each failure reported
    right after it happened. *)
Inductive called : list Z → S → list Z → S → Prop :=
  | called_nil s : called [] s [] s
  | called_ok f l s r s1 rets s2 :
      call f s = Ret (r, s1) → 0 ≤ r → called l s1 rets s2 → called (f :: l) s (r :: rets) s2
  | called_failed f l s r s1 s1' rets s2 :
      call f s = Ret (r, s1) → r < 0 → oops f s1 = Ret ((), s1') → called l s1' rets s2 →
      called (f :: l) s (r :: rets) s2.

Hypothesis call_returns : ∀ f s, ∃ r s', call f s = Ret (r, s').
Hypothesis oops_returns : ∀ f s, ∃ s', oops f s = Ret ((), s').

Lemma initcall_loop_run l b s :
  ∃ rets s', initcall_loop l b s = Ret (b || existsb (λ r, r <? 0) rets, s') ∧ called l s rets s'.
Proof using call_returns oops_returns.
  revert b s. induction l as [|f l IH]; intros b s; cbn [initcall_loop].
  - exists [], s. rewrite orb_false_r. split; [done|constructor].
  - destruct (call_returns f s) as (r & s1 & E). rewrite (bind_ret _ _ _ _ _ E).
    destruct (Z.ltb_spec r 0) as [Hr|Hr].
    + destruct (oops_returns f s1) as (s1' & E'). rewrite (bind_ret _ _ _ _ _ E').
      destruct (IH true s1') as (rets & s' & El & Hc). exists (r :: rets), s'. rewrite El. cbn [existsb orb].
      rewrite (proj2 (Z.ltb_lt _ _) Hr), orb_true_r. split; [done|]. by eapply called_failed.
    + destruct (IH b s1) as (rets & s' & El & Hc). exists (r :: rets), s'. rewrite El. cbn [existsb].
      rewrite (proj2 (Z.ltb_ge _ _) Hr). split; [done|]. by eapply called_ok.
Qed.

(** Every initcall is called once, in order, whatever the others return, and
    the result is EOF exactly when one of them failed. *)
Lemma initcalls_run greet l s s0 :
  greet s = Ret ((), s0) →
  ∃ rets s', run_initcalls greet l s = Ret (if existsb (λ r, r <? 0) rets then EOF else 0, s') ∧ called l s0 rets s'.
Proof using call_returns oops_returns.
  intros E. destruct (initcall_loop_run l false s0) as (rets & s' & El & Hc). exists rets, s'. split; [|done].
  unfold run_initcalls. rewrite (bind_ret _ _ _ _ _ E), (bind_ret _ _ _ _ _ El). done.
Qed.
End initcalls.
