(* ===== verification/Segment.v ===== *)
(** The descriptor tables of i386: include/arch/i386/segment.h and arch-trap.h,
    lgdt(), lidt() and ltr() of asm.h, the second half of
    kern/arch/i386/arch_init.c, and kern/arch/i386/trap.c. *)
From Stdlib Require Import ZArith Lia.
From stdpp Require Import base numbers list.
From S2P Require Import Prelude.

Open Scope Z_scope.

(** ** Bit fields

    The compiler packs the fields of a struct from the low bits up. *)
Fixpoint pack (l : list (Z * Z)) : Z :=
  match l with
  | [] => 0
  | (w, v) :: l => wrap w v + 2 ^ w * pack l
  end.

(** [w] bits of [x] from bit [off] on. *)
Definition bits (x off w : Z) : Z := Z.land (Z.shiftr x off) (Z.ones w).

Module i386_trap.
Definition SEG_KCODE : Z := 1.
Definition SEG_KDATA : Z := 2.
Definition SEG_KCPU : Z := 3.
Definition SEG_UCODE : Z := 4.
Definition SEG_UDATA : Z := 5.
Definition SEG_TSS : Z := 6.
Definition KERNEL_DS : Z := Z.shiftl SEG_KDATA 3.
Definition KERNEL_CS : Z := Z.shiftl SEG_KCODE 3.
Definition NR_SEGMENTS : Z := 7.
Definition STA_X : Z := 0x8.
Definition STA_E : Z := 0x4.
Definition STA_C : Z := 0x4.
Definition STA_W : Z := 0x2.
Definition STA_R : Z := 0x2.
Definition STS_T32A : Z := 0x9.
Definition STS_T32B : Z := 0xB.
Definition STS_IG32 : Z := 0xE.
Definition STS_TG32 : Z := 0xF.
Definition DPL_KERNEL : Z := 0.
Definition DPL_USER : Z := 3.

(** struct segdesc *)
Record segdesc : Type := mk_segdesc {
  lim_15_0 : Z; base_15_0 : Z; base_23_16 : Z; sd_type : Z; sd_s : Z; sd_dpl : Z; sd_p : Z;
  lim_19_16 : Z; avl : Z; rsv1 : Z; db : Z; g : Z; base_31_24 : Z;
}.

Definition segdesc_word (d : segdesc) : Z :=
  pack [(16, lim_15_0 d); (16, base_15_0 d); (8, base_23_16 d); (4, sd_type d); (1, sd_s d); (2, sd_dpl d);
        (1, sd_p d); (4, lim_19_16 d); (1, avl d); (1, rsv1 d); (1, db d); (1, g d); (8, base_31_24 d)].

(** SEG(): [size] is counted in pages. *)
Definition SEG (type base size dpl : Z) : segdesc :=
  mk_segdesc (Z.land (Z.shiftr size 12) 0xffff) (Z.land (u32 base) 0xffff) (Z.land (Z.shiftr (u32 base) 16) 0xff)
    (wrap 4 type) 1 (wrap 2 dpl) 1 (wrap 4 (Z.shiftr (u32 size) 28)) 0 0 1 1 (u8 (Z.shiftr (u32 base) 24)).

(** SEG16(): [size] is counted in bytes. *)
Definition SEG16 (type base size dpl : Z) : segdesc :=
  mk_segdesc (Z.land size 0xffff) (Z.land (u32 base) 0xffff) (Z.land (Z.shiftr (u32 base) 16) 0xff)
    (wrap 4 type) 1 (wrap 2 dpl) 1 (wrap 4 (Z.shiftr (u32 size) 16)) 0 0 1 0 (u8 (Z.shiftr (u32 base) 24)).

Definition no_segdesc : segdesc := mk_segdesc 0 0 0 0 0 0 0 0 0 0 0 0 0.

(** struct taskstate; the paddings are left out of the record but not of its size. *)
Record taskstate : Type := mk_taskstate {
  ts_link : Z; ts_esp0 : Z; ts_ss0 : Z; ts_esp1 : Z; ts_ss1 : Z; ts_esp2 : Z; ts_ss2 : Z;
  ts_cr3 : Z; ts_eip : Z; ts_eflags : Z; ts_eax : Z; ts_ecx : Z; ts_edx : Z; ts_ebx : Z;
  ts_esp : Z; ts_ebp : Z; ts_esi : Z; ts_edi : Z;
  ts_es : Z; ts_cs : Z; ts_ss : Z; ts_ds : Z; ts_fs : Z; ts_gs : Z; ts_ldt : Z; ts_t : Z; ts_iomb : Z;
}.
(** Every member fills four bytes, with its padding; the last two share a word. *)
Definition sizeof_taskstate : Z := 4 * 26.
Definition zero_taskstate : taskstate :=
  mk_taskstate 0 0 0 0 0 0 0 0 0 0 0 0 0 0 0 0 0 0 0 0 0 0 0 0 0 0 0.

(** struct idtentry *)
Record idtentry : Type := mk_idtentry {
  off_lo : Z; ie_cs : Z; args : Z; ie_rsv1 : Z; ie_type : Z; ie_s : Z; ie_dpl : Z; ie_p : Z; off_hi : Z;
}.

Definition idtentry_word (e : idtentry) : Z :=
  pack [(16, off_lo e); (16, ie_cs e); (5, args e); (3, ie_rsv1 e); (4, ie_type e); (1, ie_s e); (2, ie_dpl e);
        (1, ie_p e); (16, off_hi e)].

Definition T_MSG_MAX : Z := 19.
Definition T_SYSCALL : Z := 64.
Definition MAX_IDT_ENTRIES : Z := 256.

(** ** The processor

    The tables, the registers that locate them, and the segment registers. A
    table register holds a limit and an address. *)
Record cpu : Type := mk_cpu {
  gdt : list segdesc; idt : list idtentry; ts : taskstate;
  gdtr : Z * Z; idtr : Z * Z; tr : Z;
  r_cs : Z; r_ds : Z; r_es : Z; r_fs : Z; r_gs : Z; r_ss : Z;
}.

Section code.
(** Addresses of the static variables, and the table vectors[] of vector.S. *)
Context (gdt_addr idt_addr ts_addr tempkstack : Z) (vectors : Z → Z).

Definition lgdt (addr size : Z) : M cpu unit := λ c, Ret ((),
  mk_cpu (gdt c) (idt c) (ts c) (u16 (u32 (size - 1)), u32 addr) (idtr c) (tr c) (r_cs c) (r_ds c) (r_es c) (r_fs c) (r_gs c) (r_ss c)).
Definition lidt (addr size : Z) : M cpu unit := λ c, Ret ((),
  mk_cpu (gdt c) (idt c) (ts c) (gdtr c) (u16 (u32 (size - 1)), u32 addr) (tr c) (r_cs c) (r_ds c) (r_es c) (r_fs c) (r_gs c) (r_ss c)).

(** The descriptor a selector stands for: the selector must not be null and
    the descriptor must lie below the limit of the table. *)
Definition descriptor (c : cpu) (sel : Z) : option Z :=
  let i := Z.shiftr sel 3 in
  if (i =? 0) || negb (snd (gdtr c) =? gdt_addr) || (fst (gdtr c) <? 8 * i + 7) then None
  else segdesc_word <$> gdt c !! Z.to_nat i.

Definition seg_type (w : Z) : Z := bits w 40 4.
Definition seg_s (w : Z) : Z := bits w 44 1.
Definition seg_dpl (w : Z) : Z := bits w 45 2.
Definition seg_p (w : Z) : Z := bits w 47 1.
Definition seg_base (w : Z) : Z := bits w 16 16 + 2 ^ 16 * bits w 32 8 + 2 ^ 24 * bits w 56 8.
(** The last offset inside the segment. *)
Definition seg_limit (w : Z) : Z :=
  let l := bits w 0 16 + 2 ^ 16 * bits w 48 4 in
  if bits w 55 1 =? 1 then l * 4096 + 4095 else l.

Definition is_code (w : Z) : bool := (seg_p w =? 1) && (seg_s w =? 1) && Z.testbit (seg_type w) 3.
(** Writable data, as a stack must be. *)
Definition is_data (w : Z) : bool := (seg_p w =? 1) && (seg_s w =? 1) && negb (Z.testbit (seg_type w) 3) && Z.testbit (seg_type w) 1.

(** movw reg, %ds and the like at privilege level 0; a bad selector faults. *)
Definition mov_seg (put : cpu → Z → cpu) (sel : Z) : M cpu unit := λ c,
  match descriptor c sel with
  | Some w => if is_data w then Ret ((), put c sel) else Stuck
  | None => Stuck
  end.
Definition ljmp (sel : Z) : M cpu unit := λ c,
  match descriptor c sel with
  | Some w =>
      if is_code w then Ret ((), mk_cpu (gdt c) (idt c) (ts c) (gdtr c) (idtr c) (tr c) sel (r_ds c) (r_es c) (r_fs c) (r_gs c) (r_ss c))
      else Stuck
  | None => Stuck
  end.

(** ltr marks the task state segment busy. *)
Definition ltr (sel : Z) : M cpu unit := λ c,
  match descriptor c sel, gdt c !! Z.to_nat (Z.shiftr sel 3) with
  | Some w, Some d =>
      if (seg_p w =? 1) && (seg_s w =? 0) && (seg_type w =? STS_T32A) then
        let d := mk_segdesc (lim_15_0 d) (base_15_0 d) (base_23_16 d) STS_T32B (sd_s d) (sd_dpl d) (sd_p d)
                   (lim_19_16 d) (avl d) (rsv1 d) (db d) (g d) (base_31_24 d) in
        Ret ((), mk_cpu (<[Z.to_nat (Z.shiftr sel 3) := d]> (gdt c)) (idt c) (ts c) (gdtr c) (idtr c) sel
                   (r_cs c) (r_ds c) (r_es c) (r_fs c) (r_gs c) (r_ss c))
      else Stuck
  | _, _ => Stuck
  end.

(** ** kern/arch/i386/arch_init.c *)

(** The initial contents of gdt[]. *)
Definition gdt_static : list segdesc :=
  [no_segdesc;
   SEG (Z.lor STA_X STA_R) 0 0xffffffff DPL_KERNEL;
   SEG STA_W 0 0xffffffff DPL_KERNEL;
   no_segdesc;
   SEG (Z.lor STA_X STA_R) 0 0xffffffff DPL_USER;
   SEG STA_W 0 0xffffffff DPL_USER;
   no_segdesc].

Definition segment_init : M cpu unit :=
  _ ← lgdt gdt_addr (8 * NR_SEGMENTS);
  _ ← mov_seg (λ c v, mk_cpu (gdt c) (idt c) (ts c) (gdtr c) (idtr c) (tr c) (r_cs c) v (r_es c) (r_fs c) (r_gs c) (r_ss c)) KERNEL_DS;
  _ ← mov_seg (λ c v, mk_cpu (gdt c) (idt c) (ts c) (gdtr c) (idtr c) (tr c) (r_cs c) (r_ds c) v (r_fs c) (r_gs c) (r_ss c)) KERNEL_DS;
  _ ← mov_seg (λ c v, mk_cpu (gdt c) (idt c) (ts c) (gdtr c) (idtr c) (tr c) (r_cs c) (r_ds c) (r_es c) v (r_gs c) (r_ss c)) KERNEL_DS;
  _ ← mov_seg (λ c v, mk_cpu (gdt c) (idt c) (ts c) (gdtr c) (idtr c) (tr c) (r_cs c) (r_ds c) (r_es c) (r_fs c) v (r_ss c)) KERNEL_DS;
  _ ← mov_seg (λ c v, mk_cpu (gdt c) (idt c) (ts c) (gdtr c) (idtr c) (tr c) (r_cs c) (r_ds c) (r_es c) (r_fs c) (r_gs c) v) KERNEL_DS;
  ljmp KERNEL_CS.

Definition with_stack (t : taskstate) (esp0 ss0 : Z) : taskstate :=
  mk_taskstate (ts_link t) esp0 ss0 (ts_esp1 t) (ts_ss1 t) (ts_esp2 t) (ts_ss2 t) (ts_cr3 t) (ts_eip t) (ts_eflags t)
    (ts_eax t) (ts_ecx t) (ts_edx t) (ts_ebx t) (ts_esp t) (ts_ebp t) (ts_esi t) (ts_edi t)
    (ts_es t) (ts_cs t) (ts_ss t) (ts_ds t) (ts_fs t) (ts_gs t) (ts_ldt t) (ts_t t) (ts_iomb t).

(** gdt[SEG_TSS].s = 0 *)
Definition system_segment (d : segdesc) : segdesc :=
  mk_segdesc (lim_15_0 d) (base_15_0 d) (base_23_16 d) (sd_type d) 0 (sd_dpl d) (sd_p d)
    (lim_19_16 d) (avl d) (rsv1 d) (db d) (g d) (base_31_24 d).

Definition taskstate_init : M cpu unit := λ c, Ret ((),
  mk_cpu (<[Z.to_nat SEG_TSS := system_segment (SEG16 STS_T32A ts_addr sizeof_taskstate DPL_KERNEL)]> (gdt c)) (idt c)
    (with_stack (ts c) tempkstack KERNEL_DS) (gdtr c) (idtr c) (tr c) (r_cs c) (r_ds c) (r_es c) (r_fs c) (r_gs c) (r_ss c)).

Definition taskstate_load : M cpu unit := ltr (Z.shiftl SEG_TSS 3).

Definition arch_init : M cpu unit :=
  _ ← taskstate_init;
  _ ← segment_init;
  taskstate_load.

(** ** kern/arch/i386/trap.c *)

Definition setup_idt_entry (trap : bool) (selector entry dpl : Z) : idtentry :=
  mk_idtentry (Z.land entry 0xffff) (u16 selector) 0 0 (if trap then STS_TG32 else STS_IG32) 0 (wrap 2 dpl) 1
    (u16 (Z.shiftr entry 16)).

Definition put_idt (i : Z) (e : idtentry) : M cpu unit := λ c,
  if decide (Z.to_nat i < length (idt c))%nat then
    Ret ((), mk_cpu (gdt c) (<[Z.to_nat i := e]> (idt c)) (ts c) (gdtr c) (idtr c) (tr c) (r_cs c) (r_ds c) (r_es c) (r_fs c) (r_gs c) (r_ss c))
  else Stuck.

Fixpoint setup_loop (n : nat) (i : Z) : M cpu unit :=
  match n with
  | O => mret ()
  | S n' =>
      _ ← put_idt i (setup_idt_entry false KERNEL_CS (vectors i) DPL_KERNEL);
      setup_loop n' (i + 1)
  end.

Definition trap_init : M cpu unit :=
  _ ← setup_loop (Z.to_nat MAX_IDT_ENTRIES) 0;
  _ ← put_idt T_SYSCALL (setup_idt_entry true KERNEL_CS (vectors T_SYSCALL) DPL_USER);
  lidt idt_addr (8 * MAX_IDT_ENTRIES).

(** ** How the processor enters a handler

    The gate of the vector is checked against the limit, for presence and, for
    an int instruction, against the privilege level [cpl] of the caller. *)
Definition gate_offset (w : Z) : Z := bits w 0 16 + 2 ^ 16 * bits w 48 16.

(** The stack for a handler: from the task state when the privilege level changes. *)
Definition handler_stack (c : cpu) (dpl cpl : Z) : option (option (Z * Z)) :=
  if dpl =? cpl then Some None else
  match descriptor c (tr c) with
  | Some w =>
      if (seg_type w =? STS_T32B) && (seg_base w =? ts_addr) && (9 <=? seg_limit w)
      then Some (Some (ts_ss0 (ts c), ts_esp0 (ts c))) else None
  | None => None
  end.

Record entered : Type := mk_entered {
  en_cs : Z; en_eip : Z;
  en_if : bool;  (* whether interrupts stay enabled *)
  en_stack : option (Z * Z);
}.

(** [None] stands for a fault instead of the entry. *)
Definition enter (c : cpu) (n cpl : Z) (soft : bool) : option entered :=
  if negb (snd (idtr c) =? idt_addr) || (fst (idtr c) <? 8 * n + 7) then None else
  match idt c !! Z.to_nat n with
  | None => None
  | Some e =>
      let w := idtentry_word e in
      let type := bits w 40 4 in
      if negb ((bits w 47 1 =? 1) && (bits w 44 1 =? 0) && ((type =? STS_IG32) || (type =? STS_TG32))) then None else
      if soft && (bits w 45 2 <? cpl) then None else
      match descriptor c (bits w 16 16) with
      | Some d =>
          if is_code d && (seg_dpl d <=? cpl) then
            s ← handler_stack c (seg_dpl d) cpl;
            Some (mk_entered (bits w 16 16) (gate_offset w) (type =? STS_TG32) s)
          else None
      | None => None
      end
  end.
End code.
End i386_trap.
