(* ===== verification/SegmentProps.v ===== *)
(** The descriptor tables of i386: what the processor reads from them, and where
    traps and interrupts go after arch_init() and trap_init(). *)
From Stdlib Require Import ZArith Lia.
From stdpp Require Import base numbers list.
From S2P Require Import Prelude Segment.

Open Scope Z_scope.
Import i386_trap.

(** ** Bit fields *)

Lemma bits_div x off w : 0 ≤ off → 0 ≤ w → bits x off w = x / 2 ^ off mod 2 ^ w.
Proof. intros. unfold bits. by rewrite Z.land_ones, Z.shiftr_div_pow2 by lia. Qed.

Definition widths (l : list (Z * Z)) : Z := sum_with fst l.

Lemma widths_nonneg l : Forall (λ f, 0 ≤ fst f) l → 0 ≤ widths l.
Proof. apply sum_with_nonneg. Qed.

(** A field reads back from its place. *)
Lemma pack_field l1 w v l2 :
  Forall (λ f, 0 ≤ fst f) l1 → 0 ≤ w → bits (pack (l1 ++ (w, v) :: l2)) (widths l1) w = wrap w v.
Proof.
  intros Hl Hw. induction Hl as [|[w1 v1] l1 Hw1 Hl IH]; cbn [app pack].
  - change (widths []) with 0. rewrite bits_div by lia. change (2 ^ 0) with 1. rewrite Z.div_1_r. unfold wrap.
    rewrite Z.mul_comm, Z_mod_plus_full. by rewrite Zmod_mod.
  - simpl in Hw1. pose proof (widths_nonneg l1 Hl) as Hn. change (widths ((w1, v1) :: l1)) with (w1 + widths l1).
    rewrite <-IH, !bits_div by lia. rewrite Z.pow_add_r by lia. rewrite <-Z.div_div by lia.
    do 2 f_equal. rewrite Z.mul_comm, Z.div_add by lia.
    destruct (wrap_range w1 v1 Hw1). rewrite Z.div_small by lia. lia.
Qed.

(** Every bit field of a packed struct at once. *)
Ltac fields :=
  repeat match goal with
  | |- context [bits (pack ?l) ?off ?w] =>
      let rec go acc rest :=
        lazymatch rest with
        | (?w', ?v') :: ?rest' =>
            let o := eval vm_compute in (widths acc) in
            let same := constr:(eq_refl : Z.eqb o off && Z.eqb w' w = true) in
            replace (bits (pack l) off w) with (wrap w v')
              by (symmetry; apply (pack_field acc w' v' rest'); [repeat constructor; simpl; lia|lia])
        end in
      let rec find acc rest :=
        lazymatch rest with
        | ?f :: ?rest' => first [go acc rest | let acc' := eval cbv [app] in (acc ++ [f]) in find acc' rest']
        end in
      find (@nil (Z * Z)) l
  end.

Lemma land_mask w x : 0 ≤ w → Z.land x (Z.ones w) = wrap w x.
Proof. intros. unfold wrap. by rewrite Z.land_ones. Qed.

(** Splitting a 32-bit address over three fields loses nothing. *)
Lemma base_split b :
  wrap 16 (Z.land (u32 b) 0xffff) + 2 ^ 16 * wrap 8 (Z.land (Z.shiftr (u32 b) 16) 0xff) +
  2 ^ 24 * u8 (Z.shiftr (u32 b) 24) = u32 b.
Proof.
  change 0xffff with (Z.ones 16). change 0xff with (Z.ones 8). rewrite !land_mask, !wrap_wrap by lia.
  pose proof (wrap_range 32 b ltac:(lia)) as Hr. unfold in_range in Hr. set (x := u32 b) in *. clearbody x.
  rewrite !Z.shiftr_div_pow2 by lia. unfold wrap. Z.div_mod_to_equations. lia.
Qed.

Lemma limit_split s :
  0 ≤ s < 2 ^ 32 →
  wrap 16 (Z.land (Z.shiftr s 12) 0xffff) + 2 ^ 16 * wrap 4 (Z.shiftr (u32 s) 28) = s / 4096.
Proof.
  intros Hs. change 0xffff with (Z.ones 16). rewrite !land_mask, !wrap_wrap by lia.
  rewrite (wrap_small 32) by done. rewrite !Z.shiftr_div_pow2 by lia. unfold wrap. Z.div_mod_to_equations. lia.
Qed.

Lemma limit16_split s :
  0 ≤ s < 2 ^ 20 →
  wrap 16 (Z.land s 0xffff) + 2 ^ 16 * wrap 4 (Z.shiftr (u32 s) 16) = s.
Proof.
  intros Hs. change 0xffff with (Z.ones 16). rewrite !land_mask, !wrap_wrap by lia.
  rewrite (wrap_small 32) by (unfold in_range; lia). rewrite !Z.shiftr_div_pow2 by lia. unfold wrap. Z.div_mod_to_equations. lia.
Qed.

(** Splitting a handler's address over two fields loses nothing. *)
Lemma offset_split v :
  in_range 32 v → u16 (Z.land v 0xffff) + 2 ^ 16 * u16 (u16 (Z.shiftr v 16)) = v.
Proof.
  intros Hv. unfold in_range in Hv. change 0xffff with (Z.ones 16). rewrite land_mask, !wrap_wrap by lia.
  rewrite Z.shiftr_div_pow2 by lia. unfold wrap. Z.div_mod_to_equations. lia.
Qed.

(** What the processor reads from a gate. *)
Lemma gate_decodes trap selector entry dpl :
  in_range 16 selector → in_range 32 entry → in_range 2 dpl →
  let w := idtentry_word (setup_idt_entry trap selector entry dpl) in
  bits w 40 4 = (if trap then STS_TG32 else STS_IG32) ∧ bits w 47 1 = 1 ∧ bits w 44 1 = 0 ∧
  bits w 45 2 = dpl ∧ bits w 16 16 = selector ∧ gate_offset w = entry.
Proof.
  intros Hs He Hd. cbv zeta. unfold gate_offset, idtentry_word.
  cbn [setup_idt_entry off_lo ie_cs args ie_rsv1 ie_type ie_s ie_dpl ie_p off_hi]. fields.
  rewrite offset_split, !wrap_wrap, (wrap_small 16), (wrap_small 2) by done. by destruct trap.
Qed.

(** C21: the macros SEG() and SEG16() and setup_idt_entry() build descriptors from which the
    processor reads back what they were given, each field from the bits the
    architecture puts it in. For a segment: the 32-bit base, the type, the privilege level, the
    application kind, presence and 32-bit operation; its last offset is [size]
    rounded up to the end of its page for SEG(), and [size] below 1 MB for SEG16(), so that a segment is
    one byte, or up to one page, longer than its size. For a gate: its kind,
    presence, privilege level, selector and all 32 bits of the handler's address. *)
Theorem descriptors_decode type base size dpl trap selector entry :
  in_range 4 type → in_range 2 dpl → 0 ≤ size < 2 ^ 32 → in_range 16 selector → in_range 32 entry →
  let w := segdesc_word (SEG type base size dpl) in
  let w16 := segdesc_word (SEG16 type base size dpl) in
  let v := idtentry_word (setup_idt_entry trap selector entry dpl) in
  (seg_base w = u32 base ∧ seg_limit w = size / 4096 * 4096 + 4095 ∧
   seg_type w = type ∧ seg_dpl w = dpl ∧ seg_s w = 1 ∧ seg_p w = 1 ∧ bits w 54 1 = 1) ∧
  (seg_base w16 = u32 base ∧ (size < 2 ^ 20 → seg_limit w16 = size) ∧
   seg_type w16 = type ∧ seg_dpl w16 = dpl ∧ seg_s w16 = 1 ∧ seg_p w16 = 1 ∧ bits w16 54 1 = 1) ∧
  (bits v 40 4 = (if trap then STS_TG32 else STS_IG32) ∧ bits v 47 1 = 1 ∧ bits v 44 1 = 0 ∧
   bits v 45 2 = dpl ∧ bits v 16 16 = selector ∧ gate_offset v = entry).
Proof.
  intros Ht Hd Hs Hsel He. cbv zeta. apply and_assoc. split; [|by apply gate_decodes].
  unfold seg_base, seg_limit, seg_type, seg_dpl, seg_s, seg_p, segdesc_word. cbn [SEG SEG16 lim_15_0 base_15_0 base_23_16 sd_type
    sd_s sd_dpl sd_p lim_19_16 avl rsv1 db g base_31_24].
  fields. rewrite !wrap_wrap, !base_split, limit_split, !(wrap_small 4 type), !(wrap_small 2 dpl) by done.
  repeat split; try done. intros Hs16. change (wrap 1 0 =? 1) with false. apply limit16_split. lia.
Qed.

Lemma descriptors_decode_witness :
  seg_limit (segdesc_word (SEG STA_W 0 0x1000 0)) = 0x1fff ∧
  seg_limit (segdesc_word (SEG16 STS_T32A 0x80123456 104 0)) = 104 ∧
  gate_offset (idtentry_word (setup_idt_entry true KERNEL_CS 0x80123456 DPL_USER)) = 0x80123456.
Proof.
  split_and!.
  - destruct (descriptors_decode STA_W 0 0x1000 0 true 0 0) as [(_ & E & _) _]; [by vm_compute..|]. exact E.
  - destruct (descriptors_decode STS_T32A 0x80123456 104 0 true 0 0) as (_ & (_ & E & _) & _); [by vm_compute..|]. apply E. lia.
  - destruct (descriptors_decode 0 0 0 DPL_USER true KERNEL_CS 0x80123456) as (_ & _ & _ & _ & _ & _ & _ & E); [by vm_compute..|]. exact E.
Defined.

(** ** Well-typed tables *)

(** Every field fits its width. *)
Definition segdesc_ok (d : segdesc) : Prop :=
  in_range 16 (lim_15_0 d) ∧ in_range 16 (base_15_0 d) ∧ in_range 8 (base_23_16 d) ∧ in_range 4 (sd_type d) ∧
  in_range 1 (sd_s d) ∧ in_range 2 (sd_dpl d) ∧ in_range 1 (sd_p d) ∧ in_range 4 (lim_19_16 d) ∧ in_range 1 (avl d) ∧
  in_range 1 (rsv1 d) ∧ in_range 1 (db d) ∧ in_range 1 (g d) ∧ in_range 8 (base_31_24 d).
Definition idtentry_ok (e : idtentry) : Prop :=
  in_range 16 (off_lo e) ∧ in_range 16 (ie_cs e) ∧ in_range 5 (args e) ∧ in_range 3 (ie_rsv1 e) ∧ in_range 4 (ie_type e) ∧
  in_range 1 (ie_s e) ∧ in_range 2 (ie_dpl e) ∧ in_range 1 (ie_p e) ∧ in_range 16 (off_hi e).

Lemma mask_range w x : 0 ≤ w → in_range w (Z.land x (Z.ones w)).
Proof. intros. rewrite land_mask by done. by apply wrap_range. Qed.

Ltac field_ranges :=
  change 0xffff with (Z.ones 16); change 0xff with (Z.ones 8);
  split_and!; first [apply wrap_range; lia | apply mask_range; lia | unfold in_range; lia].

Lemma SEG_ok type base size dpl : segdesc_ok (SEG type base size dpl).
Proof.
  unfold segdesc_ok. cbn [SEG lim_15_0 base_15_0 base_23_16 sd_type sd_s sd_dpl sd_p lim_19_16 avl rsv1 db g base_31_24].
  field_ranges.
Qed.

Record tables_ok (c : cpu) : Prop := {
  gdt_len : length (gdt c) = Z.to_nat NR_SEGMENTS;
  idt_len : length (idt c) = Z.to_nat MAX_IDT_ENTRIES;
  gdt_fields : Forall segdesc_ok (gdt c);
  idt_fields : Forall idtentry_ok (idt c);
}.

(** ** After arch_init() *)

Section machine.
Context (gdt_addr idt_addr ts_addr tempkstack : Z) (vectors : Z → Z).
Context (Hgdt : in_range 32 gdt_addr) (Hidt : in_range 32 idt_addr) (Hts : in_range 32 ts_addr).
Context (Hvec : ∀ n, 0 ≤ n < 256 → in_range 32 (vectors n)).

Local Abbreviation descriptor := (descriptor gdt_addr).
Local Abbreviation arch_init := (arch_init gdt_addr ts_addr tempkstack).
Local Abbreviation trap_init := (trap_init idt_addr vectors).
Local Abbreviation enter := (enter gdt_addr idt_addr ts_addr).

Definition tss_desc (busy : bool) : segdesc :=
  let d := SEG16 STS_T32A ts_addr sizeof_taskstate DPL_KERNEL in
  mk_segdesc (lim_15_0 d) (base_15_0 d) (base_23_16 d) (if busy then STS_T32B else STS_T32A) 0 (sd_dpl d) (sd_p d)
    (lim_19_16 d) (avl d) (rsv1 d) (db d) (g d) (base_31_24 d).

Definition gdt_ready (busy : bool) : list segdesc := <[6%nat := tss_desc busy]> gdt_static.

Lemma tss_desc_fields busy :
  let w := segdesc_word (tss_desc busy) in
  seg_p w = 1 ∧ seg_s w = 0 ∧ seg_type w = (if busy then STS_T32B else STS_T32A) ∧
  seg_base w = ts_addr ∧ seg_limit w = sizeof_taskstate.
Proof using Hts.
  cbv zeta. unfold seg_base, seg_limit, seg_type, seg_dpl, seg_s, seg_p, segdesc_word.
  cbn [tss_desc SEG16 lim_15_0 base_15_0 base_23_16 sd_type sd_s sd_dpl sd_p lim_19_16 avl rsv1 db g base_31_24].
  fields. rewrite !wrap_wrap, base_split, (wrap_small 32) by done. destruct busy; repeat split.
Qed.

Lemma gdt_static_ok : Forall segdesc_ok gdt_static.
Proof using Type.
  assert (segdesc_ok no_segdesc) by (unfold segdesc_ok, in_range; simpl; lia).
  unfold gdt_static. repeat (apply Forall_cons; split; [by first [apply SEG_ok | assumption]|]). by apply Forall_nil.
Qed.

Definition ready (c : cpu) : cpu :=
  mk_cpu (gdt_ready true) (idt c) (with_stack (ts c) tempkstack KERNEL_DS) (55, gdt_addr) (idtr c) 48
    KERNEL_CS KERNEL_DS KERNEL_DS KERNEL_DS KERNEL_DS KERNEL_DS.

(** The descriptors of the kernel's and the user's segments, with any table
    that has [gdt_ready]. *)
Lemma descriptor_ready c b sel :
  gdtr c = (55, gdt_addr) → gdt c = gdt_ready b → 8 ≤ sel < 56 →
  descriptor c sel = segdesc_word <$> gdt_ready b !! Z.to_nat (Z.shiftr sel 3).
Proof using Type.
  intros Hr Hg Hs. unfold i386_trap.descriptor. rewrite Hr, Hg. cbn [fst snd]. rewrite Z.eqb_refl.
  rewrite Z.shiftr_div_pow2 by lia. change (2 ^ 3) with 8.
  destruct (Z.eqb_spec (sel / 8) 0); [exfalso; Z.div_mod_to_equations; lia|].
  destruct (Z.ltb_spec 55 (8 * (sel / 8) + 7)); [exfalso; Z.div_mod_to_equations; lia|]. done.
Qed.

(** Loading a register with a selector of the kernel's data segment. *)
Lemma mov_seg_run put c b :
  gdtr c = (55, gdt_addr) → gdt c = gdt_ready b →
  mov_seg gdt_addr put KERNEL_DS c = Ret ((), put c KERNEL_DS).
Proof using Type.
  intros Hr Hg. unfold mov_seg. rewrite (descriptor_ready c b) by (done || by vm_compute).
  change (gdt_ready b !! Z.to_nat (Z.shiftr KERNEL_DS 3)) with (Some (SEG STA_W 0 0xffffffff DPL_KERNEL)). done.
Qed.

Lemma arch_init_run c : gdt c = gdt_static → arch_init c = Ret ((), ready c).
Proof using Hgdt Hts.
  intros Hc. unfold i386_trap.arch_init. erewrite bind_ret by reflexivity. rewrite Hc.
  change (<[Z.to_nat SEG_TSS := _]> gdt_static) with (gdt_ready false).
  assert (Hseg : ∀ i t r x a1 a2 a3 a4 a5 a6 a7,
    segment_init gdt_addr (mk_cpu (gdt_ready false) i t r x a1 a2 a3 a4 a5 a6 a7) =
    Ret ((), mk_cpu (gdt_ready false) i t (55, gdt_addr) x a1 KERNEL_CS KERNEL_DS KERNEL_DS KERNEL_DS KERNEL_DS KERNEL_DS)).
  { intros. unfold segment_init. erewrite bind_ret by reflexivity. cbn [gdt idt ts gdtr idtr tr r_cs r_ds r_es r_fs r_gs r_ss].
    change (u16 (u32 (8 * NR_SEGMENTS - 1))) with 55. rewrite (wrap_small 32 gdt_addr) by done.
    do 5 (erewrite bind_ret by (by apply (mov_seg_run _ _ false)); cbn [gdt idt ts gdtr idtr tr r_cs r_ds r_es r_fs r_gs r_ss]).
    unfold ljmp. rewrite (descriptor_ready _ false) by (done || by vm_compute).
    change (gdt_ready false !! Z.to_nat (Z.shiftr KERNEL_CS 3)) with (Some (SEG (Z.lor STA_X STA_R) 0 0xffffffff DPL_KERNEL)). done. }
  erewrite bind_ret by apply Hseg. unfold taskstate_load, ltr.
  rewrite (descriptor_ready _ false) by (done || by vm_compute). cbn [gdt].
  change (gdt_ready false !! Z.to_nat (Z.shiftr (Z.shiftl SEG_TSS 3) 3)) with (Some (tss_desc false)). simpl fmap.
  destruct (tss_desc_fields false) as (E1 & E2 & E3 & _). unfold option_fmap, option_map.
  rewrite E1, E2, E3. done.
Qed.

(** ** After trap_init() *)

Definition with_idt (c : cpu) (l : list idtentry) (r : Z * Z) : cpu :=
  mk_cpu (gdt c) l (ts c) (gdtr c) r (tr c) (r_cs c) (r_ds c) (r_es c) (r_fs c) (r_gs c) (r_ss c).

(** The gate of vector [i]. *)
Definition gate (i : Z) : idtentry :=
  if i =? T_SYSCALL then setup_idt_entry true KERNEL_CS (vectors i) DPL_USER
  else setup_idt_entry false KERNEL_CS (vectors i) DPL_KERNEL.

Lemma setup_loop_run n i c :
  0 ≤ i → i + Z.of_nat n ≤ Z.of_nat (length (idt c)) →
  ∃ l, setup_loop vectors n i c = Ret ((), with_idt c l (idtr c)) ∧ length l = length (idt c) ∧
    ∀ j, 0 ≤ j → l !! Z.to_nat j =
      if (i <=? j) && (j <? i + Z.of_nat n)
      then Some (setup_idt_entry false KERNEL_CS (vectors j) DPL_KERNEL) else idt c !! Z.to_nat j.
Proof using Type.
  revert i c. induction n as [|n IH]; intros i c Hi Hl.
  - exists (idt c). split; [by destruct c|]. split; [done|]. intros j Hj.
    destruct (Z.leb_spec i j), (Z.ltb_spec j (i + Z.of_nat 0)); done || lia.
  - cbn [setup_loop]. set (e := setup_idt_entry _ _ (vectors i) _).
    assert (Hput : put_idt i e c = Ret ((), with_idt c (<[Z.to_nat i := e]> (idt c)) (idtr c)))
      by (unfold put_idt; rewrite decide_True by lia; done).
    erewrite bind_ret by exact Hput.
    destruct (IH (i + 1) (with_idt c (<[Z.to_nat i := e]> (idt c)) (idtr c))) as (l & Hr & Hlen & Hlook);
      [lia|simpl; rewrite length_insert; lia|].
    simpl in Hlen, Hlook. rewrite length_insert in Hlen. exists l. split; [exact Hr|]. split; [done|].
    intros j Hj. rewrite Hlook by done. destruct (decide (j = i)) as [->|Hne].
    + rewrite list_lookup_insert_eq by lia.
      destruct (Z.leb_spec (i + 1) i), (Z.leb_spec i i), (Z.ltb_spec i (i + Z.of_nat (S n))); try lia. done.
    + rewrite list_lookup_insert_ne by lia.
      destruct (Z.leb_spec (i + 1) j), (Z.leb_spec i j), (Z.ltb_spec j (i + 1 + Z.of_nat n)),
        (Z.ltb_spec j (i + Z.of_nat (S n))); try lia; done.
Qed.

Lemma trap_init_run c :
  length (idt c) = Z.to_nat MAX_IDT_ENTRIES →
  ∃ l, trap_init c = Ret ((), with_idt c l (2047, idt_addr)) ∧ length l = Z.to_nat MAX_IDT_ENTRIES ∧
    ∀ j, 0 ≤ j < 256 → l !! Z.to_nat j = Some (gate j).
Proof using Hidt.
  intros Hlen. change (Z.to_nat MAX_IDT_ENTRIES) with 256%nat in *.
  destruct (setup_loop_run 256 0 c) as (l & Hr & Hl & Hlook); [lia|lia|].
  exists (<[64%nat := gate T_SYSCALL]> l). split; [|split].
  - unfold i386_trap.trap_init. erewrite bind_ret by exact Hr.
    assert (Hput : put_idt T_SYSCALL (gate T_SYSCALL) (with_idt c l (idtr c)) =
      Ret ((), with_idt c (<[64%nat := gate T_SYSCALL]> l) (idtr c)))
      by (unfold put_idt; rewrite decide_True by (cbn [idt with_idt]; change (Z.to_nat T_SYSCALL) with 64%nat; lia); done).
    erewrite bind_ret by exact Hput. unfold lidt. simpl.
    change (u16 (u32 (8 * MAX_IDT_ENTRIES - 1))) with 2047. by rewrite (wrap_small 32 idt_addr) by done.
  - by rewrite length_insert, Hl.
  - intros j Hj. unfold gate. destruct (Z.eqb_spec j T_SYSCALL) as [->|Hne].
    + change (Z.to_nat T_SYSCALL) with 64%nat. rewrite list_lookup_insert_eq by lia. done.
    + rewrite list_lookup_insert_ne by (unfold T_SYSCALL in Hne; lia). rewrite Hlook by lia.
      destruct (Z.leb_spec 0 j), (Z.ltb_spec j (0 + Z.of_nat 256)); try lia. done.
Qed.

(** What the processor reads from the gate of vector [n]. *)
Lemma gate_fields n :
  0 ≤ n < 256 → let w := idtentry_word (gate n) in
  bits w 40 4 = (if n =? T_SYSCALL then STS_TG32 else STS_IG32) ∧ bits w 47 1 = 1 ∧ bits w 44 1 = 0 ∧
  bits w 45 2 = (if n =? T_SYSCALL then DPL_USER else DPL_KERNEL) ∧ bits w 16 16 = KERNEL_CS ∧ gate_offset w = vectors n.
Proof using Hvec.
  intros Hn. specialize (Hvec n Hn). unfold gate. destruct (n =? T_SYSCALL); by apply gate_decodes.
Qed.

(** C20: after arch_init() and trap_init() every interrupt from 0 to 255, arriving in
    kernel or user mode, enters its own vector in the kernel's code segment; all gates but the system call's
    leave interrupts disabled. An int instruction in user mode enters vector 64, the
    system call, and faults for every other number. From user mode the handler
    starts on the kernel data segment with the stack pointer at tempkstack: that is
    the lowest address of that array, and a push writes below it. *)
Theorem traps_enter_vectors c :
  tables_ok c → gdt c = gdt_static →
  wp (_ ← arch_init; trap_init) c (λ _ c', ∀ n cpl, 0 ≤ n < 256 → cpl = DPL_KERNEL ∨ cpl = DPL_USER →
    let stack := if cpl =? DPL_KERNEL then None else Some (KERNEL_DS, tempkstack) in
    let e := mk_entered KERNEL_CS (vectors n) (n =? T_SYSCALL) stack in
    enter c' n cpl false = Some e ∧
    enter c' n cpl true = if (n =? T_SYSCALL) || (cpl =? DPL_KERNEL) then Some e else None).
Proof using Hgdt Hidt Hts Hvec.
  intros [Hgl Hil Hgf Hif] Hs. wp_step. eapply wp_eq; [by apply arch_init_run|].
  destruct (trap_init_run (ready c) Hil) as (l & Hr & Hl & Hlook). eapply wp_eq; [exact Hr|].
  intros n cpl Hn Hcpl. unfold i386_trap.enter. cbn [idtr idt with_idt fst snd]. rewrite Z.eqb_refl, Hlook by done.
  destruct (Z.ltb_spec 2047 (8 * n + 7)); [lia|]. cbn [negb orb].
  destruct (gate_fields n Hn) as (-> & -> & -> & -> & -> & ->).
  rewrite (descriptor_ready _ true) by (done || by vm_compute).
  change (gdt_ready true !! Z.to_nat (Z.shiftr KERNEL_CS 3)) with (Some (SEG (Z.lor STA_X STA_R) 0 0xffffffff DPL_KERNEL)).
  set (d := segdesc_word (SEG (Z.lor STA_X STA_R) 0 0xffffffff DPL_KERNEL)). assert (is_code d = true ∧ seg_dpl d = 0) as [E1 E2] by by vm_compute.
  simpl fmap. unfold option_fmap, option_map. fold d. rewrite E1, E2.
  assert (Hstk : handler_stack gdt_addr ts_addr (with_idt (ready c) l (2047, idt_addr)) 0 cpl =
    Some (if cpl =? DPL_KERNEL then None else Some (KERNEL_DS, tempkstack))).
  { unfold handler_stack. destruct Hcpl as [-> | ->]; [done|]. cbn [Z.eqb DPL_KERNEL DPL_USER].
    rewrite (descriptor_ready _ true) by (done || by vm_compute).
    change (gdt_ready true !! Z.to_nat (Z.shiftr (tr (with_idt (ready c) l (2047, idt_addr))) 3)) with (Some (tss_desc true)).
    simpl fmap. unfold option_fmap, option_map. destruct (tss_desc_fields true) as (_ & _ & -> & -> & ->).
    rewrite !Z.eqb_refl. done. }
  rewrite Hstk. destruct (Z.eqb_spec n T_SYSCALL) as [Hsys|Hsys]; destruct Hcpl as [-> | ->]; done.
Qed.
End machine.

(** A machine at power-on: the static table and gates of zeros. *)
Definition cpu0 : cpu :=
  mk_cpu gdt_static (replicate 256 (mk_idtentry 0 0 0 0 0 0 0 0 0)) zero_taskstate (0, 0) (0, 0) 0 0 0 0 0 0 0.

Lemma cpu0_ok : tables_ok cpu0.
Proof.
  split; [done|by vm_compute|apply gdt_static_ok|].
  apply Forall_replicate. unfold idtentry_ok, in_range. simpl. lia.
Qed.

Lemma traps_enter_vectors_witness :
  wp (_ ← arch_init 0x80301000 0x80302000 0x80303000; trap_init 0x80300000 (λ n, 0x80100000 + 10 * n)) cpu0 (λ _ c',
    enter 0x80301000 0x80300000 0x80302000 c' 64 DPL_USER true =
      Some (mk_entered KERNEL_CS 0x80100280 true (Some (KERNEL_DS, 0x80303000))) ∧
    enter 0x80301000 0x80300000 0x80302000 c' 14 DPL_USER true = None).
Proof.
  eapply wp_mono.
  - apply (traps_enter_vectors 0x80301000 0x80300000 0x80302000 0x80303000 (λ n, 0x80100000 + 10 * n));
      [by vm_compute..| |apply cpu0_ok|done].
    intros n Hn. unfold in_range. lia.
  - intros u c' H. split; [apply (H 64 DPL_USER)|apply (H 14 DPL_USER)]; (lia || by right).
Defined.
