(* ===== verification/Traps.v ===== *)
(** kern/arch/*/trap.c: installing the handlers, what a handler reports, and the
    return from a trap. The tables of i386 are in Segment.v. *)
From Stdlib Require Import ZArith Lia String.
From stdpp Require Import base numbers gmap list.
From S2P Require Import Prelude Heap Printf Libc Io Uart UartProps Segment.

Open Scope Z_scope.

(** What the handlers need of kprintf() and panic(). [pr_out] is the text on the
    console so far. *)
Class Printer {K : Type} (kprintf : list Z → list arg → M K Z) (kpanic : list Z → list arg → M K unit) := {
  pr_ok : K → Prop;
  pr_out : K → list Z;
  pr_printf s fmt args :
    pr_ok s → well_typed fmt Text args = true → Forall is_byte fmt → Forall arg_bytes args →
    ∃ ret buf s', vsnprintf BUFSIZ fmt args = Some (ret, buf) ∧ kprintf fmt args s = Ret (ret, s') ∧ pr_ok s' ∧
      pr_out s' = pr_out s ++ crlf (c_text buf);
  pr_panic s fmt args :
    pr_ok s → well_typed fmt Text args = true → Forall is_byte fmt → Forall arg_bytes args → kpanic fmt args s = Panic;
}.

(** What kprintf(fmt, ...) shows. *)
Definition says (fmt : list Z) (args : list arg) : list Z :=
  match vsnprintf BUFSIZ fmt args with
  | Some (_, buf) => crlf (c_text buf)
  | None => []
  end.

(** A format string with its escapes: the text is followed by a line feed. *)
Definition line (s : string) : list Z := bytes s ++ [ch_lf].

(** A row of kprintf(fmt, value), one for each item. *)
Fixpoint print_items {K} (kprintf : list Z → list arg → M K Z) (fmt : string → list Z) (l : list (string * Z)) : M K unit :=
  match l with
  | [] => mret ()
  | (s, v) :: l => _ ← kprintf (fmt s) [AWord v]; print_items kprintf fmt l
  end.

(** ** i386 *)
Module i386_handler.
Import i386_trap.

Definition trapmsg : list (list Z) := bytes <$>
  ["Divide by zero"; "Debug"; "Non-maskable interrupt"; "Breakpoint"; "Overflow"; "Bounds check"; "Illegal opcode";
   "Device not available"; "Double fault"; ""; "Invalid task switch segment"; "Segment not present"; "Stack exception";
   "General protection fault"; "Page fault"; ""; "Floating point error"; "Alignment check"; "Machine check"; "SIMD error"]%string.

(** struct trapframe; the handler reads the trap number. *)
Record trapframe : Type := mk_trapframe {
  tf_edi : Z; tf_esi : Z; tf_ebp : Z; tf_ebx : Z; tf_edx : Z; tf_ecx : Z; tf_eax : Z;
  tf_gs : Z; tf_fs : Z; tf_es : Z; tf_ds : Z; trapno : Z;
  tf_err : Z; tf_eip : Z; tf_cs : Z; tf_eflags : Z; tf_esp : Z; tf_ss : Z;
}.

Section code.
Context {K : Type} (kprintf : list Z → list arg → M K Z) (kpanic : list Z → list arg → M K unit).

(** An index past the table reads undefined memory. *)
Definition message (n : Z) : M K (list Z) :=
  if n <=? T_MSG_MAX then match trapmsg !! Z.to_nat n with Some s => mret s | None => stuck end else mret (bytes "").

Definition trap_handler (tf : trapframe) : M K unit :=
  s ← message (trapno tf);
  _ ← kprintf (line "Caught exception %d (%s)") [AWord (trapno tf); AStr (Some s)];
  kpanic (line "Dying...") [].

Definition trap_return : M K unit := kpanic (line "trap_return") [].
End code.
End i386_handler.

(** ** MIPS *)
Module mips_trap.
Definition TLB_REFILL_ENTRY : Z := 0xffffffff80000000.
Definition GENERIC_EXCEPT_ENTRY : Z := 0xffffffff80000180.
Definition ST_BEV : Z := 0x00400000.
Definition ST_IM : Z := 0x0000ff00.
Definition ST_EXCM : Z := 0x0000001f.

(** Register numbers of include/arch/mips/mipsregs.h. *)
Definition _ZERO : Z := 0.
Definition _AT : Z := 1.
Definition _V0 : Z := 2.
Definition _V1 : Z := 3.
Definition _A0 : Z := 4.
Definition _A1 : Z := 5.
Definition _A2 : Z := 6.
Definition _A3 : Z := 7.
Definition _T0 : Z := 8.
Definition _T1 : Z := 9.
Definition _T2 : Z := 10.
Definition _T3 : Z := 11.
Definition _T4 : Z := 12.
Definition _T5 : Z := 13.
Definition _T6 : Z := 14.
Definition _T7 : Z := 15.
Definition _S0 : Z := 16.
Definition _S1 : Z := 17.
Definition _S2 : Z := 18.
Definition _S3 : Z := 19.
Definition _S4 : Z := 20.
Definition _S5 : Z := 21.
Definition _S6 : Z := 22.
Definition _S7 : Z := 23.
Definition _T8 : Z := 24.
Definition _T9 : Z := 25.
Definition _GP : Z := 28.
Definition _SP : Z := 29.
Definition _S8 : Z := 30.
Definition _RA : Z := 31.

(** struct regs *)
Record regs : Type := mk_regs {
  gpr : list Z; lo : Z; hi : Z; status : Z; cause : Z; epc : Z; badvaddr : Z;
}.

(** The Status register of the system control coprocessor, and memory. *)
Record cpu : Type := mk_cpu { c0_status : Z; ram : bmem }.

Definition read_c0_status : M cpu Z := λ c, Ret (c0_status c, c).
Definition write_c0_status (v : Z) : M cpu unit := λ c, Ret ((), mk_cpu (u32 v) (ram c)).
Definition in_ram {A} (f : M bmem A) : M cpu A := λ c,
  match f (ram c) with
  | Ret (a, m) => Ret (a, mk_cpu (c0_status c) m)
  | Panic => Panic
  | Stuck => Stuck
  | NoFuel => NoFuel
  end.

(** The numbers of the general registers that dump_regs() reports, with the
    names it gives them. k0 and k1 are left out. *)
Definition gpr_names : list (string * Z) :=
  [("zero", _ZERO); ("at", _AT); ("v0", _V0); ("v1", _V1); ("a0", _A0); ("a1", _A1); ("a2", _A2); ("a3", _A3);
   ("t0", _T0); ("t1", _T1); ("t2", _T2); ("t3", _T3); ("t4", _T4); ("t5", _T5); ("t6", _T6); ("t7", _T7);
   ("s0", _S0); ("s1", _S1); ("s2", _S2); ("s3", _S3); ("s4", _S4); ("s5", _S5); ("s6", _S6); ("s7", _S7);
   ("t8", _T8); ("t9", _T9); ("gp", _GP); ("sp", _SP); ("s8", _S8); ("ra", _RA)]%string.

Definition dump_items (r : regs) : list (string * Z) :=
  ((λ '(s, i), (s, nth (Z.to_nat i) (gpr r) 0)) <$> gpr_names) ++
  [("LO", lo r); ("HI", hi r); ("STATUS", status r); ("CAUSE", cause r); ("EPC", epc r); ("BVA", badvaddr r)]%string.

(** "name\t%016x\n" *)
Definition reg_fmt (s : string) : list Z := bytes s ++ [9] ++ line "%016x".

Section code.
(** The code of the two handlers, in assembly. *)
Context (generic_exception_entry tlb_entry : Z).

Definition trap_init : M cpu unit :=
  _ ← in_ram (memcpy (u32 GENERIC_EXCEPT_ENTRY) generic_exception_entry 0x80);
  _ ← in_ram (memcpy (u32 TLB_REFILL_ENTRY) tlb_entry 0x80);
  status ← read_c0_status;
  write_c0_status (Z.land status (u32 (Z.lnot ST_BEV))).

Context {K : Type} (kprintf : list Z → list arg → M K Z) (kpanic : list Z → list arg → M K unit).

Definition dump_regs (r : regs) : M K unit := print_items kprintf reg_fmt (dump_items r).

(** trap_exit() is assembly: it leaves the kernel with the registers it is given. *)
Context (trap_exit : regs → M (K * cpu) unit).

Definition with_status (r : regs) (v : Z) : regs := mk_regs (gpr r) (lo r) (hi r) v (cause r) (epc r) (badvaddr r).

Definition trap_return (r : regs) : M (K * cpu) unit :=
  status0 ← on_snd read_c0_status;
  let im := Z.land status0 ST_IM in
  _ ← on_snd (write_c0_status (Z.land status0 (u32 (Z.lnot ST_EXCM))));
  trap_exit (with_status r (Z.lor (Z.land (status r) (u32 (Z.lnot ST_IM))) im)).

Definition trap_handler (r : regs) : M (K * cpu) unit :=
  _ ← on_fst (dump_regs r);
  _ ← on_fst (kpanic (line "Unexpected trap") []);
  trap_return r.
End code.
End mips_trap.

(** ** ARM *)
Module arm_trap.
(** struct regs *)
Record regs : Type := mk_regs { sp : Z; lr : Z; psr : Z; r0_r12 : list Z; pc : Z }.
Definition sizeof_regs : Z := 4 * 17.

(** The processor: the status register, the general registers, and sp, lr
    and the saved status register of each mode. *)
Record cpu : Type := mk_cpu {
  cpsr : Z; a_r : list Z; a_pc : Z;
  sp_of : gmap Z Z; lr_of : gmap Z Z; spsr_of : gmap Z Z;
  vbar : Z;
}.

(** The modes, by the low five bits of the status register. *)
Definition MODE_USR : Z := 0x10.
Definition MODE_FIQ : Z := 0x11.
Definition MODE_IRQ : Z := 0x12.
Definition MODE_SVC : Z := 0x13.
Definition MODE_ABT : Z := 0x17.
Definition MODE_UND : Z := 0x1B.
Definition MODE_SYS : Z := 0x1F.

Definition mode (c : cpu) : Z := Z.land (cpsr c) 0x1f.

(** msr cpsr_c, x: the control byte of the status register. *)
Definition msr_cpsr_c (x : Z) : M cpu unit := λ c, Ret ((),
  mk_cpu (Z.lor (Z.land (cpsr c) 0xffffff00) (Z.land x 0xff)) (a_r c) (a_pc c) (sp_of c) (lr_of c) (spsr_of c) (vbar c)).
(** mov sp, x and the like act on the registers of the current mode; user and
    system mode share theirs. *)
Definition bank (md : Z) : Z := if md =? MODE_USR then MODE_SYS else md.
Definition mov_sp (x : Z) : M cpu unit := λ c, Ret ((),
  mk_cpu (cpsr c) (a_r c) (a_pc c) (<[bank (mode c) := x]> (sp_of c)) (lr_of c) (spsr_of c) (vbar c)).
Definition mov_lr (x : Z) : M cpu unit := λ c, Ret ((),
  mk_cpu (cpsr c) (a_r c) (a_pc c) (sp_of c) (<[bank (mode c) := x]> (lr_of c)) (spsr_of c) (vbar c)).
(** msr spsr, x: without a field list the assembler takes spsr_fc, the flag byte and
    the control byte. Bits 8 to 23 of the saved status register keep
    what they held. *)
Definition SPSR_FC : Z := 0xff0000ff.
Definition spsr_fc (old x : Z) : Z := Z.lor (Z.land old (0xffffffff - SPSR_FC)) (Z.land x SPSR_FC).
Definition msr_spsr (x : Z) : M cpu unit := λ c,
  match spsr_of c !! mode c with
  | Some s => Ret ((),
      mk_cpu (cpsr c) (a_r c) (a_pc c) (sp_of c) (lr_of c) (<[mode c := spsr_fc s x]> (spsr_of c)) (vbar c))
  | None => Stuck
  end.
Definition set_vbar (x : Z) : M cpu unit := λ c, Ret ((),
  mk_cpu (cpsr c) (a_r c) (a_pc c) (sp_of c) (lr_of c) (spsr_of c) x).
(** ldmia r0, {r0-r12, pc}^: the status register comes from the saved one. *)
Definition ldm_return (r : list Z) (pc : Z) : M cpu unit := λ c,
  match spsr_of c !! mode c with
  | Some s => Ret ((), mk_cpu s r pc (sp_of c) (lr_of c) (spsr_of c) (vbar c))
  | None => Stuck
  end.

Section code.
Context {K : Type} (kprintf : list Z → list arg → M K Z) (kpanic : list Z → list arg → M K unit).
Context (kmalloc : Z → Z → M mem Z) (arm_vector : Z).

Local Abbreviation state := (K * (mem * cpu))%type.

Definition arm_init_mode (psr_c : Z) (name : string) : M state unit :=
  regs ← on_snd (on_fst (kmalloc sizeof_regs 0));
  _ ← (if regs =? NULL then on_fst (kpanic (line "Failed to allocate %s context storage.") [AStr (Some (bytes name))]) else mret ());
  _ ← on_fst (kprintf (line "KERN: %s context at 0x%08x.") [AStr (Some (bytes name)); AWord regs]);
  _ ← on_snd (on_snd (msr_cpsr_c psr_c));
  _ ← on_snd (on_snd (mov_sp (regs + sizeof_regs)));
  on_snd (on_snd (msr_cpsr_c 0xDF)).

Definition trap_init : M state unit :=
  _ ← on_snd (on_snd (set_vbar arm_vector));
  _ ← arm_init_mode 0xD1 "IRQ";
  _ ← arm_init_mode 0xD3 "SVC";
  _ ← arm_init_mode 0xD7 "ABT";
  arm_init_mode 0xDB "UNDEF".

(** The assembly of trap_return(); the panic() behind it is never reached. *)
Definition trap_return (r : regs) : M cpu unit :=
  _ ← msr_cpsr_c 0xDF;
  _ ← mov_sp (sp r);
  _ ← mov_lr (lr r);
  _ ← msr_cpsr_c 0xD3;
  _ ← msr_spsr (psr r);
  ldm_return (r0_r12 r) (pc r).

Definition handle_items (r : regs) : list (string * Z) :=
  zip ["r0"; "r1"; "r2"; "r3"; "r4"; "r5"; "r6"; "r7"; "r8"; "r9"; "r10"; "r11"; "r12"]%string (r0_r12 r) ++
  [("pc", pc r); ("psr", psr r); ("sp", sp r); ("lr", lr r)]%string.

Definition handle_fmt (s : string) : list Z := bytes "DEBUG: " ++ bytes s ++ line " = 0x%08x".

Definition arm_handle_trap (r : regs) (type : Z) : M state unit :=
  _ ← on_fst (kprintf (line "DEBUG: Enter vector slot %d handler!") [AWord type]);
  _ ← on_fst (print_items kprintf handle_fmt (handle_items r));
  on_snd (on_snd (trap_return r)).
End code.
End arm_trap.
