(* ===== verification/TrapsProps.v ===== *)
(** What the trap handlers report and where they return to. *)
From Stdlib Require Import ZArith Lia String.
From stdpp Require Import base numbers gmap list.
From S2P Require Import Prelude Heap Scenario Printf Libc Mmu Io Uart UartProps Segment Traps.

Open Scope Z_scope.

(** The console of Uart.v is a printer. *)
Section printer.
Context {H : Type} `{HW : hardware H} `{LY : layout}.
Context {putchar : Z → M (kstate H) Z} `{DRV : !ConsoleDriver putchar}.
Context (call_putchar : Z → Z → M (kstate H) Z).
Context (get_addr_space : Z) (premap_addr postmap_addr : Z → Z) (DEFAULT_KPUTS : Z).

#[export] Program Instance console_printer :
  Printer (kprintf call_putchar get_addr_space premap_addr postmap_addr DEFAULT_KPUTS)
          (kpanic call_putchar get_addr_space premap_addr postmap_addr DEFAULT_KPUTS) := {|
  pr_ok := registered call_putchar get_addr_space premap_addr postmap_addr DEFAULT_KPUTS;
  pr_out := drv_out;
|}.
Next Obligation.
  intros s fmt args Hs Hw Hf Ha.
  destruct (kprintf_run _ _ _ _ _ s fmt args Hs Hw Hf Ha) as (ret & buf & h & l & ? & ? & ? & ?).
  eauto 10.
Qed.
Next Obligation. intros s fmt args Hs Hw Hf Ha. by eapply kpanic_run. Qed.
End printer.

Section prints.
Context {K : Type} {kprintf : list Z → list arg → M K Z} {kpanic : list Z → list arg → M K unit}.
Context `{PR : !Printer kprintf kpanic}.

Lemma printf_says s fmt args :
  pr_ok s → well_typed fmt Text args = true → Forall is_byte fmt → Forall arg_bytes args →
  ∃ ret s', kprintf fmt args s = Ret (ret, s') ∧ pr_ok s' ∧ pr_out s' = pr_out s ++ says fmt args.
Proof using Type.
  intros Hs Hw Hf Ha. destruct (pr_printf s fmt args Hs Hw Hf Ha) as (ret & buf & s' & Ev & E & Hs' & Ho).
  exists ret, s'. unfold says. by rewrite Ev.
Qed.

(** A format with one number in it, as every line of a register dump is. *)
Definition number_fmt (fmt : list Z) : Prop :=
  (∀ v, well_typed fmt Text [AWord v] = true) ∧ Forall is_byte fmt.

Lemma printf_number s fmt v :
  pr_ok s → number_fmt fmt →
  ∃ ret s', kprintf fmt [AWord v] s = Ret (ret, s') ∧ pr_ok s' ∧ pr_out s' = pr_out s ++ says fmt [AWord v].
Proof using Type. intros Hs [Hw Hf]. apply printf_says; [done|done|done|by repeat constructor]. Qed.

(** What a row of such lines shows. *)
Definition shows (fmt : string → list Z) (l : list (string * Z)) : list Z :=
  concat ((λ x, says (fmt (fst x)) [AWord (snd x)]) <$> l).

Lemma print_items_run fmt l s :
  pr_ok s → Forall (λ x, number_fmt (fmt (fst x))) l →
  ∃ s', print_items kprintf fmt l s = Ret ((), s') ∧ pr_ok s' ∧ pr_out s' = pr_out s ++ shows fmt l.
Proof using PR.
  intros Hk Hl. revert s Hk. induction Hl as [|[n v] l Hs Hl IH]; intros s Hk; simpl.
  { exists s. by rewrite app_nil_r. }
  destruct (printf_number s (fmt n) v Hk Hs) as (ret & s1 & E1 & Hk1 & O1).
  destruct (IH s1 Hk1) as (s2 & E2 & Hk2 & O2). exists s2.
  erewrite bind_ret by exact E1. split; [done|]. split; [done|]. rewrite O2, O1, <-app_assoc. done.
Qed.

(** ** i386 *)

Import i386_handler.

(** Every trap number has a message: the table is never read past its end, and the
    handler reports the trap and stops. *)
Lemma i386_trap_handler_stops tf k :
  pr_ok k → 0 ≤ trapno tf →
  (∃ msg, message (K := K) (trapno tf) k = Ret (msg, k) ∧ Forall is_byte msg) ∧
  trap_handler kprintf kpanic tf k = Panic.
Proof using PR.
  intros Hk Hn.
  assert (∃ msg, message (K := K) (trapno tf) k = Ret (msg, k) ∧ Forall is_byte msg) as (msg & Em & Hm).
  { unfold message. destruct (Z.leb_spec (trapno tf) i386_trap.T_MSG_MAX) as [Hle|]; [|exists []; by repeat constructor].
    unfold i386_trap.T_MSG_MAX in Hle.
    assert (Hall : Forall (Forall is_byte) trapmsg) by (repeat (constructor; [by apply is_bytes|]); constructor).
    destruct (trapmsg !! Z.to_nat (trapno tf)) as [msg|] eqn:E.
    - exists msg. split; [done|]. by eapply Forall_lookup_1.
    - apply lookup_ge_None in E. change (length trapmsg) with 20%nat in E. lia. }
  split; [by exists msg|]. unfold trap_handler. erewrite bind_ret by exact Em.
  destruct (printf_says k (line "Caught exception %d (%s)") [AWord (trapno tf); AStr (Some msg)] Hk)
    as (ret & k' & E & Hk' & _); [done|by apply is_bytes|by repeat constructor|].
  erewrite bind_ret by exact E. apply pr_panic; [done|done|by apply is_bytes|by constructor].
Qed.
End prints.

(** ** MIPS *)

Section mips.
Import mips_trap.
Context {K : Type} {kprintf : list Z → list arg → M K Z} {kpanic : list Z → list arg → M K unit}.
Context `{PR : !Printer kprintf kpanic}.
Context (generic_exception_entry tlb_entry : Z).

Lemma dump_items_fmt r : Forall (λ x, number_fmt (reg_fmt (fst x))) (dump_items r).
Proof using Type.
  apply Forall_app. split.
  - apply Forall_fmap. unfold gpr_names.
    repeat (apply Forall_cons; split; [split; [intros v; reflexivity|by apply is_bytes]|]). by apply Forall_nil.
  - repeat (apply Forall_cons; split; [split; [intros v; reflexivity|by apply is_bytes]|]). by apply Forall_nil.
Qed.

(** On MIPS an unexpected trap is reported in full before the kernel stops: dump_regs()
    prints one line for each of the 30 general registers it names, for LO and HI and
    for the four coprocessor registers, in order and with the values that were
    saved, and trap_handler() then panics; it never goes on to trap_return(). *)
Theorem mips_trap_reported r k c trap_exit :
  pr_ok k →
  wp (dump_regs kprintf r) k (λ _ k', pr_ok k' ∧
    pr_out k' = pr_out k ++ shows reg_fmt (dump_items r)) ∧
  trap_handler kprintf kpanic trap_exit r (k, c) = Panic.
Proof using PR.
  intros Hk. destruct (print_items_run reg_fmt (dump_items r) k Hk (dump_items_fmt r)) as (k' & E & Hk' & Ho).
  split; [by eapply wp_eq|]. unfold trap_handler.
  erewrite bind_ret by (apply on_fst_ret; exact E).
  apply bind_panic, on_fst_panic, pr_panic; [done|done|by apply is_bytes|by constructor].
Qed.

Lemma testbit_IM i : Z.testbit ST_IM i = (8 <=? i) && (i <? 16).
Proof using Type.
  change ST_IM with (Z.shiftl (Z.ones 8) 8). destruct (Z.leb_spec 8 i); simpl.
  - rewrite Z.shiftl_spec, Z.testbit_ones by lia. destruct (Z.leb_spec 0 (i - 8)), (Z.ltb_spec (i - 8) 8), (Z.ltb_spec i 16); done || lia.
  - destruct (decide (0 ≤ i)); [by rewrite Z.shiftl_spec_low|by rewrite Z.testbit_neg_r by lia].
Qed.

Lemma testbit_EXCM i : 0 ≤ i → Z.testbit ST_EXCM i = (i <? 5).
Proof using Type.
  intros. change ST_EXCM with (Z.ones 5). rewrite Z.testbit_ones by lia.
  destruct (Z.leb_spec 0 i), (Z.ltb_spec i 5); done || lia.
Qed.

Lemma testbit_u32 x i : 0 ≤ i < 32 → Z.testbit (u32 x) i = Z.testbit x i.
Proof using Type. intros. unfold wrap. apply Z.mod_pow2_bits_low. lia. Qed.

Lemma testbit_not32 m i : 0 ≤ i < 32 → Z.testbit (u32 (Z.lnot m)) i = negb (Z.testbit m i).
Proof using Type. intros. rewrite testbit_u32 by lia. apply Z.lnot_spec. lia. Qed.

(** On MIPS trap_return() leaves the kernel with the saved registers, except that
    the interrupt mask in the saved status is replaced by the one in force now; the processor itself is
    out of exception level, in kernel mode with interrupts off, and keeps every other status bit. *)
Theorem mips_trap_return_status r (k : K) c trap_exit :
  in_range 32 (c0_status c) → in_range 32 (status r) →
  ∃ st st', trap_return trap_exit r (k, c) = trap_exit (with_status r st) (k, mk_cpu st' (ram c)) ∧
    in_range 32 st' ∧
    (∀ i, 0 ≤ i < 32 → Z.testbit st i = if (8 <=? i) && (i <? 16) then Z.testbit (c0_status c) i else Z.testbit (status r) i) ∧
    (∀ i, 0 ≤ i < 32 → Z.testbit st' i = if i <? 5 then false else Z.testbit (c0_status c) i).
Proof using Type.
  intros Hc Hr. unfold trap_return. erewrite bind_ret by reflexivity. cbv zeta. erewrite bind_ret by reflexivity.
  eexists _, _. split; [reflexivity|]. cbn [snd c0_status ram].
  split; [by apply wrap_range|]. split; intros i Hi.
  - rewrite Z.lor_spec, !Z.land_spec, testbit_not32, testbit_IM by done.
    destruct ((8 <=? i) && (i <? 16)); simpl; [by rewrite andb_false_r, andb_true_r|by rewrite andb_true_r, andb_false_r, orb_false_r].
  - rewrite testbit_u32, Z.land_spec, testbit_not32, testbit_EXCM by lia.
    destruct (i <? 5); simpl; [apply andb_false_r|apply andb_true_r].
Qed.

(** Trap_init() of MIPS copies the two handlers to the places where the processor
    looks for them once the bootstrap vectors are off, 128 bytes each; neither copy
    damages the other, and only the bootstrap bit of the status changes. *)
Theorem mips_trap_init_installs c g t :
  in_range 32 (c0_status c) →
  holds (ram c) generic_exception_entry g → holds (ram c) tlb_entry t →
  length g = 128%nat → length t = 128%nat →
  (∀ a, a = generic_exception_entry ∨ a = tlb_entry → 0 < a ∧ (a + 128 ≤ 0x80000000 ∨ 0x80000200 ≤ a)) →
  wp (trap_init generic_exception_entry tlb_entry) c (λ _ c',
    holds (ram c') 0x80000180 g ∧ holds (ram c') 0x80000000 t ∧
    (∀ i, 0 ≤ i < 32 → Z.testbit (c0_status c') i = if i =? 22 then false else Z.testbit (c0_status c) i) ∧
    (∀ a, ¬ (0x80000000 ≤ a < 0x80000200) → ram c' !! a = ram c !! a)).
Proof using Type.
  intros Hc Hg Ht Lg Lt Ha. unfold trap_init.
  change (u32 GENERIC_EXCEPT_ENTRY) with 0x80000180. change (u32 TLB_REFILL_ENTRY) with 0x80000000.
  assert (Hcopy : ∀ dst src l c, holds (ram c) src l → length l = 128%nat → apart dst src 128 → 0 ≤ src →
    in_ram (memcpy dst src 0x80) c = Ret (dst, mk_cpu (c0_status c) (blit (ram c) dst l))).
  { intros dst src l c0 Hh Hl Hap Hsrc. unfold in_ram. change 0x80 with (Z.of_nat 128). rewrite <-Hl.
    rewrite memcpy_run; [done|done|rewrite Hl; exact Hap|done]. }
  assert (Hga := Ha _ (or_introl eq_refl)). assert (Hta := Ha _ (or_intror eq_refl)).
  wp_step. eapply wp_eq; [apply (Hcopy _ _ g); [done|done|unfold apart; lia|lia]|].
  wp_step. eapply wp_eq; [apply (Hcopy _ _ t); [|done|unfold apart; lia|lia]|].
  { apply holds_blit; [done|]. rewrite Lg, Lt. lia. }
  cbn [c0_status ram]. wp_step. eapply wp_eq; [reflexivity|]. eapply wp_eq; [reflexivity|]. cbn [c0_status ram].
  split; [|split; [apply blit_holds|split]].
  - apply holds_blit; [apply blit_holds|]. rewrite Lg, Lt. lia.
  - intros i Hi. rewrite testbit_u32, Z.land_spec, testbit_not32 by lia.
    change ST_BEV with (2 ^ 22). destruct (Z.eqb_spec i 22) as [->|].
    + by rewrite Z.pow2_bits_true, andb_false_r by lia.
    + by rewrite Z.pow2_bits_false, andb_true_r by lia.
  - intros a Hna. rewrite !blit_other by (rewrite ?Lg, ?Lt; lia). done.
Qed.
End mips.

(** ** ARM *)

Section arm.
Import arm_trap.
Context {K : Type} {kprintf : list Z → list arg → M K Z} {kpanic : list Z → list arg → M K unit}.
Context `{PR : !Printer kprintf kpanic}.
Context {kmalloc : Z → Z → M mem Z} {kfree : Z → M mem unit} `{HS : !HeapSpec kmalloc kfree}.
Context (arm_vector : Z).

(** The control byte decides the mode. *)
Lemma mode_control s x : Z.land (Z.lor (Z.land s 0xffffff00) (Z.land x 0xff)) 0x1f = Z.land x 0x1f.
Proof using Type.
  rewrite Z.land_lor_distr_l, <-!Z.land_assoc. change (Z.land 0xffffff00 0x1f) with 0. change (Z.land 0xff 0x1f) with 0x1f.
  by rewrite Z.land_0_r, Z.lor_0_l.
Qed.

(** kmalloc() has room for [k] objects and not for one more. *)
Fixpoint kmallocs (k : nat) : M mem unit :=
  match k with
  | O => mret ()
  | S k => _ ← kmalloc sizeof_regs 0; kmallocs k
  end.
Definition room_for (k : nat) (m : mem) : Prop :=
  ∃ m1 m2, kmallocs k m = Ret ((), m1) ∧ kmalloc sizeof_regs 0 m1 = Ret (NULL, m2).

Lemma room_step k m p m1 : kmalloc sizeof_regs 0 m = Ret (p, m1) → room_for k m1 → room_for (S k) m.
Proof using Type.
  intros E (m2 & m3 & E2 & E3). exists m2, m3. split; [|done]. cbn [kmallocs]. by erewrite bind_ret by exact E.
Qed.

Lemma init_mode_run psr_c name k m c live :
  pr_ok k → heap_inv m live → forallb (λ b, (0 <=? b) && (b <? 256)) (bytes name) = true →
  (∃ p k' m' c', arm_init_mode kprintf kpanic kmalloc psr_c name (k, (m, c)) = Ret ((), (k', (m', c'))) ∧
     pr_ok k' ∧ kmalloc sizeof_regs 0 m = Ret (p, m') ∧ live !! p = None ∧ heap_inv m' (<[p := sizeof_regs]> live) ∧ mode c' = MODE_SYS ∧
     sp_of c' = <[bank (Z.land psr_c 0x1f) := p + sizeof_regs]> (sp_of c) ∧ vbar c' = vbar c) ∨
  (arm_init_mode kprintf kpanic kmalloc psr_c name (k, (m, c)) = Panic ∧ room_for 0 m).
Proof using HS PR.
  intros Hk Hh Hn. destruct (wp_elim _ _ _ (kmalloc_spec m live sizeof_regs 0 Hh ltac:(by vm_compute))) as (p & m' & E & _ & Hp).
  assert (Hstr : Forall arg_bytes [AStr (Some (bytes name))]) by (repeat constructor; by apply is_bytes).
  unfold arm_init_mode. erewrite bind_ret by (apply on_snd_ret, on_fst_ret; exact E).
  destruct Hp as [[-> Hh']|(Hp0 & Hfree & Hh' & _)].
  - right. split; [|by exists m, m']. cbn [Z.eqb NULL]. apply bind_panic, on_fst_panic, pr_panic; [done|done|by apply is_bytes|done].
  - left. rewrite (proj2 (Z.eqb_neq _ _) Hp0). erewrite bind_ret by reflexivity.
    destruct (printf_says k (line "KERN: %s context at 0x%08x.") [AStr (Some (bytes name)); AWord p] Hk)
      as (ret & k' & E' & Hk' & _); [done|by apply is_bytes|by apply Forall_cons; split; [apply Forall_inv in Hstr|repeat constructor]|].
    erewrite bind_ret by (apply on_fst_ret; exact E'). do 2 (erewrite bind_ret by reflexivity).
    exists p, k', m'. eexists. split; [reflexivity|]. cbn [mode cpsr sp_of vbar snd].
    repeat split; try done.
    + unfold mode. cbn [cpsr]. by rewrite mode_control.
    + unfold mode. cbn [cpsr snd]. by rewrite mode_control.
Qed.

(** Trap_init() of ARM points the processor at the vector table and gives four modes a
    save area of their own, each on a live heap object of its own, or panics when
    kmalloc() has no room for four of them. The mode it calls IRQ is FIQ: the stack pointer of the
    real IRQ mode is left as it was. *)
Theorem arm_trap_init_stacks k m c live :
  pr_ok k → heap_inv m live →
  (∃ p1 p2 p3 p4 k' m' c', trap_init kprintf kpanic kmalloc arm_vector (k, (m, c)) = Ret ((), (k', (m', c'))) ∧
     NoDup [p1; p2; p3; p4] ∧
     heap_inv m' (<[p4 := sizeof_regs]> (<[p3 := sizeof_regs]> (<[p2 := sizeof_regs]> (<[p1 := sizeof_regs]> live)))) ∧
     vbar c' = arm_vector ∧ mode c' = MODE_SYS ∧
     sp_of c' !! MODE_FIQ = Some (p1 + sizeof_regs) ∧ sp_of c' !! MODE_SVC = Some (p2 + sizeof_regs) ∧
     sp_of c' !! MODE_ABT = Some (p3 + sizeof_regs) ∧ sp_of c' !! MODE_UND = Some (p4 + sizeof_regs) ∧
     sp_of c' !! MODE_IRQ = sp_of c !! MODE_IRQ) ∨
  (trap_init kprintf kpanic kmalloc arm_vector (k, (m, c)) = Panic ∧ ∃ j, (j < 4)%nat ∧ room_for j m).
Proof using HS PR.
  intros Hk Hh. unfold trap_init. erewrite bind_ret by reflexivity. cbn [fst snd].
  set (c0 := arm_trap.mk_cpu (cpsr c) _ _ _ _ _ arm_vector).
  destruct (init_mode_run 0xD1 "IRQ" k m c0 live Hk Hh eq_refl)
    as [(p1 & k1 & m1 & c1 & E1 & Hk1 & N1 & L1 & H1 & _ & S1 & V1)|[E1 R1]];
    [erewrite bind_ret by exact E1|right; split; [by apply bind_panic|exists 0%nat; split; [lia|done]]].
  destruct (init_mode_run 0xD3 "SVC" k1 m1 c1 _ Hk1 H1 eq_refl)
    as [(p2 & k2 & m2 & c2 & E2 & Hk2 & N2 & L2 & H2 & _ & S2 & V2)|[E2 R2]];
    [erewrite bind_ret by exact E2|right; split; [by apply bind_panic|exists 1%nat; split; [lia|by eapply room_step]]].
  destruct (init_mode_run 0xD7 "ABT" k2 m2 c2 _ Hk2 H2 eq_refl)
    as [(p3 & k3 & m3 & c3 & E3 & Hk3 & N3 & L3 & H3 & _ & S3 & V3)|[E3 R3]];
    [erewrite bind_ret by exact E3|right; split; [by apply bind_panic|exists 2%nat; split; [lia|by do 2 (eapply room_step; [done|])]]].
  destruct (init_mode_run 0xDB "UNDEF" k3 m3 c3 _ Hk3 H3 eq_refl)
    as [(p4 & k4 & m4 & c4 & E4 & Hk4 & N4 & L4 & H4 & M4 & S4 & V4)|[E4 R4]];
    [|right; split; [done|exists 3%nat; split; [lia|by do 3 (eapply room_step; [done|])]]].
  left. exists p1, p2, p3, p4, k4, m4, c4. split; [exact E4|].
  apply lookup_insert_None in L2 as [L2 ?]. apply lookup_insert_None in L3 as [L3 ?].
  apply lookup_insert_None in L3 as [L3 ?]. repeat apply lookup_insert_None in L4 as [L4 ?].
  split; [repeat constructor; set_solver|]. split; [done|]. split; [by rewrite V4, V3, V2, V1|]. split; [done|].
  rewrite S4, S3, S2, S1.
  repeat split; repeat first [by rewrite lookup_insert_eq | rewrite lookup_insert_ne by done | done].
Qed.

Lemma handle_items_fmt r : length (r0_r12 r) = 13%nat → Forall (λ x, number_fmt (handle_fmt (fst x))) (handle_items r).
Proof using Type.
  intros Hl. unfold handle_items. destruct r as [sp lr psr l pc]. simpl in Hl |- *.
  do 13 (destruct l as [|? l]; [done|]). destruct l; [|done]. simpl.
  repeat (apply Forall_cons; split; [split; [intros v; reflexivity|by apply is_bytes]|]). by apply Forall_nil.
Qed.

(** The flag and control bytes come from the frame, the rest is what SPSR_svc held. *)
Lemma spsr_fc_bits old x n :
  0 ≤ n < 32 → Z.testbit (spsr_fc old x) n = Z.testbit (if (n <? 8) || (24 <=? n) then x else old) n.
Proof using Type.
  intros Hn. unfold spsr_fc. rewrite Z.lor_spec, !Z.land_spec.
  assert (Z.testbit SPSR_FC n = (n <? 8) || (24 <=? n) ∧
          Z.testbit (0xffffffff - SPSR_FC) n = negb ((n <? 8) || (24 <=? n))) as [-> ->].
  { assert (n ∈ seqZ 0 32) as Hin by (apply elem_of_seqZ; lia). clear Hn. revert n Hin.
    apply Forall_forall, (bool_decide_unpack _). by vm_compute. }
  destruct ((n <? 8) || (24 <=? n)); cbn [negb]; by rewrite ?andb_true_r, ?andb_false_r, ?orb_false_r, ?orb_false_l.
Qed.

Lemma spsr_fc_mode old x : Z.land (spsr_fc old x) 0x1f = Z.land x 0x1f.
Proof using Type.
  unfold spsr_fc. rewrite Z.land_lor_distr_l, <-!Z.land_assoc.
  change (Z.land (0xffffffff - SPSR_FC) 0x1f) with 0. change (Z.land SPSR_FC 0x1f) with 0x1f.
  by rewrite Z.land_0_r, Z.lor_0_l.
Qed.

Lemma trap_return_run r c s :
  spsr_of c !! MODE_SVC = Some s →
  trap_return r c = Ret ((), arm_trap.mk_cpu (spsr_fc s (psr r)) (r0_r12 r) (pc r)
    (<[MODE_SYS := sp r]> (sp_of c)) (<[MODE_SYS := lr r]> (lr_of c))
    (<[MODE_SVC := spsr_fc s (psr r)]> (spsr_of c)) (vbar c)).
Proof using Type.
  intros Hs. unfold trap_return. do 4 (erewrite bind_ret by reflexivity).
  unfold mode. cbn [cpsr sp_of lr_of spsr_of a_r a_pc vbar]. rewrite !mode_control.
  change (bank (Z.land 0xDF 0x1f)) with MODE_SYS.
  erewrite bind_ret; last first.
  { unfold msr_spsr, mode. cbn [cpsr spsr_of]. rewrite !mode_control. change (Z.land 0xD3 0x1f) with MODE_SVC.
    rewrite Hs. reflexivity. }
  unfold ldm_return, mode. cbn [cpsr spsr_of sp_of lr_of vbar]. rewrite !mode_control.
  change (Z.land 0xD3 0x1f) with MODE_SVC. by rewrite lookup_insert_eq.
Qed.

(** C22: arm_handle_trap() reports the vector and the registers and then returns to
    what was interrupted: the thirteen general registers, the program counter and the mode
    are those saved in the frame, and so are the flag byte and the control byte of
    the status register (bits 24 to 31 and 0 to 7). Bits 8 to 23 (GE, IT, E, A) are not restored:
    they are what SPSR_svc held before. The stack pointer and link register of the
    bank that user and system mode share are those of the frame, which are the
    interrupted ones when the frame names one of these two modes; those of all other
    modes, and memory, are as before. *)
Theorem arm_trap_resumes r type k m c spsr_svc :
  pr_ok k → length (r0_r12 r) = 13%nat → spsr_of c !! MODE_SVC = Some spsr_svc →
  wp (arm_handle_trap kprintf r type) (k, (m, c)) (λ _ '(k', (m', c')),
    m' = m ∧ a_r c' = r0_r12 r ∧ a_pc c' = pc r ∧ mode c' = Z.land (psr r) 0x1f ∧
    (∀ n, 0 ≤ n < 32 →
       Z.testbit (cpsr c') n = Z.testbit (if (n <? 8) || (24 <=? n) then psr r else spsr_svc) n) ∧
    (mode c' = MODE_USR ∨ mode c' = MODE_SYS →
       sp_of c' !! bank (mode c') = Some (sp r) ∧ lr_of c' !! bank (mode c') = Some (lr r)) ∧
    (∀ md, md ≠ MODE_SYS → sp_of c' !! md = sp_of c !! md ∧ lr_of c' !! md = lr_of c !! md) ∧
    pr_out k' = pr_out k ++ says (line "DEBUG: Enter vector slot %d handler!") [AWord type] ++ shows handle_fmt (handle_items r)).
Proof using PR.
  intros Hk Hl Hs. unfold arm_handle_trap.
  destruct (printf_number k (line "DEBUG: Enter vector slot %d handler!") type Hk) as (ret & k1 & E1 & Hk1 & O1);
    [split; [done|by apply is_bytes]|].
  destruct (print_items_run handle_fmt (handle_items r) k1 Hk1 (handle_items_fmt r Hl)) as (k2 & E2 & Hk2 & O2).
  wp_step. eapply wp_eq; [apply on_fst_ret; exact E1|]. wp_step. eapply wp_eq; [apply on_fst_ret; exact E2|].
  eapply wp_eq; [by apply on_snd_ret, on_snd_ret, trap_return_run|].
  cbn [sp_of lr_of cpsr a_r a_pc mode]. unfold mode. cbn [cpsr].
  split_and!; [done..|apply spsr_fc_mode|intros; by apply spsr_fc_bits| | |by rewrite O2, O1, <-app_assoc].
  - intros Hm. assert (bank (Z.land (spsr_fc spsr_svc (psr r)) 0x1f) = MODE_SYS) as ->
      by (destruct Hm as [-> | ->]; done). by rewrite !lookup_insert_eq.
  - intros md Hne. by rewrite !lookup_insert_ne.
Qed.

End arm.

(** ** Concrete traps *)

Module TrapScenario.
Import UartScenario Scenario.

Definition say (fmt : list Z) (args : list arg) : M (kstate toy) Z :=
  kprintf putchar_at 1 (λ a, a) (λ a, a) 0x80200000 fmt args.
Definition stop (fmt : list Z) (args : list arg) : M (kstate toy) unit :=
  kpanic putchar_at 1 (λ a, a) (λ a, a) 0x80200000 fmt args.
#[export] Instance toy_printer : Printer say stop := console_printer putchar_at 1 (λ a, a) (λ a, a) 0x80200000.

Definition frame : mips_trap.regs := mips_trap.mk_regs (Z.of_nat <$> seq 0 32) 1 2 0xfc03 8 0x1234 0x5678.

Lemma mips_trap_reported_witness :
  mips_trap.trap_handler say stop (λ _, mret ()) frame (s0, mips_trap.mk_cpu 0xff00 ∅) = Panic.
Proof. apply (mips_trap_reported (PR := toy_printer) frame s0 (mips_trap.mk_cpu 0xff00 ∅) (λ _, mret ()) s0_registered). Defined.

Lemma mips_trap_return_status_witness :
  ∃ st st', mips_trap.trap_return (K := unit) (λ r s, Ret ((), s)) frame ((), mips_trap.mk_cpu 0x10000301 ∅) =
    Ret ((), ((), mips_trap.mk_cpu st' ∅)) ∧ Z.testbit st 15 = false ∧ Z.testbit st' 0 = false.
Proof.
  destruct (mips_trap_return_status frame () (mips_trap.mk_cpu 0x10000301 ∅) (λ r s, Ret ((), s)))
    as (st & st' & E & _ & H1 & H2); [by vm_compute..|].
  exists st, st'. split; [exact E|]. split; [by rewrite H1 by lia|by rewrite H2 by lia].
Defined.

Definition code_ram : bmem := blit (blit ∅ 0x80100000 (replicate 128 1)) 0x80100100 (replicate 128 2).

Lemma mips_trap_init_installs_witness :
  wp (mips_trap.trap_init 0x80100000 0x80100100) (mips_trap.mk_cpu 0x00400000 code_ram) (λ _ c',
    mips_trap.ram c' !! 0x80000180 = Some 1 ∧ mips_trap.ram c' !! 0x80000000 = Some 2 ∧
    Z.testbit (mips_trap.c0_status c') 22 = false).
Proof.
  eapply wp_mono.
  - apply (mips_trap_init_installs 0x80100000 0x80100100 (mips_trap.mk_cpu 0x00400000 code_ram) (replicate 128 1) (replicate 128 2));
      [by vm_compute| |apply blit_holds|by rewrite length_replicate..|].
    + apply holds_blit; [apply blit_holds|]. rewrite !length_replicate. lia.
    + intros a [-> | ->]; lia.
  - intros u c' (H1 & H2 & H3 & _). split; [by apply (H1 0%nat)|]. split; [by apply (H2 0%nat)|by rewrite H3 by lia].
Defined.

Definition arm0 : arm_trap.cpu := arm_trap.mk_cpu 0xDF [] 0 {[ arm_trap.MODE_IRQ := 7 ]} ∅ ∅ 0.

Definition arm_start : outcome (unit * (kstate toy * (mem * arm_trap.cpu))) :=
  arm_trap.trap_init say stop kmalloc 0x80008000 (s0, (booted, arm0)).

Lemma arm_start_returns : match arm_start with Ret _ => true | _ => false end = true.
Proof. by vm_compute. Qed.

Lemma arm_trap_init_stacks_witness :
  ∃ st, arm_start = Ret ((), st) ∧ arm_trap.sp_of (snd (snd st)) !! arm_trap.MODE_IRQ = Some 7.
Proof.
  pose proof arm_start_returns as Hret.
  destruct (arm_trap_init_stacks (PR := toy_printer) (HS := heap) 0x80008000 s0 booted arm0 ∅ s0_registered booted_inv)
    as [(p1 & p2 & p3 & p4 & k' & m' & c' & E & _ & _ & _ & _ & _ & _ & _ & _ & H)|[E _]]; fold arm_start in E.
  - exists (k', (m', c')). split; [exact E|]. cbn [snd]. rewrite H. reflexivity.
  - rewrite E in Hret. discriminate Hret.
Defined.

(** A trap other than SVC: SPSR_svc still holds the endianness bit (9) of an older trap, which
    ends up in the status register of the resumed code. *)
Definition arm1 : arm_trap.cpu := arm_trap.mk_cpu 0xDF [] 0 ∅ ∅ {[ arm_trap.MODE_SVC := 0x210 ]} 0.

Lemma arm_trap_resumes_witness :
  wp (arm_trap.arm_handle_trap say (arm_trap.mk_regs 0x9000 0x8004 0x10 (replicate 13 5) 0x8000) 2) (s0, (∅, arm1))
    (λ _ st, Z.testbit (arm_trap.cpsr (snd (snd st))) 9 = true ∧ arm_trap.a_pc (snd (snd st)) = 0x8000 ∧
       arm_trap.sp_of (snd (snd st)) !! arm_trap.MODE_SYS = Some 0x9000).
Proof.
  eapply wp_mono.
  - apply (arm_trap_resumes (PR := toy_printer) (arm_trap.mk_regs 0x9000 0x8004 0x10 (replicate 13 5) 0x8000) 2 s0 ∅ arm1 0x210 s0_registered);
      done.
  - intros u [k' [m' c']] (_ & _ & H2 & Hm & Hb & Hsp & _). cbn [snd]. rewrite Hm in Hsp.
    split; [by rewrite (Hb 9) by lia|]. split; [done|]. apply Hsp. by left.
Defined.
End TrapScenario.
