(* ===== verification/Irq.v ===== *)
(** include/arch/mips/irq.h and the mailboxes of mach-msim/mach-smp.h: switching the
    interrupts of one processor off and on, as functions on its Status register. *)
From Stdlib Require Import ZArith Lia.
From stdpp Require Import base numbers list.
From S2P Require Import Prelude.

Open Scope Z_scope.

(** Bit 0 of Status, Interrupt Enable. *)
Definition ST_IE : Z := 1.

(** ** Without the instructions of revision 2 *)

Module rev1.
(** mfc0; ori 1; mtc0 *)
Definition local_irq_enable (status : Z) : Z := Z.lor status 1.
(** mfc0; ori 1; xori 1; mtc0 *)
Definition local_irq_disable (status : Z) : Z := Z.lxor (Z.lor status 1) 1.
(** The flags and the new Status. *)
Definition local_irq_save (status : Z) : Z * Z := (Z.land status 1, Z.lxor (Z.lor status 1) 1).
(** local_irq_restore() has no model: it branches to a label that it does not define. *)
End rev1.

(** ** Revision 2 *)

Module rev2.
(** EI sets the bit; DI clears it and returns the old Status. *)
Definition ei (status : Z) : Z := Z.lor status ST_IE.
Definition di (status : Z) : Z * Z := (status, Z.ldiff status ST_IE).

Definition local_irq_enable (status : Z) : Z := ei status.
Definition local_irq_disable (status : Z) : Z := snd (di status).
Definition local_irq_save (status : Z) : Z * Z :=
  let '(old, status) := di status in (Z.land old 1, status).
Definition local_irq_restore (flags status : Z) : Z :=
  if flags =? 0 then status else ei (snd (di status)).
End rev2.

(** ** Critical sections *)

(** Code that changes Status only by protecting parts of itself; [work] is anything else. *)
Inductive prog : Type :=
  | Work (id : nat)
  | Seq (p q : prog)
  | Protected (p : prog).

(** The final Status, and the work done, each with the Status it was done under. *)
Fixpoint run (p : prog) (status : Z) : Z * list (nat * Z) :=
  match p with
  | Work id => (status, [(id, status)])
  | Seq p q => let '(s1, t1) := run p status in let '(s2, t2) := run q s1 in (s2, t1 ++ t2)
  | Protected p =>
      let '(flags, s1) := rev2.local_irq_save status in
      let '(s2, t) := run p s1 in
      (rev2.local_irq_restore flags s2, t)
  end.

(** * Properties *)

Definition enabled (status : Z) : bool := Z.testbit status 0.

Lemma land_ie s : Z.land s 1 = Z.b2z (enabled s).
Proof.
  unfold enabled. change 1 with (Z.ones 1) at 1. rewrite Z.land_ones by lia. change (2 ^ 1) with 2.
  by rewrite Z.bit0_mod.
Qed.

Lemma off_spec s i : Z.testbit (Z.ldiff s ST_IE) i = Z.testbit s i && negb (i =? 0).
Proof. rewrite Z.ldiff_spec. by f_equal. Qed.

Lemma on_spec s i : Z.testbit (Z.lor s ST_IE) i = Z.testbit s i || (i =? 0).
Proof. rewrite Z.lor_spec. by f_equal. Qed.

(** Switching on again restores every bit, when the interrupts were on. *)
Lemma restore_save s : rev2.local_irq_restore (fst (rev2.local_irq_save s)) (snd (rev2.local_irq_save s)) = s.
Proof.
  unfold rev2.local_irq_restore, rev2.local_irq_save. simpl. rewrite land_ie. unfold enabled.
  destruct (Z.testbit s 0) eqn:E; simpl; apply Z.bits_inj'; intros i Hi.
  - unfold rev2.ei. rewrite on_spec, !off_spec. destruct (Z.eqb_spec i 0) as [->|]; cbn [negb]; [by rewrite orb_true_r, E|].
    by rewrite orb_false_r, !andb_true_r.
  - rewrite off_spec. destruct (Z.eqb_spec i 0) as [->|]; cbn [negb]; [by rewrite E|by rewrite andb_true_r].
Qed.

(** The two revisions agree where both are defined. *)
Lemma revisions_agree s :
  rev1.local_irq_enable s = rev2.local_irq_enable s ∧ rev1.local_irq_disable s = rev2.local_irq_disable s ∧
  rev1.local_irq_save s = rev2.local_irq_save s.
Proof.
  assert (Z.lxor (Z.lor s 1) 1 = Z.ldiff s 1) as E.
  { apply Z.bits_inj'. intros i Hi. rewrite Z.lxor_spec, Z.lor_spec, Z.ldiff_spec.
    destruct (Z.testbit s i), (Z.testbit 1 i); done. }
  split; [done|]. unfold rev1.local_irq_disable, rev1.local_irq_save. by rewrite E.
Qed.

(** Nested critical sections of any shape leave Status as it was, all work inside one is done
    with the interrupts off, and work outside of all is done under the first Status. *)
Fixpoint trace (p : prog) (status : Z) : list (nat * Z) :=
  match p with
  | Work id => [(id, status)]
  | Seq p q => trace p status ++ trace q status
  | Protected p => trace p (Z.ldiff status ST_IE)
  end.

Theorem sections_nest p s : run p s = (s, trace p s).
Proof.
  revert s. induction p as [id|p IHp q IHq|p IH]; intros s; simpl.
  - done.
  - by rewrite IHp, IHq.
  - rewrite IH. f_equal. apply restore_save.
Qed.

Lemma protected_off p s : Forall (λ x, enabled (snd x) = false) (snd (run (Protected p) s)).
Proof.
  rewrite sections_nest. simpl. assert (enabled (Z.ldiff s ST_IE) = false) as H.
  { unfold enabled. by rewrite off_spec, andb_false_r. }
  revert H. generalize (Z.ldiff s ST_IE) as t. induction p as [id|p IHp q IHq|p IH]; intros t Ht; simpl.
  - by constructor.
  - apply Forall_app. auto.
  - apply IH. unfold enabled. by rewrite off_spec, andb_false_r.
Qed.

(** ** Mailboxes of MSIM *)

Section mailbox.
Context (MSIM_ORDER_MAILBOX_BASE MSIM_ORDER_MAILBOX_ORDER : Z).

Definition MSIM_ORDER_MAILBOX_SIZE : Z := Z.shiftl 1 MSIM_ORDER_MAILBOX_ORDER.
Definition msim_mailbox (cpuid : Z) : Z := u32 (MSIM_ORDER_MAILBOX_BASE + u32 (cpuid * MSIM_ORDER_MAILBOX_SIZE)).

(** The mailboxes of two processors do not overlap. *)
Lemma mailboxes_disjoint i j x :
  0 ≤ MSIM_ORDER_MAILBOX_ORDER → 0 ≤ MSIM_ORDER_MAILBOX_BASE → 0 ≤ i < j →
  MSIM_ORDER_MAILBOX_BASE + (j + 1) * MSIM_ORDER_MAILBOX_SIZE ≤ 2 ^ 32 →
  msim_mailbox i ≤ x < msim_mailbox i + MSIM_ORDER_MAILBOX_SIZE → x < msim_mailbox j.
Proof.
  unfold msim_mailbox, MSIM_ORDER_MAILBOX_SIZE. intros Ho Hb Hij Hj.
  rewrite Z.shiftl_mul_pow2, Z.mul_1_l in * by done.
  assert (0 < 2 ^ MSIM_ORDER_MAILBOX_ORDER) by (apply Z.pow_pos_nonneg; lia).
  rewrite !(wrap_small 32 (_ * _)) by (unfold in_range; nia). rewrite !wrap_small by (unfold in_range; nia). nia.
Qed.
End mailbox.
