(* ===== verification/Probe.v ===== *)
(** Finding the machine's memory: kern/arch/i386/arch_init.c and mm.c with the memory
    map of the BIOS, kern/arch/mips/mach-msim/memory.c and mach-loongson3a/memory.c,
    and the TLB of kern/arch/mips/mm.c. *)
From Stdlib Require Import ZArith Lia String.
From stdpp Require Import base numbers gmap list.
From S2P Require Import Prelude Util Bitops Pmm Mmu AddrSpace Pgtable Printf Io Uart.

Open Scope Z_scope.

(** A 32-bit integer read as a signed one. *)
Definition s32 (x : Z) : Z := if u32 x <? 2 ^ 31 then u32 x else u32 x - 2 ^ 32.

(** ** i386 *)
Module e820.
Definition E820_RAM : Z := 1.
Definition E820MAX : Z := 20.
Definition HIGHMEM_BASE : Z := 0x100000.

(** struct e820entry and struct e820map *)
Record e820entry : Type := mk_e820entry { e_start : Z; e_size : Z; e_type : Z }.
Record e820map : Type := mk_e820map { num : Z; map : list e820entry }.

Section probe.
Context `{layout}.

(** The state is the queue of early mappings and the variable mem_size. *)
Definition add_mem_size (e : e820entry) : M (mmu_state * Z) unit := λ '(s, n),
  Ret ((), (s, max2 n (u32 (u32 (e_start e) + u32 (e_size e))))).

(** One usable entry; whether the loop ends with it. *)
Definition probe_entry (e : e820entry) : M (mmu_state * Z) bool :=
  let paddr := ALIGN_BELOW 32 (u32 (e_start e)) i386.XPAGE_SIZE in
  let dvaddr := u32 (KERN_BASE + paddr) in
  let vaddr := u32 (ALIGN_ABOVE 64 (u64 (dvaddr + e_size e)) i386.XPAGE_SIZE) in
  let size := u32 (min2 (s32 KMMAP_BASE) (s32 vaddr) - dvaddr) in
  _ ← on_fst (early_mapping_add (mk_mapping paddr dvaddr size EARLY_MAPPING_MEMORY));
  (* identity mapping *)
  _ ← on_fst (early_mapping_add (mk_mapping paddr (u32 paddr) size EARLY_MAPPING_MEMORY));
  _ ← add_mem_size e;
  mret (s32 vaddr >? s32 KMMAP_BASE).

Fixpoint probe_loop (n : nat) (i : Z) (l : list e820entry) : M (mmu_state * Z) unit :=
  match n with
  | O => mret ()
  | S n' =>
      match l !! Z.to_nat i with
      | None => stuck
      | Some e =>
          if e_type e =? E820_RAM then
            stop ← probe_entry e;
            if (stop : bool) then mret () else probe_loop n' (i + 1) l
          else probe_loop n' (i + 1) l
      end
  end.

Definition probe_memory (b : e820map) : M (mmu_state * Z) unit := probe_loop (Z.to_nat (num b)) 0 (map b).
Definition get_mem_size : M (mmu_state * Z) Z := λ '(s, n), Ret (n, (s, n)).
End probe.

Section pages.
Context `{layout}.
Context (kmalloc : Z → Z → M mem Z) (free_pages : pages → M mem unit).

(** sizeof(struct pages) *)
Definition sizeof_pages : Z := 24.

(** The object is written through the pointer kmalloc() returned, which is not
    checked. *)
Definition __init_free_pages (start end_ : Z) : M mem unit :=
  let start := ALIGN_ABOVE 64 start PAGE_SIZE in
  let end_ := ALIGN_BELOW 64 end_ PAGE_SIZE in
  let span := u32 (end_ - start) in
  p ← kmalloc sizeof_pages 0;
  if p =? NULL then stuck else free_pages (mk_pages start span 0 0).

Definition add_entry (kern_end_pa : Z) (e : e820entry) : M mem unit :=
  let start := e_start e in
  if (start >=? HIGHMEM_BASE) && (e_type e =? E820_RAM) then
    let end_ := u64 (start + e_size e) in
    if (kern_end_pa >=? start) && (kern_end_pa <? end_)
    then __init_free_pages kern_end_pa end_
    else __init_free_pages start end_
  else mret ().

Fixpoint add_loop (n : nat) (i kern_end_pa : Z) (l : list e820entry) : M mem unit :=
  match n with
  | O => mret ()
  | S n' =>
      match l !! Z.to_nat i with
      | None => stuck
      | Some e => _ ← add_entry kern_end_pa e; add_loop n' (i + 1) kern_end_pa l
      end
  end.

(** The map is where the boot loader left it, seen through the linear mapping. *)
Definition add_memory_pages (_kern_end : Z) (b : e820map) : M mem unit :=
  add_loop (Z.to_nat (num b)) 0 (i386_space.kva2pa KERN_BASE _kern_end) (map b).
End pages.
End e820.

(** ** MIPS *)
Module mips_mem.
Section msim.
Context (kmalloc : Z → Z → M mem Z) (free_pages : pages → M mem unit).
(** From the configuration; no high memory when HIGHRAM_SIZE is 0. *)
Context (MEM_SIZE HIGHRAM_BASE HIGHRAM_SIZE : Z).

Definition get_mem_size : Z := MEM_SIZE.

Definition add_range (paddr size : Z) : M mem unit :=
  p ← kmalloc e820.sizeof_pages 0;
  if p =? NULL then stuck else free_pages (mk_pages paddr size 0 0).

Definition mips_add_memory_pages (_kern_end : Z) : M mem unit :=
  let kern_end := u32 _kern_end in
  let paddr := mips_space.kva2pa (ALIGN_ABOVE 32 kern_end PAGE_SIZE) in
  _ ← add_range paddr (u64 (mips_space.LOWRAM_TOP - paddr));
  if negb (HIGHRAM_SIZE =? 0) then add_range HIGHRAM_BASE HIGHRAM_SIZE else mret ().
End msim.

(** MSIM preset, and the field of the Config1 register on later processors. *)
Definition msim_tlb_entries : Z := 48.
Definition get_tlb_entries (config1 : Z) : Z := Z.land (Z.shiftr config1 25) 0x3f + 1.

(** The TLB: the entries, each an EntryHi and two EntryLo, and the
    coprocessor registers that tlbwi writes from. *)
Record tlb : Type := mk_tlb {
  entries : list (Z * Z * Z); c0_index : Z; c0_entryhi : Z; c0_entrylo0 : Z; c0_entrylo1 : Z;
}.

Definition write_c0_index (v : Z) : M tlb unit := λ t,
  Ret ((), mk_tlb (entries t) v (c0_entryhi t) (c0_entrylo0 t) (c0_entrylo1 t)).
Definition write_c0_entryhi (v : Z) : M tlb unit := λ t,
  Ret ((), mk_tlb (entries t) (c0_index t) v (c0_entrylo0 t) (c0_entrylo1 t)).
Definition write_c0_entrylo0 (v : Z) : M tlb unit := λ t,
  Ret ((), mk_tlb (entries t) (c0_index t) (c0_entryhi t) v (c0_entrylo1 t)).
Definition write_c0_entrylo1 (v : Z) : M tlb unit := λ t,
  Ret ((), mk_tlb (entries t) (c0_index t) (c0_entryhi t) (c0_entrylo0 t) v).

(** The virtual page pair of an entry. *)
Definition vpn2 (e : Z * Z * Z) : Z := Z.shiftr (fst (fst e)) (PAGE_SHIFT + 1).

(** tlbwi: two entries for one page pair shut the TLB down. Entries with different address
    space identifiers do not clash in the processor; this is stricter: whatever
    identifiers and global bits are, no two entries may have one page pair. *)
Definition tlbwi : M tlb unit := λ t,
  let i := Z.to_nat (c0_index t) in
  let e := (c0_entryhi t, c0_entrylo0 t, c0_entrylo1 t) in
  if decide (i < length (entries t))%nat then
    if existsb (λ '(j, e'), negb (Nat.eqb j i) && (vpn2 e' =? vpn2 e)) (zip (seq 0 (length (entries t))) (entries t)) then Stuck
    else Ret ((), mk_tlb (<[i := e]> (entries t)) (c0_index t) (c0_entryhi t) (c0_entrylo0 t) (c0_entrylo1 t))
  else Stuck.

Definition ENTRYHI_DUMMY (idx : Z) : Z := Z.shiftl idx (PAGE_SHIFT + 1).

Fixpoint flush_loop (n : nat) (i : Z) : M tlb unit :=
  match n with
  | O => mret ()
  | S n' =>
      _ ← write_c0_index i;
      _ ← write_c0_entryhi (ENTRYHI_DUMMY i);
      _ ← write_c0_entrylo0 0;
      _ ← write_c0_entrylo1 0;
      _ ← tlbwi;
      flush_loop n' (i + 1)
  end.

Definition tlb_flush (nr_entries : Z) : M tlb unit := flush_loop (Z.to_nat nr_entries) 0.
Definition arch_mm_init (nr_entries : Z) : M tlb unit := tlb_flush nr_entries.

(** ** Loongson 3A *)
Definition LOONGSON3A_CPU_WIN_BASE : Z := 0x3ff00000.
Definition LOONGSON3A_CPU_WINx_BASEADDR (x : Z) : Z := LOONGSON3A_CPU_WIN_BASE + x * 8.
Definition LOONGSON3A_CPU_WINx_MASKADDR (x : Z) : Z := LOONGSON3A_CPU_WINx_BASEADDR x + 0x40.
Definition LOONGSON3A_CPU_WINx_MMAPADDR (x : Z) : Z := LOONGSON3A_CPU_WINx_BASEADDR x + 0x80.
Definition LOONGSON3A_CORE_WINS : Z := 8.

Section loongson.
(** read64() of a register of the address switch; they do not change. *)
Context (read64 : Z → Z).

(** count_zero_bits() of a 64-bit mask on the 64-bit machine. *)
Definition count_zero_bits (mask : Z) : Z := hweight64 (u64 (Z.lnot mask)).

(** The state has memory ([on_mem]) and a console ([kprintf]). *)
Context {K : Type} (on_mem : ∀ A, M mem A → M K A) (kprintf : list Z → list arg → M K Z).
Arguments on_mem {A}.

Definition window_fmt : list Z := bytes "CPU address mappings: %p %p %p" ++ [ch_lf].
Definition rambase_fmt : list Z := bytes "RAM base: %p" ++ [ch_lf].
Definition ramsize_fmt : list Z := bytes "RAM size: %p" ++ [ch_lf].

(** The loop over the windows: the lowest base and the sum of the sizes. 1 is an
    int, so a shift by 31 or more is undefined. *)
Fixpoint window_loop (n : nat) (j rambase ramsize : Z) : M K (Z * Z) :=
  match n with
  | O => mret (rambase, ramsize)
  | S n' =>
      let base := read64 (LOONGSON3A_CPU_WINx_BASEADDR j) in
      let mask := read64 (LOONGSON3A_CPU_WINx_MASKADDR j) in
      let mmap := read64 (LOONGSON3A_CPU_WINx_MMAPADDR j) in
      _ ← kprintf window_fmt [AWord base; AWord mask; AWord mmap];
      if Z.land base 0xfffffffff0000000 =? 0x10000000 then window_loop n' (j + 1) rambase ramsize else
      if Z.land base 0xfffffffff0000000 =? 0 then window_loop n' (j + 1) rambase ramsize else
      if 31 <=? count_zero_bits mask then stuck else
      window_loop n' (j + 1) (min2 rambase base) (u64 (ramsize + Z.shiftl 1 (count_zero_bits mask)))
  end.

Definition probe_windows : M K (Z * Z) := window_loop (Z.to_nat LOONGSON3A_CORE_WINS) 0 (u64 (-1)) 0.

Context (kmalloc : Z → Z → M mem Z) (free_pages : pages → M mem unit).

Definition loongson_add_memory_pages (_kern_end : Z) : M K unit :=
  r ← probe_windows;
  let '(rambase, ramsize) := r in
  _ ← kprintf rambase_fmt [AWord rambase];
  _ ← kprintf ramsize_fmt [AWord ramsize];
  on_mem (
    p ← kmalloc e820.sizeof_pages 0;
    let reserved_space := mips64_space.kva2pa (ALIGN_ABOVE 64 _kern_end PAGE_SIZE) in
    if p =? NULL then stuck else
    free_pages (mk_pages (u64 (rambase + reserved_space)) (u64 (ramsize - reserved_space)) 0 0)).
End loongson.
End mips_mem.
