(* ===== verification/ProbeProps.v ===== *)
(** What the memory probes find and how the TLB is cleared. *)
From Stdlib Require Import ZArith Lia.
From stdpp Require Import base numbers gmap list.
From S2P Require Import Prelude Util Bitops Pmm Heap Ff FfProps Scenario Mmu AddrSpace Pgtable Probe Printf.

Open Scope Z_scope.

(** ** The TLB *)

Section tlb.
Import mips_mem.

(** The entry that the flush leaves at index [i]. *)
Definition dummy (i : nat) : Z * Z * Z := (ENTRYHI_DUMMY (Z.of_nat i), 0, 0).

Lemma vpn2_dummy i : vpn2 (dummy i) = Z.of_nat i.
Proof. unfold vpn2, dummy, ENTRYHI_DUMMY. simpl. rewrite Z.shiftr_shiftl_l by (by vm_compute). apply Z.shiftl_0_r. Qed.

(** The check for duplicates. *)
Lemma dup_spec i v (l : list (Z * Z * Z)) :
  existsb (λ '(j, e'), negb (Nat.eqb j i) && (vpn2 e' =? v)) (zip (seq 0 (length l)) l) = true ↔
  ∃ j e, l !! j = Some e ∧ j ≠ i ∧ vpn2 e = v.
Proof.
  rewrite existsb_exists. split.
  - intros ([j e] & Hin & Hc). apply list_elem_of_In, list_elem_of_lookup in Hin as [k Hk].
    apply lookup_zip_Some in Hk as [Hj He]. apply lookup_seq in Hj as [-> Hj].
    apply andb_prop in Hc as [Hn Hv]. exists k, e. split; [done|]. split.
    + intros ->. by rewrite Nat.eqb_refl in Hn.
    + by apply Z.eqb_eq.
  - intros (j & e & He & Hne & Hv). exists (j, e). split.
    + apply list_elem_of_In, list_elem_of_lookup. exists j. apply lookup_zip_Some. split; [|done].
      apply lookup_seq. split; [done|]. by eapply lookup_lt_Some.
    + rewrite (proj2 (Nat.eqb_neq j i) Hne), Hv, Z.eqb_refl. done.
Qed.

(** Entries that would be met again while lower slots are being written. *)
Definition clashes (l : list (Z * Z * Z)) : Prop :=
  ∃ j e, l !! j = Some e ∧ 0 ≤ vpn2 e < Z.of_nat j.

(** tlbwi of the dummy for index [k]. *)
Lemma tlbwi_run es (k : nat) :
  (k < length es)%nat →
  let t := mk_tlb es (Z.of_nat k) (ENTRYHI_DUMMY (Z.of_nat k)) 0 0 in
  (∃ j e, es !! j = Some e ∧ j ≠ k ∧ vpn2 e = Z.of_nat k) ∧ tlbwi t = Stuck ∨
  (¬ ∃ j e, es !! j = Some e ∧ j ≠ k ∧ vpn2 e = Z.of_nat k) ∧
  tlbwi t = Ret ((), mk_tlb (<[k := dummy k]> es) (Z.of_nat k) (ENTRYHI_DUMMY (Z.of_nat k)) 0 0).
Proof.
  intros Hk t. unfold tlbwi, t. cbn [entries c0_index c0_entryhi c0_entrylo0 c0_entrylo1].
  rewrite Nat2Z.id, decide_True by done. fold (dummy k). rewrite vpn2_dummy.
  destruct (existsb _ _) eqn:Ex.
  - left. split; [by apply dup_spec|done].
  - right. split; [|done]. intros Hc. apply dup_spec in Hc. congruence.
Qed.

Lemma flush_step (k : nat) rest (t : tlb) n :
  entries t = (dummy <$> seq 0 k) ++ rest → (0 < length rest)%nat →
  (∃ e, (∃ j, rest !! j = Some e ∧ j ≠ O) ∧ vpn2 e = Z.of_nat k) ∧ flush_loop (S n) (Z.of_nat k) t = Stuck ∨
  (¬ ∃ e, (∃ j, rest !! j = Some e ∧ j ≠ O) ∧ vpn2 e = Z.of_nat k) ∧
  ∃ t', entries t' = (dummy <$> seq 0 (S k)) ++ drop 1 rest ∧
    flush_loop (S n) (Z.of_nat k) t = flush_loop n (Z.of_nat (S k)) t'.
Proof.
  intros He Hr. cbn [flush_loop]. do 4 (erewrite bind_ret by reflexivity). cbn [entries].
  assert (Hlen : length (entries t) = (k + length rest)%nat) by (rewrite He, length_app, length_fmap, length_seq; done).
  assert (Hdup : (∃ j e', entries t !! j = Some e' ∧ j ≠ k ∧ vpn2 e' = Z.of_nat k) ↔
                 ∃ e', (∃ j, rest !! j = Some e' ∧ j ≠ O) ∧ vpn2 e' = Z.of_nat k).
  { rewrite He. split.
    - intros (j & e' & Hj & Hne & E). apply lookup_app_Some in Hj as [Hj|[Hl Hj]].
      + apply list_lookup_fmap_Some in Hj as (i & -> & Hi). apply lookup_seq in Hi as [-> Hi]. rewrite vpn2_dummy in E. lia.
      + rewrite length_fmap, length_seq in *. exists e'. split; [|done]. exists (j - k)%nat. split; [done|lia].
    - intros (e' & (j & Hj & Hne) & E). exists (k + j)%nat, e'. split; [|split; [lia|done]].
      rewrite lookup_app_r; rewrite length_fmap, length_seq; [|lia]. by replace (k + j - k)%nat with j by lia. }
  destruct (tlbwi_run (entries t) k ltac:(lia)) as [[Hd Hs]|[Hd Hr']].
  - left. split; [by apply Hdup|]. by apply bind_stuck.
  - right. split; [by rewrite <-Hdup|]. eexists. split; [|erewrite bind_ret by exact Hr';
      replace (Z.of_nat k + 1) with (Z.of_nat (S k)) by lia; reflexivity]. cbn [entries].
    rewrite He, insert_app_r_alt by (rewrite length_fmap, length_seq; lia). rewrite length_fmap, length_seq, Nat.sub_diag.
    destruct rest as [|x rest]; [simpl in Hr; lia|]. simpl drop. rewrite seq_S, fmap_app, <-app_assoc. done.
Qed.

Lemma flush_loop_run n k rest (t : tlb) :
  entries t = (dummy <$> seq 0 k) ++ rest → length rest = n →
  (flush_loop n (Z.of_nat k) t = Stuck ∧
     ∃ j e, rest !! j = Some e ∧ Z.of_nat k ≤ vpn2 e < Z.of_nat (k + j)) ∨
  ((¬ ∃ j e, rest !! j = Some e ∧ Z.of_nat k ≤ vpn2 e < Z.of_nat (k + j)) ∧
   ∃ t', flush_loop n (Z.of_nat k) t = Ret ((), t') ∧ entries t' = dummy <$> seq 0 (k + n)).
Proof.
  revert k rest t. induction n as [|n IH]; intros k rest t He Hl.
  - destruct rest; [|done]. right. split; [by intros (j & e & Hj & _)|]. exists t. split; [done|].
    rewrite He, app_nil_r. by rewrite Nat.add_0_r.
  - destruct rest as [|x rest]; [done|]. simpl in Hl.
    destruct (flush_step k (x :: rest) t n He) as [[(e & (j & Hj & Hne) & Ev) Hs]|(Hno & t' & He' & Hs)]; [simpl; lia| |].
    + left. split; [done|]. exists j, e. split; [done|]. lia.
    + simpl drop in He'. rewrite Hs.
      destruct (IH (S k) rest t' He') as [[Hst (j & e & Hj & Hv)]|[Hok (t2 & Hr & He2)]]; [lia| |].
      * left. split; [done|]. exists (S j), e. split; [done|]. lia.
      * right. split.
        -- intros ([|j] & e & Hj & Hv); [lia|]. simpl in Hj.
           destruct (decide (vpn2 e = Z.of_nat k)) as [E|].
           ++ apply Hno. exists e. split; [|done]. by exists (S j).
           ++ apply Hok. exists j, e. split; [done|]. lia.
        -- exists t2. split; [done|]. rewrite He2. do 2 f_equal. lia.
Qed.

(** C25: tlb_flush() fills every entry with a page pair of its own, none of them valid, so
    that afterwards no two entries can match one address. On the way it writes
    the pairs 0, 1, ... and the processor does not allow two entries for one pair: the
    flush works exactly when no entry holds a pair whose number is below the
    entry's index, and shuts the TLB down otherwise. *)
Theorem tlb_flush_clears (t : tlb) nr :
  length (entries t) = Z.to_nat nr → 
  (¬ clashes (entries t) ∧ ∃ t', tlb_flush nr t = Ret ((), t') ∧ entries t' = dummy <$> seq 0 (Z.to_nat nr) ∧
     NoDup (vpn2 <$> entries t')) ∨
  (clashes (entries t) ∧ tlb_flush nr t = Stuck).
Proof.
  intros Hl. unfold tlb_flush. change 0 with (Z.of_nat 0).
  destruct (flush_loop_run (Z.to_nat nr) 0 (entries t) t eq_refl Hl) as [[Hs (j & e & Hj & Hv)]|[Hok (t' & Hr & He)]].
  - right. split; [|done]. exists j, e. split; [done|]. lia.
  - left. split; [intros (j & e & Hj & Hv); apply Hok; by exists j, e|]. exists t'. split; [done|]. split; [done|].
    rewrite He. rewrite <-list_fmap_compose.
    rewrite (list_fmap_ext _ Z.of_nat) by (intros i x _; apply vpn2_dummy).
    apply NoDup_fmap_2; [apply _|]. apply NoDup_seq.
Qed.
End tlb.

(** ** The memory map of the BIOS *)

Section e820.
Import e820.
Context `{LY : layout}.
(** The kernel lives in the upper half, and both bases are 4 MB aligned. *)
Context (Hhigh : 2 ^ 31 ≤ KERN_BASE) (Hkern : KERN_BASE mod i386.XPAGE_SIZE = 0) (Hkmmap : KMMAP_BASE mod i386.XPAGE_SIZE = 0).

Lemma s32_low x : 0 ≤ x < 2 ^ 31 → s32 x = x.
Proof using. intros. unfold s32. rewrite wrap_small by (unfold in_range; lia). destruct (Z.ltb_spec x (2 ^ 31)); lia. Qed.

Lemma s32_high x : 2 ^ 31 ≤ x < 2 ^ 32 → s32 x = x - 2 ^ 32.
Proof using. intros. unfold s32. rewrite wrap_small by (unfold in_range; lia). destruct (Z.ltb_spec x (2 ^ 31)); lia. Qed.

(** The size of the mapping: signed comparison and wrap-around included, it ends
    at the end of the entry, rounded up, or at KMMAP_BASE. *)
Lemma probe_size p sz :
  0 ≤ p → p mod 4194304 = 0 → KERN_BASE + p < KMMAP_BASE → 0 ≤ sz < 2 ^ 31 →
  let dv := KERN_BASE + p in
  let e := (dv + sz + 4194303) / 4194304 * 4194304 in
  u32 dv = dv ∧
  let vaddr := u32 (ALIGN_ABOVE 64 (u64 (dv + sz)) i386.XPAGE_SIZE) in
  u32 (min2 (s32 KMMAP_BASE) (s32 vaddr) - dv) = Z.min e KMMAP_BASE - dv ∧
  (s32 vaddr >? s32 KMMAP_BASE) = (e >? KMMAP_BASE).
Proof using Hhigh Hkern Hkmmap.
  intros Hp Hpa Hlt Hsz dv e. pose proof layout_ok as (? & ? & ?).
  change i386.XPAGE_SIZE with 4194304 in Hkmmap.
  split; [apply wrap_small; unfold in_range, dv; lia|]. cbv zeta.
  rewrite (wrap_small 64) by (unfold in_range, dv; lia).
  change i386.XPAGE_SIZE with (2 ^ 22). rewrite (ALIGN_ABOVE_spec 64 22) by (unfold in_range, dv; lia).
  change (2 ^ 22) with 4194304. replace (dv + sz + 4194304 - 1) with (dv + sz + 4194303) by lia. fold e.
  assert (dv ≤ e < 2 ^ 32 + 2 ^ 31) as He by (unfold e, dv in *; Z.div_mod_to_equations; lia).
  rewrite (s32_high KMMAP_BASE) by lia. unfold min2, dv in *.
  destruct (decide (e < 2 ^ 32)).
  - rewrite (wrap_small 32 e), s32_high by (unfold in_range; lia).
    destruct (Z.ltb_spec (KMMAP_BASE - 2 ^ 32) (e - 2 ^ 32)).
    + rewrite Z.min_r by lia. split; [apply wrap_minus; lia|].
      destruct (Z.gtb_spec (e - 2 ^ 32) (KMMAP_BASE - 2 ^ 32)), (Z.gtb_spec e KMMAP_BASE); lia || done.
    + rewrite Z.min_l by lia. split; [apply wrap_minus; lia|].
      destruct (Z.gtb_spec (e - 2 ^ 32) (KMMAP_BASE - 2 ^ 32)), (Z.gtb_spec e KMMAP_BASE); lia || done.
  - assert (u32 e = e - 2 ^ 32) as -> by (apply (wrap_over 32); lia). rewrite s32_low by lia.
    destruct (Z.ltb_spec (KMMAP_BASE - 2 ^ 32) (e - 2 ^ 32)); [|lia].
    rewrite Z.min_r by lia. split; [apply wrap_minus; lia|].
    destruct (Z.gtb_spec (e - 2 ^ 32) (KMMAP_BASE - 2 ^ 32)), (Z.gtb_spec e KMMAP_BASE); lia || done.
Qed.

(** Appending to the queue. *)
Lemma early_add_run x (s : mmu_state) :
  0 ≤ q_size (early_mappings s) < EARLY_MAPPING_QUEUE_LENGTH →
  early_mapping_add x s = Ret (0, set_mappings s (mk_queue (q_size (early_mappings s) + 1)
    (<[Z.to_nat (q_size (early_mappings s)) := x]> (q_slots (early_mappings s))))).
Proof using.
  intros Hq. unfold early_mapping_add. erewrite bind_ret by reflexivity. unfold queue_add.
  destruct (Z.gtb_spec (q_size (early_mappings s)) EARLY_MAPPING_QUEUE_LENGTH); [lia|].
  destruct (Z.eqb_spec (q_size (early_mappings s)) EARLY_MAPPING_QUEUE_LENGTH); [lia|]. done.
Qed.

(** C24: for a usable entry of the BIOS map that starts below the end of the linear mapping
    (KERN_BASE + start < KMMAP_BASE) and is smaller than 2 GB, with two free places in the
    queue and both bases 4 MB aligned and in the upper half, probe_memory() queues exactly two mappings, one at KERN_BASE and one at
    the physical address itself: they start at the entry's start rounded down to 4 MB
    and are as long as the entry's size rounded up to 4 MB, cut off at
    KMMAP_BASE, although the code compares 32-bit ends that may have wrapped around;
    the loop ends when the mapping had to be cut. All bytes of the entry that
    the linear mapping has room for are covered except, at its end, as many as rounding
    the start down added (less than 4 MB), because the size is not enlarged by them. An entry
    at or above 4 GB is treated like the one at its address modulo 4 GB, so it
    is not mapped at its own address. *)
Theorem probe_entry_linear e (s : mmu_state) n :
  0 ≤ e_start e → KERN_BASE + e_start e < KMMAP_BASE → 0 ≤ e_size e < 2 ^ 31 →
  0 ≤ q_size (early_mappings s) ≤ 8 → length (q_slots (early_mappings s)) = 10%nat →
  let q := q_size (early_mappings s) in
  let p := e_start e / i386.XPAGE_SIZE * i386.XPAGE_SIZE in
  let whole := (e_size e + i386.XPAGE_SIZE - 1) / i386.XPAGE_SIZE * i386.XPAGE_SIZE in
  let sz := Z.min whole (KMMAP_BASE - (KERN_BASE + p)) in
  probe_entry e (s, n) = Ret (sz <? whole, (set_mappings s (mk_queue (q + 2)
     (<[Z.to_nat (q + 1) := mk_mapping p p sz EARLY_MAPPING_MEMORY]>
       (<[Z.to_nat q := mk_mapping p (KERN_BASE + p) sz EARLY_MAPPING_MEMORY]> (q_slots (early_mappings s))))),
     max2 n (u32 (e_start e + e_size e)))) ∧
  sz mod i386.XPAGE_SIZE = 0 ∧ KERN_BASE + p + sz ≤ KMMAP_BASE ∧
  (∀ a, e_start e ≤ a < e_start e + e_size e - e_start e mod i386.XPAGE_SIZE → KERN_BASE + a < KMMAP_BASE → p ≤ a < p + sz) ∧
  (∀ k, probe_entry (mk_e820entry (e_start e + k * 2 ^ 32) (e_size e) (e_type e)) (s, n) = probe_entry e (s, n)).
Proof using Hhigh Hkern Hkmmap.
  intros H0 Hlow Hsz Hq Hlen q p whole sz. pose proof layout_ok as (? & ? & ?).
  unfold p, whole in *. clear p whole. change i386.XPAGE_SIZE with 4194304 in *.
  set (p := e_start e / 4194304 * 4194304) in *.
  assert (0 ≤ p ≤ e_start e ∧ p mod 4194304 = 0 ∧ e_start e < p + 4194304) as (Hp & Hpa & Hpe)
    by (unfold p; Z.div_mod_to_equations; lia).
  destruct (probe_size p (e_size e) ltac:(lia) Hpa ltac:(lia) Hsz) as (Edv & Esz & Est).
  set (dv := KERN_BASE + p) in *. set (E := (dv + e_size e + 4194303) / 4194304 * 4194304) in *.
  assert (Hda : dv mod 4194304 = 0) by (unfold dv; Z.div_mod_to_equations; lia).
  set (whole := (e_size e + 4194304 - 1) / 4194304 * 4194304) in *.
  assert (HE : E = dv + whole) by (unfold E, whole; Z.div_mod_to_equations; lia).
  assert (HW : e_size e ≤ whole ∧ whole mod 4194304 = 0) by (unfold whole; Z.div_mod_to_equations; lia).
  clearbody whole E. subst E.
  assert (Ep : ALIGN_BELOW 32 (u32 (e_start e)) i386.XPAGE_SIZE = p).
  { rewrite (wrap_small 32) by (unfold in_range; lia). change i386.XPAGE_SIZE with (2 ^ 22).
    rewrite (ALIGN_BELOW_spec 32 22) by (unfold in_range; lia). done. }
  assert (Hmin : Z.min (dv + whole) KMMAP_BASE - dv = sz) by (unfold sz; lia).
  assert (Hstop : (dv + whole >? KMMAP_BASE) = (sz <? whole)) by (unfold sz; lia).
  split_and!.
  - unfold probe_entry. rewrite Ep. fold dv. rewrite Edv. cbv zeta in Esz, Est. rewrite Esz, Est, Hmin, Hstop.
    rewrite (wrap_small 32 p) by (unfold in_range; lia).
    erewrite bind_ret by (apply on_fst_ret, early_add_run; unfold EARLY_MAPPING_QUEUE_LENGTH; lia).
    erewrite bind_ret by (apply on_fst_ret, early_add_run; unfold EARLY_MAPPING_QUEUE_LENGTH; simpl; lia).
    cbn [early_mappings set_mappings q_size q_slots]. erewrite bind_ret by reflexivity. cbv beta iota.
    rewrite <-Z.add_assoc. change (1 + 1) with 2. do 3 f_equal. unfold wrap. by rewrite <-Zplus_mod.
  - unfold sz. destruct (Z.min_spec whole (KMMAP_BASE - dv)) as [[_ ->]|[_ ->]]; [apply HW|].
    Z.div_mod_to_equations. lia.
  - unfold sz, dv. lia.
  - intros a Ha Hak. split; [lia|]. unfold sz, dv.
    assert (e_start e mod 4194304 = e_start e - p) by (unfold p; Z.div_mod_to_equations; lia). lia.
  - intros k. unfold probe_entry, add_mem_size. cbn [e_start e_size].
    replace (u32 (e_start e + k * 2 ^ 32)) with (u32 (e_start e)) by (unfold wrap; by rewrite Z_mod_plus_full). done.
Qed.
End e820.

Lemma probe_entry_linear_witness :
  ∃ st, e820.probe_entry (e820.mk_e820entry 0x100000 0x7fe0000 1) (fresh, 0) = Ret (false, st) ∧
    q_slots (early_mappings (fst st)) !! 0%nat = Some (mk_mapping 0 0x80000000 0x8000000 EARLY_MAPPING_MEMORY).
Proof.
  destruct (probe_entry_linear (LY := layout_2g) ltac:(by vm_compute) eq_refl eq_refl (e820.mk_e820entry 0x100000 0x7fe0000 1) fresh 0)
    as (E & _); [by vm_compute..|].
  eexists. split; [exact E|]. by vm_compute.
Defined.

(** RAM from 1 MB up to 0x80e0000: the pages from 0x8000000 on are not mapped. *)
Example probe_tail_unmapped :
  match e820.probe_entry (e820.mk_e820entry 0x100000 0x7fe0000 1) (fresh, 0) with
  | Ret (_, (s, _)) => q_slots (early_mappings s) !! 0%nat
  | _ => None
  end = Some (mk_mapping 0 0x80000000 0x8000000 EARLY_MAPPING_MEMORY).
Proof. by vm_compute. Qed.

(** ** Giving the memory to the page allocator *)

Section pages.
Import e820.
Context {kmalloc : Z → Z → M mem Z} {kfree : Z → M mem unit} {Hheap : HeapSpec kmalloc kfree}.
Context `{LY : layout} (__head : Z) (head_static : ∀ live, ¬ heap_owned live __head).

Local Abbreviation free := (ff.__free kmalloc kfree __head).

(** The whole pages of an entry above the first megabyte; of an entry in which the
    kernel ends, those past its end. *)
Definition usable_start (kern_end_pa : Z) (e : e820entry) : Z :=
  let lo := if (e_start e <=? kern_end_pa) && (kern_end_pa <? e_start e + e_size e) then kern_end_pa else e_start e in
  (lo + 4095) / 4096 * 4096.
Definition usable_end (e : e820entry) : Z := (e_start e + e_size e) / 4096 * 4096.
Definition usable (e : e820entry) : Prop := HIGHMEM_BASE ≤ e_start e ∧ e_type e = E820_RAM.
Definition in_usable (kern_end_pa : Z) (e : e820entry) (x : Z) : Prop :=
  usable e ∧ usable_start kern_end_pa e ≤ x < usable_end e.

(** At least one page, and less than 4 GB: what the 32-bit span can express. *)
Definition entry_ok (kern_end_pa : Z) (e : e820entry) : Prop :=
  0 ≤ e_start e ∧ 0 ≤ e_size e ∧ e_start e + e_size e < 2 ^ 63 ∧
  (usable e → 0 < usable_end e - usable_start kern_end_pa e < 2 ^ 32).

(** kmalloc() has no room for the two objects of a further entry. *)
Definition exhausted_at (m : mem) : Prop :=
  (∃ m1, kmalloc sizeof_pages 0 m = Ret (NULL, m1)) ∨
  (∃ p m1 m2, kmalloc sizeof_pages 0 m = Ret (p, m1) ∧ p ≠ NULL ∧ kmalloc ff.sizeof_block 0 m1 = Ret (NULL, m2)).

Lemma init_free_run m bs start end_ :
  ff_inv __head m bs → 0 < start → 0 ≤ end_ < 2 ^ 63 → start < 2 ^ 63 →
  let lo := (start + 4095) / 4096 * 4096 in let hi := end_ / 4096 * 4096 in
  0 < hi - lo < 2 ^ 32 → (∀ x, ff.in_free bs x → ¬ (lo ≤ x < hi)) →
  exhausted_at m ∨
  wp (__init_free_pages kmalloc free start end_) m (λ _ m', ∃ bs', ff_inv __head m' bs' ∧
    ∀ x, ff.in_free bs' x ↔ ff.in_free bs x ∨ lo ≤ x < hi).
Proof using head_static.
  intros Hi Hs He Hs' lo hi Hspan Hd. unfold __init_free_pages.
  change PAGE_SIZE with (2 ^ 12). rewrite (ALIGN_ABOVE_spec 64 12), (ALIGN_BELOW_spec 64 12) by (unfold in_range; lia).
  change (2 ^ 12) with 4096. replace (start + 4096 - 1) with (start + 4095) by lia. fold lo hi.
  rewrite (wrap_small 32) by (unfold in_range; lia).
  destruct (Hi) as [[live [Hr _]] _].
  destruct (wp_elim _ _ _ (kmalloc_spec m live sizeof_pages 0 (ff.lrep_heap _ _ _ _ Hr) ltac:(by vm_compute))) as (p & m1 & Hk & _).
  destruct (decide (p = NULL)) as [->|Hp]; [left; left; by exists m1|].
  pose proof (ff_inv_kmalloc __head head_static m bs sizeof_pages p m1 Hi ltac:(by vm_compute) Hk Hp) as Hi1.
  destruct (Hi1) as [[live1 [Hr1 _]] _].
  destruct (wp_elim _ _ _ (kmalloc_spec m1 live1 ff.sizeof_block 0 (ff.lrep_heap _ _ _ _ Hr1) ltac:(by vm_compute))) as (b & m2 & Hk1 & _).
  destruct (decide (b = NULL)) as [->|Hb]; [left; right; by exists p, m1, m2|].
  right. wp_step. eapply wp_eq; [exact Hk|]. rewrite (proj2 (Z.eqb_neq _ _) Hp).
  eapply wp_mono; [eapply (free_inv __head head_static m1 bs (mk_pages lo (hi - lo) 0 0) b m2); [done| | |done|done]|].
  - split_and!; simpl; [unfold lo; Z.div_mod_to_equations; lia|lia|unfold hi in *; Z.div_mod_to_equations; lia| |];
      unfold page_aligned, lo, hi; change PAGE_SIZE with 4096; Z.div_mod_to_equations; lia.
  - intros x Hx Hin. apply (Hd x Hx). unfold in_pages in Hin. simpl in Hin. lia.
  - intros [] m' (bs' & Hi' & Hfree). exists bs'. split; [done|]. intros x. rewrite Hfree. unfold in_pages. simpl.
    split; intros [?|?]; auto; right; lia.
Qed.

Lemma add_entry_run m bs kern_end_pa e :
  ff_inv __head m bs → in_range 32 kern_end_pa → entry_ok kern_end_pa e →
  (∀ x, ff.in_free bs x → ¬ in_usable kern_end_pa e x) →
  exhausted_at m ∨
  wp (add_entry kmalloc free kern_end_pa e) m (λ _ m', ∃ bs', ff_inv __head m' bs' ∧
    ∀ x, ff.in_free bs' x ↔ ff.in_free bs x ∨ in_usable kern_end_pa e x).
Proof using head_static.
  intros Hi Hk (H0 & H1 & H2 & H3) Hd. unfold in_range in Hk. unfold add_entry.
  rewrite (wrap_small 64) by (unfold in_range; lia).
  destruct (Z.geb_spec (e_start e) HIGHMEM_BASE) as [Hh|Hh]; simpl.
  2:{ right. apply wp_ret. exists bs. split; [done|]. unfold in_usable, usable. intros x. split; [by left|intros [?|?]; [done|lia]]. }
  destruct (Z.eqb_spec (e_type e) E820_RAM) as [Ht|Ht].
  2:{ right. apply wp_ret. exists bs. split; [done|]. unfold in_usable, usable. intros x. split; [by left|intros [?|?]; [done|tauto]]. }
  assert (Hu : usable e) by (split; [lia|done]). specialize (H3 Hu).
  unfold in_usable, usable_start, usable_end in *. unfold HIGHMEM_BASE in Hh.
  rewrite Z.geb_leb. destruct (Z.leb_spec (e_start e) kern_end_pa), (Z.ltb_spec kern_end_pa (e_start e + e_size e));
    cbn [andb] in *.
  all: edestruct (init_free_run m bs) as [Hx|Hw]; [exact Hi| | | |exact H3| |left; exact Hx|right]; [lia|lia|lia| |].
  all: try (intros x Hx Hr; exact (Hd x Hx (conj Hu Hr))).
  all: eapply wp_mono; [exact Hw|]; intros [] m' (bs' & Hi' & Hfree); exists bs'; split; [done|]; intros x; rewrite Hfree; tauto.
Qed.

Lemma add_loop_run n i m bs kern_end_pa l :
  ff_inv __head m bs → in_range 32 kern_end_pa → 0 ≤ i → (Z.to_nat i + n ≤ length l)%nat →
  let es := take n (drop (Z.to_nat i) l) in
  Forall (entry_ok kern_end_pa) es →
  (∀ x, ff.in_free bs x → ¬ Exists (λ e, in_usable kern_end_pa e x) es) →
  (∀ a b ea eb x, es !! a = Some ea → es !! b = Some eb → a ≠ b → in_usable kern_end_pa ea x → ¬ in_usable kern_end_pa eb x) →
  (∃ k m1, (k < n)%nat ∧ add_loop kmalloc free k i kern_end_pa l m = Ret ((), m1) ∧ exhausted_at m1) ∨
  wp (add_loop kmalloc free n i kern_end_pa l) m (λ _ m', ∃ bs', ff_inv __head m' bs' ∧
    ∀ x, ff.in_free bs' x ↔ ff.in_free bs x ∨ Exists (λ e, in_usable kern_end_pa e x) es).
Proof using head_static.
  revert i m bs. induction n as [|n IH]; intros i m bs Hi Hk Hi0 Hl es Hok Hd Hp.
  - right. apply wp_ret. exists bs. split; [done|]. intros x. unfold es. rewrite take_0, Exists_nil. tauto.
  - destruct (lookup_lt_is_Some_2 l (Z.to_nat i)) as [e He]; [lia|].
    assert (Hes : es = e :: take n (drop (Z.to_nat (i + 1)) l)).
    { unfold es. rewrite (drop_S _ e) by done. simpl. do 2 f_equal. by replace (Z.to_nat (i + 1)) with (S (Z.to_nat i)) by lia. }
    clearbody es. subst es. apply Forall_cons in Hok as [Hok Hok'].
    cbn [add_loop]. rewrite He.
    destruct (add_entry_run m bs kern_end_pa e Hi Hk Hok) as [Hx|Hw];
      [|left; exists O, m; split; [lia|]; by split|].
    { intros x Hx Hin. apply (Hd x Hx). by left. }
    apply wp_elim in Hw as ([] & m1 & E1 & bs1 & Hi1 & Hf1).
    destruct (IH (i + 1) m1 bs1 Hi1 Hk) as [(k & m2 & Hlt & E2 & Hx)|Hw]; [lia|lia|done| | | |].
    + intros x Hx Hex. apply Hf1 in Hx as [Hx|Hx]; [apply (Hd x Hx); by right|].
      apply Exists_exists in Hex as (e' & Hin & He'). apply list_elem_of_lookup in Hin as [b Hb].
      by apply (Hp O (S b) e e' x).
    + intros a b ea eb x Ha Hb Hne. apply (Hp (S a) (S b)); [done|done|lia].
    + left. exists (S k), m2. split; [lia|]. split; [|done]. cbn [add_loop]. rewrite He.
      by erewrite bind_ret by exact E1.
    + right. wp_step. eapply wp_eq; [exact E1|]. eapply wp_mono; [exact Hw|].
      intros [] m' (bs' & Hi' & Hf'). exists bs'. split; [done|]. intros x. rewrite Hf', Hf1, Exists_cons. tauto.
Qed.

(** C23: add_memory_pages() of i386 hands the page allocator exactly the whole pages of the
    RAM entries of the BIOS map that start at or above the first megabyte: of an
    entry in which the kernel ends, only those past its end, of every other entry
    all of them, also when it lies wholly below the end of the kernel. It fails only when
    kmalloc() returns NULL for the next entry, after some entries were added. This needs
    of the map that each such entry leaves at least one whole page and less than
    4 GB (the span is a 32-bit difference that the code never checks), and that these ranges
    overlap neither each other nor memory that is free already. *)
Theorem e820_pages_added m bs _kern_end b :
  ff_inv __head m bs →
  0 ≤ num b → (Z.to_nat (num b) ≤ length (map b))%nat →
  let kern_end_pa := i386_space.kva2pa KERN_BASE _kern_end in
  let es := take (Z.to_nat (num b)) (map b) in
  Forall (entry_ok kern_end_pa) es →
  (∀ x, ff.in_free bs x → ¬ Exists (λ e, in_usable kern_end_pa e x) es) →
  (∀ i j ei ej x, es !! i = Some ei → es !! j = Some ej → i ≠ j → in_usable kern_end_pa ei x → ¬ in_usable kern_end_pa ej x) →
  (∃ k m1, k < num b ∧ add_memory_pages kmalloc free _kern_end (mk_e820map k (map b)) m = Ret ((), m1) ∧ exhausted_at m1) ∨
  wp (add_memory_pages kmalloc free _kern_end b) m (λ _ m', ∃ bs', ff_inv __head m' bs' ∧
    ∀ x, ff.in_free bs' x ↔ ff.in_free bs x ∨ Exists (λ e, in_usable kern_end_pa e x) es).
Proof using head_static.
  intros Hi Hn Hl kern_end_pa es Hok Hd Hp. unfold add_memory_pages. fold kern_end_pa.
  assert (Hk : in_range 32 kern_end_pa) by by apply wrap_range.
  destruct (add_loop_run (Z.to_nat (num b)) 0 m bs kern_end_pa (map b)) as [(k & m1 & Hlt & E & Hx)|Hw]; try done; [|by right].
  left. exists (Z.of_nat k), m1. cbn [num map]. split; [lia|]. rewrite Nat2Z.id. by split.
Qed.
End pages.

(** ** Concrete machines *)

Module ProbeScenario.
Import e820 Scenario.

(** One megabyte of RAM from 1 MB on, with the kernel in its first 64 KB. *)
Definition bios : e820map := mk_e820map 2 [mk_e820entry 0 0x9fc00 1; mk_e820entry 0x100000 0x100000 1].

Lemma inited_inv : ff_inv ff_head inited [].
Proof. split; [by eexists; exact inited_rep|]. split; constructor. Qed.

(** Whether both objects of an entry can be allocated. *)
Definition two_objects (m : mem) : bool :=
  match kmalloc sizeof_pages 0 m with
  | Ret (p, m1) => negb (p =? NULL) && returns (kmalloc ff.sizeof_block 0) m1 (λ b, negb (b =? NULL))
  | _ => false
  end.

Lemma two_objects_ok m : two_objects m = true → ¬ exhausted_at (kmalloc := kmalloc) m.
Proof.
  unfold two_objects. intros H [(m1 & E)|(p & m1 & m2 & E & Hp & E2)]; rewrite E in H; [done|].
  apply andb_prop in H as [_ H]. unfold returns in H. by rewrite E2 in H.
Qed.

Lemma bios_entry_ok : Forall (entry_ok 0x110000) (map bios).
Proof.
  repeat (apply Forall_cons; split); [..|by apply Forall_nil];
    (split; [by vm_compute|]; split; [by vm_compute|]; split; [by vm_compute|]; intros [Hu _]; by vm_compute in Hu |- *).
Qed.

Definition give (b : e820map) : M mem unit :=
  add_memory_pages kmalloc (ff.__free kmalloc kfree ff_head) 0x80110000 b.

(** The low memory is passed over. *)
Lemma give_low k m : k < 2 → give (mk_e820map k (map bios)) m = Ret ((), m).
Proof.
  intros Hk. destruct (decide (k = 1)) as [->|]; [done|].
  assert (Hz : Z.to_nat k = O) by lia. unfold give, add_memory_pages. cbn [num]. by rewrite Hz.
Qed.

Lemma inited_room : two_objects inited = true.
Proof. by vm_compute. Qed.

Lemma bios_low x : ¬ in_usable 0x110000 (mk_e820entry 0 0x9fc00 1) x.
Proof. intros [[H _] _]. by vm_compute in H. Qed.

Lemma bios_usable x :
  ff.in_free [] x ∨ Exists (λ e, in_usable 0x110000 e x) (map bios) ↔ 0x110000 ≤ x < 0x200000.
Proof.
  unfold bios, ff.in_free. cbn [map]. rewrite !Exists_cons, !Exists_nil. pose proof (bios_low x). split.
  - intros [[]|[?|[[_ H']|[]]]]; [done|exact H'].
  - intros Hx. right. right. left. by split; [split|].
Qed.

Lemma e820_pages_added_witness :
  wp (give bios) inited (λ _ m', ∃ bs', ff_inv ff_head m' bs' ∧ ∀ x, ff.in_free bs' x ↔ 0x110000 ≤ x < 0x200000).
Proof.
  destruct (e820_pages_added ff_head ff_head_static inited [] 0x80110000 bios inited_inv) as [(k & m1 & Hk & E & Hx)|Hw].
  - done.
  - done.
  - exact bios_entry_ok.
  - intros x Hx. by apply Exists_nil in Hx.
  - intros [|[|i]] [|[|j]] ei ej x Hi Hj Hne; simpl in Hi, Hj; simplify_eq; [by intros H%bios_low|by intros _ H%bios_low].
  - exfalso. change (num bios) with 2 in Hk.
    assert (Hl := give_low k inited Hk). unfold give in Hl. rewrite Hl in E. injection E as <-.
    exact (two_objects_ok inited inited_room Hx).
  - eapply wp_mono; [exact Hw|]. clear Hw. intros u m' (bs' & Hi & Hf). exists bs'. split; [exact Hi|].
    intros x. rewrite Hf. apply bios_usable.
Defined.

(** A TLB of 48 entries with kernel addresses in them. *)
Definition tlb0 : mips_mem.tlb := mips_mem.mk_tlb ((λ i, (0xc0000000 + 0x2000 * Z.of_nat i, 7, 7)) <$> seq 0 48) 0 0 0 0.

Lemma tlb_flush_clears_witness :
  ∃ t', mips_mem.tlb_flush mips_mem.msim_tlb_entries tlb0 = Ret ((), t') ∧
    mips_mem.entries t' !! 5%nat = Some (0xa000, 0, 0).
Proof.
  destruct (tlb_flush_clears tlb0 mips_mem.msim_tlb_entries) as [[_ (t' & E & He & _)]|[(j & e & Hj & Hv) _]]; [done| |].
  - exists t'. split; [exact E|]. rewrite He. by vm_compute.
  - exfalso. unfold tlb0 in Hj. cbn [mips_mem.entries] in Hj. apply list_lookup_fmap_Some in Hj as (i & -> & Hi).
    apply lookup_seq in Hi as [-> Hi]. unfold mips_mem.vpn2 in Hv. cbn [fst] in Hv.
    rewrite Z.shiftr_div_pow2 in Hv by (by vm_compute). change (2 ^ (PAGE_SHIFT + 1)) with 8192 in Hv.
    Z.div_mod_to_equations. lia.
Defined.

(** An entry for the first two pages in a slot other than the first shuts the TLB down. *)
Example tlb_flush_clash :
  mips_mem.tlb_flush 2 (mips_mem.mk_tlb [(0xc0000000, 0, 0); (0, 0, 0)] 0 0 0 0) = Stuck.
Proof. by vm_compute. Qed.

(** The windows that the comment in memory.c shows: 4 GB from 0x80000000 on. *)
Definition windows (a : Z) : Z :=
  let i := (a - mips_mem.LOONGSON3A_CPU_WIN_BASE) / 8 in
  nth (Z.to_nat i)
    [0x1fc00000; 0x10000000; 0; 0x100000; 0x80000000; 0x80100000; 0x100000000; 0x100100000;
     0xfffffffffff00000; 0xfffffffff0000000; 0xfffffffff0100000; 0xfffffffff0100000;
     0xffffffff80100000; 0xffffffff80100000; 0xffffffff80100000; 0xffffffff80100000;
     0x1fc000f2; 0x10000082; 0xf0; 0xf1; 0xf0; 0xf1; 0x1000f0; 0x1000f1] 0.

Definition record (fmt : list Z) (args : list arg) : M (list (list arg)) Z := λ l, Ret (0, l ++ [args]).

Example loongson_default :
  match mips_mem.probe_windows windows record [] with
  | Ret (r, l) => r = (0x80000000, 0x100000000) ∧
      l !! 4%nat = Some [AWord 0x80000000; AWord 0xffffffff80100000; AWord 0xf0] ∧ length l = 8%nat
  | _ => False
  end.
Proof. by vm_compute. Qed.
End ProbeScenario.
