(* ===== verification/SelfTest.v ===== *)
(** The temporary tests of kern/init/init.c and kern/mm/uvm.c, run on the allocators as
    master_init() has set them up: page tables and address spaces on top
    of kmalloc() and the page allocator, object caches on the slab allocator. *)
From Stdlib Require Import ZArith Lia.
From stdpp Require Import base numbers gmap list.
From S2P Require Import Prelude DList Util Bitops Pmm Vmm Ff Slab AddrSpace Pgtable Uvm Probe MemInit.

Open Scope Z_scope.

Section tests.
(** The allocators, the page tables of the architecture, and the function pointers of
    slab.c. *)
Context (o : mm_ops) (pa2kva kva2pa : Z → Z).
Context (init_pgindex : M mem Z) (destroy_pgindex : Z → M mem unit).
Context (map_pages : Z → Z → Z → Z → Z → M mem Z) (unmap_pages : Z → Z → Z → Z → M mem (Z * Z)).
Context (cfps : caching_allocator).

Definition VMA_READ : Z := 1.

Definition mm_new : M mem Z := uvm.mm_new (op_kmalloc o) (op_kfree o) init_pgindex.
Definition mm_destroy : Z → M mem unit := uvm.mm_destroy (op_kfree o) (op_free_pages o) destroy_pgindex unmap_pages.
Definition create_uvm : Z → Z → Z → Z → M mem Z :=
  uvm.create_uvm (op_kmalloc o) (op_kfree o) (op_alloc_pages o) (op_free_pages o) map_pages unmap_pages.
Definition destroy_uvm : Z → Z → Z → M mem Z := uvm.destroy_uvm (op_kfree o) (op_free_pages o) unmap_pages.

(** The output is left out, the dereference of mm->pgindex for it is not. *)
Definition mm_test : M mem unit :=
  mm ← mm_new;
  _ ← load F_pgindex mm;
  r ← create_uvm mm 0x100000 (5 * PAGE_SIZE) (Z.lor VMA_READ VMA_WRITE);
  _ ← assert (r =? 0);
  r ← destroy_uvm mm 0x100000 (2 * PAGE_SIZE);
  _ ← assert (r =? 0);
  r ← destroy_uvm mm 0x102000 (3 * PAGE_SIZE);
  _ ← assert (r =? 0);
  _ ← mm_destroy mm;
  mm ← mm_new;
  _ ← load F_pgindex mm;
  mm_destroy mm.

(** What runs when a function of the caching allocator is called; the caches of the test have
    no constructors. *)
Definition no_obj (fp obj : Z) : M mem unit := stuck.
Definition call_create (fp cache : Z) : M mem Z :=
  if fp =? ca_create cfps then slab.__create (op_kmalloc o) cache else stuck.
Definition call_destroy (fp cache : Z) : M mem Z :=
  if fp =? ca_destroy cfps then slab.__destroy (op_kfree o) (op_free_pages o) kva2pa cache else stuck.
Definition call_cache_alloc (fp cache : Z) : M mem Z :=
  if fp =? ca_alloc cfps
  then slab.__alloc (op_kmalloc o) (op_kfree o) (op_alloc_pages o) pa2kva no_obj cache else stuck.
Definition call_cache_free (fp cache obj : Z) : M mem Z :=
  if fp =? ca_free cfps then slab.__free no_obj cache obj else stuck.

Definition cache_create : Z → M mem Z := vmm.cache_create call_create.
Definition cache_destroy : Z → M mem Z := vmm.cache_destroy call_destroy 1.
Definition cache_alloc : Z → M mem Z := vmm.cache_alloc call_cache_alloc 1.
Definition cache_free : Z → Z → M mem Z := vmm.cache_free call_cache_free 1.

(** The cache test of master_init(), [cache] on its stack; the result is the
    values it prints, in order. *)
Definition cache_test (cache : Z) : M mem (list Z) :=
  _ ← store F_c_lock cache 0;
  _ ← store F_c_size cache 1024;
  _ ← store F_c_align cache 1024;
  _ ← store F_c_flags cache 0;
  _ ← store F_c_head cache NULL;
  _ ← store F_c_create_obj cache NULL;
  _ ← store F_c_destroy_obj cache NULL;
  _ ← cache_create cache;
  a ← cache_alloc cache;
  b ← cache_alloc cache;
  c ← cache_alloc cache;
  _ ← cache_free cache a;
  _ ← cache_free cache b;
  _ ← cache_free cache c;
  a' ← cache_alloc cache;
  _ ← cache_free cache a';
  ret ← cache_destroy cache;
  _ ← cache_create cache;
  a'' ← cache_alloc cache;
  mret [a; b; c; a'; ret; a''].
End tests.

(** ** The memory parts of master_init() *)

Section master.
(** The architecture: its conversions, add_memory_pages(), map_pages() and unmap_pages() with the
    page allocation they use. *)
Context (pa2kva kva2pa : Z → Z) (add_memory_pages : mm_ops → M mem unit).
Context (arch_map : M mem Z → (Z → M mem unit) → Z → Z → Z → Z → Z → M mem Z).
Context (arch_unmap : M mem Z → (Z → M mem unit) → Z → Z → Z → Z → M mem (Z * Z)).

(** The function pointers, and the addresses of the list heads; the pool and the cache are on
    the stack. *)
Definition boot_fps : simple_allocator := mk_simple_allocator 11 12 13.
Definition proper_fps : simple_allocator := mk_simple_allocator 14 15 16.
Definition ffp : page_allocator := mk_page_allocator 21 22 23.
Definition cfps : caching_allocator := mk_caching_allocator 31 32 33 34 35.
Definition ops : mm_ops := wired 128 192 160 pa2kva boot_fps proper_fps ffp 3.
Definition stack : mem := {[ (F_bh_flags, 256) := 0 ]}.

Definition alloc_page : M mem Z := pgalloc (op_alloc_pages ops) 0.
Definition free_page : Z → M mem unit := pgfree (op_free_pages ops).
Definition get_free : M mem Z := pmm.get_free_memory (call_get_free ffp).

(** Up to mm_test(), with the early initcall of slab.c. The result is the free memory before and
    after it. *)
Definition master_mm : M mem (Z * Z) :=
  _ ← mm_bring_up 128 192 160 pa2kva boot_fps proper_fps ffp add_memory_pages 3 256;
  before ← get_free;
  _ ← slab.__init cfps;
  _ ← mm_test ops (init_pgindex alloc_page pa2kva clear_page) (destroy_pgindex free_page kva2pa)
        (arch_map alloc_page free_page) (arch_unmap alloc_page free_page);
  after ← get_free;
  mret (before, after).

(** Then the cache test. *)
Definition master_init : M mem (Z * Z * list Z) :=
  ba ← master_mm;
  printed ← cache_test ops pa2kva kva2pa cfps 1536;
  mret (ba, printed).
End master.

(** ** Two machines *)

Module TestScenario.
Definition outcome {A} (c : M mem A) (m : mem) : option A :=
  match c m with Ret (a, _) => Some a | _ => None end.

(** MSIM without high memory and a kernel that ends 1 MB up. *)
Definition msim_memory (o : mm_ops) : M mem unit :=
  mips_mem.mips_add_memory_pages (op_kmalloc o) (op_free_pages o) 0 0 0x80100000.
Definition msim_init : M mem (Z * Z * list Z) :=
  master_init mips_space.pa2kva mips_space.kva2pa msim_memory
    (λ al fr, mips.mips_map_pages al fr mips_space.pa2kva mips_space.kva2pa mips.__mach_pgtable_perm)
    (λ al fr, mips.mips_unmap_pages al fr mips_space.pa2kva mips_space.kva2pa).

(** The self-tests of master_init() pass on MIPS, on the allocators it has just brought
    up, six components calling each other: every assertion of mm_test() holds and all the
    pages it took are free again, the three objects of the cache do not overlap, a freed object
    is handed out again, and destroying the cache succeeds. *)
Theorem master_init_tests_pass :
  outcome msim_init stack = Some (0xff00000 - PAGE_SIZE, 0xff00000 - PAGE_SIZE,
    [0x80101000; 0x80101400; 0x80101800; 0x80101000; 0; 0x80101000]).
Proof. by vm_compute. Qed.

(** MSIM with six free pages: one becomes the heap, two are page tables, three are left. *)
Definition al : M mem Z := alloc_page mips_space.pa2kva.
Definition fr : Z → M mem unit := free_page mips_space.pa2kva.
Definition msim_full : M mem Z :=
  _ ← mm_bring_up 128 192 160 mips_space.pa2kva boot_fps proper_fps ffp
        (λ o, mips_mem.mips_add_memory_pages (op_kmalloc o) (op_free_pages o) 0 0 0x8fffa000) 3 256;
  mm ← mm_new (ops mips_space.pa2kva) (init_pgindex al mips_space.pa2kva clear_page);
  create_uvm (ops mips_space.pa2kva)
    (mips.mips_map_pages al fr mips_space.pa2kva mips_space.kva2pa mips.__mach_pgtable_perm)
    (mips.mips_unmap_pages al fr mips_space.pa2kva mips_space.kva2pa) mm 0x100000 (5 * PAGE_SIZE) 3.

(** create_uvm() of five pages reports success: the page allocator answers 0 when nothing is
    free, so the last two pages of the user are both mapped to physical page 0. *)
Example out_of_memory_maps_page_zero :
  match msim_full stack with
  | Ret (r, m) => r = 0 ∧
      (λ i, PTE_PADDR <$> m !! (F_pte, 0x8fffd000 + 4 * i)) <$> [256; 257; 258; 259; 260] =
      [Some 0xfffc000; Some 0xfffe000; Some 0xffff000; Some 0; Some 0]
  | _ => False
  end.
Proof. by vm_compute. Qed.

(** A PC with 16 MB of free memory. *)
Definition PC_BASE : Z := 0x80000000.
Definition pc_mm : M mem (Z * Z) :=
  master_mm (i386_space.pa2kva PC_BASE) (i386_space.kva2pa PC_BASE) (λ o, op_free_pages o (mk_pages 0x110000 0x1000000 0 0))
    (λ al fr, i386.i386_map_pages al fr (i386_space.pa2kva PC_BASE) (i386_space.kva2pa PC_BASE))
    (λ al fr, i386.i386_unmap_pages al fr (i386_space.pa2kva PC_BASE) (i386_space.kva2pa PC_BASE)).

(** The ranges of the page allocator, by walking its list. *)
Fixpoint ranges (n : nat) (m : mem) (pos : Z) : list (Z * Z) :=
  match n, m !! (F_next, pos) with
  | S n', Some nx =>
      match m !! (F_paddr, nx - ff.off_node), m !! (F_size, nx - ff.off_node) with
      | Some pa, Some sz => (pa, sz) :: ranges n' m nx
      | _, _ => []
      end
  | _, _ => []
  end.

(** On i386 mm_test() passes too, but the frame of its page table (0x113000) is lost: the table
    is given back under an address that has been converted twice, so that a page at
    0x80113000, where there is no memory, is free instead. *)
Example i386_test_frees_wrong_page :
  match pc_mm stack with
  | Ret ((before, after), m) => before = after ∧ ranges 8 m 160 = [(0x111000, 0x2000); (0x114000, 0xffc000); (0x80113000, 0x1000)]
  | _ => False
  end.
Proof. by vm_compute. Qed.
End TestScenario.
