(* ===== verification/EarlyInit.v ===== *)
(** kern/init/early_init.c, the early initialisation of the architectures and the
    entry of master_init(): the way from the first instruction in C, at physical
    addresses, to the kernel running at its high addresses. *)
From Stdlib Require Import ZArith Lia String.
From stdpp Require Import base numbers gmap list.
From S2P Require Import Prelude AddrSpace Mmu Pgtable Printf Io Uart Traps ArmMm Probe.

Open Scope Z_scope.

(** ** The machine: a device behind an MMU *)

(** The device, the kernel's memory, the root of the page table once the MMU is
    on, and the accesses that reached the device, at physical addresses. *)
Record board (D : Type) : Type := mk_board {
  b_dev : D;
  b_mem : mem;
  b_root : option Z;
  b_phys : list event
}.
Arguments mk_board {_}. Arguments b_dev {_}. Arguments b_mem {_}. Arguments b_root {_}. Arguments b_phys {_}.

(** How the processor walks a page table: memory, root and virtual address. *)
Class table_walk : Type := walk : mem → Z → Z → option Z.

Section board.
Context {D : Type} `{hardware D} `{table_walk}.

Definition phys_addr (h : board D) (sp : space) (a : Z) : option Z :=
  match sp, b_root h with
  | MEM, Some root => walk (b_mem h) root a
  | _, _ => Some a
  end.

(** An access to an address without a translation never reaches the device. *)
#[export] Instance board_hw : hardware (board D) := {|
  hw_read sp w a h :=
    match phys_addr h sp a with
    | Some p => let '(v, d) := hw_read sp w p (b_dev h) in
                (v, mk_board d (b_mem h) (b_root h) (b_phys h ++ [Rd sp w p (wrap w v)]))
    | None => (0, h)
    end;
  hw_write sp w a v h :=
    match phys_addr h sp a with
    | Some p => mk_board (hw_write sp w p v (b_dev h)) (b_mem h) (b_root h) (b_phys h ++ [Wr sp w p v])
    | None => h
    end
|}.

Definition with_hw (s : kstate (board D)) (h : board D) : kstate (board D) := with_io s h (k_log s).

(** Code that works on the kernel's memory. *)
Definition in_mem {A} (c : M mem A) : M (kstate (board D)) A := λ s,
  let h := k_hw s in
  match c (b_mem h) with
  | Ret (a, m) => Ret (a, with_hw s (mk_board (b_dev h) m (b_root h) (b_phys h)))
  | Panic => Panic
  | Stuck => Stuck
  | NoFuel => NoFuel
  end.

(** The MMU is turned on with a root. *)
Definition set_root (root : Z) : M (kstate (board D)) unit := λ s,
  let h := k_hw s in Ret ((), with_hw s (mk_board (b_dev h) (b_mem h) (Some root) (b_phys h))).
End board.

(** ** kern/init/early_init.c and the entry of kern/init/init.c *)

(** What an architecture provides. *)
Class early_platform (K : Type) : Type := {
  early_arch_init : M K unit;
  early_console_init : M K Z;
  get_mem_size : M K Z;
  page_index_clear : Z → M K unit;
  page_index_early_map : Z → Z → Z → Z → M K Z;
  mmu_init : Z → M K Z;
  premap_addr : Z → Z;
  postmap_addr : Z → Z;
  kva2pa : Z → Z;
  (** what runs when a registered handler is called *)
  call_handler : Z → M K unit;
}.

Section early.
Context {K : Type} `{HasMmu K} `{layout} `{!early_platform K}.
(** The console in the address space the code runs in. *)
Context (kprintf : list Z → list arg → M K Z) (kputs : list Z → M K Z).
(** The symbols boot_page_index and master_upper_entry, as the code sees them. *)
Context (boot_page_index master_upper_entry : Z).

Definition total_fmt : list Z := line "KERN: Total memory: 0x%08x".
Definition mapping_fmt : list Z := line "KERN: early_mapping(P=0x%08x, V=0x%08x, S=0x%08x, %d)".
Definition mapping_args (e : early_mapping) : list arg :=
  [AWord (u32 (em_paddr e)); AWord (em_vaddr e); AWord (em_size e); AWord (em_type e)].

Definition dump_body (e : early_mapping) : M K (option Z) :=
  _ ← kprintf mapping_fmt (mapping_args e); mret None.

Definition early_mm_init : M K unit :=
  (* dump some debug info *)
  mem_size ← get_mem_size;
  _ ← kprintf total_fmt [AWord (u32 mem_size)];
  mapping ← in_mmu (early_mapping_next None);
  _ ← mapping_loop dump_body (Z.to_nat EARLY_MAPPING_QUEUE_LENGTH) mapping;
  (* initialize and apply page index *)
  let index := premap_addr boot_page_index in
  _ ← page_index_init (page_index_clear index) (page_index_early_map index);
  _ ← mmu_init (kva2pa (postmap_addr boot_page_index));
  _ ← mmu_handlers_apply call_handler;
  _ ← kputs (line "KERN: MMU is now on!" ++ [0]);
  mret ().

(** abs_jump() does not come back: the result is where it goes. *)
Definition master_early_init : M K Z :=
  _ ← in_mmu early_mapping_clear;
  _ ← in_mmu mmu_handlers_clear;
  _ ← early_arch_init;
  _ ← early_console_init;
  _ ← kputs (line "KERN: Hello, world!" ++ [0]);
  _ ← early_mm_init;
  mret (postmap_addr master_upper_entry).

(** The first lines of master_init(). *)
Definition master_init_entry : M K unit :=
  _ ← jump_handlers_apply call_handler;
  _ ← kputs (line "KERN: We are in high address." ++ [0]);
  mret ().
End early.

(** A call of one of the registered handlers. *)
Definition dispatch {K} (table : list (Z * M K unit)) (fp : Z) : M K unit :=
  match list_find (λ e, fst e = fp) table with
  | Some (_, (_, h)) => h
  | None => stuck
  end.

(** ** ARM: kern/arch/armv7a/arch_init.c on a Zynq *)
Module arm_early.
#[export] Instance arm_walk : table_walk := translate.

Section platform.
Context {D : Type} `{hardware D} `{layout} `{patience}.
(** From the configuration. *)
Context (RAM_PHYSBASE RAM_SIZE : Z).
(** The addresses of functions: the handlers of io-mem.c and uart-zynq.c and the
    console routines. *)
Context (mem_handler_p mmu_handler_p jump_handler_p putchar_p DEFAULT_KPUTS : Z).
(** The page table code frees a second table that an early section replaces,
    and reports every section on the console. *)
Context (pt_l2_cache : Z) (cache_free : Z → Z → M mem Z) (kprintf : list Z → list arg → M (kstate (board D)) Z).

Definition postmap : Z → Z := arm_space.postmap_addr KERN_BASE RAM_PHYSBASE.

Definition early_mach_init : M (kstate (board D)) unit := mret ().

Definition early_arch_init : M (kstate (board D)) unit :=
  _ ← io_mem_init early_memory_bus postmap mem_handler_p;
  _ ← early_mach_init;
  (* extra low address mapping *)
  let mem_base := arm.get_mem_physbase RAM_PHYSBASE in
  let mem_size := arm.get_mem_size RAM_SIZE in
  let desc := mk_mapping mem_base (u32 mem_base) (u32 mem_size) EARLY_MAPPING_TEMP in
  _ ← in_mmu (early_mapping_add desc);
  _ ← in_mmu (early_mapping_add_memory (arm.get_mem_physbase RAM_PHYSBASE) (u32 (arm.get_mem_size RAM_SIZE)));
  mret ().

(** The table base register ignores the low 14 bits. *)
Definition mmu_init (index : Z) : M (kstate (board D)) Z :=
  _ ← set_root (Z.land index 0xFFFFC000); mret 0.

#[export] Instance arm_platform : early_platform (kstate (board D)) := {|
  EarlyInit.early_arch_init := early_arch_init;
  EarlyInit.early_console_init :=
    zynq.early_console_init flat_iomap mmu_handler_p jump_handler_p putchar_p DEFAULT_KPUTS postmap;
  EarlyInit.get_mem_size := mret (arm.get_mem_size RAM_SIZE);
  EarlyInit.page_index_clear index := in_mem (arm.page_index_clear index);
  EarlyInit.page_index_early_map index paddr vaddr length :=
    arm.page_index_early_map pt_l2_cache cache_free (@in_mem D) kprintf index paddr vaddr length;
  EarlyInit.mmu_init := mmu_init;
  EarlyInit.premap_addr := arm_space.premap_addr KERN_BASE RAM_PHYSBASE;
  EarlyInit.postmap_addr := postmap;
  EarlyInit.kva2pa := arm_space.kva2pa KERN_BASE RAM_PHYSBASE;
  EarlyInit.call_handler := dispatch
    [(mmu_handler_p, zynq.__mmu_handler);
     (postmap mem_handler_p, mem_jump_handler);
     (postmap jump_handler_p, zynq.__jump_handler putchar_p DEFAULT_KPUTS)]
|}.
End platform.
End arm_early.

(** ** MIPS: kern/arch/mips/arch_init.c and mm.c *)
Module mips_early.
(** The kernel segments are hard-wired, so that nothing is mapped. *)
Definition page_index_clear {K} (index : Z) : M K unit := mret ().
Definition page_index_early_map {K} (index paddr vaddr length : Z) : M K Z := mret 0.
Definition mmu_init {K} (boot_page_index : Z) : M K Z := mret 0.
Definition get_addr_space : Z := 1.

Section platform.
Context {H : Type} `{hardware H} `{layout} `{patience}.
Context (MEM_SIZE : Z).
Context (mem_handler_p mmu_handler_p jump_handler_p putchar_p DEFAULT_KPUTS : Z).

(** mach-generic and mach-loongson3a *)
Definition early_mach_init : M (kstate H) unit := mret ().
Definition LOONGSON3A_PORTIO_BASE : Z := 0x0efdfc000000.
Definition loongson_early_mach_init : M (kstate H) unit :=
  portio_bus_connect portio_bus (Some early_memory_bus) LOONGSON3A_PORTIO_BASE.

Definition early_arch_init (early_mach_init : M (kstate H) unit) : M (kstate H) unit :=
  _ ← io_mem_init early_memory_bus mips_space.__postmap_addr mem_handler_p;
  early_mach_init.

(** MSIM with its printer as the console. *)
#[export] Instance msim_platform : early_platform (kstate H) := {|
  EarlyInit.early_arch_init := early_arch_init early_mach_init;
  EarlyInit.early_console_init :=
    msim.early_console_init mmu_handler_p jump_handler_p putchar_p DEFAULT_KPUTS mips_space.__postmap_addr;
  EarlyInit.get_mem_size := mret (mips_mem.get_mem_size MEM_SIZE);
  EarlyInit.page_index_clear := page_index_clear;
  EarlyInit.page_index_early_map := page_index_early_map;
  EarlyInit.mmu_init := mmu_init;
  EarlyInit.premap_addr := mips_space.__premap_addr;
  EarlyInit.postmap_addr := mips_space.__postmap_addr;
  EarlyInit.kva2pa := mips_space.kva2pa;
  EarlyInit.call_handler := dispatch
    [(mmu_handler_p, msim.__mmu_handler);
     (mem_handler_p, mem_jump_handler);
     (jump_handler_p, msim.__jump_handler)]
|}.
End platform.
End mips_early.

(** ** i386: kern/arch/i386/arch_init.c and mm.c *)
Module i386_early.
Definition COM1 : Z := 0x3f8.
Definition UART_BASE : Z := COM1.
Definition UART_FREQ : Z := 1843200.

(** The walk of the processor: 4 MB pages, or a second table. *)
#[export] Instance i386_walk : table_walk := λ m root va,
  e ← m !! (F_pte, entry root (va / 2 ^ 22));
  if negb (Z.testbit e 0) then None else
  if Z.testbit e 7 then Some (Z.land e 0xFFC00000 + va mod 2 ^ 22) else
  e2 ← m !! (F_pte, entry (Z.land e 0xFFFFF000) (va / 2 ^ 12 mod 2 ^ 10));
  if Z.testbit e2 0 then Some (Z.land e2 0xFFFFF000 + va mod 2 ^ 12) else None.

#[export] Instance fst_has_mmu {K T} `{HasMmu K} : HasMmu (K * T) := {|
  mmu_of s := mmu_of (fst s);
  put_mmu x s := (put_mmu x (fst s), snd s);
  mmu_of_put x s := mmu_of_put x (fst s);
  put_mmu_of s := match s with (k, t) => f_equal (λ k, (k, t)) (put_mmu_of k) end;
|}.

Section platform.
Context {D : Type} `{hardware D} `{layout} `{patience}.
Context (iomap : Z → Z) (e820 : e820.e820map).
Context (port_handler_p mmu_handler_p jump_handler_p putchar_p DEFAULT_KPUTS : Z).

Definition postmap : Z → Z := i386_space.postmap_addr KERN_BASE.

(** The second part of the state is the variable mem_size. *)
Definition probe_memory : M (kstate (board D) * Z) unit := λ '(s, n),
  match e820.probe_memory e820 (mmu_of s, n) with
  | Ret (_, (x, n)) => Ret ((), (put_mmu x s, n))
  | Panic => Panic
  | Stuck => Stuck
  | NoFuel => NoFuel
  end.

Definition early_arch_init : M (kstate (board D) * Z) unit :=
  _ ← on_fst (portio_bus_init portio_bus postmap port_handler_p);
  probe_memory.

Definition get_mem_size : M (kstate (board D) * Z) Z := λ '(s, n), Ret (n, (s, n)).

(** CR3 has the page frame of the directory. *)
Definition mmu_init (index : Z) : M (kstate (board D) * Z) Z :=
  _ ← on_fst (set_root (Z.land index 0xFFFFF000)); mret 0.

#[export] Instance i386_platform : early_platform (kstate (board D) * Z) := {|
  EarlyInit.early_arch_init := early_arch_init;
  EarlyInit.early_console_init := on_fst
    (ns16550.early_console_init iomap UART_FREQ portio_bus mmu_handler_p jump_handler_p putchar_p DEFAULT_KPUTS postmap);
  EarlyInit.get_mem_size := get_mem_size;
  EarlyInit.page_index_clear index := on_fst (in_mem (i386.page_index_clear index));
  EarlyInit.page_index_early_map index paddr vaddr length :=
    on_fst (in_mem (i386.page_index_early_map index paddr vaddr length));
  EarlyInit.mmu_init := mmu_init;
  EarlyInit.premap_addr := i386_space.premap_addr KERN_BASE;
  EarlyInit.postmap_addr := postmap;
  EarlyInit.kva2pa := i386_space.kva2pa KERN_BASE;
  EarlyInit.call_handler := dispatch
    [(mmu_handler_p, on_fst (ns16550.__mmu_handler UART_BASE));
     (postmap port_handler_p, on_fst port_jump_handler);
     (postmap jump_handler_p, on_fst (ns16550.__jump_handler portio_bus putchar_p DEFAULT_KPUTS))]
|}.
End platform.
End i386_early.
