(* ===== verification/EarlyProps.v ===== *)
(** The way into the high half of the address space on ARM: the console keeps
    working while the MMU is turned on, and what the page table then says. *)
From Stdlib Require Import ZArith Lia String.
From stdpp Require Import base numbers gmap list.
From S2P Require Import Prelude AddrSpace Mmu Pgtable PgWalk Printf Io Uart UartProps Traps ArmMm Probe EarlyInit.

Open Scope Z_scope.

(** ** The queues of kern/mm/mmu.c as lists *)

Record mmu_view (x : mmu_state) (l : list early_mapping) (mt kt : Z) (mh jh : list Z) : Prop := {
  v_maps : queue_ok EARLY_MAPPING_QUEUE_LENGTH (early_mappings x) ∧ entries (early_mappings x) = l;
  v_tops : __mem_top x = mt ∧ __kmmap_top x = kt;
  v_mmu : queue_ok MMU_HANDLER_QUEUE_LENGTH (mmu_handlers x) ∧ entries (mmu_handlers x) = mh;
  v_jump : queue_ok JUMP_HANDLER_QUEUE_LENGTH (jump_handlers x) ∧ entries (jump_handlers x) = jh;
}.

Lemma queue_push {A} len (q : queue A) l x :
  queue_ok len q ∧ entries q = l → Z.of_nat (length l) < len →
  ∃ q', queue_add len q x = Some (0, q') ∧ queue_ok len q' ∧ entries q' = l ++ [x].
Proof.
  intros [Hq <-] Hl. destruct (queue_add_spec len q x Hq) as [[Hfull _]|(_ & q' & E & Hq' & _ & He)]; [|eauto].
  destruct Hq as [Hs Hlen]. unfold entries in Hl. rewrite length_take in Hl. lia.
Qed.

Lemma queue_emptied {A} len (q : queue A) l :
  0 ≤ len → queue_ok len q ∧ entries q = l → queue_ok len (mk_queue 0 (q_slots q)) ∧ entries (mk_queue 0 (q_slots q)) = [].
Proof. intros Hl [[Hs Hlen] _]. split; [by split; [simpl; lia|exact Hlen]|reflexivity]. Qed.

Section view.
Context `{LY : layout}.

Lemma view_clear x l mt kt mh jh :
  mmu_view x l mt kt mh jh → ∃ x', early_mapping_clear x = Ret ((), x') ∧ mmu_view x' [] KERN_BASE KMMAP_BASE mh jh.
Proof using. intros [Hm Ht Hh Hj]. eexists. split; [unfold early_mapping_clear, get, put, mbind, M_bind; reflexivity|]. split; [by eapply queue_emptied|by split|done|done]. Qed.

Lemma view_handlers_clear x l mt kt mh jh :
  mmu_view x l mt kt mh jh → ∃ x', mmu_handlers_clear x = Ret ((), x') ∧ mmu_view x' l mt kt [] jh.
Proof using. intros [Hm Ht Hh Hj]. eexists. split; [unfold mmu_handlers_clear, get, put, mbind, M_bind; reflexivity|]. split; [done|done|by eapply queue_emptied|done]. Qed.

Lemma view_add x l mt kt mh jh e :
  mmu_view x l mt kt mh jh → Z.of_nat (length l) < 10 →
  ∃ x', early_mapping_add e x = Ret (0, x') ∧ mmu_view x' (l ++ [e]) mt kt mh jh.
Proof using.
  intros [Hm Ht Hh Hj] Hl. destruct (queue_push _ _ _ e Hm Hl) as (q & Eq & Hq).
  eexists. split; [unfold early_mapping_add, get, mbind, M_bind; rewrite Eq; done|]. by split.
Qed.

Lemma view_add_memory x l mt kt mh jh base size :
  mmu_view x l mt kt mh jh → Z.of_nat (length l) < 10 → 0 ≤ mt < KMMAP_BASE → 0 ≤ size → mt + size ≤ KMMAP_BASE →
  ∃ x', early_mapping_add_memory base size x = Ret (size, x') ∧
    mmu_view x' (l ++ [mk_mapping base mt size EARLY_MAPPING_MEMORY]) (mt + size) kt mh jh.
Proof using.
  intros Hv Hl Hmt Hs Htop. pose proof layout_ok. unfold early_mapping_add_memory.
  erewrite bind_ret by reflexivity. destruct (v_tops _ _ _ _ _ _ Hv) as [-> _].
  destruct (Z.geb_spec mt KMMAP_BASE); [lia|]. rewrite wrap_small by (unfold in_range; lia).
  destruct (Z.gtb_spec size (KMMAP_BASE - mt)); [lia|].
  destruct (view_add _ _ _ _ _ _ (mk_mapping base mt size EARLY_MAPPING_MEMORY) Hv Hl) as (x1 & E1 & [Hm1 Ht1 Hh1 Hj1]).
  erewrite bind_ret by exact E1. cbn [Z.eqb negb]. erewrite bind_ret by reflexivity. erewrite bind_ret by reflexivity.
  eexists. split; [reflexivity|]. split; [done| |done..]. destruct Ht1 as [E ?].
  split; [|done]. cbn. rewrite E. apply wrap_small. unfold in_range. lia.
Qed.

Lemma view_add_kmmap x l mt kt mh jh base size :
  mmu_view x l mt kt mh jh → Z.of_nat (length l) < 10 → 0 ≤ kt < RESERVED_BASE → 0 ≤ size → kt + size < 2 ^ 32 →
  ∃ x', early_mapping_add_kmmap base size x = Ret (kt, x') ∧
    mmu_view x' (l ++ [mk_mapping base kt size EARLY_MAPPING_KMMAP]) mt (kt + size) mh jh.
Proof using.
  intros Hv Hl Hkt Hs Htop. unfold early_mapping_add_kmmap.
  erewrite bind_ret by reflexivity. destruct (v_tops _ _ _ _ _ _ Hv) as [_ ->].
  destruct (Z.geb_spec kt RESERVED_BASE); [lia|].
  destruct (view_add _ _ _ _ _ _ (mk_mapping base kt size EARLY_MAPPING_KMMAP) Hv Hl) as (x1 & E1 & [Hm1 [Ha Hb] Hh1 Hj1]).
  erewrite bind_ret by exact E1. cbn [Z.eqb negb]. erewrite bind_ret by reflexivity. rewrite Hb. cbv zeta.
  assert (Ew : u32 (kt + size) = kt + size) by (apply wrap_small; unfold in_range; lia). rewrite Ew.
  erewrite bind_ret by reflexivity. replace (kt + size - size) with kt by lia.
  rewrite wrap_small by (unfold in_range; lia). eexists. split; [reflexivity|]. by split.
Qed.

Lemma view_mmu_handler x l mt kt mh jh fp :
  mmu_view x l mt kt mh jh → Z.of_nat (length mh) < 10 →
  ∃ x', mmu_handlers_add fp x = Ret (0, x') ∧ mmu_view x' l mt kt (mh ++ [fp]) jh.
Proof using.
  intros [Hm Ht Hh Hj] Hl. destruct (queue_push _ _ _ fp Hh Hl) as (q & Eq & Hq).
  eexists. split; [unfold mmu_handlers_add, get, mbind, M_bind; rewrite Eq; done|]. by split.
Qed.

Lemma view_jump_handler x l mt kt mh jh fp :
  mmu_view x l mt kt mh jh → Z.of_nat (length jh) < 10 →
  ∃ x', jump_handlers_add fp x = Ret (0, x') ∧ mmu_view x' l mt kt mh (jh ++ [fp]).
Proof using.
  intros [Hm Ht Hh Hj] Hl. destruct (queue_push _ _ _ fp Hj Hl) as (q & Eq & Hq).
  eexists. split; [unfold jump_handlers_add, get, mbind, M_bind; rewrite Eq; done|]. by split.
Qed.
End view.

(** ** Code that only writes wide registers *)

Section quiet.
Context {H : Type} `{HW : hardware H} (iomap : Z → Z).

(** [h'] is where 32-bit writes take the device from [h]. *)
Definition writes_to (h h' : H) : Prop :=
  ∀ P : H → Prop, P h → (∀ a v h, P h → P (hw_write MEM 32 a v h)) → P h'.

Definition quiet (c : M (kstate H) unit) (s : kstate H) : Prop :=
  ∃ h l, c s = Ret ((), with_io s h l) ∧ writes_to (k_hw s) h.

Lemma quiet_bind c (k : M (kstate H) unit) s :
  quiet c s → (∀ h l, quiet k (with_io s h l)) → quiet (_ ← c; k) s.
Proof.
  intros (h & l & E & Hh) Hk. destruct (Hk h l) as (h2 & l2 & E2 & Hh2). exists h2, l2.
  erewrite bind_ret by exact E. rewrite E2. split; [done|]. intros P HP HC. apply Hh2; [by apply Hh|done].
Qed.

Lemma quiet_write s ops f inst b reg v :
  wired iomap s b ops MEM f → quiet (reg_write iomap (Some (Fp ops 32)) inst b reg v) s.
Proof.
  intros Hw. eexists _, _. split; [by eapply reg_write_run|]. intros P HP HC. by apply HC.
Qed.

(** The driver found its bus and its routine. *)
Lemma quiet_bus s ops f inst b (k : bus_ptr → option bus_fp → M (kstate H) unit) :
  wired iomap s b ops MEM f → chr_bus inst = Some b → quiet (k b (Some (Fp ops 32))) s →
  quiet (bus ← bus_of inst; bus_write32 ← get_write_fp bus 32; k bus bus_write32) s.
Proof.
  intros Hw Hb Hk. unfold quiet, bus_of. rewrite Hb. erewrite bind_ret by done.
  erewrite bind_ret by by eapply get_write_fp_run. done.
Qed.

Lemma zynq_setup_quiet s ops f inst b :
  wired iomap s b ops MEM f → chr_bus inst = Some b →
  quiet (_ ← zynq.__uart_zynq_init iomap inst; zynq.__uart_zynq_enable iomap inst) s.
Proof.
  intros Hw Hb.
  assert (Hone : ∀ h l reg v, quiet (reg_write iomap (Some (Fp ops 32)) inst b reg v) (with_io s h l))
    by (intros; eapply quiet_write; by eapply wired_same; [|exact Hw]).
  assert (Hs : with_io s (k_hw s) (k_log s) = s) by by destruct s.
  assert (Hbus : ∀ h l (k : bus_ptr → option bus_fp → M (kstate H) unit),
    quiet (k b (Some (Fp ops 32))) (with_io s h l) →
    quiet (bus ← bus_of inst; bus_write32 ← get_write_fp bus 32; k bus bus_write32) (with_io s h l))
    by (intros; eapply quiet_bus; [by eapply wired_same; [|exact Hw]|done|done]).
  rewrite <-Hs. apply quiet_bind; [|intros; rewrite with_io_twice; by apply Hbus].
  unfold zynq.__uart_zynq_init. apply (Hbus _ _ (λ _ _, _)).
  repeat (apply quiet_bind; [apply Hone || by apply (Hbus _ _ (λ bus w, reg_write iomap w inst bus _ _))|intros; rewrite with_io_twice]).
  apply Hone.
Qed.
End quiet.

(** ** The console of a Zynq board, with the MMU off or on *)

Definition UART_DATA : Z := zynq.UART1_PHYSBASE + zynq.UART_OFFSET_FIFO.
Definition UART_STATUS : Z := zynq.UART1_PHYSBASE + zynq.UART_OFFSET_SR.

Section console.
Context {D : Type} `{HD : hardware D} `{TW : table_walk} `{PT : patience}.

(** The text that reached the UART. *)
Definition uart_text (s : kstate (board D)) : list Z := written MEM UART_DATA (b_phys (k_hw s)).

(** A board with this page table root and memory, and with this text shown. *)
Definition board_is (root : option Z) (m : mem) (out : list Z) (h : board D) : Prop :=
  b_root h = root ∧ b_mem h = m ∧ written MEM UART_DATA (b_phys h) = out.

Lemma board_write root m out h w a v p :
  board_is root m out h → phys_addr h MEM a = Some p →
  board_is root m (out ++ written MEM UART_DATA [Wr MEM w p v]) (hw_write MEM w a v h).
Proof using. intros (? & ? & <-) Hp. cbn [hw_write board_hw]. rewrite Hp. split_and!; [done|done|apply written_app]. Qed.

Lemma board_read root m out h w a :
  board_is root m out h → board_is root m out (hw_read MEM w a h).2.
Proof using.
  intros (? & ? & Ho). cbn [hw_read board_hw]. destruct (phys_addr h MEM a) as [p|]; [|done].
  destruct (hw_read MEM w p (b_dev h)) as [v d]. split_and!; [done|done|]. cbn [b_phys snd].
  rewrite written_app, Ho. apply app_nil_r.
Qed.

(** Wide writes show nothing. *)
Lemma board_quiet root m out h h' : board_is root m out h → writes_to h h' → board_is root m out h'.
Proof using.
  intros Hb Hw. apply Hw; [done|]. clear h h' Hb Hw. intros a v h (? & ? & Ho). cbn [hw_write board_hw].
  destruct (phys_addr h MEM a) as [p|]; [|done]. split_and!; [done|done|]. cbn [b_phys snd]. rewrite written_app, Ho.
  apply app_nil_r.
Qed.

Lemma board_ready n w a p ready (h : board D) :
  phys_addr h MEM a = Some p → ready_within n MEM w p ready (b_dev h) = true → ready_within n MEM w a ready h = true.
Proof using.
  revert h. induction n as [|n IH]; intros h Hp Hr; [done|]. cbn [ready_within] in *. cbn [hw_read board_hw].
  rewrite Hp. destruct (hw_read MEM w p (b_dev h)) as [v d]. cbn [fst snd] in *.
  destruct (ready (wrap w v)); [done|]. simpl in *. by apply IH.
Qed.

(** The UART answers in time, and the base address the driver uses leads to it. *)
Definition uart_prompt : Prop := ∀ d : D, ready_within PATIENCE MEM 32 UART_STATUS zynq_room d = true.
Definition leads_to_uart (root : option Z) (m : mem) (base : Z) : Prop :=
  0 ≤ base < 2 ^ 32 - 4096 ∧
  ∀ off, 0 ≤ off < 4096 →
    match root with Some r => walk m r (base + off) | None => Some (base + off) end = Some (zynq.UART1_PHYSBASE + off).

Lemma leads_phys root m out h base off :
  leads_to_uart root m base → board_is root m out h → 0 ≤ off < 4096 →
  phys_addr h MEM (flat_iomap (u64 (base + off))) = Some (zynq.UART1_PHYSBASE + off).
Proof using.
  intros [Hb Hl] (Er & Em & _) Ho. unfold flat_iomap. rewrite !wrap_small by (unfold in_range; rewrite ?wrap_small; unfold in_range; lia).
  unfold phys_addr. rewrite Er, Em. by apply Hl.
Qed.

#[export] Program Instance board_console root m base (Hp : uart_prompt) (Hl : leads_to_uart root m base) :
    ConsoleDriver (zynq.__early_console_putchar (H := board D) flat_iomap) := {|
  drv_ok s := uart_at flat_iomap early_memory_bus IO_MEM MEM flat_iomap base s ∧ b_root (k_hw s) = root ∧ b_mem (k_hw s) = m;
  drv_out := uart_text;
|}.
Next Obligation.
  intros root m base Hp Hl s c [[Eu Hw] [Er Em]] Hc. unfold zynq.__early_console_putchar.
  assert (Hs : board_is root m (uart_text s) (k_hw s)) by done.
  erewrite bind_ret by reflexivity.
  destruct (zynq_putchar_run flat_iomap s (k_uart s) early_memory_bus IO_MEM flat_iomap c Hw)
    as (vs & v & h & E & _ & h1 & Hh1 & ->); [by rewrite Eu| |].
  { rewrite Eu. eapply board_ready; [by eapply leads_phys|apply Hp]. }
  assert (Hb1 : board_is root m (uart_text s) h1) by (apply Hh1; [done|intros; by apply board_read]).
  pose proof (board_write _ _ _ h1 8 (flat_iomap (u64 (chr_base (k_uart s) + zynq.UART_OFFSET_FIFO))) (u8 c) UART_DATA Hb1) as Hb2.
  destruct Hb2 as (Hr2 & Hm2 & Ho2); [rewrite Eu; by eapply leads_phys|].
  eexists _, _. split; [by erewrite bind_ret by exact E|]. split; [split; [split; [done|by eapply wired_same; [|exact Hw]]|done]|].
  unfold uart_text at 1. cbn [k_hw with_io]. rewrite Ho2, written_one. do 2 f_equal. by apply Z.mod_small.
Qed.
End console.

(** Sections: an aligned address, and the section an address is in. *)
Lemma sect_eq x : x mod 2 ^ 20 = 0 → x = x / 2 ^ 20 * 2 ^ 20.
Proof. intros E. Z.div_mod_to_equations. lia. Qed.
Lemma sect_of a v k : v * 2 ^ 20 ≤ a < (v + k) * 2 ^ 20 → v ≤ a / 2 ^ 20 < v + k ∧ a / 2 ^ 20 * 2 ^ 20 ≤ a < (a / 2 ^ 20 + 1) * 2 ^ 20.
Proof. intros Ha. Z.div_mod_to_equations. lia. Qed.

(** ** The boot of ARM *)

Module arm_boot.
Import arm_early.

Section boot.
Context {D : Type} `{HD : hardware D} `{LY : layout} `{PT : patience}.
Context (RAM_PHYSBASE RAM_SIZE : Z).
Context (mem_handler_p mmu_handler_p jump_handler_p putchar_p DEFAULT_KPUTS : Z).
Context (pt_l2_cache : Z) (cache_free : Z → Z → M mem Z).
Context (boot_page_index master_upper_entry : Z).
Context (call_putchar : Z → Z → M (kstate (board D)) Z).

Local Abbreviation premap := (arm_space.premap_addr KERN_BASE RAM_PHYSBASE).
Local Abbreviation postmap := (postmap RAM_PHYSBASE).
Local Abbreviation index := (premap boot_page_index).
Local Abbreviation kputs sp := (kputs call_putchar sp premap postmap DEFAULT_KPUTS).
Local Abbreviation kprintf sp := (kprintf call_putchar sp premap postmap DEFAULT_KPUTS).
#[local] Instance platform : early_platform (kstate (board D)) :=
  arm_platform RAM_PHYSBASE RAM_SIZE mem_handler_p mmu_handler_p jump_handler_p putchar_p DEFAULT_KPUTS
    pt_l2_cache cache_free (kprintf 0).

(** Memory and the address space are laid out in sections. *)
Hypothesis Haligned : RAM_PHYSBASE mod 2 ^ 20 = 0 ∧ RAM_SIZE mod 2 ^ 20 = 0 ∧
  KERN_BASE mod 2 ^ 20 = 0 ∧ KMMAP_BASE mod 2 ^ 20 = 0.
Hypothesis Hranges : 0 ≤ RAM_PHYSBASE ∧ 0 < RAM_SIZE ∧ RAM_PHYSBASE + RAM_SIZE ≤ KERN_BASE ∧
  KERN_BASE + RAM_SIZE ≤ KMMAP_BASE ∧ KMMAP_BASE + 2 ^ 20 ≤ RESERVED_BASE.
(** The boot page index is in memory and aligned, named by its low or its high address. *)
Hypothesis Hindex : RAM_PHYSBASE ≤ index < RAM_PHYSBASE + RAM_SIZE ∧ index mod 2 ^ 14 = 0 ∧
  (boot_page_index = index ∨ boot_page_index = index - RAM_PHYSBASE + KERN_BASE).
(** The console routines are found in both address spaces. *)
Hypothesis Hcode : ∀ sp, sp = 0 ∨ sp = 1 →
  in_space sp premap postmap DEFAULT_KPUTS ≠ NULL ∧ in_space sp premap postmap putchar_p ≠ NULL ∧
  ∀ c, call_putchar (in_space sp premap postmap putchar_p) c = zynq.__early_console_putchar flat_iomap c.
Hypothesis Hhandlers : NoDup [mmu_handler_p; postmap mem_handler_p; postmap jump_handler_p].
Hypothesis Hprompt : uart_prompt (D := D).

Definition MAPPED_UART : Z := KMMAP_BASE + (zynq.UART1_PHYSBASE - zynq.UART0_PHYSBASE).
Definition mappings : list early_mapping :=
  [mk_mapping RAM_PHYSBASE RAM_PHYSBASE RAM_SIZE EARLY_MAPPING_TEMP;
   mk_mapping RAM_PHYSBASE KERN_BASE RAM_SIZE EARLY_MAPPING_MEMORY;
   mk_mapping zynq.UART0_PHYSBASE KMMAP_BASE (2 ^ 20) EARLY_MAPPING_KMMAP].
Definition jump_table : list Z := [postmap mem_handler_p; postmap jump_handler_p].

(** Where the boot is: the console is set up at [base], the MMU and memory are
    as given, and [out] has been shown. *)
Record stage (x : mmu_state) (root : option Z) (m : mem) (base : Z) (out : list Z) (s : kstate (board D)) : Prop := {
  st_uart : uart_at flat_iomap early_memory_bus IO_MEM MEM flat_iomap base s;
  st_board : board_is root m out (k_hw s);
  st_console : k_putchar s = putchar_p ∧ k_puts s = DEFAULT_KPUTS;
  st_mapped : k_mapped_base s = MAPPED_UART;
  st_mmu : k_mmu s = x;
}.

Definition queues_ready (x : mmu_state) : Prop := ∃ mt kt, mmu_view x mappings mt kt [mmu_handler_p] jump_table.

(** Accesses of the console change the board only. *)
Lemma stage_with_io x root m base out out' s h l :
  stage x root m base out s → board_is root m out' h → stage x root m base out' (with_io s h l).
Proof using.
  intros [[Eu Hw] Hb Hc Hm Hx] Hh. split; [|done..]. split; [done|]. by eapply wired_same; [|exact Hw].
Qed.

(** *** Printing *)

Lemma stage_registered x root m base out s sp (Hl : leads_to_uart root m base) :
  sp = 0 ∨ sp = 1 → stage x root m base out s →
  registered (DRV := board_console root m base Hprompt Hl) call_putchar sp premap postmap DEFAULT_KPUTS s.
Proof using Hcode.
  intros Hsp [Hu (Hr & Hm & _) [Hpc Hps] _ _]. destruct (Hcode sp Hsp) as (Hn1 & Hn2 & Hcall).
  split; [done|done|by rewrite Hpc|by rewrite Hpc].
Qed.

Lemma stage_kputs x root m base out s sp str :
  leads_to_uart root m base → sp = 0 ∨ sp = 1 → stage x root m base out s → Forall (λ c, 0 ≤ c < 256) str →
  ∃ s', kputs sp str s = Ret (0, s') ∧ stage x root m base (out ++ crlf (c_text str)) s'.
Proof using Hcode Hprompt.
  intros Hl Hsp Hs Hstr. pose proof (stage_registered x root m base out s sp Hl Hsp Hs) as Hreg.
  destruct (kputs_run (DRV := board_console root m base Hprompt Hl) _ _ _ _ _ s str Hreg Hstr) as (h & l & E & [(_ & Hr & Hm) _ _ _] & Ho).
  exists (with_io s h (k_log s ++ l)). split; [exact E|]. eapply stage_with_io; [exact Hs|].
  destruct (st_board _ _ _ _ _ _ Hs) as (_ & _ & <-). by split_and!.
Qed.

Lemma stage_kprintf x root m base out s sp fmt args :
  leads_to_uart root m base → sp = 0 ∨ sp = 1 → stage x root m base out s →
  well_typed fmt Text args = true → Forall is_byte fmt → Forall arg_bytes args →
  ∃ r s', kprintf sp fmt args s = Ret (r, s') ∧ stage x root m base (out ++ says fmt args) s'.
Proof using Hcode Hprompt.
  intros Hl Hsp Hs Hw Hf Ha. pose proof (stage_registered x root m base out s sp Hl Hsp Hs) as Hreg.
  destruct (kprintf_run (DRV := board_console root m base Hprompt Hl) _ _ _ _ _ s fmt args Hreg Hw Hf Ha)
    as (r & buf & h & l & Ev & E & [(_ & Hr & Hm) _ _ _] & Ho).
  exists r, (with_io s h (k_log s ++ l)). split; [exact E|]. eapply stage_with_io; [exact Hs|].
  destruct (st_board _ _ _ _ _ _ Hs) as (_ & _ & <-). unfold says. rewrite Ev. by split_and!.
Qed.

(** *** Up to the console *)

Lemma u32_ram : u32 RAM_PHYSBASE = RAM_PHYSBASE ∧ u32 RAM_SIZE = RAM_SIZE.
Proof using Hranges Hindex Haligned. pose proof layout_ok. split; apply wrap_small; unfold in_range; lia. Qed.

Lemma early_arch_init_run s :
  mmu_view (k_mmu s) [] KERN_BASE KMMAP_BASE [] [] →
  ∃ b x, arm_early.early_arch_init (D := D) RAM_PHYSBASE RAM_SIZE mem_handler_p s = Ret ((), with_mmu (with_membus s b) x) ∧
    bus_get_read_fp b = Some IO_MEM ∧ bus_get_write_fp b = Some IO_MEM ∧
    mmu_view x (take 2 mappings) (KERN_BASE + RAM_SIZE) KMMAP_BASE [] [postmap mem_handler_p].
Proof using Hranges Hindex Haligned.
  intros Hv. destruct u32_ram as [Eb Es]. pose proof layout_ok. unfold arm_early.early_arch_init, io_mem_init.
  destruct (view_jump_handler _ _ _ _ _ _ (postmap mem_handler_p) Hv) as (x1 & E1 & Hv1); [done|].
  destruct (view_add _ _ _ _ _ _ (mk_mapping RAM_PHYSBASE RAM_PHYSBASE RAM_SIZE EARLY_MAPPING_TEMP) Hv1) as (x2 & E2 & Hv2); [done|].
  destruct (view_add_memory _ _ _ _ _ _ RAM_PHYSBASE RAM_SIZE Hv2) as (x3 & E3 & Hv3); [cbn; lia|lia..|].
  erewrite bind_ret; [|erewrite bind_ret by reflexivity; erewrite bind_ret by (apply in_mmu_ret; exact E1); reflexivity].
  erewrite bind_ret by reflexivity. unfold arm.get_mem_physbase, arm.get_mem_size. rewrite Eb, Es.
  erewrite bind_ret by (apply in_mmu_ret; exact E2). erewrite bind_ret by (apply in_mmu_ret; exact E3).
  eexists _, x3. split; [reflexivity|]. split_and!; [done|done|exact Hv3].
Qed.

Lemma console_init_run s b :
  k_membus s = b → bus_get_read_fp b = Some IO_MEM → bus_get_write_fp b = Some IO_MEM →
  mmu_view (k_mmu s) (take 2 mappings) (KERN_BASE + RAM_SIZE) KMMAP_BASE [] [postmap mem_handler_p] →
  b_root (k_hw s) = None →
  ∃ x s', zynq.early_console_init flat_iomap mmu_handler_p jump_handler_p putchar_p DEFAULT_KPUTS postmap s = Ret (0, s') ∧
    queues_ready x ∧ stage x None (b_mem (k_hw s)) zynq.UART1_PHYSBASE (uart_text s) s'.
Proof using Hranges Hindex Haligned.
  intros Hb Hrd Hwr Hv Hroot. pose proof layout_ok. unfold zynq.early_console_init.
  erewrite bind_ret by reflexivity. erewrite bind_ret by reflexivity. cbn [k_uart with_uart].
  set (s1 := with_uart s _). assert (Hw1 : wired flat_iomap s1 early_memory_bus IO_MEM MEM flat_iomap)
    by (apply wired_mem; cbn; by rewrite Hb).
  destruct (zynq_setup_quiet flat_iomap s1 IO_MEM flat_iomap (k_uart s1) early_memory_bus Hw1) as (h & l & E & Hh); [done|].
  rewrite <-bind_assoc. erewrite bind_ret by exact E. erewrite bind_ret by reflexivity.
  destruct (view_add_kmmap _ _ _ _ _ _ zynq.UART0_PHYSBASE (2 ^ 20) Hv) as (x1 & E1 & Hv1); [cbn; lia|lia..|].
  destruct (view_mmu_handler _ _ _ _ _ _ mmu_handler_p Hv1) as (x2 & E2 & Hv2); [done|].
  destruct (view_jump_handler _ _ _ _ _ _ (postmap jump_handler_p) Hv2) as (x3 & E3 & Hv3); [done|].
  erewrite bind_ret by (apply in_mmu_ret; exact E1). erewrite bind_ret by reflexivity.
  rewrite (proj2 (Z.eqb_neq _ _)) by lia. erewrite bind_ret by reflexivity.
  erewrite bind_ret by (apply in_mmu_ret; exact E2). cbn [Z.eqb negb].
  erewrite bind_ret by (apply in_mmu_ret; exact E3). cbn [Z.eqb negb].
  eexists x3, _. split; [reflexivity|]. split; [by eexists _, _|]. split.
  - split; [done|]. apply wired_mem; cbn; by rewrite Hb.
  - eapply board_quiet; [|exact Hh]. by split_and!.
  - done.
  - change (u32 (KMMAP_BASE + 0x1000) = KMMAP_BASE + 0x1000). apply wrap_small. unfold in_range. lia.
  - done.
Qed.

(** *** The list of mappings *)

Lemma dump_run x l s out m base :
  leads_to_uart None m base → stage x None m base out s →
  ∃ s', each_mapping (dump_body (kprintf 0)) l s = Ret (None, s') ∧
    stage x None m base (out ++ concat ((λ e, says mapping_fmt (mapping_args e)) <$> l)) s'.
Proof using Hcode Hprompt.
  intros Hl. revert s out. induction l as [|e l IH]; intros s out Hs.
  { exists s. cbn. by rewrite app_nil_r. }
  destruct (stage_kprintf x None m base out s 0 mapping_fmt (mapping_args e)) as (r & s1 & E & Hs1);
    [done|by left|done|done|by apply is_bytes|by repeat constructor|].
  destruct (IH s1 _ Hs1) as (s2 & E2 & Hs2). exists s2. cbn [each_mapping fmap list_fmap concat].
  split; [|by rewrite app_assoc]. erewrite (bind_ret _ _ _ None s1); [exact E2|].
  unfold dump_body. by erewrite bind_ret by exact E.
Qed.

Lemma dump_keeps x m base e :
  leads_to_uart None m base → keeps (λ s, ∃ out, stage x None m base out s) early_mappings (dump_body (kprintf 0) e).
Proof using Hcode Hprompt.
  intros Hl s a s' [out Hs] E. destruct (dump_run x [e] s out m base Hl Hs) as (s2 & E2 & Hs2).
  cbn [each_mapping] in E2. rewrite (bind_ret _ _ _ _ _ E) in E2. unfold mret, M_ret in E2.
  assert (s' = s2) as <- by (destruct a; by injection E2).
  split; [eauto|]. cbn. by rewrite (st_mmu _ _ _ _ _ _ Hs), (st_mmu _ _ _ _ _ _ Hs2).
Qed.

(** *** The page table *)

Lemma stage_in_mem {A} x root m base out s (c : M mem A) a m' :
  stage x root m base out s → c m = Ret (a, m') → ∃ s', in_mem c s = Ret (a, s') ∧ stage x root m' base out s'.
Proof using.
  intros Hs E. pose proof (st_board _ _ _ _ _ _ Hs) as (Er & <- & Ho). eexists.
  split; [unfold in_mem; by rewrite E|]. destruct Hs as [[Eu Hw] _ Hc Hm Hx]. split; [|by split_and!|done..].
  split; [done|]. by eapply wired_same; [|exact Hw].
Qed.

(** Which sections lead where once the three mappings are entered. *)
Definition boot_table (m : mem) : mem :=
  let mb x := x / 2 ^ 20 in
  let k := Z.to_nat (mb RAM_SIZE) in
  let m1 := sections index m (mb RAM_PHYSBASE) (mb RAM_PHYSBASE) k in
  let m2 := sections index m1 (mb RAM_PHYSBASE) (mb KERN_BASE) k in
  sections index m2 (mb zynq.UART0_PHYSBASE) (mb KMMAP_BASE) 1.

Lemma boot_table_translates m a :
  (RAM_PHYSBASE ≤ a < RAM_PHYSBASE + RAM_SIZE → translate (boot_table m) index a = Some a) ∧
  (KERN_BASE ≤ a < KERN_BASE + RAM_SIZE → translate (boot_table m) index a = Some (a - KERN_BASE + RAM_PHYSBASE)) ∧
  (KMMAP_BASE ≤ a < KMMAP_BASE + 2 ^ 20 → translate (boot_table m) index a = Some (a - KMMAP_BASE + zynq.UART0_PHYSBASE)).
Proof using Haligned Hranges.
  clear Hindex. destruct Haligned as (E1 & E2 & E3 & E4). pose proof layout_ok. unfold boot_table. cbv zeta.
  apply sect_eq in E1, E2, E3, E4. change (zynq.UART0_PHYSBASE / 2 ^ 20) with 3584. change zynq.UART0_PHYSBASE with (3584 * 2 ^ 20).
  set (p := RAM_PHYSBASE / 2 ^ 20) in *. set (k := RAM_SIZE / 2 ^ 20) in *. set (kb := KERN_BASE / 2 ^ 20) in *.
  set (mb := KMMAP_BASE / 2 ^ 20) in *. clearbody p k kb mb. split_and!; intros Ha.
  - destruct (sect_of a p k) as [Hi Ha']; [lia|].
    rewrite (section_translates index _ (a / 2 ^ 20) (p + (a / 2 ^ 20 - p))); [f_equal; lia| |lia|done].
    rewrite !sections_other by (intros j Hj [= E]; unfold entry in E; lia). apply sections_entry. lia.
  - destruct (sect_of a kb k) as [Hi Ha']; [lia|].
    rewrite (section_translates index _ (a / 2 ^ 20) (p + (a / 2 ^ 20 - kb))); [f_equal; lia| |lia|done].
    rewrite sections_other by (intros j Hj [= E]; unfold entry in E; lia). apply sections_entry. lia.
  - rewrite sections_translate by lia. f_equal. lia.
Qed.

(** The lines that the mapping of [l] shows. *)
Definition shown (l : list (list Z * list arg)) : list Z := concat ((λ c, says (fst c) (snd c)) <$> l).
Definition section_lines (e : early_mapping) : list (list Z * list arg) :=
  sect_lines index (em_paddr e / 2 ^ 20) (em_vaddr e / 2 ^ 20) (Z.to_nat (em_size e / 2 ^ 20)).

(** Before the MMU is on the console is where the board has the UART, whatever
    the memory. *)
Lemma leads_low m : leads_to_uart None m zynq.UART1_PHYSBASE.
Proof using. by split. Qed.

#[local] Program Instance stage_console x out : MemConsole (@in_mem D) (kprintf 0) := {|
  mc_at m l s := stage x None m zynq.UART1_PHYSBASE (out ++ shown l) s
|}.
Next Obligation. intros x out A m l s c a m' Hs E. eapply (stage_in_mem (A := A)); [exact Hs|exact E]. Qed.
Next Obligation.
  intros x out m l s fmt a b c d Hs Hf.
  destruct (stage_kprintf x None m _ (out ++ shown l) s 0 fmt [AWord a; AWord b; AWord c; AWord d] (leads_low m)) as (r & s' & E & Hs');
    [by left|exact Hs|by destruct Hf as [-> | ->]|destruct Hf as [-> | ->]; by apply is_bytes|by repeat constructor|].
  exists r, s'. split; [exact E|]. unfold shown. rewrite fmap_app, concat_app. cbn [fmap list_fmap concat fst snd].
  by rewrite app_nil_r, app_assoc.
Qed.

Lemma stage_start x m out s : stage x None m zynq.UART1_PHYSBASE out s → mc_at (MemConsole := stage_console x out) m [] s.
Proof using Hcode Hprompt. intros Hs. cbn [mc_at stage_console]. unfold shown. cbn [fmap list_fmap concat]. by rewrite app_nil_r. Qed.

Lemma early_map_stage x out s m p v size ty :
  stage x None m zynq.UART1_PHYSBASE out s → no_tables index m 0 (2 ^ 12) →
  p mod 2 ^ 20 = 0 → v mod 2 ^ 20 = 0 → size mod 2 ^ 20 = 0 → 0 ≤ p → 0 ≤ v → 0 ≤ size →
  p + size ≤ 2 ^ 32 → v + size < 2 ^ 32 →
  let m' := sections index m (p / 2 ^ 20) (v / 2 ^ 20) (Z.to_nat (size / 2 ^ 20)) in
  ∃ s', page_index_early_map index p v size s = Ret (0, s') ∧
    stage x None m' zynq.UART1_PHYSBASE (out ++ shown (section_lines (mk_mapping p v size ty))) s' ∧
    no_tables index m' 0 (2 ^ 12).
Proof using Hcode Hprompt.
  intros Hs Hn Ep Ev Es Hp Hv Hsz Hp2 Hv2 m'. clear Haligned Hranges Hindex Hhandlers.
  apply sect_eq in Ep, Ev, Es. unfold m', section_lines. clear m'. cbn [em_paddr em_vaddr em_size].
  set (pp := p / 2 ^ 20) in *. set (vv := v / 2 ^ 20) in *. set (k := size / 2 ^ 20) in *. clearbody pp vv k.
  destruct (early_map_run (MC := stage_console x out) index pt_l2_cache cache_free m [] s pp vv k) as (s' & E & Hs');
    [by apply stage_start|intros i Hi; apply Hn; lia|lia..|].
  exists s'. rewrite Ep, Ev, Es. split; [exact E|]. split; [exact Hs'|]. by apply no_tables_sections; [lia|].
Qed.

(** Whatever is mapped, the boot stays in this stage. *)
Lemma early_map_stays x a b c :
  keeps (λ s, ∃ m out, stage x None m zynq.UART1_PHYSBASE out s) early_mappings (page_index_early_map index a b c).
Proof using Hcode Hprompt.
  intros s r s' Hs E.
  assert (∃ m out, stage x None m zynq.UART1_PHYSBASE out s') as Hs'.
  { revert Hs E. apply (early_map_keeps index pt_l2_cache cache_free (λ s, ∃ m out, stage x None m zynq.UART1_PHYSBASE out s)).
    - intros A f s1 a1 s2 (m & out & Hs1) E. pose proof (st_board _ _ _ _ _ _ Hs1) as (_ & Em & _).
      destruct (f m) as [[a2 m2]| | |] eqn:Ef; [|unfold in_mem in E; cbv zeta in E; rewrite Em, Ef in E; done..].
      destruct (stage_in_mem _ _ _ _ _ _ _ _ _ Hs1 Ef) as (s3 & E3 & Hs3). rewrite E3 in E. simplify_eq. by eexists _, _.
    - intros a1 b1 c1 d1 s1 r1 s2 (m & out & Hs1) E.
      destruct (mc_print (MemConsole := stage_console x out) m [] s1 arm.sect_fmt a1 b1 c1 d1) as (r3 & s3 & E3 & Hs3);
        [by apply stage_start|by left|]. rewrite E3 in E. simplify_eq. eexists m, _. exact Hs3. }
  split; [done|]. destruct Hs as (m & out & Hs), Hs' as (m' & out' & Hs').
  cbn. by rewrite (st_mmu _ _ _ _ _ _ Hs), (st_mmu _ _ _ _ _ _ Hs').
Qed.

(** page_index_init() on the three mappings. *)
Lemma page_index_run x out s m :
  queues_ready x → stage x None m zynq.UART1_PHYSBASE out s →
  ∃ s' m', page_index_init (page_index_clear index) (page_index_early_map index) s = Ret (0, s') ∧
    stage x None (boot_table m') zynq.UART1_PHYSBASE (out ++ concat ((λ e, shown (section_lines e)) <$> mappings)) s'.
Proof using Haligned Hranges Hcode Hprompt.
  clear Hindex. intros (mt & kt & Hv) Hs. destruct Haligned as (A1 & A2 & A3 & A4). pose proof layout_ok.
  destruct (clear_words_cells 4 index (Z.to_nat arm.ARM_PT_L1_LENGTH) m) as (m0 & Ec & Hz & _); [done|].
  assert (Hn0 : no_tables index m0 0 (2 ^ 12)) by (intros i Hi; exists 0; split; [by apply Hz|done]).
  destruct (stage_in_mem _ _ _ _ _ _ _ _ _ Hs Ec) as (s0 & E0 & Hs0).
  destruct (v_maps _ _ _ _ _ _ Hv) as [Hq Hents].
  rewrite (page_index_init_run (λ s, ∃ m out, stage x None m zynq.UART1_PHYSBASE out s) _ _ s s0);
    [|cbn; by rewrite (st_mmu _ _ _ _ _ _ Hs)|exact E0|by eexists _, _| |intros; apply early_map_stays].
  2: { cbn. by rewrite (st_mmu _ _ _ _ _ _ Hs), (st_mmu _ _ _ _ _ _ Hs0). }
  cbn [mmu_of kstate_has_mmu]. rewrite (st_mmu _ _ _ _ _ _ Hs), Hents. cbn [map_all mappings em_paddr em_vaddr em_size].
  destruct (early_map_stage _ _ _ _ RAM_PHYSBASE RAM_PHYSBASE RAM_SIZE EARLY_MAPPING_TEMP Hs0 Hn0) as (s1 & E1 & Hs1 & Hn1); [lia..|].
  destruct (early_map_stage _ _ _ _ RAM_PHYSBASE KERN_BASE RAM_SIZE EARLY_MAPPING_MEMORY Hs1 Hn1) as (s2 & E2 & Hs2 & Hn2); [lia..|].
  destruct (early_map_stage _ _ _ _ zynq.UART0_PHYSBASE KMMAP_BASE (2 ^ 20) EARLY_MAPPING_KMMAP Hs2 Hn2) as (s3 & E3 & Hs3 & _);
    [done|lia|done|done|lia..|done|lia|].
  rewrite (bind_ret _ _ _ _ _ E1). cbn [Z.eqb EOF]. rewrite (bind_ret _ _ _ _ _ E2). cbn [Z.eqb EOF].
  rewrite (bind_ret _ _ _ _ _ E3). eexists s3, m0. split; [done|].
  cbn [mappings fmap list_fmap concat]. rewrite app_nil_r, !app_assoc. exact Hs3.
Qed.

(** *** The handlers *)

Lemma handlers_keep {B} (sel : mmu_state → queue B) fp : keeps (λ _, True) sel (call_handler (early_platform := platform) fp).
Proof using.
  intros s a s' _. cbn. unfold dispatch. destruct (list_find _ _) as [[i [q c]]|] eqn:E; [|done].
  apply list_find_Some in E as (E & _ & _). intros Ec. split; [done|].
  destruct i as [|[|[|i]]]; [injection E as <- <-..|done]; by injection Ec as <- <-.
Qed.

Lemma dispatch_first {K} fp c (l : list (Z * M K unit)) : dispatch ((fp, c) :: l) fp = c.
Proof using. unfold dispatch. cbn. by rewrite decide_True. Qed.
Lemma dispatch_next {K} fp fp' c (l : list (Z * M K unit)) : fp' ≠ fp → dispatch ((fp', c) :: l) fp = dispatch l fp.
Proof using. intros Hne. unfold dispatch. cbn. rewrite decide_False by done. by destruct (list_find _ l) as [[? []]|]. Qed.

Lemma set_root_stage x m base out s i :
  stage x None m base out s →
  ∃ s', mmu_init i s = Ret (0, s') ∧ stage x (Some (Z.land i 0xFFFFC000)) m base out s'.
Proof using.
  intros [[Eu Hw] (_ & Em & Ho) Hc Hm Hx]. eexists. split; [reflexivity|]. split; [|by split_and!|done..].
  split; [done|]. by eapply wired_same; [|exact Hw].
Qed.

(** The MMU handler moves the console to its mapped address. *)
Lemma mmu_handlers_stage x root m base out s :
  queues_ready x → stage x root m base out s →
  ∃ s', mmu_handlers_apply call_handler s = Ret ((), s') ∧ stage x root m MAPPED_UART out s'.
Proof using.
  intros (mt & kt & Hv) Hs. destruct (v_mmu _ _ _ _ _ _ Hv) as [Hq He].
  rewrite (handlers_apply_run (λ _, True) call_handler s); [|apply handlers_keep|done|cbn; by rewrite (st_mmu _ _ _ _ _ _ Hs)].
  cbn [mmu_of kstate_has_mmu]. rewrite (st_mmu _ _ _ _ _ _ Hs), He. cbn [run_all].
  destruct Hs as [[Eu Hw] Hb Hc Hm Hx].
  eexists. split; [erewrite bind_ret by (cbn [call_handler platform arm_platform]; rewrite dispatch_first; reflexivity); reflexivity|].
  split; [|done..]. split; [cbn; by rewrite Eu, Hm|]. by eapply wired_same; [|exact Hw].
Qed.

(** The jump handlers set the same bus routines and the same console. *)
Lemma jump_handlers_stage x root m base out s :
  queues_ready x → stage x root m base out s →
  ∃ s', jump_handlers_apply call_handler s = Ret ((), s') ∧ stage x root m base out s'.
Proof using Hhandlers.
  intros (mt & kt & Hv) Hs. destruct (v_jump _ _ _ _ _ _ Hv) as [Hq He].
  apply NoDup_cons in Hhandlers as [Hne1 [Hne2 _]%NoDup_cons].
  rewrite elem_of_cons, list_elem_of_singleton in Hne1. rewrite list_elem_of_singleton in Hne2.
  assert (mmu_handler_p ≠ postmap mem_handler_p ∧ mmu_handler_p ≠ postmap jump_handler_p) as [Ha Hb]
    by (split; intros E; apply Hne1; auto).
  rewrite (jump_handlers_apply_run (λ _, True) call_handler s); [|apply handlers_keep|done|cbn; by rewrite (st_mmu _ _ _ _ _ _ Hs)].
  cbn [mmu_of kstate_has_mmu]. rewrite (st_mmu _ _ _ _ _ _ Hs), He. unfold jump_table. cbn [run_all].
  destruct Hs as [[Eu Hw] Hbd Hc Hm Hx].
  eexists. split.
  - cbn [call_handler platform arm_platform].
    rewrite (dispatch_next (postmap mem_handler_p)) by done. rewrite dispatch_first. erewrite bind_ret by reflexivity.
    rewrite !(dispatch_next (postmap jump_handler_p)) by done. rewrite dispatch_first. erewrite bind_ret by reflexivity.
    reflexivity.
  - split; [|done..]. split; [cbn; by rewrite Eu|]. by apply wired_mem.
Qed.

(** *** The whole way *)

Lemma index_root : Z.land (arm_space.kva2pa KERN_BASE RAM_PHYSBASE (postmap boot_page_index)) 0xFFFFC000 = index.
Proof using Hranges Hindex Haligned cache_free.
  pose proof layout_ok. destruct Hindex as (Hi & Ha & Hb).
  assert (postmap boot_page_index = index - RAM_PHYSBASE + KERN_BASE) as ->.
  { unfold arm_early.postmap, arm_space.postmap_addr, arm_space.__postmap_addr.
    destruct Hb as [Hb|Hb], (Z.geb_spec boot_page_index KERN_BASE); try lia.
    rewrite Hb at 1. apply wrap_small. unfold in_range. lia. }
  unfold arm_space.kva2pa. rewrite wrap_small by (unfold in_range; lia).
  replace (index - RAM_PHYSBASE + KERN_BASE + RAM_PHYSBASE - KERN_BASE) with index by lia.
  change 0xFFFFC000 with (Z.shiftl (Z.ones 18) 14). rewrite land_high_ones by lia.
  Z.div_mod_to_equations. lia.
Qed.

Lemma leads_high m : leads_to_uart (Some index) (boot_table m) MAPPED_UART.
Proof using Haligned Hranges.
  clear Hindex. pose proof layout_ok. unfold MAPPED_UART. change (zynq.UART1_PHYSBASE - zynq.UART0_PHYSBASE) with 0x1000.
  split; [lia|]. intros off Ho. cbn [walk arm_walk].
  destruct (boot_table_translates m (KMMAP_BASE + 0x1000 + off)) as (_ & _ & Ht). unfold walk, arm_walk. rewrite Ht by lia.
  f_equal. change zynq.UART1_PHYSBASE with (zynq.UART0_PHYSBASE + 0x1000). lia.
Qed.

(** What is shown, in order. *)
Definition hello : list Z := line "KERN: Hello, world!" ++ [0].
Definition mmu_on : list Z := line "KERN: MMU is now on!" ++ [0].
Definition high : list Z := line "KERN: We are in high address." ++ [0].
Definition early_mm_text : list Z :=
  says total_fmt [AWord RAM_SIZE] ++
  concat ((λ e, says mapping_fmt (mapping_args e)) <$> mappings) ++
  concat ((λ e, shown (section_lines e)) <$> mappings) ++
  crlf (c_text mmu_on).
Definition boot_text : list Z := crlf (c_text hello) ++ early_mm_text.

Lemma early_mm_run x m out s :
  queues_ready x → stage x None m zynq.UART1_PHYSBASE out s →
  ∃ s' m', early_mm_init (kprintf 0) (kputs 0) boot_page_index s = Ret ((), s') ∧
    stage x (Some index) (boot_table m') MAPPED_UART (out ++ early_mm_text) s'.
Proof using Haligned Hranges Hindex Hcode Hprompt.
  intros Hx Hs. pose proof Hx as (mt & kt & Hv). destruct (v_maps _ _ _ _ _ _ Hv) as [Hq He].
  unfold early_mm_init. erewrite bind_ret by reflexivity. unfold arm.get_mem_size. rewrite (proj2 u32_ram).
  destruct (stage_kprintf x None m _ out s 0 total_fmt [AWord RAM_SIZE] (leads_low m)) as (r & s1 & E1 & Hs1);
    [by left|done|done|by apply is_bytes|by repeat constructor|].
  rewrite (bind_ret _ _ _ _ _ E1). erewrite bind_ret by by apply next_run. cbv zeta.
  destruct (dump_run x mappings s1 _ m _ (leads_low m) Hs1) as (s2 & E2 & Hs2).
  erewrite bind_ret; [|rewrite (all_mappings_run (λ s, ∃ out, stage x None m zynq.UART1_PHYSBASE out s));
    [cbn [mmu_of kstate_has_mmu]; rewrite (st_mmu _ _ _ _ _ _ Hs1), He; exact E2|intros e; apply dump_keeps, leads_low|by eexists|
     cbn; by rewrite (st_mmu _ _ _ _ _ _ Hs1)]].
  destruct (page_index_run x _ s2 m Hx Hs2) as (s3 & m3 & E3 & Hs3). rewrite (bind_ret _ _ _ _ _ E3).
  destruct (set_root_stage x _ _ _ s3 (arm_space.kva2pa KERN_BASE RAM_PHYSBASE (postmap boot_page_index)) Hs3) as (s4 & E4 & Hs4).
  rewrite index_root in Hs4. rewrite (bind_ret _ _ _ _ _ E4).
  destruct (mmu_handlers_stage x _ _ _ _ s4 Hx Hs4) as (s5 & E5 & Hs5). rewrite (bind_ret _ _ _ _ _ E5).
  destruct (stage_kputs x _ _ _ _ s5 0 mmu_on (leads_high m3) ltac:(by left) Hs5) as (s6 & E6 & Hs6); [by apply is_bytes|].
  erewrite bind_ret by exact E6. exists s6, m3. split; [done|].
  unfold early_mm_text. by rewrite <-!app_assoc in Hs6.
Qed.

(** C8: from the first line of C to the high half of the address space on ARM: on
    any board whose UART answers in time and any section-aligned layout of
    memory, master_early_init() returns by jumping to the high address of
    the kernel's entry, with the MMU on and a page table that maps memory to itself
    and to its high address and the UART's registers to KMMAP_BASE; the
    entry of master_init() then runs its handlers; and the UART has been sent
    exactly the kernel's messages, in order, before and after the switch: the
    greeting, the size of memory, the three early mappings, one line for every
    section entered in the page table, and that the MMU is on and the kernel in high
    addresses. *)
Theorem arm_boot_reaches_high s l mt kt mh :
  mmu_view (k_mmu s) l mt kt mh [] → b_root (k_hw s) = None →
  ∃ s1 s2,
    master_early_init (kprintf 0) (kputs 0) boot_page_index master_upper_entry s = Ret (postmap master_upper_entry, s1) ∧
    master_init_entry (kputs 1) s1 = Ret ((), s2) ∧
    uart_text s2 = uart_text s ++ boot_text ++ crlf (c_text high) ∧
    b_root (k_hw s2) = Some index ∧
    ∀ a, let pa := translate (b_mem (k_hw s2)) index a in
      (RAM_PHYSBASE ≤ a < RAM_PHYSBASE + RAM_SIZE → pa = Some a) ∧
      (KERN_BASE ≤ a < KERN_BASE + RAM_SIZE → pa = Some (arm_space.kva2pa KERN_BASE RAM_PHYSBASE a)) ∧
      (KMMAP_BASE ≤ a < KMMAP_BASE + 2 ^ 20 → pa = Some (a - KMMAP_BASE + zynq.UART0_PHYSBASE)).
Proof using Haligned Hranges Hindex Hcode Hhandlers Hprompt.
  intros Hv Hroot. pose proof layout_ok.
  destruct (view_clear _ _ _ _ _ _ Hv) as (x1 & E1 & Hv1). destruct (view_handlers_clear _ _ _ _ _ _ Hv1) as (x2 & E2 & Hv2).
  unfold master_early_init. erewrite bind_ret by (apply in_mmu_ret; exact E1). erewrite bind_ret by (apply in_mmu_ret; exact E2).
  set (s0 := put_mmu x2 (put_mmu x1 s)).
  destruct (early_arch_init_run s0 Hv2) as (b & x3 & E3 & Hrd & Hwr & Hv3). erewrite bind_ret by exact E3.
  destruct (console_init_run (with_mmu (with_membus s0 b) x3) b eq_refl Hrd Hwr Hv3 Hroot) as (x & s4 & E4 & Hx & Hs4).
  erewrite bind_ret by exact E4.
  destruct (stage_kputs x _ _ _ _ s4 0 hello (leads_low _) ltac:(by left) Hs4) as (s5 & E5 & Hs5); [by apply is_bytes|].
  erewrite bind_ret by exact E5.
  destruct (early_mm_run x _ _ s5 Hx Hs5) as (s6 & m6 & E6 & Hs6). erewrite bind_ret by exact E6.
  destruct (jump_handlers_stage x _ _ _ _ s6 Hx Hs6) as (s7 & E7 & Hs7).
  destruct (stage_kputs x _ _ _ _ s7 1 high (leads_high m6) ltac:(by right) Hs7) as (s8 & E8 & Hs8); [by apply is_bytes|].
  exists s6, s8. split; [done|]. split; [unfold master_init_entry; erewrite bind_ret by exact E7; by erewrite bind_ret by exact E8|].
  destruct (st_board _ _ _ _ _ _ Hs8) as (Hr8 & Hm8 & Ho8). split; [|split; [exact Hr8|]].
  - unfold uart_text at 1. rewrite Ho8. unfold boot_text. by rewrite <-!app_assoc.
  - intros a. rewrite Hm8. destruct (boot_table_translates m6 a) as (T1 & T2 & T3). split_and!; intros Ha; auto.
    rewrite T2 by done. f_equal. unfold arm_space.kva2pa. rewrite wrap_small; [lia|]. unfold in_range. lia.
Qed.
End boot.
End arm_boot.

(** ** Machines that boot *)

(** A device that is always ready and takes everything. *)
Record silent : Type := mk_silent {}.
#[local] Instance silent_hw : hardware silent := {| hw_read sp w a h := (0x20, h); hw_write sp w a v h := h |}.
#[local] Instance brief : patience := 1%nat.

(** The kernel's variables as the loader leaves them. *)
Definition reset {H} (h : H) (port : Z) : kstate H :=
  mk_kstate h [] (mk_bus None 0 None None) (mk_bus None 0 None None) (mk_chr None port) (mk_chr None 0) 0 0 0 fresh.
Definition off : board silent := mk_board mk_silent ∅ None [].

Lemma fresh_view : mmu_view fresh [] KERN_BASE KMMAP_BASE [] [].
Proof. by split; split. Qed.

Module EarlyScenario.
Import arm_early.

Definition any_putchar (fp c : Z) : M (kstate (board silent)) Z := zynq.__early_console_putchar flat_iomap c.

Lemma arm_boot_reaches_high_witness :
  ∃ s1 s2 : kstate (board silent),
    master_early_init (early_platform0 := arm_boot.platform 0 0x20000000 0x8100 0x8200 0x8300 0x8400 0x8500 0 (λ _ _, mret 0) any_putchar)
      (kprintf any_putchar 0 (arm_space.premap_addr KERN_BASE 0) (postmap 0) 0x8500)
      (kputs any_putchar 0 (arm_space.premap_addr KERN_BASE 0) (postmap 0) 0x8500)
      0x4000 0x9000 (reset off 0) = Ret (0x80009000, s1) ∧
    b_root (k_hw s2) = Some 0x4000 ∧ translate (b_mem (k_hw s2)) 0x4000 0x80123456 = Some 0x123456.
Proof.
  destruct (arm_boot.arm_boot_reaches_high 0 0x20000000 0x8100 0x8200 0x8300 0x8400 0x8500 0 (λ _ _, mret 0)
    0x4000 0x9000 any_putchar) with (s := reset off 0) (l := @nil early_mapping) (mt := KERN_BASE) (kt := KMMAP_BASE) (mh := @nil Z)
    as (s1 & s2 & E & _ & _ & Hr & Ht).
  - by vm_compute.
  - by vm_compute.
  - vm_compute. split; [by split|]. split; [done|by left].
  - intros sp [Hsp|Hsp]; rewrite Hsp; (split; [by vm_compute|]; split; [by vm_compute|done]).
  - by apply (bool_decide_unpack _).
  - done.
  - exact fresh_view.
  - done.
  - exists s1, s2. split; [exact E|]. split; [exact Hr|]. destruct (Ht 0x80123456) as (_ & T & _).
    change (arm_space.premap_addr KERN_BASE 0 0x4000) with 0x4000 in T. rewrite T; [done|]. cbn. lia.
Defined.
End EarlyScenario.

(** The early boot of i386 with the memory map of a BIOS: 128 MB with a hole. The
    machine ends up in the high half with the memory mapped twice. The first byte
    written to the data register is the low half of the divisor. *)
Module I386Scenario.
Import i386_early.
Definition bios_map : e820.e820map :=
  e820.mk_e820map 2 [e820.mk_e820entry 0 0x9fc00 e820.E820_RAM; e820.mk_e820entry 0x100000 0x7f00000 e820.E820_RAM].
Definition putchar_at (fp c : Z) : M (kstate (board silent)) Z := ns16550.early_console_putchar flat_iomap c.

Definition run : outcome (Z * (kstate (board silent) * Z)) :=
  master_early_init (early_platform0 := i386_platform flat_iomap bios_map 0x8100 0x8200 0x8300 0x8400 0x8500)
    (λ fmt args, on_fst (kprintf putchar_at 0 (i386_space.premap_addr KERN_BASE) postmap 0x8500 fmt args))
    (λ str, on_fst (kputs putchar_at 0 (i386_space.premap_addr KERN_BASE) postmap 0x8500 str))
    0x4000 0x9000 (reset off UART_BASE, 0).

Example i386_boot :
  match run with
  | Ret (target, (s, mem_size)) =>
      target = 0x80009000 ∧ mem_size = 0x8000000 ∧ b_root (k_hw s) = Some 0x4000 ∧
      walk (b_mem (k_hw s)) 0x4000 0x1234 = Some 0x1234 ∧
      walk (b_mem (k_hw s)) 0x4000 0x87ffffff = Some 0x7ffffff ∧
      walk (b_mem (k_hw s)) 0x4000 0x88000000 = None ∧
      take 20 (drop 1 (written PORT UART_BASE (b_phys (k_hw s)))) = bytes "KERN: Hello, world!" ++ [ch_cr]
  | _ => False
  end.
Proof. vm_compute. by repeat split. Qed.
End I386Scenario.

(** On MSIM nothing is mapped, and the printer shows the same messages. *)
Module MsimScenario.
Import mips_early.
Definition putchar_at (fp c : Z) : M (kstate silent) Z := msim.early_console_putchar mips_iomap c.
Definition say : list Z → M (kstate silent) Z :=
  kputs putchar_at get_addr_space mips_space.__premap_addr mips_space.__postmap_addr 0x80008500.

Definition run : outcome (Z * kstate silent) :=
  master_early_init (early_platform0 := msim_platform 0x1000000 0x80008100 0x80008200 0x80008300 0x80008400 0x80008500)
    (kprintf putchar_at get_addr_space mips_space.__premap_addr mips_space.__postmap_addr 0x80008500)
    say 0x80004000 0x80009000 (reset mk_silent 0x10000000).

Example msim_boot :
  match run with
  | Ret (target, s) => target = 0x80009000 ∧
      written MEM 0xb0000000 (k_log s) =
        crlf (bytes "KERN: Hello, world!" ++ [ch_lf] ++ bytes "KERN: Total memory: 0x01000000" ++ [ch_lf] ++
              bytes "KERN: MMU is now on!" ++ [ch_lf])
  | _ => False
  end.
Proof. vm_compute. by repeat split. Qed.
End MsimScenario.
